(** * Chess-Game: a shallow embedding of [app.js] and its verified properties

    The program keeps one game in module-level variables ([board], [turn],
    [selected], [legal], [lastDouble], [gameOver], [captured], [history]) and
    in the move list of the page ([movesEl]).  The embedding has two layers:

    - the functions that only read the position ([inBounds], [at], [empty],
      [ally], [enemy], [kingPos], [attacksSquare], [inCheck], [genPseudo],
      [canCastle]) are pure functions of the variables they read, which are
      the variables of Section [Readers];
    - the functions that write ([snapshot], [restoreSnapshot], [applyMove],
      [genLegal], [anyLegalMove], [gameStatus], [render], [onSquareClick],
      [undo], [loadFEN], [init]) run in a state-and-exception monad over a
      store in which board arrays and capture-bin arrays live at locations,
      so that copying an array and mutating it in place are different
      things, as they are in JavaScript. *)

From Stdlib Require Import ZArith Lia Bool Ascii String.
From stdpp Require Import base decidable option list.

Local Open Scope Z_scope.

(** ** Data model *)

(** [p.c] is ['w'] or ['b']; a piece object built by spreading [null]
    ([{...null, moved:true}], line 241/242 when the rook corner is vacant) has
    no [c] and no [t] field at all, which is the third value. *)
Inductive Color := White | Black | NoColor.

Inductive PType := King | Queen | Rook | Bishop | Knight | Pawn | NoType.

#[global] Instance Color_eq_dec : EqDecision Color.
Proof. solve_decision. Defined.

#[global] Instance PType_eq_dec : EqDecision PType.
Proof. solve_decision. Defined.

(** A piece object [{t, c, moved}]. *)
Record Piece := mkPiece { ptype : PType; pcolor : Color; pmoved : bool }.

(** A board cell: a piece object or [null]. *)
Abbreviation Cell := (option Piece).

(** The board is an array of eight row arrays of eight cells
    ([Array.from({length:8},()=>Array(8).fill(null))]). *)
Abbreviation Grid := (list (list Cell)).

Inductive Side := KSide | QSide.

(** A move descriptor pushed by [genPseudo]: [{r, c, cap, double, ep, castle}].
    The optional flags are kept by their truthiness. *)
Record Meta := mkMeta {
  m_r : Z; m_c : Z;
  m_cap : bool; m_double : bool; m_ep : bool;
  m_castle : option Side
}.

(** [lastDouble = { r, c, dir }]. *)
Record LastDouble := mkLastDouble { ld_r : Z; ld_c : Z; ld_dir : Z }.

(** The argument of [applyMove]: [{from:{r,c}, to:{r,c}, meta}]. *)
Record Move := mkMove { from : Z * Z; to : Z * Z; meta : Meta }.

(** [color==='w'?'b':'w'] *)
Definition opponent (color : Color) : Color :=
  if bool_decide (color = White) then Black else White.

(** ** Reading and writing cells *)

(** [board[r][c]] on an 8 by 8 board.  Every board of the program has eight
    rows of eight cells; a cell that is not there reads as empty. *)
Definition getCell (g : Grid) (r c : Z) : Cell :=
  if (0 <=? r) && (0 <=? c) then
    match g !! Z.to_nat r with
    | Some row => match row !! Z.to_nat c with Some cell => cell | None => None end
    | None => None
    end
  else None.

(** [board[r][c] = v] for a row [r] that exists.  A column outside [0..7]
    makes JavaScript store the value in a slot beyond the eight files (or in a
    non-index property for a negative column); no function of the program
    reads such a slot except lines 245-246 of the same [applyMove] call (see
    [applyMove]), so the grid keeps its eight files and is left as it is. *)
Definition setCell (g : Grid) (r c : Z) (v : Cell) : Grid :=
  if (0 <=? r) && (0 <=? c) then
    match g !! Z.to_nat r with
    | Some row => <[Z.to_nat r := <[Z.to_nat c := v]> row]> g
    | None => g
    end
  else g.

Definition inBounds (r c : Z) : bool :=
  (r >=? 0) && (r <? 8) && (c >=? 0) && (c <? 8).

(** The 64 squares in the order of the nested loops
    [for(r=0;r<8;r++) for(c=0;c<8;c++)]. *)
Definition range8 : list Z := [0; 1; 2; 3; 4; 5; 6; 7].

Definition squares : list (Z * Z) :=
  flat_map (fun r => map (fun c => (r, c)) range8) range8.

Definition plainMove (r c : Z) (cap : bool) : Meta :=
  mkMeta r c cap false false None.

(** The loop header [for(let c=a; c!==stop; c+=step)] of [canCastle]: the
    values [c] takes.  Eight iterations are more than the loops ever make. *)
Fixpoint colsUntil (fuel : nat) (c stop step : Z) : list Z :=
  match fuel with
  | O => []
  | S k => if c =? stop then [] else c :: colsUntil k (c + step) stop step
  end.

(** ** The functions that read the position *)

Section Readers.

(** The two module-level variables the move generator reads. *)
Variable board : Grid.
Variable lastDouble : option LastDouble.

(** [const at = (r,c)=> inBounds(r,c) ? board[r][c] : null] *)
Definition at_ (r c : Z) : Cell :=
  if inBounds r c then getCell board r c else None.

(** [const empty = (r,c)=> inBounds(r,c) && !board[r][c]] *)
Definition empty (r c : Z) : bool :=
  inBounds r c && match getCell board r c with Some _ => false | None => true end.

(** [const ally = (r,c,clr)=> inBounds(r,c) && board[r][c] && board[r][c].c===clr] *)
Definition ally (r c : Z) (clr : Color) : bool :=
  inBounds r c &&
  match getCell board r c with
  | Some q => bool_decide (pcolor q = clr)
  | None => false
  end.

(** [const enemy = (r,c,clr)=> inBounds(r,c) && board[r][c] && board[r][c].c!==clr] *)
Definition enemy (r c : Z) (clr : Color) : bool :=
  inBounds r c &&
  match getCell board r c with
  | Some q => negb (bool_decide (pcolor q = clr))
  | None => false
  end.

(** One direction of the [rays] closure: the [while(inBounds(rr,cc))] loop.
    The fuel bounds the number of iterations; a ray leaves the board after
    at most seven steps. *)
Fixpoint ray (fuel : nat) (color : Color) (rr cc dr dc : Z) : list Meta :=
  match fuel with
  | O => []
  | S k =>
      if inBounds rr cc then
        match getCell board rr cc with
        | Some q =>
            if negb (bool_decide (pcolor q = color))
            then [plainMove rr cc true] else []
        | None => plainMove rr cc false :: ray k color (rr + dr) (cc + dc) dr dc
        end
      else []
  end.

Definition rays (color : Color) (r c : Z) (dirs : list (Z * Z)) : list Meta :=
  flat_map (fun d => ray 8 color (r + fst d) (c + snd d) (fst d) (snd d)) dirs.

Definition bishopDirs : list (Z * Z) := [(1,1); (1,-1); (-1,1); (-1,-1)].
Definition rookDirs : list (Z * Z) := [(1,0); (-1,0); (0,1); (0,-1)].
Definition queenDirs : list (Z * Z) := bishopDirs ++ rookDirs.
Definition knightDeltas : list (Z * Z) :=
  [(-2,-1); (-2,1); (-1,-2); (-1,2); (1,-2); (1,2); (2,-1); (2,1)].
(** [for(dr=-1..1) for(dc=-1..1) if(dr===0 && dc===0) continue] *)
Definition kingDeltas : list (Z * Z) :=
  [(-1,-1); (-1,0); (-1,1); (0,-1); (0,1); (1,-1); (1,0); (1,1)].

(** The knight and king loops: a step to every square in bounds that holds
    no ally. *)
Definition steps (color : Color) (r c : Z) (deltas : list (Z * Z)) : list Meta :=
  flat_map (fun d =>
    let rr := r + fst d in
    let cc := c + snd d in
    if inBounds rr cc && negb (ally rr cc color)
    then [plainMove rr cc (enemy rr cc color)] else []) deltas.

(** The pawn branch of [genPseudo] (lines 142-158). *)
Definition pawnMoves (color : Color) (r c : Z) (forAttack : bool) : list Meta :=
  let dir := if bool_decide (color = White) then -1 else 1 in
  let start := if bool_decide (color = White) then 6 else 1 in
  (if negb forAttack then
     if empty (r + dir) c then
       plainMove (r + dir) c false ::
       (if (r =? start) && empty (r + 2 * dir) c
        then [mkMeta (r + 2 * dir) c false true false None] else [])
     else []
   else []) ++
  flat_map (fun dc =>
    let rr := r + dir in
    let cc := c + dc in
    if enemy rr cc color then [plainMove rr cc true] else []) [-1; 1] ++
  match lastDouble with
  | Some l =>
      if (ld_r l =? r) && (Z.abs (ld_c l - c) =? 1) &&
         (r =? (if bool_decide (color = White) then 3 else 4))
      then [mkMeta (r + dir) (ld_c l) true false true None] else []
  | None => []
  end.

(** [genPseudo] without its castling lines 179-182: everything the
    generator pushes when [forAttack] is true, and everything but castling
    when it is false.  [attacksSquare] calls the generator with
    [forAttack = true] only, so it is defined on this part; see
    [genPseudo_forAttack]. *)
Definition pseudoMoves (r c : Z) (forAttack : bool) : list Meta :=
  match at_ r c with
  | None => []
  | Some p =>
      let color := pcolor p in
      match ptype p with
      | Pawn => pawnMoves color r c forAttack
      | Knight => steps color r c knightDeltas
      | Bishop => rays color r c bishopDirs
      | Rook => rays color r c rookDirs
      | Queen => rays color r c queenDirs
      | King => steps color r c kingDeltas
      | NoType => []
      end
  end.

(** [kingPos(color)]: the first square, rows first, that holds a king of
    that color; [None] is [null]. *)
Definition kingPos (color : Color) : option (Z * Z) :=
  find (fun sq =>
    match getCell board (fst sq) (snd sq) with
    | Some q => bool_decide (ptype q = King) && bool_decide (pcolor q = color)
    | None => false
    end) squares.

(** [attacksSquare(color, r, c)] *)
Definition attacksSquare (color : Color) (r c : Z) : bool :=
  existsb (fun sq =>
    match getCell board (fst sq) (snd sq) with
    | Some p =>
        bool_decide (pcolor p = color) &&
        existsb (fun x => (m_r x =? r) && (m_c x =? c))
                (pseudoMoves (fst sq) (snd sq) true)
    | None => false
    end) squares.

(** [inCheck(color)] *)
Definition inCheck (color : Color) : bool :=
  match kingPos color with
  | Some kp => attacksSquare (opponent color) (fst kp) (snd kp)
  | None => false
  end.

(** [canCastle(color, side)] *)
Definition canCastle (color : Color) (side : Side) : bool :=
  let row := if bool_decide (color = White) then 7 else 0 in
  let kC := 4 in
  let rC := match side with KSide => 7 | QSide => 0 end in
  let step := match side with KSide => 1 | QSide => -1 end in
  match at_ row rC, at_ row kC with
  | Some rook, Some king =>
      if negb (bool_decide (ptype king = King))
         || negb (bool_decide (ptype rook = Rook))
         || pmoved king || pmoved rook
      then false
      else if negb (forallb (fun c => empty row c) (colsUntil 8 (kC + step) rC step))
      then false
      else forallb (fun c => negb (attacksSquare (opponent color) row c))
                   (colsUntil 8 kC (kC + 2 * step) step)
  | _, _ => false
  end.

(** [genPseudo(r,c,forAttack)] *)
Definition genPseudo (r c : Z) (forAttack : bool) : list Meta :=
  match at_ r c with
  | None => []
  | Some p =>
      let color := pcolor p in
      pseudoMoves r c forAttack ++
      (if bool_decide (ptype p = King) then
         if negb forAttack && negb (pmoved p) && negb (inCheck color) then
           (if canCastle color KSide
            then [mkMeta r (c + 2) false false false (Some KSide)] else []) ++
           (if canCastle color QSide
            then [mkMeta r (c - 2) false false false (Some QSide)] else [])
         else []
       else [])
  end.

End Readers.

(** ** The store and the session variables *)

(** A location of the store: the identity of an array object. *)
Definition loc := nat.

(** [UNI[c][t]]: the glyph of a piece, by its Unicode code point.  [UNI[c]] is
    [undefined] for a piece without color (indexing it then raises a
    TypeError), and [UNI[c][t]] is [undefined] for a piece without type. *)
Abbreviation Icon := (option Z).

Definition UNI (color : Color) : option (PType -> Icon) :=
  match color with
  | White => Some (fun t =>
      match t with
      | King => Some 9812 | Queen => Some 9813 | Rook => Some 9814
      | Bishop => Some 9815 | Knight => Some 9816 | Pawn => Some 9817
      | NoType => None
      end)
  | Black => Some (fun t =>
      match t with
      | King => Some 9818 | Queen => Some 9819 | Rook => Some 9820
      | Bishop => Some 9821 | Knight => Some 9822 | Pawn => Some 9823
      | NoType => None
      end)
  | NoColor => None
  end.

(** The text [logMove] writes for one move: [castle || name+capture+dest+promo],
    kept by its parts ([dest] is the square [algebra] prints). *)
Inductive MoveText :=
| Castles (side : Side)
| Plain (name : PType) (capture : bool) (dest : Z * Z) (promo : bool).

(** One [<li>] of the move list: its number and the move texts appended to
    it. *)
Record LogItem := mkLogItem { li_number : Z; li_texts : list MoveText }.

(** The object [snapshot()] returns.  [s_board], [s_byWhite] and [s_byBlack]
    are the fresh arrays the snapshot owns. *)
Record Snapshot := mkSnapshot {
  s_board : loc;
  s_turn : Color;
  s_selected : option (Z * Z);
  s_legal : list Meta;
  s_lastDouble : option LastDouble;
  s_byWhite : loc;
  s_byBlack : loc;
  s_movesHTML : list LogItem
}.

Record State := mkState {
  heapB : list Grid;            (* the board arrays allocated so far *)
  heapC : list (list Icon);     (* the capture-bin arrays allocated so far *)
  st_board : loc;               (* let board *)
  st_turn : Color;              (* let turn *)
  st_selected : option (Z * Z); (* let selected *)
  st_legal : list Meta;         (* let legal *)
  st_lastDouble : option LastDouble; (* let lastDouble *)
  st_gameOver : bool;           (* let gameOver *)
  st_byWhite : loc;             (* captured.byWhite *)
  st_byBlack : loc;             (* captured.byBlack *)
  st_history : list Snapshot;   (* let history, top of the stack first *)
  st_moves : list LogItem       (* the children of movesEl *)
}.

(** The board array a location holds. *)
Definition boardAt (st : State) (l : loc) : Grid := default [] (heapB st !! l).
Definition binAt (st : State) (l : loc) : list Icon := default [] (heapC st !! l).

(** The contents of [board] now. *)
Definition curBoard (st : State) : Grid := boardAt st (st_board st).

(** ** The monad: state, and exceptions that keep the state reached *)

Inductive Outcome (A : Type) :=
| Ok (a : A) (st : State)
| Throw (st : State).
Arguments Ok {A} a st.
Arguments Throw {A} st.

Definition M (A : Type) : Type := State -> Outcome A.

Definition ret {A} (a : A) : M A := fun st => Ok a st.
Definition bind {A B} (m : M A) (k : A -> M B) : M B :=
  fun st => match m st with Ok a st' => k a st' | Throw st' => Throw st' end.
(** A TypeError. *)
Definition throw {A} : M A := fun st => Throw st.
Definition gets {A} (f : State -> A) : M A := fun st => Ok (f st) st.
Definition modify (f : State -> State) : M unit := fun st => Ok tt (f st).
Definition when (b : bool) (m : M unit) : M unit := if b then m else ret tt.

Declare Scope js_scope.
Delimit Scope js_scope with js.
Notation "x <- m ;; k" := (bind m (fun x => k))
  (at level 100, m at next level, right associativity) : js_scope.
Notation "m ;;; k" := (bind m (fun _ => k))
  (at level 100, right associativity) : js_scope.
Local Open Scope js_scope.

(** Field updates. *)
Definition set_heapB (h : list Grid) (st : State) : State :=
  mkState h (heapC st) (st_board st) (st_turn st) (st_selected st) (st_legal st)
          (st_lastDouble st) (st_gameOver st) (st_byWhite st) (st_byBlack st)
          (st_history st) (st_moves st).
Definition set_heapC (h : list (list Icon)) (st : State) : State :=
  mkState (heapB st) h (st_board st) (st_turn st) (st_selected st) (st_legal st)
          (st_lastDouble st) (st_gameOver st) (st_byWhite st) (st_byBlack st)
          (st_history st) (st_moves st).
Definition set_board (l : loc) (st : State) : State :=
  mkState (heapB st) (heapC st) l (st_turn st) (st_selected st) (st_legal st)
          (st_lastDouble st) (st_gameOver st) (st_byWhite st) (st_byBlack st)
          (st_history st) (st_moves st).
Definition set_turn (t : Color) (st : State) : State :=
  mkState (heapB st) (heapC st) (st_board st) t (st_selected st) (st_legal st)
          (st_lastDouble st) (st_gameOver st) (st_byWhite st) (st_byBlack st)
          (st_history st) (st_moves st).
Definition set_selected (s : option (Z * Z)) (st : State) : State :=
  mkState (heapB st) (heapC st) (st_board st) (st_turn st) s (st_legal st)
          (st_lastDouble st) (st_gameOver st) (st_byWhite st) (st_byBlack st)
          (st_history st) (st_moves st).
Definition set_legal (l : list Meta) (st : State) : State :=
  mkState (heapB st) (heapC st) (st_board st) (st_turn st) (st_selected st) l
          (st_lastDouble st) (st_gameOver st) (st_byWhite st) (st_byBlack st)
          (st_history st) (st_moves st).
Definition set_lastDouble (l : option LastDouble) (st : State) : State :=
  mkState (heapB st) (heapC st) (st_board st) (st_turn st) (st_selected st) (st_legal st)
          l (st_gameOver st) (st_byWhite st) (st_byBlack st)
          (st_history st) (st_moves st).
Definition set_gameOver (b : bool) (st : State) : State :=
  mkState (heapB st) (heapC st) (st_board st) (st_turn st) (st_selected st) (st_legal st)
          (st_lastDouble st) b (st_byWhite st) (st_byBlack st)
          (st_history st) (st_moves st).
Definition set_byWhite (l : loc) (st : State) : State :=
  mkState (heapB st) (heapC st) (st_board st) (st_turn st) (st_selected st) (st_legal st)
          (st_lastDouble st) (st_gameOver st) l (st_byBlack st)
          (st_history st) (st_moves st).
Definition set_byBlack (l : loc) (st : State) : State :=
  mkState (heapB st) (heapC st) (st_board st) (st_turn st) (st_selected st) (st_legal st)
          (st_lastDouble st) (st_gameOver st) (st_byWhite st) l
          (st_history st) (st_moves st).
Definition set_history (h : list Snapshot) (st : State) : State :=
  mkState (heapB st) (heapC st) (st_board st) (st_turn st) (st_selected st) (st_legal st)
          (st_lastDouble st) (st_gameOver st) (st_byWhite st) (st_byBlack st)
          h (st_moves st).
Definition set_moves (l : list LogItem) (st : State) : State :=
  mkState (heapB st) (heapC st) (st_board st) (st_turn st) (st_selected st) (st_legal st)
          (st_lastDouble st) (st_gameOver st) (st_byWhite st) (st_byBlack st)
          (st_history st) l.

(** *** Store primitives *)

(** A new board array holding [g]; its location is returned. *)
Definition allocBoard (g : Grid) : M loc :=
  fun st => Ok (length (heapB st)) (set_heapB (heapB st ++ [g]) st).

(** A new capture-bin array holding [l]. *)
Definition allocBin (l : list Icon) : M loc :=
  fun st => Ok (length (heapC st)) (set_heapC (heapC st ++ [l]) st).

(** [board[r][c]], read where no bounds check guards it: [board[r]] is
    [undefined] for a row outside [0..7], and indexing it raises. *)
Definition readBoard (r c : Z) : M Cell :=
  fun st => if (0 <=? r) && (r <? 8) then Ok (getCell (curBoard st) r c) st
            else Throw st.

(** The store after the array [board] refers to has been given the contents
    [g]. *)
Definition withBoard (g : Grid) (st : State) : State :=
  set_heapB (<[st_board st := g]> (heapB st)) st.

(** [board[r][c] = v]: the row array is mutated in place. *)
Definition writeBoard (r c : Z) (v : Cell) : M unit :=
  fun st => if (0 <=? r) && (r <? 8)
            then Ok tt (withBoard (setCell (curBoard st) r c v) st)
            else Throw st.

(** [bin.push(icon)]: the bin array is mutated in place. *)
Definition pushBin (l : loc) (icon : Icon) : M unit :=
  fun st => Ok tt (set_heapC (<[l := binAt st l ++ [icon]]> (heapC st)) st).

(** ** Snapshots *)

(** [{...p}] *)
Definition copyPiece (p : Piece) : Piece := mkPiece (ptype p) (pcolor p) (pmoved p).

(** [rows.map(row=>row.map(p=>p?{...p}:null))]: the contents of the copy. *)
Definition cloneGrid (g : Grid) : Grid :=
  map (fun row => map (fun p => match p with Some q => Some (copyPiece q) | None => None end) row) g.

(** [cloneBoard()]: a new array of new rows. *)
Definition cloneBoard : M loc :=
  g <- gets curBoard ;; allocBoard (cloneGrid g).

(** [snapshot()] *)
Definition snapshot : M Snapshot :=
  b <- cloneBoard ;;
  t <- gets st_turn ;;
  sel <- gets st_selected ;;
  lg <- gets st_legal ;;
  l <- gets st_lastDouble ;;
  w <- gets (fun st => binAt st (st_byWhite st)) ;;
  bw <- allocBin w ;;
  k <- gets (fun st => binAt st (st_byBlack st)) ;;
  bb <- allocBin k ;;
  html <- gets st_moves ;;
  ret (mkSnapshot b t sel lg l bw bb html).

(** [restoreSnapshot(s)] *)
Definition restoreSnapshot (s : Snapshot) : M unit :=
  g <- gets (fun st => boardAt st (s_board s)) ;;
  b <- allocBoard (cloneGrid g) ;;
  modify (set_board b) ;;;
  modify (set_turn (s_turn s)) ;;;
  modify (set_selected (s_selected s)) ;;;
  modify (set_legal (s_legal s)) ;;;
  modify (set_lastDouble (s_lastDouble s)) ;;;
  w <- gets (fun st => binAt st (s_byWhite s)) ;;
  bw <- allocBin w ;;
  modify (set_byWhite bw) ;;;
  k <- gets (fun st => binAt st (s_byBlack s)) ;;
  bb <- allocBin k ;;
  modify (set_byBlack bb) ;;;
  modify (set_moves (s_movesHTML s)).

(** ** Applying a move *)

(** [logMove(piece, capturedPiece, from, to, meta)] *)
Definition logMove (piece : Piece) (capturedPiece : Cell) (from to : Z * Z) (meta : Meta) : M unit :=
  let name := ptype piece in
  let capture := bool_decide (is_Some capturedPiece) || m_ep meta in
  let promo := bool_decide (ptype piece = Pawn) && ((fst to =? 0) || (fst to =? 7)) in
  let moveText :=
    match m_castle meta with
    | Some side => Castles side
    | None => Plain name capture to promo
    end in
  whiteTurn <- gets (fun st => bool_decide (st_turn st = White)) ;;
  items <- gets st_moves ;;
  if whiteTurn then
    modify (set_moves (items ++ [mkLogItem (Z.of_nat (length items) + 1) [moveText]]))
  else
    match last items with
    | None => throw            (* movesEl.lastElementChild is null *)
    | Some li =>
        modify (set_moves (removelast items ++
                           [mkLogItem (li_number li) (li_texts li ++ [moveText])]))
    end.

(** [renderCaptured()] rebuilds two page elements from the bins and changes no
    variable of the program. *)
Definition renderCaptured : M unit := ret tt.

(** The push into the mover's bin, lines 222-224 and 229-231:
    [UNI[q.c][q.t]] first, then [piece.c]. *)
Definition recordCapture (piece : Cell) (q : Piece) : M unit :=
  match UNI (pcolor q) with
  | None => throw
  | Some glyphs =>
      let icon := glyphs (ptype q) in
      match piece with
      | None => throw
      | Some p =>
          if bool_decide (pcolor p = White)
          then (l <- gets st_byWhite ;; pushBin l icon)
          else (l <- gets st_byBlack ;; pushBin l icon)
      end
  end.

(** [{...q, moved:true}]; spreading [null] gives an object with [moved] only. *)
Definition movedCopy (q : Cell) : Piece :=
  match q with
  | Some p => mkPiece (ptype p) (pcolor p) true
  | None => mkPiece NoType NoColor true
  end.

(** [applyMove(m, simulate)] *)
Definition applyMove (m : Move) (simulate : bool) : M unit :=
  let from := from m in
  let to := to m in
  let meta := meta m in
  piece <- gets (fun st => at_ (curBoard st) (fst from) (snd from)) ;;
  target <- gets (fun st => at_ (curBoard st) (fst to) (snd to)) ;;
  match target with
  | Some q => when (negb simulate) (recordCapture piece q)
  | None => ret tt
  end ;;;
  when (m_ep meta && negb simulate)
    (epPawn <- gets (fun st => at_ (curBoard st) (fst from) (snd to)) ;;
     match epPawn with
     | Some q => recordCapture piece q
     | None => ret tt
     end) ;;;
  when (m_ep meta) (writeBoard (fst from) (snd to) None) ;;;
  writeBoard (fst to) (snd to) (Some (movedCopy piece)) ;;;
  writeBoard (fst from) (snd from) None ;;;
  match m_castle meta with
  | Some KSide =>
      rook <- readBoard (fst to) 7 ;;
      writeBoard (fst to) 5 (Some (movedCopy rook)) ;;;
      writeBoard (fst to) 7 None
  | Some QSide =>
      rook <- readBoard (fst to) 0 ;;
      writeBoard (fst to) 3 (Some (movedCopy rook)) ;;;
      writeBoard (fst to) 0 None
  | None => ret tt
  end ;;;
  (* board[to.r][to.c]: inside the eight files it is read from the grid;
     outside them it is the slot line 236 filled and line 237 emptied again
     when from and to are the same square *)
  landed <- (if (0 <=? snd to) && (snd to <? 8) then readBoard (fst to) (snd to)
             else ret (if (fst from =? fst to) && (snd from =? snd to)
                       then None else Some (movedCopy piece))) ;;
  match landed with
  | None => throw
  | Some q =>
      when (bool_decide (ptype q = Pawn) && ((fst to =? 0) || (fst to =? 7)))
           (writeBoard (fst to) (snd to) (Some (mkPiece Queen (pcolor q) (pmoved q))))
  end ;;;
  match piece with
  | None => throw
  | Some p =>
      (if bool_decide (ptype p = Pawn) && m_double meta
       then modify (set_lastDouble
                      (Some (mkLastDouble (fst to) (snd to)
                                          (if bool_decide (pcolor p = White) then -1 else 1))))
       else modify (set_lastDouble None)) ;;;
      when (negb simulate) (logMove p target from to meta ;;; renderCaptured)
  end.

(** ** Legal moves and the status of the game *)

(** The body of [for(const m of pseudo)] in [genLegal], for the moves still to
    try; the result is what the loop pushes into [legalMoves]. *)
Fixpoint genLegalLoop (r c : Z) (color : Color) (pseudo : list Meta) : M (list Meta) :=
  match pseudo with
  | [] => ret []
  | m :: rest =>
      snap <- snapshot ;;
      applyMove (mkMove (r, c) (m_r m, m_c m) m) true ;;;
      safe <- gets (fun st => negb (inCheck (curBoard st) (st_lastDouble st) color)) ;;
      restoreSnapshot snap ;;;
      legalMoves <- genLegalLoop r c color rest ;;
      ret (if safe then m :: legalMoves else legalMoves)
  end.

(** [genLegal(r,c)] *)
Definition genLegal (r c : Z) : M (list Meta) :=
  pseudo <- gets (fun st => genPseudo (curBoard st) (st_lastDouble st) r c false) ;;
  p <- gets (fun st => at_ (curBoard st) r c) ;;
  match p with
  | None => ret []
  | Some p => genLegalLoop r c (pcolor p) pseudo
  end.

(** The nested loops of [anyLegalMove], over the squares still to visit. *)
Fixpoint anyLegalMoveLoop (color : Color) (sqs : list (Z * Z)) : M bool :=
  match sqs with
  | [] => ret false
  | sq :: rest =>
      p <- gets (fun st => at_ (curBoard st) (fst sq) (snd sq)) ;;
      match p with
      | Some q =>
          if bool_decide (pcolor q = color) then
            leg <- genLegal (fst sq) (snd sq) ;;
            match leg with
            | [] => anyLegalMoveLoop color rest
            | _ :: _ => ret true
            end
          else anyLegalMoveLoop color rest
      | None => anyLegalMoveLoop color rest
      end
  end.

(** [anyLegalMove(color)] *)
Definition anyLegalMove (color : Color) : M bool := anyLegalMoveLoop color squares.

Inductive Status := Ongoing | Checkmate | Stalemate.

(** [gameStatus(colorToMove)] *)
Definition gameStatus (colorToMove : Color) : M Status :=
  hasMove <- anyLegalMove colorToMove ;;
  if hasMove then ret Ongoing
  else
    chk <- gets (fun st => inCheck (curBoard st) (st_lastDouble st) colorToMove) ;;
    ret (if chk then Checkmate else Stalemate).

(** *** [render()]

    [render] writes the page; of the program's variables it assigns
    [gameOver] only.  The page is not modelled, but the lookups on it are,
    because a lookup that finds nothing raises and ends [render] before
    [gameOver] is assigned. *)

(** [boardEl.children[i]] is one of the 64 squares [buildBoard] made, or
    [undefined]. *)
Definition child (i : Z) : bool := (0 <=? i) && (i <? 64).

(** Lines 264-273 of [render]: the glyph [UNI[p.c][p.t]] of every piece is
    looked up and appended to the square [boardEl.children[r*8+c]];
    [UNI[p.c]] is [undefined] for a piece without color, and indexing it
    raises, as does [.appendChild] of a square that is not on the page. *)
Definition drawPieces : M unit :=
  g <- gets curBoard ;;
  if forallb (fun sq =>
       match getCell g (fst sq) (snd sq) with
       | Some p =>
           match UNI (pcolor p) with
           | Some _ => child (fst sq * 8 + snd sq)
           | None => false
           end
       | None => true
       end) squares
  then ret tt else throw.

(** Lines 274-280 of [render]: the square selected and the targets of [legal]
    are marked; [.classList] of a square that is not on the page raises. *)
Definition drawSelection : M unit :=
  sel <- gets st_selected ;;
  match sel with
  | None => ret tt
  | Some s =>
      if child (fst s * 8 + snd s) then
        lg <- gets st_legal ;;
        if forallb (fun m => child (m_r m * 8 + m_c m)) lg then ret tt else throw
      else throw
  end.

(** Lines 281-282 of [render]: the square of the king of the side to move
    is marked when that side is in check. *)
Definition drawCheck : M unit :=
  t <- gets st_turn ;;
  kp <- gets (fun st => kingPos (curBoard st) t) ;;
  match kp with
  | Some k =>
      chk <- gets (fun st => inCheck (curBoard st) (st_lastDouble st) t) ;;
      if chk then (if child (fst k * 8 + snd k) then ret tt else throw) else ret tt
  | None => ret tt
  end.

(** Lines 284-295 of [render]: [gameStatus(turn)] and the assignment to
    [gameOver]. *)
Definition showStatus : M unit :=
  t <- gets st_turn ;;
  status <- gameStatus t ;;
  match status with
  | Checkmate => modify (set_gameOver true)
  | Stalemate => modify (set_gameOver true)
  | Ongoing => modify (set_gameOver false)
  end.

(** [render()] *)
Definition render : M unit :=
  drawPieces ;;; drawSelection ;;; drawCheck ;;; showStatus.

(** ** Clicks and undo *)

(** [onSquareClick(e)], with [r] and [c] the coordinates of the square
    clicked. *)
Definition onSquareClick (r c : Z) : M unit :=
  over <- gets st_gameOver ;;
  if over then ret tt else
  cellPiece <- gets (fun st => at_ (curBoard st) r c) ;;
  sel <- gets st_selected ;;
  t <- gets st_turn ;;
  let own := match cellPiece with
             | Some q => bool_decide (pcolor q = t)
             | None => false
             end in
  let select :=
    modify (set_selected (Some (r, c))) ;;;
    lg <- genLegal r c ;;
    modify (set_legal lg) ;;;
    render in
  match sel with
  | None => if own then select else ret tt
  | Some s =>
      if own then select else
      lg <- gets st_legal ;;
      match find (fun m => (m_r m =? r) && (m_c m =? c)) lg with
      | None =>
          modify (set_selected None) ;;; modify (set_legal []) ;;; render
      | Some mv =>
          snap <- snapshot ;;
          modify (fun st => set_history (snap :: st_history st) st) ;;;
          applyMove (mkMove s (r, c) mv) false ;;;
          modify (fun st => set_turn (opponent (st_turn st)) st) ;;;
          modify (set_selected None) ;;; modify (set_legal []) ;;;
          render
      end
  end.

(** [undo()] *)
Definition undo : M unit :=
  h <- gets st_history ;;
  match h with
  | [] => ret tt
  | last :: rest =>
      modify (set_history rest) ;;;
      restoreSnapshot last ;;;
      modify (set_gameOver false) ;;;
      modify (set_selected None) ;;; modify (set_legal []) ;;;
      renderCaptured ;;;
      render
  end.

(** ** Loading a position and starting a game *)

(** A FEN string is modelled by its ASCII characters: for these a character
    of the JavaScript string, as [split] and [for...of] see it, is one
    character here, and [toUpperCase] changes the letters [a] to [z] only. *)

Definition initialFEN : string := "rnbqkbnr/pppppppp/8/8/8/8/PPPPPPPP/RNBQKBNR".

(** [s.split(sep)] for a one-character separator. *)
Fixpoint splitOn (sep : ascii) (s : string) : list string :=
  match s with
  | EmptyString => [EmptyString]
  | String ch rest =>
      match splitOn sep rest with
      | [] => [String ch EmptyString]
      | x :: xs => if Ascii.eqb ch sep then EmptyString :: x :: xs else String ch x :: xs
      end
  end.

(** [/\d/.test(ch)] and [+ch] *)
Definition digitValue (ch : ascii) : option Z :=
  let n := Z.of_nat (nat_of_ascii ch) in
  if (48 <=? n) && (n <=? 57) then Some (n - 48) else None.

(** [ch.toUpperCase()] of an ASCII character. *)
Definition toUpperCase (ch : ascii) : ascii :=
  let n := nat_of_ascii ch in
  if (97 <=? n)%nat && (n <=? 122)%nat then ascii_of_nat (n - 32) else ch.

(** The [t] field [loadFEN] stores: the upper-case letter.  A letter that names
    no piece is a type no branch of the program recognises. *)
Definition typeOfLetter (ch : ascii) : PType :=
  if Ascii.eqb ch "K" then King
  else if Ascii.eqb ch "Q" then Queen
  else if Ascii.eqb ch "R" then Rook
  else if Ascii.eqb ch "B" then Bishop
  else if Ascii.eqb ch "N" then Knight
  else if Ascii.eqb ch "P" then Pawn
  else NoType.

(** [for(const ch of rows[r])] over a row of ASCII characters, with the
    running [file]. *)
Fixpoint loadRow (r : Z) (row : string) (file : Z) : M unit :=
  match row with
  | EmptyString => ret tt
  | String ch rest =>
      match digitValue ch with
      | Some d => loadRow r rest (file + d)
      | None =>
          let color := if Ascii.eqb ch (toUpperCase ch) then White else Black in
          let type := typeOfLetter (toUpperCase ch) in
          writeBoard r file (Some (mkPiece type color false)) ;;;
          loadRow r rest (file + 1)
      end
  end.

(** [for(let r=0;r<8;r++)] of [loadFEN]; [rows[r]] is [undefined] when the
    string has fewer rows, and iterating it raises. *)
Fixpoint loadRows (rows : list string) (rs : list Z) : M unit :=
  match rs with
  | [] => ret tt
  | r :: rest =>
      match rows !! Z.to_nat r with
      | None => throw
      | Some row => loadRow r row 0 ;;; loadRows rows rest
      end
  end.

(** [loadFEN(fen)] *)
Definition loadFEN (fen : string) : M unit :=
  b <- allocBoard (replicate 8 (replicate 8 None)) ;;
  modify (set_board b) ;;;
  let rows := splitOn "/" (hd EmptyString (splitOn " " fen)) in
  loadRows rows range8 ;;;
  modify (set_lastDouble None) ;;;
  bw <- allocBin [] ;;
  modify (set_byWhite bw) ;;;
  bb <- allocBin [] ;;
  modify (set_byBlack bb).

(** The variables as their declarations (lines 21-28) leave them. *)
Definition declared : State :=
  mkState [ [] ] [ []; [] ] 0%nat White None [] None false 0%nat 1%nat [] [].

(** [init()], the page elements being present. *)
Definition init : M unit :=
  loadFEN initialFEN ;;;
  modify (set_turn White) ;;; modify (set_selected None) ;;;
  modify (set_legal []) ;;; modify (set_gameOver false) ;;;
  modify (set_history []) ;;;
  renderCaptured ;;;
  render.

(** The click handler of the New Game button. *)
Definition newGame : M unit :=
  loadFEN initialFEN ;;;
  modify (set_moves []) ;;;
  modify (set_turn White) ;;; modify (set_selected None) ;;;
  modify (set_legal []) ;;; modify (set_lastDouble None) ;;;
  modify (set_gameOver false) ;;;
  modify (set_history []) ;;;
  renderCaptured ;;;
  render.

(** The state an outcome ends in, and whether it is a normal return. *)
Definition stateOf {A} (o : Outcome A) : State :=
  match o with Ok _ st => st | Throw st => st end.
Definition returns {A} (o : Outcome A) : bool :=
  match o with Ok _ _ => true | Throw _ => false end.

(** The game as [init()] leaves it: [stateOf (init declared)], evaluated (see
    [started_is_init]). *)
Definition started : State := Eval vm_compute in stateOf (init declared).

(** What the user can do: click a square, press Undo, press New Game. *)
Inductive Event := Click (r c : Z) | Undo | NewGame.

Definition handle (e : Event) : M unit :=
  match e with
  | Click r c => onSquareClick r c
  | Undo => undo
  | NewGame => newGame
  end.

Fixpoint play (es : list Event) : M unit :=
  match es with
  | [] => ret tt
  | e :: rest => handle e ;;; play rest
  end.

(** ** The session: what the variables hold, arrays by their contents *)

Record Session := mkSession {
  ss_board : Grid;
  ss_turn : Color;
  ss_lastDouble : option LastDouble;
  ss_byWhite : list Icon;
  ss_byBlack : list Icon
}.

Definition session (st : State) : Session :=
  mkSession (curBoard st) (st_turn st) (st_lastDouble st)
            (binAt st (st_byWhite st)) (binAt st (st_byBlack st)).

(** The session a snapshot holds. *)
Definition snapSession (st : State) (s : Snapshot) : Session :=
  mkSession (boardAt st (s_board s)) (s_turn s) (s_lastDouble s)
            (binAt st (s_byWhite s)) (binAt st (s_byBlack s)).

(** The history stack by its contents. *)
Definition historySessions (st : State) : list Session :=
  map (snapSession st) (st_history st).

(** * Properties *)

(** ** The monad *)

Lemma bind_Ok {A B} (m : M A) (k : A -> M B) st b st2 :
  bind m k st = Ok b st2 ->
  exists a st1, m st = Ok a st1 /\ k a st1 = Ok b st2.
Proof.
  unfold bind. destruct (m st) as [a st1|st1] eqn:E; [|discriminate].
  intros H. exists a, st1. split; [reflexivity|exact H].
Qed.

Lemma gets_Ok {A} (f : State -> A) st a st1 :
  gets f st = Ok a st1 -> a = f st /\ st1 = st.
Proof. unfold gets. intros H. injection H as <- <-. split; reflexivity. Qed.

Lemma modify_Ok (f : State -> State) st u st1 :
  modify f st = Ok u st1 -> st1 = f st.
Proof. unfold modify. intros H. injection H as _ <-. reflexivity. Qed.

Lemma ret_Ok {A} (x : A) st a st1 :
  ret x st = Ok a st1 -> a = x /\ st1 = st.
Proof. unfold ret. intros H. injection H as <- <-. split; reflexivity. Qed.

(** Forward symbolic execution of a run [H : m st = Ok a st']: split the first
    bind, or resolve a primitive. *)
Ltac run1 H :=
  match type of H with
  | bind _ _ _ = Ok _ _ =>
      let a := fresh "a" in let s := fresh "s" in
      let H1 := fresh "R" in let H2 := fresh "R" in
      apply bind_Ok in H; destruct H as (a & s & H1 & H2);
      run1 H1; try run1 H2
  | gets _ _ = Ok _ _ =>
      apply gets_Ok in H; let E := fresh "E" in destruct H as [-> ->]
  | modify _ _ = Ok _ ?s' => apply modify_Ok in H; subst s'
  | ret _ _ = Ok _ _ => apply ret_Ok in H; destruct H as [-> ->]
  | throw _ = Ok _ _ => discriminate H
  | Throw _ = Ok _ _ => discriminate H
  | when true _ _ = Ok _ _ => unfold when in H; run1 H
  | when false _ _ = Ok _ _ => unfold when in H; run1 H
  end.

(** ** Cells and boards *)

Lemma copyPiece_id p : copyPiece p = p.
Proof. destruct p; reflexivity. Qed.

(** A deep copy of a board has the contents of the board. *)
Lemma cloneGrid_id g : cloneGrid g = g.
Proof.
  unfold cloneGrid. induction g as [|row g IH]; [reflexivity|].
  cbn [map]. rewrite IH. f_equal.
  induction row as [|[q|] row IHr]; cbn [map]; [reflexivity| |];
    rewrite IHr; [rewrite copyPiece_id|]; reflexivity.
Qed.

(** A write leaves every cell as it was or puts the written value there. *)
Lemma getCell_setCell_cases g r c v r' c' :
  getCell (setCell g r c v) r' c' = getCell g r' c' \/
  getCell (setCell g r c v) r' c' = v.
Proof.
  unfold setCell. destruct ((0 <=? r) && (0 <=? c)) eqn:Hrc; [|left; reflexivity].
  destruct (g !! Z.to_nat r) as [row|] eqn:Hrow; [|left; reflexivity].
  unfold getCell. destruct ((0 <=? r') && (0 <=? c')) eqn:Hrc'; [|left; reflexivity].
  destruct (decide (Z.to_nat r = Z.to_nat r')) as [Hr|Hr].
  - rewrite <- Hr. rewrite list_lookup_insert_eq by (eapply lookup_lt_Some; eauto).
    rewrite Hrow.
    destruct (decide (Z.to_nat c = Z.to_nat c')) as [Hc|Hc].
    + rewrite <- Hc. destruct (decide (Z.to_nat c < length row)%nat) as [Hl|Hl].
      * rewrite list_lookup_insert_eq by exact Hl. right; reflexivity.
      * rewrite list_insert_ge by lia. left; reflexivity.
    + rewrite list_lookup_insert_ne by exact Hc. left; reflexivity.
  - rewrite list_lookup_insert_ne by exact Hr. left; reflexivity.
Qed.

(** A write changes no other square. *)
Lemma getCell_setCell_ne g r c v r' c' :
  0 <= r' -> 0 <= c' -> (r, c) <> (r', c') ->
  getCell (setCell g r c v) r' c' = getCell g r' c'.
Proof.
  intros Hr' Hc' Hne.
  unfold setCell. destruct ((0 <=? r) && (0 <=? c)) eqn:Hrc; [|reflexivity].
  destruct (g !! Z.to_nat r) as [row|] eqn:Hrow; [|reflexivity].
  apply andb_true_iff in Hrc as [Hr Hc]. apply Z.leb_le in Hr, Hc.
  unfold getCell. destruct ((0 <=? r') && (0 <=? c')); [|reflexivity].
  destruct (decide (Z.to_nat r = Z.to_nat r')) as [Er|Er].
  - rewrite <- Er. rewrite list_lookup_insert_eq by (eapply lookup_lt_Some; eauto).
    rewrite Hrow.
    rewrite list_lookup_insert_ne; [reflexivity|].
    intros Ec. apply Hne. f_equal; lia.
  - rewrite list_lookup_insert_ne by exact Er. reflexivity.
Qed.

(** ** The store *)

(** References point into the store. *)
Definition valid (st : State) : Prop :=
  (st_board st < length (heapB st))%nat /\
  (st_byWhite st < length (heapC st))%nat /\
  (st_byBlack st < length (heapC st))%nat.

(** How a run may change the store: arrays are added, the arrays that were
    there are written only if they are the live board or a live bin, and a
    variable that holds an array keeps it or gets a new one. *)
Record grows (st st' : State) : Prop := mkGrows {
  g_lenB : (length (heapB st) <= length (heapB st'))%nat;
  g_lenC : (length (heapC st) <= length (heapC st'))%nat;
  g_oldB : forall l, (l < length (heapB st))%nat -> l <> st_board st ->
                     heapB st' !! l = heapB st !! l;
  g_oldC : forall l, (l < length (heapC st))%nat ->
                     l <> st_byWhite st -> l <> st_byBlack st ->
                     heapC st' !! l = heapC st !! l;
  g_board : st_board st' = st_board st \/
            (length (heapB st) <= st_board st' < length (heapB st'))%nat;
  g_byWhite : st_byWhite st' = st_byWhite st \/
              (length (heapC st) <= st_byWhite st' < length (heapC st'))%nat;
  g_byBlack : st_byBlack st' = st_byBlack st \/
              (length (heapC st) <= st_byBlack st' < length (heapC st'))%nat
}.

Lemma grows_refl st : grows st st.
Proof. constructor; auto. Qed.

Lemma grows_valid st st' : valid st -> grows st st' -> valid st'.
Proof.
  intros (Hb & Hw & Hk) [].
  unfold valid. repeat split; lia.
Qed.

Lemma grows_trans st1 st2 st3 :
  valid st1 -> grows st1 st2 -> grows st2 st3 -> grows st1 st3.
Proof.
  intros (Hb & Hw & Hk) [] [].
  constructor; try lia.
  - intros l Hl Hne. rewrite g_oldB1, g_oldB0; auto; lia.
  - intros l Hl Hne1 Hne2. rewrite g_oldC1, g_oldC0; auto; lia.
Qed.

(** A run that allocates nothing and replaces no array variable: it writes
    into the live board and the live bins only. *)
Record mutates (st st' : State) : Prop := mkMutates {
  mu_board : st_board st' = st_board st;
  mu_turn : st_turn st' = st_turn st;
  mu_selected : st_selected st' = st_selected st;
  mu_legal : st_legal st' = st_legal st;
  mu_gameOver : st_gameOver st' = st_gameOver st;
  mu_byWhite : st_byWhite st' = st_byWhite st;
  mu_byBlack : st_byBlack st' = st_byBlack st;
  mu_history : st_history st' = st_history st;
  mu_lenB : length (heapB st') = length (heapB st);
  mu_lenC : length (heapC st') = length (heapC st);
  mu_otherB : forall l, l <> st_board st -> heapB st' !! l = heapB st !! l;
  mu_otherC : forall l, l <> st_byWhite st -> l <> st_byBlack st ->
                        heapC st' !! l = heapC st !! l
}.

Lemma mutates_refl st : mutates st st.
Proof. constructor; auto. Qed.

Lemma mutates_trans st1 st2 st3 : mutates st1 st2 -> mutates st2 st3 -> mutates st1 st3.
Proof.
  intros [] []. constructor; try congruence.
  - intros l Hl. rewrite mu_otherB1, mu_otherB0; congruence.
  - intros l Hw Hk. rewrite mu_otherC1, mu_otherC0; congruence.
Qed.

Lemma mutates_grows st st' : mutates st st' -> grows st st'.
Proof.
  intros []. constructor; try lia; auto.
Qed.

Lemma mutates_valid st st' : valid st -> mutates st st' -> valid st'.
Proof. intros Hv Hm. eapply grows_valid; [exact Hv|]. apply mutates_grows, Hm. Qed.

Lemma curBoard_withBoard g st : valid st -> curBoard (withBoard g st) = g.
Proof.
  intros (Hb & _). unfold curBoard, boardAt, withBoard. cbn.
  rewrite list_lookup_insert_eq by exact Hb. reflexivity.
Qed.

Lemma mutates_withBoard g st : mutates st (withBoard g st).
Proof.
  constructor; cbn; auto.
  - apply length_insert.
  - intros l Hl. apply list_lookup_insert_ne. congruence.
Qed.

Lemma writeBoard_Ok r c v st u st1 :
  writeBoard r c v st = Ok u st1 ->
  0 <= r < 8 /\ st1 = withBoard (setCell (curBoard st) r c v) st.
Proof.
  unfold writeBoard. destruct ((0 <=? r) && (r <? 8)) eqn:E; [|discriminate].
  intros H. injection H as _ <-. split; [lia|reflexivity].
Qed.

Lemma readBoard_Ok r c st v st1 :
  readBoard r c st = Ok v st1 ->
  0 <= r < 8 /\ v = getCell (curBoard st) r c /\ st1 = st.
Proof.
  unfold readBoard. destruct ((0 <=? r) && (r <? 8)) eqn:E; [|discriminate].
  intros H. injection H as <- <-. repeat split; lia.
Qed.

(** Relations between a state and a later one that has the same board and
    en-passant target. *)
Definition samePosition (st st' : State) : Prop :=
  curBoard st' = curBoard st /\ st_lastDouble st' = st_lastDouble st.

Lemma pushBin_mutates l icon st u st1 :
  l = st_byWhite st \/ l = st_byBlack st ->
  pushBin l icon st = Ok u st1 ->
  mutates st st1 /\ heapB st1 = heapB st /\ st_lastDouble st1 = st_lastDouble st
  /\ st_moves st1 = st_moves st.
Proof.
  intros Hl H. unfold pushBin in H. injection H as _ <-.
  repeat split; cbn; auto.
  - apply length_insert.
  - intros l' Hw Hk. apply list_lookup_insert_ne. destruct Hl; congruence.
Qed.

Lemma recordCapture_mutates piece q st u st1 :
  recordCapture piece q st = Ok u st1 ->
  mutates st st1 /\ heapB st1 = heapB st /\ st_lastDouble st1 = st_lastDouble st
  /\ st_moves st1 = st_moves st.
Proof.
  unfold recordCapture. destruct (UNI (pcolor q)); [|discriminate].
  destruct piece as [p|]; [|discriminate].
  destruct (bool_decide (pcolor p = White)); intros H; run1 H;
    (apply pushBin_mutates in R0; [exact R0|auto]).
Qed.

Lemma logMove_mutates piece cp from to meta st u st1 :
  logMove piece cp from to meta st = Ok u st1 ->
  mutates st st1 /\ heapB st1 = heapB st /\ st_lastDouble st1 = st_lastDouble st
  /\ heapC st1 = heapC st.
Proof.
  unfold logMove. intros H. run1 H.
  match goal with R : (if ?b then _ else _) _ = Ok _ _ |- _ =>
    destruct b; [|destruct (last (st_moves st)); [|discriminate R]]; run1 R
  end; repeat split; auto.
Qed.

(** ** What [applyMove] does to the board *)

(** The board after lines 234-243 of [applyMove], as a function of the board
    they find: the en-passant pawn removed, the piece moved, the castling rook
    moved. *)
Definition castled (g : Grid) (mv : Move) : Grid :=
  let from := from mv in
  let to := to mv in
  let meta := meta mv in
  let piece := at_ g (fst from) (snd from) in
  let g1 := if m_ep meta then setCell g (fst from) (snd to) None else g in
  let g2 := setCell g1 (fst to) (snd to) (Some (movedCopy piece)) in
  let g3 := setCell g2 (fst from) (snd from) None in
  match m_castle meta with
  | Some KSide =>
      setCell (setCell g3 (fst to) 5 (Some (movedCopy (getCell g3 (fst to) 7))))
              (fst to) 7 None
  | Some QSide =>
      setCell (setCell g3 (fst to) 3 (Some (movedCopy (getCell g3 (fst to) 0))))
              (fst to) 0 None
  | None => g3
  end.

(** [board[to.r][to.c]] as line 245 reads it. *)
Definition landedCell (g : Grid) (mv : Move) : Cell :=
  let from := from mv in
  let to := to mv in
  if (0 <=? snd to) && (snd to <? 8) then getCell (castled g mv) (fst to) (snd to)
  else if (fst from =? fst to) && (snd from =? snd to) then None
       else Some (movedCopy (at_ g (fst from) (snd from))).

(** The board lines 234-247 of [applyMove] leave. *)
Definition boardAfter (g : Grid) (mv : Move) : Grid :=
  let to := to mv in
  match landedCell g mv with
  | Some q =>
      if bool_decide (ptype q = Pawn) && ((fst to =? 0) || (fst to =? 7))
      then setCell (castled g mv) (fst to) (snd to)
                   (Some (mkPiece Queen (pcolor q) (pmoved q)))
      else castled g mv
  | None => castled g mv
  end.

(** Whether a simulated [applyMove] runs to its end: there is a piece to move,
    the destination row exists, and line 245 finds a piece. *)
Definition applies (g : Grid) (mv : Move) : bool :=
  match at_ g (fst (from mv)) (snd (from mv)) with
  | Some _ =>
      (0 <=? fst (to mv)) && (fst (to mv) <? 8) &&
      match landedCell g mv with Some _ => true | None => false end
  | None => false
  end.

(** The value lines 249-250 give [lastDouble]. *)
Definition lastDoubleAfter (g : Grid) (mv : Move) : option LastDouble :=
  match at_ g (fst (from mv)) (snd (from mv)) with
  | Some p =>
      if bool_decide (ptype p = Pawn) && m_double (meta mv)
      then Some (mkLastDouble (fst (to mv)) (snd (to mv))
                              (if bool_decide (pcolor p = White) then -1 else 1))
      else None
  | None => None
  end.

(** [tracks sim st g ld s]: the run from [st] has reached [s], where the live
    board holds [g] and [lastDouble] is [ld]; a simulation has touched neither
    the bins nor the move list. *)
Definition tracks (sim : bool) (st : State) (g : Grid) (ld : option LastDouble)
    (s : State) : Prop :=
  valid s /\ mutates st s /\ curBoard s = g /\ st_lastDouble s = ld /\
  (sim = true -> heapC s = heapC st /\ st_moves s = st_moves st).

Lemma tracks_start sim st :
  valid st -> tracks sim st (curBoard st) (st_lastDouble st) st.
Proof. intros Hv. repeat split; auto using mutates_refl; apply Hv. Qed.

Lemma tracks_write sim st g ld s r c v u s' :
  tracks sim st g ld s -> writeBoard r c v s = Ok u s' ->
  tracks sim st (setCell g r c v) ld s'.
Proof.
  intros (Hv & Hm & Hg & Hl & Hs) H. apply writeBoard_Ok in H as [_ ->].
  rewrite Hg. split; [|split; [|split; [|split]]].
  - eapply mutates_valid; [exact Hv|apply mutates_withBoard].
  - eapply mutates_trans; [exact Hm|apply mutates_withBoard].
  - apply curBoard_withBoard, Hv.
  - exact Hl.
  - exact Hs.
Qed.

Lemma tracks_quiet sim st g ld s s' :
  tracks sim st g ld s ->
  mutates s s' -> heapB s' = heapB s -> st_lastDouble s' = st_lastDouble s ->
  (sim = true -> heapC s' = heapC s /\ st_moves s' = st_moves s) ->
  tracks sim st g ld s'.
Proof.
  intros (Hv & Hm & Hg & Hl & Hs) Hm' Hb Hl' Hs'.
  split; [|split; [|split; [|split]]].
  - eapply mutates_valid; eauto.
  - eapply mutates_trans; eauto.
  - unfold curBoard, boardAt in *. rewrite Hb, (mu_board _ _ Hm'). exact Hg.
  - congruence.
  - intros E. destruct (Hs E), (Hs' E). split; congruence.
Qed.

Lemma tracks_capture sim st g ld s piece target u s' :
  tracks sim st g ld s ->
  match target with
  | Some q => when (negb sim) (recordCapture piece q)
  | None => ret tt
  end s = Ok u s' ->
  tracks sim st g ld s'.
Proof.
  intros Ht H. destruct target as [q|]; [|run1 H; exact Ht].
  destruct sim; cbn [negb when] in H; [run1 H; exact Ht|].
  apply recordCapture_mutates in H as (Hm & Hb & Hl & _).
  eapply tracks_quiet; eauto. discriminate.
Qed.

Lemma tracks_epCapture sim st g ld s (ep : bool) piece r c u s' :
  tracks sim st g ld s ->
  when (ep && negb sim)
    (epPawn <- gets (fun st => at_ (curBoard st) r c) ;;
     match epPawn with
     | Some q => recordCapture piece q
     | None => ret tt
     end) s = Ok u s' ->
  tracks sim st g ld s'.
Proof.
  intros Ht H. destruct ep, sim; cbn [negb andb when] in H; try (run1 H; exact Ht).
  run1 H.
  match goal with R : match ?x with _ => _ end _ = Ok _ _ |- _ =>
    destruct x; [|run1 R; exact Ht];
    apply recordCapture_mutates in R as (Hm & Hb & Hl & _)
  end.
  eapply tracks_quiet; eauto. discriminate.
Qed.

Lemma tracks_castle sim st g ld s (castle : option Side) r u s' :
  tracks sim st g ld s ->
  match castle with
  | Some KSide =>
      rook <- readBoard r 7 ;;
      writeBoard r 5 (Some (movedCopy rook)) ;;;
      writeBoard r 7 None
  | Some QSide =>
      rook <- readBoard r 0 ;;
      writeBoard r 3 (Some (movedCopy rook)) ;;;
      writeBoard r 0 None
  | None => ret tt
  end s = Ok u s' ->
  tracks sim st
    (match castle with
     | Some KSide =>
         setCell (setCell g r 5 (Some (movedCopy (getCell g r 7)))) r 7 None
     | Some QSide =>
         setCell (setCell g r 3 (Some (movedCopy (getCell g r 0)))) r 0 None
     | None => g
     end) ld s'.
Proof.
  intros Ht H. destruct castle as [[|]|]; [| |run1 H; exact Ht].
  all: apply bind_Ok in H as (rook & s1 & H1 & H2);
       apply readBoard_Ok in H1 as (_ & -> & ->);
       apply bind_Ok in H2 as (? & s2 & H2 & H3);
       pose proof (tracks_write _ _ _ _ _ _ _ _ _ _ Ht H2) as Ht2;
       pose proof (tracks_write _ _ _ _ _ _ _ _ _ _ Ht2 H3) as Ht3;
       destruct Ht as (_ & _ & <- & _); exact Ht3.
Qed.

(** The effect of [applyMove], simulated or not, on the board and on
    [lastDouble], whenever it returns. *)
Lemma applyMove_effect mv sim st u st' :
  valid st -> applyMove mv sim st = Ok u st' ->
  tracks sim st (boardAfter (curBoard st) mv) (lastDoubleAfter (curBoard st) mv) st'
  /\ applies (curBoard st) mv = true.
Proof.
  intros Hv H. unfold applyMove in H.
  apply bind_Ok in H as (piece & s & H0 & H). run1 H0.
  apply bind_Ok in H as (target & s & H0 & H). run1 H0.
  pose proof (tracks_start sim st Hv) as Ht.
  apply bind_Ok in H as (? & s1 & H1 & H).
  pose proof (tracks_capture _ _ _ _ _ _ _ _ _ Ht H1) as Ht1. clear H1 Ht.
  apply bind_Ok in H as (? & s2 & H2 & H).
  pose proof (tracks_epCapture _ _ _ _ _ _ _ _ _ _ _ Ht1 H2) as Ht2. clear H2 Ht1.
  apply bind_Ok in H as (? & s3 & H3 & H).
  assert (Ht3 : tracks sim st
            (if m_ep (meta mv)
             then setCell (curBoard st) (fst (from mv)) (snd (to mv)) None
             else curBoard st) (st_lastDouble st) s3).
  { destruct (m_ep (meta mv)); cbn [when] in H3.
    - eapply tracks_write; eauto.
    - run1 H3. exact Ht2. }
  clear H3 Ht2.
  apply bind_Ok in H as (? & s4 & H4 & H).
  pose proof (tracks_write _ _ _ _ _ _ _ _ _ _ Ht3 H4) as Ht4.
  apply writeBoard_Ok in H4 as [Hto _]. clear Ht3.
  apply bind_Ok in H as (? & s5 & H5 & H).
  pose proof (tracks_write _ _ _ _ _ _ _ _ _ _ Ht4 H5) as Ht5. clear H5 Ht4.
  apply bind_Ok in H as (? & s6 & H6 & H).
  pose proof (tracks_castle _ _ _ _ _ _ _ _ _ Ht5 H6) as Ht6. clear H6 Ht5.
  apply bind_Ok in H as (landed & s7 & H7 & H).
  assert (Hl : landed =
            (if (0 <=? snd (to mv)) && (snd (to mv) <? 8)
             then getCell (curBoard s6) (fst (to mv)) (snd (to mv))
             else if (fst (from mv) =? fst (to mv)) && (snd (from mv) =? snd (to mv))
                  then None
                  else Some (movedCopy (at_ (curBoard st) (fst (from mv)) (snd (from mv)))))
            /\ s7 = s6).
  { destruct ((0 <=? snd (to mv)) && (snd (to mv) <? 8)).
    - apply readBoard_Ok in H7 as (_ & -> & ->). split; reflexivity.
    - run1 H7. split; reflexivity. }
  destruct Hl as [Hl ->]. clear H7.
  apply bind_Ok in H as (? & s8 & H8 & H).
  unfold boardAfter, lastDoubleAfter, applies, landedCell, castled.
  cbv zeta.
  destruct Ht6 as (Hv6 & Hm6 & Hg6 & Hl6 & Hs6).
  rewrite Hg6 in Hl. rewrite <- Hl.
  assert (Ht6 : tracks sim st (curBoard s6) (st_lastDouble st) s6)
    by (split; [exact Hv6|split; [exact Hm6|split; [reflexivity|split; [exact Hl6|exact Hs6]]]]).
  rewrite <- Hg6. clear Hl Hg6.
  destruct landed as [q|]; [|discriminate H8].
  assert (Ht8 : tracks sim st
            (if bool_decide (ptype q = Pawn) && ((fst (to mv) =? 0) || (fst (to mv) =? 7))
             then setCell (curBoard s6) (fst (to mv)) (snd (to mv))
                          (Some (mkPiece Queen (pcolor q) (pmoved q)))
             else curBoard s6) (st_lastDouble st) s8).
  { destruct (bool_decide (ptype q = Pawn) && ((fst (to mv) =? 0) || (fst (to mv) =? 7)));
      cbn [when] in H8.
    - eapply tracks_write; eauto.
    - run1 H8. exact Ht6. }
  clear H8 Ht6 Hv6 Hm6 Hl6 Hs6.
  destruct (at_ (curBoard st) (fst (from mv)) (snd (from mv))) as [p|]; [|discriminate H].
  apply bind_Ok in H as (? & s9 & H9 & H).
  match type of Ht8 with tracks _ _ ?g _ _ => set (gA := g) in * end.
  assert (Ht9 : tracks sim st gA
            (if bool_decide (ptype p = Pawn) && m_double (meta mv)
             then Some (mkLastDouble (fst (to mv)) (snd (to mv))
                          (if bool_decide (pcolor p = White) then -1 else 1))
             else None) s9).
  { destruct Ht8 as (Hv8 & Hm8 & Hg8 & Hl8 & Hs8).
    destruct (bool_decide (ptype p = Pawn) && m_double (meta mv)); run1 H9.
    all: split; [exact Hv8|split; [|split; [exact Hg8|split; [reflexivity|exact Hs8]]]].
    all: destruct Hm8; constructor; auto. }
  clear H9 Ht8.
  split; [|apply andb_true_iff; split; [apply andb_true_iff; split; lia|reflexivity]].
  destruct sim; cbn [negb when] in H; [run1 H; exact Ht9|].
  apply bind_Ok in H as (? & s10 & H10 & H). unfold renderCaptured in H. run1 H.
  apply logMove_mutates in H10 as (Hm & Hb & Hld & Hc).
  destruct Ht9 as (Hv9 & Hm9 & Hg9 & Hl9 & Hs9).
  split; [|split; [|split; [|split]]].
  - eapply mutates_valid; eauto.
  - eapply mutates_trans; eauto.
  - unfold curBoard, boardAt in *. rewrite Hb, (mu_board _ _ Hm). exact Hg9.
  - congruence.
  - discriminate.
Qed.

(** ** Snapshots hold what they were taken from *)

(** The variables of the session and of the page hold what they held, arrays
    compared by their contents. *)
Record unchanged (st st' : State) : Prop := mkUnchanged {
  un_session : session st' = session st;
  un_selected : st_selected st' = st_selected st;
  un_legal : st_legal st' = st_legal st;
  un_gameOver : st_gameOver st' = st_gameOver st;
  un_history : st_history st' = st_history st;
  un_moves : st_moves st' = st_moves st
}.

Lemma unchanged_refl st : unchanged st st.
Proof. constructor; reflexivity. Qed.

Lemma unchanged_trans st1 st2 st3 :
  unchanged st1 st2 -> unchanged st2 st3 -> unchanged st1 st3.
Proof. intros [] []. constructor; congruence. Qed.

Lemma unchanged_board st st' : unchanged st st' -> curBoard st' = curBoard st.
Proof. intros H. pose proof (un_session _ _ H) as E. injection E; auto. Qed.

Lemma unchanged_lastDouble st st' :
  unchanged st st' -> st_lastDouble st' = st_lastDouble st.
Proof. intros H. pose proof (un_session _ _ H) as E. injection E; auto. Qed.

(** A snapshot owns its arrays: they are in the store and they are not the
    live ones. *)
Definition snap_ok (st : State) (s : Snapshot) : Prop :=
  ((s_board s < length (heapB st))%nat /\ s_board s <> st_board st) /\
  ((s_byWhite s < length (heapC st))%nat /\
   s_byWhite s <> st_byWhite st /\ s_byWhite s <> st_byBlack st) /\
  ((s_byBlack s < length (heapC st))%nat /\
   s_byBlack s <> st_byWhite st /\ s_byBlack s <> st_byBlack st).

Lemma snap_ok_grows st st' s :
  snap_ok st s -> grows st st' ->
  snap_ok st' s /\ snapSession st' s = snapSession st s.
Proof.
  intros ((Hb & Hbn) & (Hw & Hwn1 & Hwn2) & (Hk & Hkn1 & Hkn2)) [].
  split.
  - unfold snap_ok. repeat split; lia.
  - unfold snapSession, boardAt, binAt.
    rewrite g_oldB0, !g_oldC0 by assumption. reflexivity.
Qed.

Lemma allocBoard_Ok g st l st1 :
  allocBoard g st = Ok l st1 ->
  l = length (heapB st) /\ st1 = set_heapB (heapB st ++ [g]) st.
Proof. unfold allocBoard. intros H. injection H as <- <-. split; reflexivity. Qed.

Lemma allocBin_Ok b st l st1 :
  allocBin b st = Ok l st1 ->
  l = length (heapC st) /\ st1 = set_heapC (heapC st ++ [b]) st.
Proof. unfold allocBin. intros H. injection H as <- <-. split; reflexivity. Qed.

Lemma snapshot_Ok st s st1 :
  snapshot st = Ok s st1 ->
  s = mkSnapshot (length (heapB st)) (st_turn st) (st_selected st) (st_legal st)
        (st_lastDouble st) (length (heapC st))
        (S (length (heapC st))) (st_moves st) /\
  heapB st1 = heapB st ++ [cloneGrid (curBoard st)] /\
  heapC st1 = (heapC st ++ [binAt st (st_byWhite st)]) ++
              [default [] ((heapC st ++ [binAt st (st_byWhite st)]) !! st_byBlack st)] /\
  st_board st1 = st_board st /\ st_turn st1 = st_turn st /\
  st_selected st1 = st_selected st /\ st_legal st1 = st_legal st /\
  st_lastDouble st1 = st_lastDouble st /\ st_gameOver st1 = st_gameOver st /\
  st_byWhite st1 = st_byWhite st /\ st_byBlack st1 = st_byBlack st /\
  st_history st1 = st_history st /\ st_moves st1 = st_moves st.
Proof.
  unfold snapshot, cloneBoard, allocBoard, allocBin, bind, gets, ret. cbn.
  intros H. injection H as <- <-. cbn.
  rewrite length_app, Nat.add_1_r. repeat split; reflexivity.
Qed.

Lemma snapshot_spec st s st1 :
  valid st -> snapshot st = Ok s st1 ->
  snap_ok st1 s /\ snapSession st1 s = session st /\
  s_selected s = st_selected st /\ s_legal s = st_legal st /\
  s_movesHTML s = st_moves st /\
  unchanged st st1 /\ grows st st1.
Proof.
  intros (Hb & Hw & Hk) H. apply snapshot_Ok in H.
  destruct H as (-> & HB & HC & Eb & Et & Es & El & Ed & Eg & Ew & Ek & Eh & Em).
  assert (Hk' : default [] ((heapC st ++ [binAt st (st_byWhite st)]) !! st_byBlack st)
                = binAt st (st_byBlack st)).
  { unfold binAt. rewrite lookup_app_l by exact Hk. reflexivity. }
  rewrite Hk' in HC. clear Hk'.
  assert (Hcur : curBoard st1 = curBoard st).
  { unfold curBoard, boardAt. rewrite HB, Eb, lookup_app_l by exact Hb. reflexivity. }
  assert (HbW : binAt st1 (st_byWhite st1) = binAt st (st_byWhite st)).
  { unfold binAt. rewrite HC, Ew, !lookup_app_l; rewrite ?length_app; cbn; try lia.
    reflexivity. }
  assert (HbK : binAt st1 (st_byBlack st1) = binAt st (st_byBlack st)).
  { unfold binAt. rewrite HC, Ek, !lookup_app_l; rewrite ?length_app; cbn; try lia.
    reflexivity. }
  split; [|split; [|split; [|split; [|split; [|split]]]]]; cbn; auto.
  - unfold snap_ok. cbn. rewrite HB, HC, Eb, Ew, Ek, !length_app. cbn.
    repeat split; lia.
  - unfold snapSession, session, boardAt, binAt. cbn. rewrite HB, HC.
    rewrite lookup_app_r by lia. rewrite Nat.sub_diag. cbn.
    rewrite cloneGrid_id.
    rewrite (lookup_app_l _ _ (length (heapC st))) by (rewrite length_app; cbn; lia).
    rewrite (lookup_app_r (heapC st)) by lia. rewrite Nat.sub_diag. cbn.
    rewrite lookup_app_r by (rewrite length_app; cbn; lia).
    rewrite length_app, Nat.add_1_r, Nat.sub_diag. cbn. reflexivity.
  - constructor; auto. unfold session. rewrite Hcur, HbW, HbK, Et, Ed. reflexivity.
  - constructor; rewrite ?HB, ?HC, ?length_app; cbn; try lia; auto.
    + intros l Hl _. apply lookup_app_l. exact Hl.
    + intros l Hl _ _. rewrite !lookup_app_l; rewrite ?length_app; cbn; try lia.
      reflexivity.
Qed.

Lemma restoreSnapshot_Ok s st u st1 :
  restoreSnapshot s st = Ok u st1 ->
  heapB st1 = heapB st ++ [cloneGrid (boardAt st (s_board s))] /\
  heapC st1 = (heapC st ++ [binAt st (s_byWhite s)]) ++
              [default [] ((heapC st ++ [binAt st (s_byWhite s)]) !! s_byBlack s)] /\
  st_board st1 = length (heapB st) /\ st_turn st1 = s_turn s /\
  st_selected st1 = s_selected s /\ st_legal st1 = s_legal s /\
  st_lastDouble st1 = s_lastDouble s /\ st_gameOver st1 = st_gameOver st /\
  st_byWhite st1 = length (heapC st) /\
  st_byBlack st1 = S (length (heapC st)) /\
  st_history st1 = st_history st /\ st_moves st1 = s_movesHTML s.
Proof.
  unfold restoreSnapshot, allocBoard, allocBin, bind, gets, modify, ret. cbn.
  intros H. injection H as _ <-. cbn.
  rewrite length_app, Nat.add_1_r. repeat split; reflexivity.
Qed.

Lemma restoreSnapshot_returns s st : returns (restoreSnapshot s st) = true.
Proof. reflexivity. Qed.

Lemma restore_spec s st u st1 :
  valid st -> snap_ok st s -> restoreSnapshot s st = Ok u st1 ->
  session st1 = snapSession st s /\
  st_selected st1 = s_selected s /\ st_legal st1 = s_legal s /\
  st_moves st1 = s_movesHTML s /\
  st_gameOver st1 = st_gameOver st /\ st_history st1 = st_history st /\
  grows st st1.
Proof.
  intros (Hb & Hw & Hk) ((Sb & Sbn) & (Sw & Swn1 & Swn2) & (Sk & Skn1 & Skn2)) H.
  apply restoreSnapshot_Ok in H.
  destruct H as (HB & HC & Eb & Et & Es & El & Ed & Eg & Ew & Ek & Eh & Em).
  assert (Hk' : default [] ((heapC st ++ [binAt st (s_byWhite s)]) !! s_byBlack s)
                = binAt st (s_byBlack s)).
  { unfold binAt. rewrite lookup_app_l by exact Sk. reflexivity. }
  rewrite Hk' in HC. clear Hk'.
  split; [|split; [|split; [|split; [|split; [|split]]]]]; auto.
  - unfold session, snapSession, curBoard, boardAt, binAt.
    rewrite HB, HC, Eb, Et, Ed, Ew, Ek.
    rewrite lookup_app_r by lia. rewrite Nat.sub_diag. cbn.
    rewrite cloneGrid_id.
    rewrite (lookup_app_l _ _ (length (heapC st))) by (rewrite length_app; cbn; lia).
    rewrite (lookup_app_r (heapC st)) by lia. rewrite Nat.sub_diag. cbn.
    rewrite lookup_app_r by (rewrite length_app; cbn; lia).
    rewrite length_app, Nat.add_1_r, Nat.sub_diag. cbn. reflexivity.
  - constructor; rewrite ?HB, ?HC, ?Eb, ?Ew, ?Ek, ?length_app; cbn; try lia; auto.
    + intros l Hl _. apply lookup_app_l. exact Hl.
    + intros l Hl _ _. rewrite !lookup_app_l; rewrite ?length_app; cbn; try lia.
      reflexivity.
Qed.

(** Taking a snapshot, writing into the live arrays, and restoring the
    snapshot leaves every variable with what it held. *)
Lemma snapshot_mutate_restore st s st1 st2 u st3 :
  valid st -> snapshot st = Ok s st1 -> mutates st1 st2 ->
  restoreSnapshot s st2 = Ok u st3 ->
  unchanged st st3 /\ grows st st3.
Proof.
  intros Hv Hs Hm Hr.
  destruct (snapshot_spec _ _ _ Hv Hs) as (Hok & Hss & Hsel & Hleg & Hmv & Hun & Hg).
  pose proof (grows_valid _ _ Hv Hg) as Hv1.
  pose proof (mutates_valid _ _ Hv1 Hm) as Hv2.
  destruct (snap_ok_grows _ _ _ Hok (mutates_grows _ _ Hm)) as [Hok2 Hss2].
  destruct (restore_spec _ _ _ _ Hv2 Hok2 Hr) as (Hse & Hsel3 & Hleg3 & Hmv3 & Hgo & Hh & Hg3).
  split.
  - destruct Hun. constructor; try congruence.
    + rewrite Hgo, (mu_gameOver _ _ Hm). assumption.
    + rewrite Hh, (mu_history _ _ Hm). assumption.
  - eapply grows_trans; [exact Hv|exact Hg|].
    eapply grows_trans; [exact Hv1|apply mutates_grows; exact Hm|exact Hg3].
Qed.

(** ** The legality filter *)

(** The move [genLegal(r,c)] hands to [applyMove] for the descriptor [m]. *)
Definition trial (r c : Z) (m : Meta) : Move := mkMove (r, c) (m_r m, m_c m) m.

(** The test of [genLegal] on one pseudo-legal move, on the board it would
    leave. *)
Definition safeAfter (g : Grid) (r c : Z) (color : Color) (m : Meta) : bool :=
  negb (inCheck (boardAfter g (trial r c m)) (lastDoubleAfter g (trial r c m)) color).

Lemma genLegalLoop_spec r c color pseudo : forall st lm st',
  valid st -> genLegalLoop r c color pseudo st = Ok lm st' ->
  unchanged st st' /\ grows st st' /\
  lm = List.filter (safeAfter (curBoard st) r c color) pseudo /\
  (forall m, In m pseudo -> applies (curBoard st) (trial r c m) = true).
Proof.
  induction pseudo as [|m rest IH]; intros st lm st' Hv H; cbn [genLegalLoop] in H.
  - run1 H. split; [apply unchanged_refl|split; [apply grows_refl|]].
    split; [reflexivity|intros m []].
  - apply bind_Ok in H as (snap & s1 & Hsnap & H).
    apply bind_Ok in H as (? & s2 & Happ & H).
    apply bind_Ok in H as (safe & s2' & Hsafe & H). run1 Hsafe.
    apply bind_Ok in H as (? & s3 & Hres & H).
    apply bind_Ok in H as (rest' & s4 & Hloop & H). run1 H.
    destruct (snapshot_spec _ _ _ Hv Hsnap) as (_ & _ & _ & _ & _ & Hun1 & Hg1).
    pose proof (grows_valid _ _ Hv Hg1) as Hv1.
    pose proof (applyMove_effect _ _ _ _ _ Hv1 Happ) as ((_ & Hm & Hb2 & Hl2 & _) & Hap).
    destruct (snapshot_mutate_restore _ _ _ _ _ _ Hv Hsnap Hm Hres) as [Hun3 Hg3].
    pose proof (grows_valid _ _ Hv Hg3) as Hv3.
    destruct (IH _ _ _ Hv3 Hloop) as (Hun4 & Hg4 & -> & Hall).
    assert (Hcur1 : curBoard s1 = curBoard st)
      by (pose proof (un_session _ _ Hun1) as E; injection E; auto).
    assert (Hcur3 : curBoard s3 = curBoard st)
      by (pose proof (un_session _ _ Hun3) as E; injection E; auto).
    split; [eapply unchanged_trans; eauto|].
    split; [eapply grows_trans; eauto|].
    split.
    + cbn [List.filter]. unfold safeAfter at 1. fold (trial r c m) in *.
      rewrite Hb2, Hl2, Hcur1, Hcur3. reflexivity.
    + intros m' [<-|Hin].
      * fold (trial r c m) in Hap. rewrite <- Hcur1. exact Hap.
      * rewrite <- Hcur3. apply Hall, Hin.
Qed.

Lemma genLegal_spec r c st lm st' :
  valid st -> genLegal r c st = Ok lm st' ->
  unchanged st st' /\ grows st st' /\
  lm = match at_ (curBoard st) r c with
       | Some p => List.filter (safeAfter (curBoard st) r c (pcolor p))
                               (genPseudo (curBoard st) (st_lastDouble st) r c false)
       | None => []
       end /\
  (forall m, In m lm -> applies (curBoard st) (trial r c m) = true).
Proof.
  intros Hv H. unfold genLegal in H. run1 H.
  destruct (at_ (curBoard st) r c) as [p|].
  - destruct (genLegalLoop_spec _ _ _ _ _ _ _ Hv R1) as (Hun & Hg & -> & Hall).
    repeat split; try apply Hun; try apply Hg.
    intros m Hin. apply Hall. apply filter_In in Hin. apply Hin.
  - run1 R1. split; [apply unchanged_refl|split; [apply grows_refl|]].
    split; [reflexivity|intros m []].
Qed.

Lemma anyLegalMoveLoop_spec color sqs : forall st b st',
  valid st -> anyLegalMoveLoop color sqs st = Ok b st' ->
  unchanged st st' /\ grows st st'.
Proof.
  induction sqs as [|sq rest IH]; intros st b st' Hv H; cbn [anyLegalMoveLoop] in H.
  - run1 H. split; [apply unchanged_refl|apply grows_refl].
  - apply bind_Ok in H as (p & s & Hp & H). run1 Hp.
    destruct (at_ (curBoard st) (fst sq) (snd sq)) as [q|]; [|eapply IH; eauto].
    destruct (bool_decide (pcolor q = color)); [|eapply IH; eauto].
    apply bind_Ok in H as (leg & s1 & Hleg & H).
    destruct (genLegal_spec _ _ _ _ _ Hv Hleg) as (Hun & Hg & _ & _).
    destruct leg.
    + destruct (IH _ _ _ (grows_valid _ _ Hv Hg) H) as [Hun2 Hg2].
      split; [eapply unchanged_trans; eauto|eapply grows_trans; eauto].
    + run1 H. split; assumption.
Qed.

Lemma gameStatus_spec color st s st' :
  valid st -> gameStatus color st = Ok s st' ->
  unchanged st st' /\ grows st st'.
Proof.
  intros Hv H. unfold gameStatus, anyLegalMove in H.
  apply bind_Ok in H as (b & s1 & Hb & H).
  destruct (anyLegalMoveLoop_spec _ _ _ _ _ Hv Hb) as [Hun Hg].
  destruct b; run1 H; split; assumption.
Qed.

(** The lookups of [render] change nothing. *)
Lemma drawPieces_Ok st u st' : drawPieces st = Ok u st' -> drawPieces st = Ok tt st.
Proof.
  unfold drawPieces, bind, gets. destruct (forallb _ squares); [reflexivity|discriminate].
Qed.

Lemma drawSelection_Ok st u st' : drawSelection st = Ok u st' -> drawSelection st = Ok tt st.
Proof.
  unfold drawSelection, bind, gets. destruct (st_selected st) as [s|]; [|reflexivity].
  destruct (child _); [|discriminate].
  destruct (forallb _ (st_legal st)); [reflexivity|discriminate].
Qed.

Lemma inBounds_child r c : inBounds r c = true -> child (r * 8 + c) = true.
Proof.
  unfold inBounds, child. intros H. apply andb_true_iff in H as [H Hc2].
  apply andb_true_iff in H as [H Hc1]. apply andb_true_iff in H as [Hr1 Hr2].
  apply andb_true_iff. lia.
Qed.

Lemma squares_inBounds sq : In sq squares -> inBounds (fst sq) (snd sq) = true.
Proof.
  unfold squares. intros H. apply in_flat_map in H as (r & Hr & H).
  apply in_map_iff in H as (c & <- & Hc). cbn [fst snd].
  unfold range8 in Hr, Hc. cbn [In] in Hr, Hc.
  assert (0 <= r < 8) by lia. assert (0 <= c < 8) by lia.
  unfold inBounds. repeat (apply andb_true_iff; split); lia.
Qed.

(** The king [kingPos] finds stands on the board. *)
Lemma drawCheck_run st : drawCheck st = Ok tt st.
Proof.
  unfold drawCheck, bind, gets.
  destruct (kingPos (curBoard st) (st_turn st)) as [k|] eqn:Ek; [|reflexivity].
  destruct (inCheck _ _ _); [|reflexivity].
  unfold kingPos in Ek. apply find_some in Ek as [Hin _].
  rewrite (inBounds_child _ _ (squares_inBounds _ Hin)). reflexivity.
Qed.

(** [render] by its parts. *)
Lemma render_Ok st u st' :
  render st = Ok u st' ->
  drawPieces st = Ok tt st /\ drawSelection st = Ok tt st /\ showStatus st = Ok u st'.
Proof.
  unfold render. intros H.
  apply bind_Ok in H as (u1 & s1 & H1 & H).
  pose proof (drawPieces_Ok _ _ _ H1) as E1. rewrite E1 in H1. injection H1 as _ <-.
  apply bind_Ok in H as (u2 & s2 & H2 & H).
  pose proof (drawSelection_Ok _ _ _ H2) as E2. rewrite E2 in H2. injection H2 as _ <-.
  apply bind_Ok in H as (u3 & s3 & H3 & H).
  rewrite drawCheck_run in H3. injection H3 as _ <-.
  auto.
Qed.

Lemma render_run st :
  drawPieces st = Ok tt st -> drawSelection st = Ok tt st ->
  render st = showStatus st.
Proof.
  intros E1 E2. unfold render.
  unfold bind at 1. rewrite E1. unfold bind at 1. rewrite E2.
  unfold bind at 1. rewrite drawCheck_run. reflexivity.
Qed.

(** [render] changes [gameOver] at most. *)
Lemma render_spec st u st' :
  valid st -> render st = Ok u st' ->
  session st' = session st /\ st_selected st' = st_selected st /\
  st_legal st' = st_legal st /\ st_history st' = st_history st /\
  st_moves st' = st_moves st /\ grows st st'.
Proof.
  intros Hv H. apply render_Ok in H as (_ & _ & H). unfold showStatus in H.
  apply bind_Ok in H as (t & s0 & Ht & H). run1 Ht.
  apply bind_Ok in H as (status & s1 & Hs & H).
  destruct (gameStatus_spec _ _ _ _ Hv Hs) as [[] Hg].
  assert (Hgo : forall b, grows st (set_gameOver b s1))
    by (intros b; destruct Hg; constructor; assumption).
  destruct status; run1 H; cbn; auto 10.
Qed.

(** ** When a simulated move runs to its end *)

Lemma at_Some_inBounds g r c p : at_ g r c = Some p -> inBounds r c = true.
Proof. unfold at_. destruct (inBounds r c); [reflexivity|discriminate]. Qed.

Lemma inBounds_iff r c : inBounds r c = true <-> 0 <= r < 8 /\ 0 <= c < 8.
Proof. unfold inBounds. rewrite !andb_true_iff. lia. Qed.

Lemma bind_run {A B} (m : M A) (k : A -> M B) st a s :
  m st = Ok a s -> bind m k st = k a s.
Proof. unfold bind. intros ->. reflexivity. Qed.

Lemma writeBoard_run r c v st :
  0 <= r < 8 -> writeBoard r c v st = Ok tt (withBoard (setCell (curBoard st) r c v) st).
Proof.
  intros H. unfold writeBoard.
  replace ((0 <=? r) && (r <? 8)) with true by (symmetry; apply andb_true_iff; lia).
  reflexivity.
Qed.

Lemma readBoard_run r c st :
  0 <= r < 8 -> readBoard r c st = Ok (getCell (curBoard st) r c) st.
Proof.
  intros H. unfold readBoard.
  replace ((0 <=? r) && (r <? 8)) with true by (symmetry; apply andb_true_iff; lia).
  reflexivity.
Qed.

Lemma valid_withBoard g st : valid st -> valid (withBoard g st).
Proof. intros Hv. eapply mutates_valid; [exact Hv|apply mutates_withBoard]. Qed.

Lemma capture_sim piece (target : Cell) st :
  match target with
  | Some q => when (negb true) (recordCapture piece q)
  | None => ret tt
  end st = Ok tt st.
Proof. destruct target; reflexivity. Qed.

Lemma epCapture_sim (ep : bool) (m : M unit) st : when (ep && negb true) m st = Ok tt st.
Proof. destruct ep; reflexivity. Qed.

Lemma applyMove_sim_returns mv st :
  valid st -> applies (curBoard st) mv = true ->
  returns (applyMove mv true st) = true.
Proof.
  intros Hv Ha. unfold applies in Ha.
  destruct (at_ (curBoard st) (fst (from mv)) (snd (from mv))) as [p|] eqn:Hp;
    [|discriminate].
  apply andb_true_iff in Ha as [Hto Hl].
  assert (Hto' : 0 <= fst (to mv) < 8) by (apply andb_true_iff in Hto; lia).
  assert (Hfrom : 0 <= fst (from mv) < 8)
    by (apply at_Some_inBounds, inBounds_iff in Hp; lia).
  clear Hto.
  destruct (landedCell (curBoard st) mv) as [q|] eqn:Hq; [|discriminate]. clear Hl.
  unfold landedCell, castled in Hq. cbv zeta in Hq. rewrite Hp in Hq.
  assert (Hv' : forall g s, valid s -> valid (withBoard g s))
    by (intros; apply valid_withBoard; assumption).
  unfold applyMove. cbv zeta.
  unfold when, bind, gets, ret, modify. cbn [negb]. rewrite andb_false_r, Hp.
  cbv beta iota.
  destruct (at_ (curBoard st) (fst (to mv)) (snd (to mv))) as [target|];
    destruct (m_ep (meta mv)); destruct (m_castle (meta mv)) as [[|]|].
  all: repeat (rewrite ?writeBoard_run, ?readBoard_run by lia; cbv beta iota;
               rewrite ?curBoard_withBoard by auto).
  all: destruct ((0 <=? snd (to mv)) && (snd (to mv) <? 8)).
  all: repeat (rewrite ?writeBoard_run, ?readBoard_run by lia; cbv beta iota;
               rewrite ?curBoard_withBoard by auto).
  all: rewrite Hq; cbv beta iota.
  all: destruct (bool_decide (ptype q = Pawn) && ((fst (to mv) =? 0) || (fst (to mv) =? 7))).
  all: repeat (rewrite ?writeBoard_run, ?readBoard_run by lia; cbv beta iota;
               rewrite ?curBoard_withBoard by auto).
  all: destruct (bool_decide (ptype p = Pawn) && m_double (meta mv)); reflexivity.
Qed.

(** * The claims *)

Lemma started_is_init : init declared = Ok tt started.
Proof. vm_compute. reflexivity. Qed.

Lemma valid_started : valid started.
Proof. unfold valid. vm_compute. repeat split; repeat constructor. Qed.

(** C8.  Computing [genLegal] for any square leaves the session as it was:
    when [genLegal] returns, the board, the turn, the en-passant target
    [lastDouble] and both capture bins hold what they held before the call.
    Every probing [applyMove] writes into the live board, and
    [restoreSnapshot] puts back a copy of the snapshot taken before it. *)
Theorem genLegal_leaves_session_unchanged r c st lm st' :
  valid st -> genLegal r c st = Ok lm st' -> session st' = session st.
Proof.
  intros Hv H. destruct (genLegal_spec _ _ _ _ _ Hv H) as (Hun & _).
  apply Hun.
Qed.

Lemma genLegal_leaves_session_unchanged_witness :
  returns (genLegal 6 4 started) = true /\
  session (stateOf (genLegal 6 4 started)) = session started.
Proof.
  split; [vm_compute; reflexivity|].
  destruct (genLegal 6 4 started) as [lm st'|st'] eqn:E.
  - cbn [stateOf].
    exact (genLegal_leaves_session_unchanged 6 4 started lm st' valid_started E).
  - vm_compute in E. discriminate E.
Defined.

(** C1.  For every board, every occupied square and every move in the list
    [genLegal] returns for that square: applying the move to that board runs
    to its end, and afterwards [inCheck] for the mover's color is false,
    whether the move is applied as a simulation or for good. *)
Theorem genLegal_moves_keep_own_king_safe r c st p lm st' :
  valid st -> at_ (curBoard st) r c = Some p -> genLegal r c st = Ok lm st' ->
  forall m, In m lm ->
    returns (applyMove (trial r c m) true st') = true /\
    forall sim s u s',
      valid s -> curBoard s = curBoard st ->
      applyMove (trial r c m) sim s = Ok u s' ->
      inCheck (curBoard s') (st_lastDouble s') (pcolor p) = false.
Proof.
  intros Hv Hp H m Hin.
  destruct (genLegal_spec _ _ _ _ _ Hv H) as (Hun & Hg & Hlm & Hap).
  rewrite Hp in Hlm.
  assert (Hcur : curBoard st' = curBoard st)
    by (pose proof (un_session _ _ Hun) as E; injection E; auto).
  split.
  - apply applyMove_sim_returns; [eapply grows_valid; eauto|].
    rewrite Hcur. apply Hap, Hin.
  - intros sim s u s' Hvs Hs Happ.
    destruct (applyMove_effect _ _ _ _ _ Hvs Happ) as ((_ & _ & Hb & Hl & _) & _).
    rewrite Hb, Hl, Hs. subst lm. apply filter_In in Hin as [_ Hsafe].
    unfold safeAfter in Hsafe. apply negb_true_iff in Hsafe. exact Hsafe.
Qed.

Lemma genLegal_moves_keep_own_king_safe_witness :
  inCheck (curBoard (stateOf (applyMove (trial 6 4 (mkMeta 4 4 false true false None))
                                        false started)))
          (st_lastDouble (stateOf (applyMove (trial 6 4 (mkMeta 4 4 false true false None))
                                             false started)))
          White = false.
Proof.
  destruct (genLegal 6 4 started) as [lm st'|st'] eqn:E;
    [|vm_compute in E; discriminate E].
  destruct (applyMove (trial 6 4 (mkMeta 4 4 false true false None)) false started)
    as [u s'|s'] eqn:A; [|vm_compute in A; discriminate A].
  cbn [stateOf].
  assert (Hin : In (mkMeta 4 4 false true false None) lm).
  { vm_compute in E. injection E as <- _. right; left; reflexivity. }
  exact (proj2 (genLegal_moves_keep_own_king_safe 6 4 started
                  (mkPiece Pawn White false) lm st' valid_started eq_refl E
                  (mkMeta 4 4 false true false None) Hin)
               false started u s' valid_started eq_refl A).
Defined.

(** ** Fool's mate *)

Definition foolsMate : list Event :=
  [Click 6 5; Click 5 5;    (* f2-f3 *)
   Click 1 4; Click 3 4;    (* e7-e5 *)
   Click 6 6; Click 4 6;    (* g2-g4 *)
   Click 0 3; Click 4 7].   (* Qd8-h4 *)

Definition resultOf {A} (o : Outcome A) : option A :=
  match o with Ok a _ => Some a | Throw _ => None end.

(** C4.  From the initial position, after f2-f3, e7-e5, g2-g4 and Black's queen
    d8-h4 have been committed (four snapshots on the history stack, the queen
    on h4, White to move), [gameStatus('w')] returns checkmate. *)
Theorem fools_mate_is_checkmate :
  returns (play foolsMate started) = true /\
  length (st_history (stateOf (play foolsMate started))) = 4%nat /\
  at_ (curBoard (stateOf (play foolsMate started))) 4 7
    = Some (mkPiece Queen Black true) /\
  st_turn (stateOf (play foolsMate started)) = White /\
  resultOf (gameStatus White (stateOf (play foolsMate started))) = Some Checkmate.
Proof. vm_compute. repeat split; reflexivity. Qed.

(** ** A side without a king *)

Lemma inCheck_no_king board lastDouble color :
  kingPos board color = None -> inCheck board lastDouble color = false.
Proof. unfold inCheck. intros ->. reflexivity. Qed.

(** A position by itself: the variables as declared, with [g] for board. *)
Definition position (g : Grid) (t : Color) : State :=
  mkState [g] [ []; [] ] 0%nat t None [] None false 0%nat 1%nat [] [].

Lemma valid_position g t : valid (position g t).
Proof. unfold valid. cbn. lia. Qed.

(** C9.  On a board where a color has no king, [inCheck] for that color
    returns false; so [gameStatus] for that color never returns checkmate, and
    returns stalemate when [anyLegalMove] finds no legal move. *)
Theorem kingless_side_is_never_checkmated st color :
  valid st -> kingPos (curBoard st) color = None ->
  inCheck (curBoard st) (st_lastDouble st) color = false /\
  forall s st', gameStatus color st = Ok s st' ->
    s <> Checkmate /\
    (resultOf (anyLegalMove color st) = Some false -> s = Stalemate).
Proof.
  intros Hv Hk. split; [apply inCheck_no_king, Hk|].
  intros s st' H. unfold gameStatus in H.
  apply bind_Ok in H as (b & s1 & Hb & H).
  destruct (anyLegalMoveLoop_spec _ _ _ _ _ Hv Hb) as [Hun _].
  pose proof (unchanged_board _ _ Hun) as Eb.
  pose proof (unchanged_lastDouble _ _ Hun) as El.
  unfold anyLegalMove in *. rewrite Hb. cbn [resultOf].
  destruct b.
  - run1 H. split; [discriminate|discriminate].
  - run1 H. rewrite Eb, El, (inCheck_no_king _ _ _ Hk).
    split; [discriminate|reflexivity].
Qed.

(** White has a lone pawn on a2, blocked by the black king on a3. *)
Definition kinglessBoard : Grid :=
  [ replicate 8 None; replicate 8 None; replicate 8 None; replicate 8 None;
    replicate 8 None;
    [Some (mkPiece King Black true); None; None; None; None; None; None; None];
    [Some (mkPiece Pawn White false); None; None; None; None; None; None; None];
    replicate 8 None ].

Lemma kingless_side_is_never_checkmated_witness :
  inCheck kinglessBoard None White = false /\
  resultOf (gameStatus White (position kinglessBoard White)) = Some Stalemate.
Proof.
  destruct (kingless_side_is_never_checkmated (position kinglessBoard White) White
              (valid_position _ _) eq_refl) as [H1 H2].
  split; [exact H1|].
  destruct (gameStatus White (position kinglessBoard White)) as [s st'|st'] eqn:E;
    [|vm_compute in E; discriminate E].
  cbn [resultOf]. f_equal. apply (H2 s st' eq_refl). vm_compute. reflexivity.
Defined.

(** ** Castling *)

Lemma in_range8 r : 0 <= r < 8 -> In r range8.
Proof.
  intros H. unfold range8.
  assert (E : r = 0 \/ r = 1 \/ r = 2 \/ r = 3 \/ r = 4 \/ r = 5 \/ r = 6 \/ r = 7) by lia.
  cbn. intuition.
Qed.

Lemma in_squares r c : inBounds r c = true -> In (r, c) squares.
Proof.
  intros H. apply inBounds_iff in H as [Hr Hc].
  unfold squares. apply in_flat_map. exists r. split; [apply in_range8, Hr|].
  apply in_map, in_range8, Hc.
Qed.

Lemma empty_getCell board r c : empty board r c = true -> getCell board r c = None.
Proof.
  unfold empty. destruct (inBounds r c); [|discriminate].
  destruct (getCell board r c); [discriminate|reflexivity].
Qed.

(** A piece of color [color] standing on [(r, c)] with a move to [(r', c')]
    in attack mode attacks that square. *)
Lemma attacksSquare_intro board lastDouble color r c p m r' c' :
  at_ board r c = Some p -> pcolor p = color ->
  In m (pseudoMoves board lastDouble r c true) -> m_r m = r' -> m_c m = c' ->
  attacksSquare board lastDouble color r' c' = true.
Proof.
  intros Hp Hc Hin Hr Hcc. unfold attacksSquare.
  apply existsb_exists. exists (r, c). split.
  - apply in_squares. eapply at_Some_inBounds; eauto.
  - cbn [fst snd]. unfold at_ in Hp.
    destruct (inBounds r c); [|discriminate]. rewrite Hp.
    apply andb_true_iff. split; [apply bool_decide_eq_true; exact Hc|].
    apply existsb_exists. exists m. split; [exact Hin|].
    apply andb_true_iff. split; apply Z.eqb_eq; assumption.
Qed.

(** A ray passes over an empty square. *)
Lemma ray_over_empty board fuel color rr cc dr dc :
  inBounds rr cc = true -> getCell board rr cc = None ->
  ray board (S fuel) color rr cc dr dc
  = plainMove rr cc false :: ray board fuel color (rr + dr) (cc + dc) dr dc.
Proof. intros Hb Hc. cbn [ray]. rewrite Hb, Hc. reflexivity. Qed.

(** A rook on a corner of a back rank attacks the square next to the king's
    file when the squares between are empty. *)
Lemma corner_rook_attacks board lastDouble row side rook :
  (row = 0 \/ row = 7) ->
  at_ board row (match side with KSide => 7 | QSide => 0 end) = Some rook ->
  ptype rook = Rook ->
  forallb (fun c => empty board row c)
          (colsUntil 8 (4 + match side with KSide => 1 | QSide => -1 end)
                     (match side with KSide => 7 | QSide => 0 end)
                     (match side with KSide => 1 | QSide => -1 end)) = true ->
  attacksSquare board lastDouble (pcolor rook) row
                (4 + match side with KSide => 1 | QSide => -1 end) = true.
Proof.
  intros Hrow Hrook Ht Hempty.
  assert (Hin : forall c, 0 <= c < 8 -> inBounds row c = true)
    by (intros c Hc; apply inBounds_iff; lia).
  eapply attacksSquare_intro with (m := plainMove row _ false);
    [exact Hrook|reflexivity| |reflexivity|reflexivity].
  unfold pseudoMoves. rewrite Hrook, Ht. unfold rays. apply in_flat_map.
  destruct side;
    [change (colsUntil 8 (4 + 1) 7 1) with [5; 6] in Hempty
    |change (colsUntil 8 (4 + -1) 0 (-1)) with [3; 2; 1] in Hempty];
    cbn [forallb] in Hempty; rewrite !andb_true_iff in Hempty.
  - exists (0, -1). split; [cbn; auto|]. cbn [fst snd].
    destruct Hempty as (H5 & H6 & _). apply empty_getCell in H5, H6.
    replace (row + 0) with row by lia. change (7 + -1) with 6. change (4 + 1) with 5.
    rewrite ray_over_empty by auto using Hin with lia.
    replace (row + 0) with row by lia. change (6 + -1) with 5.
    rewrite ray_over_empty by auto using Hin with lia.
    right; left; reflexivity.
  - exists (0, 1). split; [cbn; auto|]. cbn [fst snd].
    destruct Hempty as (H3 & H2 & H1 & _). apply empty_getCell in H3, H2, H1.
    replace (row + 0) with row by lia. change (0 + 1) with 1. change (4 + -1) with 3.
    rewrite ray_over_empty by auto using Hin with lia.
    replace (row + 0) with row by lia. change (1 + 1) with 2.
    rewrite ray_over_empty by auto using Hin with lia.
    replace (row + 0) with row by lia. change (2 + 1) with 3.
    rewrite ray_over_empty by auto using Hin with lia.
    right; right; left; reflexivity.
Qed.

(** With a piece of the opposing color on the rook's corner, [canCastle]
    returns false. *)
Lemma canCastle_opposing_corner board lastDouble color side rook :
  at_ board (if bool_decide (color = White) then 7 else 0)
            (match side with KSide => 7 | QSide => 0 end) = Some rook ->
  pcolor rook = opponent color ->
  canCastle board lastDouble color side = false.
Proof.
  intros Hrook Hc. unfold canCastle. rewrite Hrook.
  destruct (at_ board _ 4) as [king|]; [|reflexivity].
  destruct (bool_decide (ptype king = King)); [|reflexivity].
  destruct (bool_decide (ptype rook = Rook)) eqn:Ht; [|reflexivity].
  destruct (pmoved king); [reflexivity|].
  destruct (pmoved rook); [reflexivity|]. cbn [negb orb].
  destruct (forallb _ (colsUntil 8 (4 + _) _ _)) eqn:Hempty; [|reflexivity].
  cbn [negb].
  apply bool_decide_eq_true in Ht.
  assert (Hrow : (if bool_decide (color = White) then 7 else 0) = 0 \/
                 (if bool_decide (color = White) then 7 else 0) = 7)
    by (destruct (bool_decide (color = White)); auto).
  pose proof (corner_rook_attacks board lastDouble _ side rook Hrow Hrook Ht Hempty) as Ha.
  rewrite Hc in Ha.
  destruct side;
    [change (colsUntil 8 4 (4 + 2 * 1) 1) with [4; 4 + 1]
    |change (colsUntil 8 4 (4 + 2 * -1) (-1)) with [4; 4 + -1]];
    cbn [forallb]; rewrite Ha; cbn [negb andb]; apply andb_false_r.
Qed.

(** The home row of a color in [canCastle], and the rook's file of a side. *)
Definition homeRow (color : Color) : Z := if bool_decide (color = White) then 7 else 0.
Definition rookFile (side : Side) : Z := match side with KSide => 7 | QSide => 0 end.
Definition kingStep (side : Side) : Z := match side with KSide => 1 | QSide => -1 end.

(** C10, as the claim states it, has no instance: there is no board with a
    king of the castling color on its home square, an unmoved rook of the
    opposing color on the corner, the squares between them empty and the
    king's path unattacked, on which [canCastle] returns true. *)
Lemma no_castling_with_opposing_rook :
  ~ exists board lastDouble color side king rook,
      at_ board (homeRow color) 4 = Some king /\
      ptype king = King /\ pcolor king = color /\ pmoved king = false /\
      at_ board (homeRow color) (rookFile side) = Some rook /\
      ptype rook = Rook /\ pcolor rook = opponent color /\ pmoved rook = false /\
      (forall c, Z.min 4 (rookFile side) < c < Z.max 4 (rookFile side) ->
                 empty board (homeRow color) c = true) /\
      attacksSquare board lastDouble (opponent color) (homeRow color) 4 = false /\
      attacksSquare board lastDouble (opponent color) (homeRow color)
                    (4 + kingStep side) = false /\
      canCastle board lastDouble color side = true.
Proof.
  intros (board & lastDouble & color & side & king & rook & H).
  destruct H as (_ & _ & _ & _ & Hrook & _ & Hc & _ & _ & _ & _ & Hcan).
  rewrite (canCastle_opposing_corner _ _ _ _ _ Hrook Hc) in Hcan. discriminate.
Qed.

(** C10, as the code has it.  [canCastle] does not look at the color of the
    piece on the rook's corner, and with a piece of the opposing color there
    it returns false on every board: if that piece is an unmoved rook and the
    squares between it and the king's file are empty, it attacks the square
    the king would cross.  So no castling move is generated with an opposing
    rook. *)
Theorem canCastle_false_with_opposing_rook board lastDouble color side rook :
  at_ board (homeRow color) (rookFile side) = Some rook ->
  pcolor rook = opponent color ->
  canCastle board lastDouble color side = false.
Proof. apply canCastle_opposing_corner. Qed.

(** White king e1 and Black rook h1, both unmoved, f1 and g1 empty. *)
Definition opposingRookBoard : Grid :=
  [ [Some (mkPiece King Black false); None; None; None; None; None; None; None];
    replicate 8 None; replicate 8 None; replicate 8 None;
    replicate 8 None; replicate 8 None; replicate 8 None;
    [None; None; None; None; Some (mkPiece King White false); None; None;
     Some (mkPiece Rook Black false)] ].

Lemma canCastle_false_with_opposing_rook_witness :
  canCastle opposingRookBoard None White KSide = false.
Proof.
  apply (canCastle_false_with_opposing_rook opposingRookBoard None White KSide
           (mkPiece Rook Black false)); reflexivity.
Defined.

(** Only lines 180-181 of [genPseudo] push a castling move. *)
Lemma ray_no_castle board fuel color dr dc m : forall rr cc,
  In m (ray board fuel color rr cc dr dc) -> m_castle m = None.
Proof.
  induction fuel as [|k IH]; intros rr cc; cbn [ray]; [intros []|].
  destruct (inBounds rr cc); [|intros []].
  destruct (getCell board rr cc) as [q|].
  - destruct (negb _); [intros [<-|[]]; reflexivity|intros []].
  - intros [<-|H]; [reflexivity|eapply IH; eauto].
Qed.

(** Membership in a list built by a conditional push. *)
Ltac in_if H :=
  match type of H with
  | In _ (if ?b then _ else _) => destruct b; [cbn [In] in H|destruct H]
  end.

Lemma pseudoMoves_no_castle board lastDouble r c forAttack m :
  In m (pseudoMoves board lastDouble r c forAttack) -> m_castle m = None.
Proof.
  unfold pseudoMoves. destruct (at_ board r c) as [p|]; [|intros []].
  assert (Hrays : forall dirs, In m (rays board (pcolor p) r c dirs) -> m_castle m = None).
  { intros dirs H. unfold rays in H. apply in_flat_map in H as (d & _ & H).
    eapply ray_no_castle; eauto. }
  assert (Hsteps : forall ds, In m (steps board (pcolor p) r c ds) -> m_castle m = None).
  { intros ds H. unfold steps in H. apply in_flat_map in H as (d & _ & H).
    cbv zeta in H. in_if H. destruct H as [<-|[]]; reflexivity. }
  destruct (ptype p); try apply Hrays; try apply Hsteps; [|intros []].
  unfold pawnMoves. cbv zeta. rewrite !in_app_iff. intros [H|[H|H]].
  - in_if H. in_if H.
    destruct H as [<-|H]; [reflexivity|].
    in_if H. destruct H as [<-|[]]; reflexivity.
  - apply in_flat_map in H as (d & _ & H).
    cbv zeta in H. in_if H. destruct H as [<-|[]]; reflexivity.
  - destruct lastDouble as [l|]; [|destruct H].
    in_if H. destruct H as [<-|[]]; reflexivity.
Qed.

(** White may castle king-side by [canCastle], and Black's rook on g8 attacks
    g1, where the king would land. *)
Definition castleIntoCheckBoard : Grid :=
  [ [Some (mkPiece King Black false); None; None; None; None; None;
     Some (mkPiece Rook Black true); None];
    replicate 8 None; replicate 8 None; replicate 8 None;
    replicate 8 None; replicate 8 None; replicate 8 None;
    [None; None; None; None; Some (mkPiece King White false); None; None;
     Some (mkPiece Rook White false)] ].


(** On this board the legality filter rejects that move. *)
Example castling_onto_attacked_square_is_filtered :
  resultOf (genLegal 7 4 (position castleIntoCheckBoard White))
  = Some [plainMove 6 3 false; plainMove 6 4 false; plainMove 6 5 false;
          plainMove 7 3 false; plainMove 7 5 false].
Proof. vm_compute. reflexivity. Qed.

(** A castling move comes from lines 179-181. *)
Lemma castling_conditions board lastDouble r c forAttack m side :
  In m (genPseudo board lastDouble r c forAttack) -> m_castle m = Some side ->
  exists p,
    at_ board r c = Some p /\
    canCastle board lastDouble (pcolor p) side = true /\
    forAttack = false /\ ptype p = King /\ pmoved p = false /\
    inCheck board lastDouble (pcolor p) = false /\
    m = mkMeta r (c + 2 * kingStep side) false false false (Some side).
Proof.
  unfold genPseudo. destruct (at_ board r c) as [p|] eqn:Hp; [|intros []].
  cbv zeta. rewrite in_app_iff. intros [H|H] Hm.
  { apply pseudoMoves_no_castle in H. congruence. }
  destruct (bool_decide (ptype p = King)) eqn:Hk; [|destruct H].
  apply bool_decide_eq_true in Hk.
  destruct forAttack; [destruct H|]. cbn [negb andb] in H.
  destruct (pmoved p) eqn:Hmv; [destruct H|]. cbn [negb andb] in H.
  destruct (inCheck board lastDouble (pcolor p)) eqn:Hchk; [destruct H|].
  cbn [negb] in H.
  exists p. split; [reflexivity|].
  apply in_app_iff in H as [H|H].
  - destruct (canCastle _ _ _ KSide) eqn:E; [|destruct H].
    destruct H as [<-|[]]. cbn in Hm. injection Hm as <-. auto 10.
  - destruct (canCastle _ _ _ QSide) eqn:E; [|destruct H].
    destruct H as [<-|[]]. cbn in Hm. injection Hm as <-. auto 10.
Qed.



(** ** Clicks *)

(** Whether the square clicked holds a piece of the side to move. *)
Definition ownPiece (st : State) (r c : Z) : bool :=
  match at_ (curBoard st) r c with
  | Some q => bool_decide (pcolor q = st_turn st)
  | None => false
  end.

(** The move a click on [(r, c)] commits, with the square it starts from, when
    the click commits one: the game is not over, a square is selected, the
    square clicked holds no piece of the side to move, and [legal] has a move
    to it. *)
Definition committed (r c : Z) (st : State) : option (Z * Z * Meta) :=
  if st_gameOver st then None
  else match st_selected st with
       | None => None
       | Some s =>
           if ownPiece st r c then None
           else match find (fun m => (m_r m =? r) && (m_c m =? c)) (st_legal st) with
                | Some mv => Some (s, mv)
                | None => None
                end
       end.

(** The history stack holds snapshots that own their arrays. *)
Definition hist_ok (st : State) : Prop :=
  forall s, In s (st_history st) -> snap_ok st s.

Lemma hist_ok_grows st st' :
  hist_ok st -> grows st st' -> st_history st' = st_history st ->
  hist_ok st' /\ historySessions st' = historySessions st.
Proof.
  intros Hh Hg Eh. split.
  - intros s Hs. rewrite Eh in Hs. apply (snap_ok_grows _ _ _ (Hh s Hs) Hg).
  - unfold historySessions. rewrite Eh. apply map_ext_in.
    intros s Hs. apply (snap_ok_grows _ _ _ (Hh s Hs) Hg).
Qed.

(** The part of [onSquareClick] that selects a square. *)
Lemma select_spec r c st u st' :
  valid st ->
  (modify (set_selected (Some (r, c))) ;;;
   lg <- genLegal r c ;;
   modify (set_legal lg) ;;;
   render) st = Ok u st' ->
  session st' = session st /\ st_history st' = st_history st /\
  st_moves st' = st_moves st /\ grows st st'.
Proof.
  intros Hv H.
  apply bind_Ok in H as (? & s1 & H1 & H). run1 H1.
  apply bind_Ok in H as (lg & s2 & H2 & H).
  apply bind_Ok in H as (? & s3 & H3 & H). run1 H3.
  assert (Hv1 : valid (set_selected (Some (r, c)) st)) by exact Hv.
  destruct (genLegal_spec _ _ _ _ _ Hv1 H2) as (Hun & Hg & _ & _).
  assert (Hv2 : valid (set_legal lg s2)) by (eapply grows_valid in Hg; eauto).
  destruct (render_spec _ _ _ Hv2 H) as (Es & _ & _ & Eh & Em & Hg').
  destruct Hun.
  split; [|split; [|split]].
  - rewrite Es. exact un_session0.
  - rewrite Eh. exact un_history0.
  - rewrite Em. exact un_moves0.
  - eapply grows_trans; [exact Hv| |exact Hg'].
    destruct Hg. constructor; assumption.
Qed.

(** A click that commits no move leaves the session, the history stack and the
    move list as they were. *)
Lemma click_not_committed r c st u st' :
  valid st -> committed r c st = None -> onSquareClick r c st = Ok u st' ->
  session st' = session st /\ st_history st' = st_history st /\
  st_moves st' = st_moves st /\ grows st st'.
Proof.
  intros Hv Hc H. unfold onSquareClick in H. unfold committed, ownPiece in Hc.
  apply bind_Ok in H as (over & s0 & H0 & H). run1 H0.
  destruct (st_gameOver st).
  { run1 H. auto using grows_refl. }
  apply bind_Ok in H as (cp & s0 & H0 & H). run1 H0.
  apply bind_Ok in H as (sel & s0 & H0 & H). run1 H0.
  apply bind_Ok in H as (t & s0 & H0 & H). run1 H0.
  cbv zeta in H.
  destruct (st_selected st) as [s|].
  - destruct (match at_ (curBoard st) r c with
              | Some q => bool_decide (pcolor q = st_turn st)
              | None => false
              end).
    + eapply select_spec; eauto.
    + apply bind_Ok in H as (lg & s0 & H0 & H). run1 H0.
      destruct (find _ (st_legal st)) as [mv|]; [discriminate|].
      apply bind_Ok in H as (? & s1 & H1 & H). run1 H1.
      apply bind_Ok in H as (? & s2 & H2 & H). run1 H2.
      assert (Hv2 : valid (set_legal [] (set_selected None st))) by exact Hv.
      destruct (render_spec _ _ _ Hv2 H) as (Es & _ & _ & Eh & Em & Hg).
      split; [|split; [|split]]; auto. destruct Hg. constructor; assumption.
  - destruct (match at_ (curBoard st) r c with
              | Some q => bool_decide (pcolor q = st_turn st)
              | None => false
              end).
    + eapply select_spec; eauto.
    + run1 H. auto using grows_refl.
Qed.

(** C7.  With a square selected, a click on a square to which [legal] holds no
    move is no move: when the handler returns, the board, the turn, the
    capture bins, the en-passant target and the history stack hold what they
    held; and unless the square clicked holds a piece of the side to move
    (which is selected instead) the selection is cleared. *)
Theorem click_outside_legal_changes_nothing r c st s u st' :
  valid st -> hist_ok st ->
  st_selected st = Some s ->
  find (fun m => (m_r m =? r) && (m_c m =? c)) (st_legal st) = None ->
  onSquareClick r c st = Ok u st' ->
  session st' = session st /\
  historySessions st' = historySessions st /\
  length (st_history st') = length (st_history st) /\
  (st_gameOver st = false -> ownPiece st r c = false ->
   st_selected st' = None /\ st_legal st' = []).
Proof.
  intros Hv Hh Hs Hf H.
  assert (Hc : committed r c st = None).
  { unfold committed. rewrite Hs, Hf.
    destruct (st_gameOver st), (ownPiece st r c); reflexivity. }
  destruct (click_not_committed _ _ _ _ _ Hv Hc H) as (Es & Eh & _ & Hg).
  split; [exact Es|]. split; [apply (hist_ok_grows _ _ Hh Hg Eh)|].
  split; [rewrite Eh; reflexivity|].
  intros Hgo Hown. unfold onSquareClick in H. unfold ownPiece in Hown.
  apply bind_Ok in H as (over & s0 & H0 & H). run1 H0. rewrite Hgo in H.
  apply bind_Ok in H as (cp & s0 & H0 & H). run1 H0.
  apply bind_Ok in H as (sel & s0 & H0 & H). run1 H0.
  apply bind_Ok in H as (t & s0 & H0 & H). run1 H0.
  cbv zeta in H. rewrite Hs, Hown in H.
  apply bind_Ok in H as (lg & s0 & H0 & H). run1 H0. rewrite Hf in H.
  apply bind_Ok in H as (? & s1 & H1 & H). run1 H1.
  apply bind_Ok in H as (? & s2 & H2 & H). run1 H2.
  assert (Hv2 : valid (set_legal [] (set_selected None st))) by exact Hv.
  destruct (render_spec _ _ _ Hv2 H) as (_ & Esel & Eleg & _).
  split; assumption.
Qed.

(** A click that commits a move: the snapshot of the session before the move
    is on top of the history stack, the board and [lastDouble] are what
    [applyMove] made of them, and the turn has passed. *)
Lemma click_committed r c st s mv u st' :
  valid st -> committed r c st = Some (s, mv) -> onSquareClick r c st = Ok u st' ->
  exists snap,
    st_history st' = snap :: st_history st /\
    snap_ok st' snap /\ snapSession st' snap = session st /\
    curBoard st' = boardAfter (curBoard st) (mkMove s (r, c) mv) /\
    st_lastDouble st' = lastDoubleAfter (curBoard st) (mkMove s (r, c) mv) /\
    st_turn st' = opponent (st_turn st) /\
    applies (curBoard st) (mkMove s (r, c) mv) = true /\
    grows st st'.
Proof.
  intros Hv Hc H. unfold onSquareClick in H. unfold committed, ownPiece in Hc.
  apply bind_Ok in H as (over & s0 & H0 & H). run1 H0.
  destruct (st_gameOver st); [discriminate|].
  apply bind_Ok in H as (cp & s0 & H0 & H). run1 H0.
  apply bind_Ok in H as (sel & s0 & H0 & H). run1 H0.
  apply bind_Ok in H as (t & s0 & H0 & H). run1 H0.
  cbv zeta in H.
  destruct (st_selected st) as [s'|]; [|discriminate].
  destruct (match at_ (curBoard st) r c with
            | Some q => bool_decide (pcolor q = st_turn st)
            | None => false
            end); [discriminate|].
  apply bind_Ok in H as (lg & s0 & H0 & H). run1 H0.
  destruct (find _ (st_legal st)) as [mv'|]; [|discriminate].
  injection Hc as -> ->.
  apply bind_Ok in H as (snap & s1 & Hsnap & H).
  apply bind_Ok in H as (? & s1' & H1 & H). run1 H1.
  apply bind_Ok in H as (? & s2 & Happ & H).
  apply bind_Ok in H as (? & s3 & H3 & H). run1 H3.
  apply bind_Ok in H as (? & s4 & H4 & H). run1 H4.
  apply bind_Ok in H as (? & s5 & H5 & H). run1 H5.
  destruct (snapshot_spec _ _ _ Hv Hsnap) as (Hok & Hss & _ & _ & _ & Hun1 & Hg1).
  pose proof (grows_valid _ _ Hv Hg1) as Hv1.
  set (s1' := set_history (snap :: st_history s1) s1) in *.
  assert (Hv1' : valid s1') by exact Hv1.
  destruct (applyMove_effect _ _ _ _ _ Hv1' Happ) as ((Hv2 & Hm & Hb2 & Hl2 & _) & Hap).
  assert (Hcur1 : curBoard s1' = curBoard st) by (apply (unchanged_board _ _ Hun1)).
  rewrite Hcur1 in Hb2, Hl2, Hap.
  set (s3 := set_legal [] (set_selected None (set_turn (opponent (st_turn s2)) s2))) in *.
  assert (Hv3 : valid s3) by exact Hv2.
  destruct (render_spec _ _ _ Hv3 H) as (Es & _ & _ & Eh & _ & Hg3).
  assert (Hg13 : grows s1 st').
  { apply (grows_trans s1 s2 st'); [exact Hv1| |].
    - destruct (mutates_grows s1' s2 Hm). constructor; assumption.
    - destruct Hg3. constructor; assumption. }
  exists snap.
  destruct (snap_ok_grows _ _ _ Hok Hg13) as [Hok' Hss'].
  pose proof (f_equal ss_board Es) as Eb. pose proof (f_equal ss_lastDouble Es) as El.
  pose proof (f_equal ss_turn Es) as Et. cbn in Eb, El, Et.
  split; [|split; [|split; [|split; [|split; [|split; [|split]]]]]].
  - rewrite Eh. cbn. rewrite (mu_history _ _ Hm). cbn.
    rewrite (un_history _ _ Hun1). reflexivity.
  - exact Hok'.
  - rewrite Hss'. exact Hss.
  - rewrite Eb. exact Hb2.
  - rewrite El. exact Hl2.
  - rewrite Et. rewrite (mu_turn _ _ Hm). cbn.
    pose proof (f_equal ss_turn (un_session _ _ Hun1)) as Et1. cbn in Et1.
    rewrite Et1. reflexivity.
  - exact Hap.
  - eapply grows_trans; eauto.
Qed.

(** ** The en-passant window *)

(** Whether the move [mv] from square [s] is a double pawn push, as line 249
    tests it. *)
Definition doublePush (g : Grid) (s : Z * Z) (mv : Meta) : bool :=
  match at_ g (fst s) (snd s) with
  | Some p => bool_decide (ptype p = Pawn) && m_double mv
  | None => false
  end.

Lemma lastDoubleAfter_doublePush g mv :
  lastDoubleAfter g mv <> None <-> doublePush g (from mv) (meta mv) = true.
Proof.
  unfold lastDoubleAfter, doublePush.
  destruct (at_ g _ _) as [p|]; [|split; [intros H; contradiction|discriminate]].
  destruct (_ && _); split; auto; try discriminate; try contradiction.
Qed.

Lemma ray_no_ep board fuel color dr dc m : forall rr cc,
  In m (ray board fuel color rr cc dr dc) -> m_ep m = false.
Proof.
  induction fuel as [|k IH]; intros rr cc; cbn [ray]; [intros []|].
  destruct (inBounds rr cc); [|intros []].
  destruct (getCell board rr cc) as [q|].
  - destruct (negb _); [intros [<-|[]]; reflexivity|intros []].
  - intros [<-|H]; [reflexivity|eapply IH; eauto].
Qed.

(** An en-passant capture is pushed only by line 156, under the test of line
    155. *)
Lemma genPseudo_ep board lastDouble r c forAttack m :
  In m (genPseudo board lastDouble r c forAttack) -> m_ep m = true ->
  exists l p,
    lastDouble = Some l /\ at_ board r c = Some p /\ ptype p = Pawn /\
    ld_r l = r /\ Z.abs (ld_c l - c) = 1 /\
    r = (if bool_decide (pcolor p = White) then 3 else 4) /\
    m_c m = ld_c l.
Proof.
  unfold genPseudo. destruct (at_ board r c) as [p|] eqn:Hp; [|intros []].
  cbv zeta. rewrite in_app_iff. intros [H|H] Hm.
  2:{ in_if H. in_if H. apply in_app_iff in H as [H|H]; in_if H;
      destruct H as [<-|[]]; discriminate. }
  unfold pseudoMoves in H. rewrite Hp in H.
  assert (Hrays : forall dirs, In m (rays board (pcolor p) r c dirs) -> False).
  { intros dirs H'. unfold rays in H'. apply in_flat_map in H' as (d & _ & H').
    apply ray_no_ep in H'. congruence. }
  assert (Hsteps : forall ds, In m (steps board (pcolor p) r c ds) -> False).
  { intros ds H'. unfold steps in H'. apply in_flat_map in H' as (d & _ & H').
    cbv zeta in H'. in_if H'. destruct H' as [<-|[]]; discriminate. }
  destruct (ptype p) eqn:Ht;
    try (exfalso; eapply Hrays; eassumption);
    try (exfalso; eapply Hsteps; eassumption); [|destruct H].
  unfold pawnMoves in H. cbv zeta in H. rewrite !in_app_iff in H.
  destruct H as [H|[H|H]].
  - in_if H. in_if H. destruct H as [<-|H]; [discriminate|].
    in_if H. destruct H as [<-|[]]; discriminate.
  - apply in_flat_map in H as (d & _ & H).
    cbv zeta in H. in_if H. destruct H as [<-|[]]; discriminate.
  - destruct lastDouble as [l|]; [|destruct H].
    destruct ((ld_r l =? r) && (Z.abs (ld_c l - c) =? 1) &&
              (r =? (if bool_decide (pcolor p = White) then 3 else 4))) eqn:E;
      [|destruct H].
    destruct H as [<-|[]].
    apply andb_true_iff in E as [E E3]. apply andb_true_iff in E as [E1 E2].
    apply Z.eqb_eq in E1, E2, E3.
    exists l, p. repeat split; auto.
Qed.

(** Clicks as events. *)
Definition clicks (cs : list (Z * Z)) : list Event :=
  map (fun sq => Click (fst sq) (snd sq)) cs.

(** Along a run of clicks from [st]: whether the move committed last was a
    double pawn push ([b] if the clicks commit none). *)
Fixpoint lastMoveWasDoublePush (cs : list (Z * Z)) (st : State) (b : bool) : bool :=
  match cs with
  | [] => b
  | sq :: rest =>
      lastMoveWasDoublePush rest (stateOf (onSquareClick (fst sq) (snd sq) st))
        (match committed (fst sq) (snd sq) st with
         | Some (s, mv) => doublePush (curBoard st) s mv
         | None => b
         end)
  end.

Lemma lastDouble_tracks_double_push cs : forall st b u st',
  valid st -> (st_lastDouble st <> None <-> b = true) ->
  play (clicks cs) st = Ok u st' ->
  (st_lastDouble st' <> None <-> lastMoveWasDoublePush cs st b = true).
Proof.
  induction cs as [|[r c] rest IH]; intros st b u st' Hv Hb H; cbn in H.
  - run1 H. exact Hb.
  - apply bind_Ok in H as (? & st1 & H1 & H).
    cbn [lastMoveWasDoublePush fst snd]. rewrite H1. cbn [stateOf].
    destruct (committed r c st) as [[s mv]|] eqn:Hc.
    + destruct (click_committed _ _ _ _ _ _ _ Hv Hc H1)
        as (snap & _ & _ & _ & _ & Hl & _ & _ & Hg).
      eapply IH; [eapply grows_valid; eauto| |exact H].
      rewrite Hl. apply (lastDoubleAfter_doublePush _ (mkMove s (r, c) mv)).
    + destruct (click_not_committed _ _ _ _ _ Hv Hc H1) as (Es & _ & _ & Hg).
      eapply IH; [eapply grows_valid; eauto| |exact H].
      pose proof (f_equal ss_lastDouble Es) as El. cbn in El. rewrite El. exact Hb.
Qed.

(** C5.  [applyMove] sets [lastDouble] when the move is a double pawn push and
    sets it to [null] when it is any other move.  So along every run of clicks
    from a state without en-passant target, [lastDouble] is non-null exactly
    when the move committed last was a double pawn push, that is for the one
    ply that follows it; and only then does [genPseudo] push an en-passant
    capture. *)
Theorem en_passant_target_lives_one_ply :
  (forall mv sim st u st',
     valid st -> applyMove mv sim st = Ok u st' ->
     st_lastDouble st' = lastDoubleAfter (curBoard st) mv /\
     (doublePush (curBoard st) (from mv) (meta mv) = false -> st_lastDouble st' = None)) /\
  (forall cs st u st',
     valid st -> st_lastDouble st = None ->
     play (clicks cs) st = Ok u st' ->
     (st_lastDouble st' <> None <-> lastMoveWasDoublePush cs st false = true) /\
     forall r c forAttack m,
       In m (genPseudo (curBoard st') (st_lastDouble st') r c forAttack) ->
       m_ep m = true -> lastMoveWasDoublePush cs st false = true).
Proof.
  split.
  - intros mv sim st u st' Hv H.
    destruct (applyMove_effect _ _ _ _ _ Hv H) as ((_ & _ & _ & Hl & _) & _).
    split; [exact Hl|]. intros Hd. rewrite Hl.
    destruct (lastDoubleAfter (curBoard st) mv) eqn:E; [|reflexivity].
    assert (Hn : lastDoubleAfter (curBoard st) mv <> None) by (rewrite E; discriminate).
    apply lastDoubleAfter_doublePush in Hn. congruence.
  - intros cs st u st' Hv Hl H.
    assert (Hb : st_lastDouble st <> None <-> false = true)
      by (rewrite Hl; split; [contradiction|discriminate]).
    pose proof (lastDouble_tracks_double_push _ _ _ _ _ Hv Hb H) as Hiff.
    split; [exact Hiff|].
    intros r c fa m Hin Hep.
    destruct (genPseudo_ep _ _ _ _ _ _ Hin Hep) as (l & p & E & _).
    apply Hiff. rewrite E. discriminate.
Qed.

(** ** What [applyMove] can put on a square *)

Lemma getCell_setCell_other g r0 c0 v r c :
  (r0, c0) <> (r, c) -> getCell (setCell g r0 c0 v) r c = getCell g r c.
Proof.
  intros Hne. destruct (Z_lt_le_dec r 0) as [Hr|Hr].
  { unfold getCell. replace (0 <=? r) with false by (symmetry; apply Z.leb_gt; lia).
    reflexivity. }
  destruct (Z_lt_le_dec c 0) as [Hc|Hc].
  { unfold getCell. replace (0 <=? c) with false by (symmetry; apply Z.leb_gt; lia).
    rewrite andb_false_r. reflexivity. }
  apply getCell_setCell_ne; assumption.
Qed.

(** How the cell of one square can change in one [applyMove]: it keeps its
    piece, it is emptied, it receives a piece whose [moved] flag is set, or
    its own pawn is promoted. *)
Definition cellStep (old new : Cell) : Prop :=
  new = old \/ new = None \/
  (exists q, new = Some q /\ pmoved q = true) \/
  (exists q, old = Some q /\ new = Some (mkPiece Queen (pcolor q) (pmoved q))).

Lemma movedCopy_moved q : pmoved (movedCopy q) = true.
Proof. destruct q; reflexivity. Qed.

(** A write of an empty cell or of a moved copy. *)
Lemma setCell_fresh g r0 c0 v r c (old : Cell) :
  (v = None \/ exists q, v = Some q /\ pmoved q = true) ->
  (getCell g r c = old \/ getCell g r c = None \/
   exists q, getCell g r c = Some q /\ pmoved q = true) ->
  getCell (setCell g r0 c0 v) r c = old \/ getCell (setCell g r0 c0 v) r c = None \/
  exists q, getCell (setCell g r0 c0 v) r c = Some q /\ pmoved q = true.
Proof.
  intros Hv Hg.
  destruct (getCell_setCell_cases g r0 c0 v r c) as [-> | ->]; [exact Hg|].
  destruct Hv as [-> | (q & -> & Hq)]; [right; left; reflexivity|].
  right; right. exists q. split; [reflexivity|exact Hq].
Qed.

Lemma castled_cell g mv r c :
  getCell (castled g mv) r c = getCell g r c \/
  getCell (castled g mv) r c = None \/
  exists q, getCell (castled g mv) r c = Some q /\ pmoved q = true.
Proof.
  unfold castled. cbv zeta.
  assert (Hnone : forall A (x : option A), x = None \/ exists q : A, x = Some q /\ True)
    by (intros A [q|]; eauto).
  assert (Hmv : forall q, Some (movedCopy q) = None \/
                          exists p, Some (movedCopy q) = Some p /\ pmoved p = true)
    by (intros q; right; eexists; split; [reflexivity|apply movedCopy_moved]).
  assert (H1 : forall g', (getCell g' r c = getCell g r c \/ getCell g' r c = None \/
                           exists q, getCell g' r c = Some q /\ pmoved q = true) ->
           forall r0 c0,
             getCell (setCell g' r0 c0 None) r c = getCell g r c \/
             getCell (setCell g' r0 c0 None) r c = None \/
             exists q, getCell (setCell g' r0 c0 None) r c = Some q /\ pmoved q = true)
    by (intros g' Hg' r0 c0; apply setCell_fresh; auto).
  assert (H2 : forall g', (getCell g' r c = getCell g r c \/ getCell g' r c = None \/
                           exists q, getCell g' r c = Some q /\ pmoved q = true) ->
           forall r0 c0 x,
             getCell (setCell g' r0 c0 (Some (movedCopy x))) r c = getCell g r c \/
             getCell (setCell g' r0 c0 (Some (movedCopy x))) r c = None \/
             exists q, getCell (setCell g' r0 c0 (Some (movedCopy x))) r c = Some q
                       /\ pmoved q = true)
    by (intros g' Hg' r0 c0 x; apply setCell_fresh; auto).
  assert (H0 : getCell (if m_ep (meta mv)
                        then setCell g (fst (from mv)) (snd (to mv)) None else g) r c
               = getCell g r c \/
               getCell (if m_ep (meta mv)
                        then setCell g (fst (from mv)) (snd (to mv)) None else g) r c
               = None \/
               exists q, getCell (if m_ep (meta mv)
                                  then setCell g (fst (from mv)) (snd (to mv)) None
                                  else g) r c = Some q /\ pmoved q = true)
    by (destruct (m_ep (meta mv)); [apply H1|]; auto).
  destruct (m_castle (meta mv)) as [[|]|]; auto.
Qed.

Lemma boardAfter_cellStep g mv r c :
  cellStep (getCell g r c) (getCell (boardAfter g mv) r c).
Proof.
  unfold boardAfter. cbv zeta.
  assert (Hc : cellStep (getCell g r c) (getCell (castled g mv) r c)).
  { destruct (castled_cell g mv r c) as [H|[H|H]]; unfold cellStep; auto. }
  destruct (landedCell g mv) as [q|] eqn:Hq; [|exact Hc].
  destruct (_ && _); [|exact Hc].
  destruct (decide ((fst (to mv), snd (to mv)) = (r, c))) as [E|E].
  2:{ rewrite getCell_setCell_other by exact E. exact Hc. }
  injection E as <- <-.
  destruct (getCell_setCell_cases (castled g mv) (fst (to mv)) (snd (to mv))
              (Some (mkPiece Queen (pcolor q) (pmoved q))) (fst (to mv)) (snd (to mv)))
    as [-> | ->]; [exact Hc|].
  unfold landedCell in Hq. cbv zeta in Hq.
  destruct ((0 <=? snd (to mv)) && (snd (to mv) <? 8)).
  - destruct (castled_cell g mv (fst (to mv)) (snd (to mv))) as [H|[H|(q' & H & Hm)]];
      rewrite H in Hq.
    + right; right; right. exists q. split; [exact Hq|reflexivity].
    + discriminate.
    + injection Hq as <-. right; right; left. eexists. split; [reflexivity|exact Hm].
  - destruct (_ && _); [discriminate|]. injection Hq as <-.
    right; right; left. eexists. split; [reflexivity|apply movedCopy_moved].
Qed.

(** The square holds no piece that has never moved. *)
Definition touched (g : Grid) (r c : Z) : Prop :=
  match at_ g r c with
  | Some p => pmoved p = true
  | None => True
  end.

Lemma touched_boardAfter g mv r c :
  touched g r c -> touched (boardAfter g mv) r c.
Proof.
  unfold touched, at_. destruct (inBounds r c); [|auto].
  destruct (boardAfter_cellStep g mv r c) as [-> |[-> |[(q & -> & Hq)|(q & -> & ->)]]]; auto.
Qed.

Lemma canCastle_touched board lastDouble color side :
  touched board (homeRow color) 4 \/ touched board (homeRow color) (rookFile side) ->
  canCastle board lastDouble color side = false.
Proof.
  unfold canCastle, touched. fold (homeRow color). fold (rookFile side). cbv zeta.
  destruct (at_ board (homeRow color) (rookFile side)) as [rook|]; [|reflexivity].
  destruct (at_ board (homeRow color) 4) as [king|]; [|reflexivity].
  intros [-> | ->]; rewrite ?orb_true_r; reflexivity.
Qed.

Lemma touched_after_clicks r c cs : forall st u st',
  valid st -> touched (curBoard st) r c ->
  play (clicks cs) st = Ok u st' -> touched (curBoard st') r c.
Proof.
  induction cs as [|[r0 c0] rest IH]; intros st u st' Hv Ht H; cbn in H.
  - run1 H. exact Ht.
  - apply bind_Ok in H as (? & st1 & H1 & H).
    destruct (committed r0 c0 st) as [[s mv]|] eqn:Hc.
    + destruct (click_committed _ _ _ _ _ _ _ Hv Hc H1)
        as (snap & _ & _ & _ & Hb & _ & _ & _ & Hg).
      eapply IH; [eapply grows_valid; eauto| |exact H].
      rewrite Hb. apply touched_boardAfter, Ht.
    + destruct (click_not_committed _ _ _ _ _ Hv Hc H1) as (Es & _ & _ & Hg).
      eapply IH; [eapply grows_valid; eauto| |exact H].
      pose proof (f_equal ss_board Es) as Eb. cbn in Eb. rewrite Eb. exact Ht.
Qed.

(** The grid has a cell at [(r, c)]. *)
Definition hasCell (g : Grid) (r c : Z) : Prop :=
  0 <= r /\ 0 <= c /\
  exists row, g !! Z.to_nat r = Some row /\ (Z.to_nat c < length row)%nat.

Lemma getCell_hasCell g r c p : getCell g r c = Some p -> hasCell g r c.
Proof.
  unfold getCell, hasCell. destruct ((0 <=? r) && (0 <=? c)) eqn:E; [|discriminate].
  apply andb_true_iff in E as [Hr Hc]. apply Z.leb_le in Hr, Hc.
  destruct (g !! Z.to_nat r) as [row|]; [|discriminate].
  destruct (row !! Z.to_nat c) eqn:El; [|discriminate].
  intros _. split; [exact Hr|]. split; [exact Hc|]. exists row. split; [reflexivity|].
  eapply lookup_lt_Some; eauto.
Qed.

Lemma hasCell_setCell g r0 c0 v r c : hasCell g r c -> hasCell (setCell g r0 c0 v) r c.
Proof.
  intros (Hr & Hc & row & Hrow & Hl). split; [exact Hr|]. split; [exact Hc|].
  unfold setCell. destruct ((0 <=? r0) && (0 <=? c0)); [|eauto].
  destruct (g !! Z.to_nat r0) as [row0|] eqn:E0; [|eauto].
  destruct (decide (Z.to_nat r0 = Z.to_nat r)) as [E|E].
  - rewrite <- E. rewrite list_lookup_insert_eq by (eapply lookup_lt_Some; eauto).
    eexists. split; [reflexivity|]. rewrite length_insert.
    rewrite <- E in Hrow. congruence.
  - rewrite list_lookup_insert_ne by exact E. eauto.
Qed.

Lemma getCell_setCell_eq g r c v : hasCell g r c -> getCell (setCell g r c v) r c = v.
Proof.
  intros (Hr & Hc & row & Hrow & Hl). unfold setCell, getCell.
  replace ((0 <=? r) && (0 <=? c)) with true
    by (symmetry; apply andb_true_iff; split; apply Z.leb_le; assumption).
  rewrite Hrow. rewrite list_lookup_insert_eq by (eapply lookup_lt_Some; eauto).
  rewrite list_lookup_insert_eq by exact Hl. reflexivity.
Qed.

(** The square a move starts from is left holding no unmoved piece. *)
Lemma touched_from g mv p :
  at_ g (fst (from mv)) (snd (from mv)) = Some p ->
  touched (boardAfter g mv) (fst (from mv)) (snd (from mv)).
Proof.
  intros Hp. unfold touched, at_ in *.
  destruct (inBounds (fst (from mv)) (snd (from mv))); [|discriminate].
  pose proof (getCell_hasCell _ _ _ _ Hp) as Hcell.
  set (r := fst (from mv)) in *. set (c := snd (from mv)) in *.
  assert (Hfresh : forall g', (getCell g' r c = None \/
                     exists q, getCell g' r c = Some q /\ pmoved q = true) ->
            forall r0 c0 v, (v = None \/ exists q, v = Some q /\ pmoved q = true) ->
            getCell (setCell g' r0 c0 v) r c = None \/
            exists q, getCell (setCell g' r0 c0 v) r c = Some q /\ pmoved q = true).
  { intros g' Hg' r0 c0 v Hv.
    destruct (getCell_setCell_cases g' r0 c0 v r c) as [-> | ->]; assumption. }
  assert (Hmv : forall q, Some (movedCopy q) = None \/
                          exists p', Some (movedCopy q) = Some p' /\ pmoved p' = true)
    by (intros q; right; eexists; split; [reflexivity|apply movedCopy_moved]).
  assert (Hc : getCell (castled g mv) r c = None \/
               exists q, getCell (castled g mv) r c = Some q /\ pmoved q = true).
  { unfold castled. cbv zeta. fold r. fold c.
    match goal with
    | |- context [setCell ?g2 r c None] =>
        assert (H3 : getCell (setCell g2 r c None) r c = None)
    end.
    { apply getCell_setCell_eq. apply hasCell_setCell.
      destruct (m_ep (meta mv)); [apply hasCell_setCell|]; exact Hcell. }
    destruct (m_castle (meta mv)) as [[|]|]; auto 6. }
  unfold boardAfter. cbv zeta.
  assert (Hres : forall g', (getCell g' r c = None \/
                   exists q, getCell g' r c = Some q /\ pmoved q = true) ->
          match getCell g' r c with Some p0 => pmoved p0 = true | None => True end).
  { intros g' [-> |(q & -> & Hq)]; auto. }
  destruct (landedCell g mv) as [q|] eqn:Hq; [|apply Hres, Hc].
  destruct (_ && _); [|apply Hres, Hc].
  apply Hres.
  destruct (decide ((fst (to mv), snd (to mv)) = (r, c))) as [Et|Et].
  2:{ rewrite getCell_setCell_other by exact Et. exact Hc. }
  injection Et as Er Ec.
  destruct (getCell_setCell_cases (castled g mv) (fst (to mv)) (snd (to mv))
              (Some (mkPiece Queen (pcolor q) (pmoved q))) r c) as [-> | ->]; [exact Hc|].
  right. eexists. split; [reflexivity|]. cbn.
  unfold landedCell in Hq. cbv zeta in Hq. rewrite Er, Ec in Hq. fold r c in Hq.
  destruct ((0 <=? c) && (c <? 8)).
  - destruct Hc as [Hc|(q' & Hc & Hm)]; rewrite Hc in Hq; [discriminate|].
    injection Hq as <-. exact Hm.
  - rewrite !Z.eqb_refl in Hq. discriminate.
Qed.

(** C6.  A move leaves the square it starts from without an unmoved piece; and
    once the king's home square or the rook's corner holds no unmoved piece
    (the king or rook has left it, has been captured there, or stands on it
    with its [moved] flag set, having returned), then after every further run
    of clicks [canCastle] for that color and side returns false, and
    [genPseudo] pushes no castling move of that side for a king of that
    color. *)
Theorem castling_rights_never_return color side :
  (forall mv sim st u st',
     valid st -> applyMove mv sim st = Ok u st' ->
     touched (curBoard st') (fst (from mv)) (snd (from mv))) /\
  (forall cs st u st',
     valid st ->
     touched (curBoard st) (homeRow color) 4 \/
     touched (curBoard st) (homeRow color) (rookFile side) ->
     play (clicks cs) st = Ok u st' ->
     canCastle (curBoard st') (st_lastDouble st') color side = false /\
     forall r c p forAttack m,
       at_ (curBoard st') r c = Some p -> pcolor p = color ->
       In m (genPseudo (curBoard st') (st_lastDouble st') r c forAttack) ->
       m_castle m <> Some side).
Proof.
  split.
  - intros mv sim st u st' Hv H.
    destruct (applyMove_effect _ _ _ _ _ Hv H) as ((_ & _ & Hb & _) & Hap).
    rewrite Hb. unfold applies in Hap.
    destruct (at_ (curBoard st) (fst (from mv)) (snd (from mv))) as [p|] eqn:Hp;
      [|discriminate].
    eapply touched_from; eauto.
  - intros cs st u st' Hv Ht H.
    assert (Hcan : canCastle (curBoard st') (st_lastDouble st') color side = false).
    { apply canCastle_touched.
      destruct Ht as [Ht|Ht]; [left|right]; eapply touched_after_clicks; eauto. }
    split; [exact Hcan|].
    intros r c p fa m Hp Hcol Hin Hm.
    destruct (castling_conditions _ _ _ _ _ _ _ Hin Hm) as (p' & Hp' & Hcan' & _).
    rewrite Hp in Hp'. injection Hp' as <-. rewrite Hcol in Hcan'. congruence.
Qed.

(** ** Well-formed boards: rendering never raises *)

(** Eight rows of eight cells, as [loadFEN] builds them. *)
Definition grid8 (g : Grid) : Prop :=
  length g = 8%nat /\ Forall (fun row => length row = 8%nat) g.

Lemma grid8_hasCell g r c : grid8 g -> inBounds r c = true -> hasCell g r c.
Proof.
  intros [Hl Hrows] Hb. apply inBounds_iff in Hb as [Hr Hc].
  split; [lia|]. split; [lia|].
  destruct (lookup_lt_is_Some_2 g (Z.to_nat r)) as [row Hrow]; [lia|].
  exists row. split; [exact Hrow|].
  rewrite Forall_forall in Hrows.
  rewrite (Hrows row) by (eapply list_elem_of_lookup_2; eauto). lia.
Qed.

Lemma grid8_setCell g r c v : grid8 g -> grid8 (setCell g r c v).
Proof.
  intros [Hl Hrows]. unfold setCell.
  destruct ((0 <=? r) && (0 <=? c)); [|split; assumption].
  destruct (g !! Z.to_nat r) as [row|] eqn:Hrow; [|split; assumption].
  split; [rewrite length_insert; exact Hl|].
  rewrite Forall_forall in *. intros row' Hin.
  apply list_elem_of_lookup in Hin as [i Hi].
  destruct (decide (i = Z.to_nat r)) as [->|Hne].
  - rewrite list_lookup_insert_eq in Hi by (eapply lookup_lt_Some; eauto).
    injection Hi as <-. rewrite length_insert. apply Hrows.
    eapply list_elem_of_lookup_2; eauto.
  - rewrite list_lookup_insert_ne in Hi by auto.
    apply Hrows. eapply list_elem_of_lookup_2; eauto.
Qed.

Lemma grid8_castled g mv : grid8 g -> grid8 (castled g mv).
Proof.
  intros Hg. unfold castled. cbv zeta.
  destruct (m_ep (meta mv)), (m_castle (meta mv)) as [[|]|];
    repeat apply grid8_setCell; exact Hg.
Qed.

Lemma grid8_boardAfter g mv : grid8 g -> grid8 (boardAfter g mv).
Proof.
  intros Hg. unfold boardAfter. cbv zeta.
  destruct (landedCell g mv); [destruct (_ && _)|];
    try apply grid8_setCell; apply grid8_castled, Hg.
Qed.

(** A king that has not moved stands on the e-file. *)
Definition sane (g : Grid) : Prop :=
  forall r c p, at_ g r c = Some p -> ptype p = King -> pmoved p = false -> c = 4.

Lemma sane_boardAfter g mv : sane g -> sane (boardAfter g mv).
Proof.
  intros Hs r c p Hp Hk Hm. unfold at_ in Hp.
  destruct (inBounds r c) eqn:Hb; [|discriminate].
  destruct (boardAfter_cellStep g mv r c) as [E|[E|[(q & E & Hq)|(q & _ & E)]]];
    rewrite E in Hp.
  - apply (Hs r c p); auto. unfold at_. rewrite Hb. exact Hp.
  - discriminate.
  - injection Hp as <-. congruence.
  - injection Hp as <-. discriminate.
Qed.

(** Where a pseudo-legal move can lead: to a row of the board, and away from
    the square it starts from. *)
Lemma ray_target board fuel color dr dc m : forall rr cc,
  In m (ray board fuel color rr cc dr dc) ->
  inBounds (m_r m) (m_c m) = true /\
  exists k, 0 <= k /\ m_r m = rr + k * dr /\ m_c m = cc + k * dc.
Proof.
  induction fuel as [|n IH]; intros rr cc; cbn [ray]; [intros []|].
  destruct (inBounds rr cc) eqn:Hb; [|intros []].
  assert (Hhere : forall cap, inBounds (m_r (plainMove rr cc cap)) (m_c (plainMove rr cc cap)) = true /\
            exists k, 0 <= k /\ m_r (plainMove rr cc cap) = rr + k * dr /\
                      m_c (plainMove rr cc cap) = cc + k * dc).
  { intros cap. split; [exact Hb|]. exists 0. cbn. lia. }
  destruct (getCell board rr cc) as [q|].
  - destruct (negb _); [intros [<-|[]]; apply Hhere|intros []].
  - intros [<-|H]; [apply Hhere|].
    destruct (IH _ _ H) as (Hin & k & Hk & Hr & Hc).
    split; [exact Hin|]. exists (k + 1). lia.
Qed.

Lemma rays_target board color r c dirs m :
  Forall (fun d => (fst d = 1 \/ fst d = -1 \/ fst d = 0) /\
                   (snd d = 1 \/ snd d = -1 \/ snd d = 0) /\
                   (fst d <> 0 \/ snd d <> 0)) dirs ->
  In m (rays board color r c dirs) ->
  0 <= m_r m < 8 /\ (m_r m, m_c m) <> (r, c).
Proof.
  intros Hd H. unfold rays in H. apply in_flat_map in H as (d & Hin & H).
  rewrite List.Forall_forall in Hd. destruct (Hd d Hin) as (H1 & H2 & H3).
  destruct (ray_target _ _ _ _ _ _ _ _ H) as (Hb & k & Hk & Hr & Hc).
  apply inBounds_iff in Hb. split; [lia|].
  intros E. injection E as Er Ec. nia.
Qed.

Lemma steps_target board color r c deltas m :
  Forall (fun d => fst d <> 0 \/ snd d <> 0) deltas ->
  In m (steps board color r c deltas) ->
  0 <= m_r m < 8 /\ (m_r m, m_c m) <> (r, c).
Proof.
  intros Hd H. unfold steps in H. apply in_flat_map in H as (d & Hin & H).
  rewrite List.Forall_forall in Hd. pose proof (Hd d Hin) as Hne.
  cbv zeta in H.
  destruct (inBounds (r + fst d) (c + snd d)) eqn:Hb; [|destruct H].
  cbn [andb] in H. in_if H. destruct H as [<-|[]]. cbn.
  apply inBounds_iff in Hb. split; [lia|].
  intros E. injection E as Er Ec. lia.
Qed.

Lemma enemy_inBounds board r c color : enemy board r c color = true -> inBounds r c = true.
Proof. unfold enemy. destruct (inBounds r c); [reflexivity|discriminate]. Qed.

Lemma empty_inBounds board r c : empty board r c = true -> inBounds r c = true.
Proof. unfold empty. destruct (inBounds r c); [reflexivity|discriminate]. Qed.

(** A property of every direction of a literal list. *)
Ltac all_dirs :=
  repeat (apply List.Forall_cons; [cbn [fst snd]; lia|]); apply List.Forall_nil.

Lemma pseudoMoves_target board lastDouble r c forAttack m :
  In m (pseudoMoves board lastDouble r c forAttack) ->
  0 <= m_r m < 8 /\ (m_r m, m_c m) <> (r, c).
Proof.
  unfold pseudoMoves. destruct (at_ board r c) as [p|] eqn:Hp; [|intros []].
  assert (Hdir : forall b : bool, (if b then -1 else 1) <> 0) by (intros []; lia).
  destruct (ptype p).
  - apply steps_target. unfold kingDeltas. all_dirs.
  - apply rays_target. unfold queenDirs, bishopDirs, rookDirs. cbn [app]. all_dirs.
  - apply rays_target. unfold rookDirs. all_dirs.
  - apply rays_target. unfold bishopDirs. all_dirs.
  - apply steps_target. unfold knightDeltas. all_dirs.
  - unfold pawnMoves. cbv zeta. rewrite !in_app_iff. intros [H|[H|H]].
    + in_if H.
      destruct (empty board (r + (if bool_decide (pcolor p = White) then -1 else 1)) c)
        eqn:He; [|destruct H].
      apply empty_inBounds, inBounds_iff in He.
      destruct H as [<-|H].
      * cbn. split; [lia|]. intros E. injection E as Er.
        destruct (bool_decide (pcolor p = White)); lia.
      * destruct (r =? _); [|destruct H]. cbn [andb] in H.
        destruct (empty board (r + 2 * _) c) eqn:He2; [|destruct H].
        apply empty_inBounds, inBounds_iff in He2.
        destruct H as [<-|[]]. cbn. split; [lia|]. intros E. injection E as Er.
        destruct (bool_decide (pcolor p = White)); lia.
    + apply in_flat_map in H as (d & _ & H). cbv zeta in H.
      destruct (enemy board _ _ _) eqn:He; [|destruct H].
      apply enemy_inBounds, inBounds_iff in He.
      destruct H as [<-|[]]. cbn. split; [lia|]. intros E. injection E as Er.
      destruct (bool_decide (pcolor p = White)); lia.
    + destruct lastDouble as [l|]; [|destruct H].
      destruct ((ld_r l =? r) && (Z.abs (ld_c l - c) =? 1) &&
                (r =? (if bool_decide (pcolor p = White) then 3 else 4))) eqn:E;
        [|destruct H].
      destruct H as [<-|[]]. cbn.
      apply andb_true_iff in E as [_ E3]. apply Z.eqb_eq in E3.
      destruct (bool_decide (pcolor p = White)); split; try lia;
        intros E; injection E as Er; lia.
  - intros [].
Qed.

(** On a well-formed board the simulation of every pseudo-legal move runs to
    its end. *)
Lemma genPseudo_applies board lastDouble r c m :
  grid8 board -> sane board ->
  In m (genPseudo board lastDouble r c false) ->
  applies board (trial r c m) = true.
Proof.
  intros Hg Hs Hin.
  assert (Hfacts : exists p, at_ board r c = Some p /\
            0 <= m_r m < 8 /\ (m_r m, m_c m) <> (r, c) /\
            (m_castle m = Some KSide -> m_c m = 6) /\
            (m_castle m = Some QSide -> m_c m = 2)).
  { destruct (m_castle m) as [side|] eqn:Hm.
    - destruct (castling_conditions _ _ _ _ _ _ _ Hin Hm)
        as (p & Hp & _ & _ & Hk & Hmv & _ & ->).
      pose proof (Hs r c p Hp Hk Hmv) as ->.
      pose proof (at_Some_inBounds _ _ _ _ Hp) as Hb. apply inBounds_iff in Hb.
      exists p. cbn. split; [exact Hp|]. split; [lia|].
      destruct side; cbn;
        (split; [intros E; apply (f_equal snd) in E; cbn in E; lia|]);
        split; intros E; try discriminate; reflexivity.
    - unfold genPseudo in Hin. destruct (at_ board r c) as [p|] eqn:Hp; [|destruct Hin].
      cbv zeta in Hin. apply in_app_iff in Hin as [Hin|Hin].
      + destruct (pseudoMoves_target _ _ _ _ _ _ Hin) as [H1 H2].
        exists p. repeat split; auto; try lia; intros E; congruence.
      + in_if Hin. in_if Hin.
        apply in_app_iff in Hin as [Hin|Hin]; in_if Hin;
          destruct Hin as [<-|[]]; discriminate. }
  destruct Hfacts as (p & Hp & Hr & Hne & Hk & Hq).
  unfold applies. cbn [trial from to fst snd]. rewrite Hp.
  replace ((0 <=? m_r m) && (m_r m <? 8)) with true
    by (symmetry; apply andb_true_iff; lia).
  cbn [andb].
  unfold landedCell. cbv zeta. cbn [trial from to fst snd].
  destruct ((0 <=? m_c m) && (m_c m <? 8)) eqn:Hc.
  2:{ destruct ((r =? m_r m) && (c =? m_c m)) eqn:E; [|reflexivity].
      apply andb_true_iff in E as [E1 E2]. apply Z.eqb_eq in E1, E2.
      exfalso. apply Hne. congruence. }
  assert (Hb : inBounds (m_r m) (m_c m) = true)
    by (apply inBounds_iff; apply andb_true_iff in Hc; lia).
  unfold castled. cbv zeta. cbn [trial from to meta fst snd]. rewrite Hp.
  set (g1 := if m_ep m then setCell board r (m_c m) None else board).
  assert (Hg1 : grid8 g1) by (unfold g1; destruct (m_ep m); [apply grid8_setCell|]; exact Hg).
  set (g2 := setCell g1 (m_r m) (m_c m) (Some (movedCopy (Some p)))).
  assert (E2 : getCell g2 (m_r m) (m_c m) = Some (movedCopy (Some p)))
    by (apply getCell_setCell_eq, grid8_hasCell; assumption).
  set (g3 := setCell g2 r c None).
  assert (E3 : getCell g3 (m_r m) (m_c m) = Some (movedCopy (Some p))).
  { unfold g3. rewrite getCell_setCell_other; [exact E2|].
    intros E. apply Hne. congruence. }
  destruct (m_castle m) as [[|]|].
  - rewrite (Hk eq_refl) in *.
    rewrite !getCell_setCell_other
      by (intros E; apply (f_equal snd) in E; cbn in E; lia).
    rewrite E3. reflexivity.
  - rewrite (Hq eq_refl) in *.
    rewrite !getCell_setCell_other
      by (intros E; apply (f_equal snd) in E; cbn in E; lia).
    rewrite E3. reflexivity.
  - rewrite E3. reflexivity.
Qed.

Lemma snapshot_returns st : exists s st1, snapshot st = Ok s st1.
Proof. unfold snapshot, cloneBoard, allocBoard, allocBin, bind, gets, ret. eauto. Qed.

Lemma restoreSnapshot_total s st : exists st1, restoreSnapshot s st = Ok tt st1.
Proof. unfold restoreSnapshot, allocBoard, allocBin, bind, gets, modify, ret. eauto. Qed.

Lemma returns_true {A} (o : Outcome A) : returns o = true -> exists a st, o = Ok a st.
Proof. destruct o; [eauto|discriminate]. Qed.

Lemma genLegalLoop_returns r c color pseudo : forall st,
  valid st ->
  (forall m, In m pseudo -> applies (curBoard st) (trial r c m) = true) ->
  returns (genLegalLoop r c color pseudo st) = true.
Proof.
  induction pseudo as [|m rest IH]; intros st Hv Hall; cbn [genLegalLoop]; [reflexivity|].
  destruct (snapshot_returns st) as (snap & s1 & Hsnap).
  rewrite (bind_run _ _ _ _ _ Hsnap).
  destruct (snapshot_spec _ _ _ Hv Hsnap) as (_ & _ & _ & _ & _ & Hun1 & Hg1).
  pose proof (grows_valid _ _ Hv Hg1) as Hv1.
  pose proof (unchanged_board _ _ Hun1) as Hcur1.
  assert (Happ : returns (applyMove (trial r c m) true s1) = true).
  { apply applyMove_sim_returns; [exact Hv1|]. rewrite Hcur1. apply Hall. left; reflexivity. }
  apply returns_true in Happ as ([] & s2 & Happ).
  fold (trial r c m). rewrite (bind_run _ _ _ _ _ Happ).
  unfold bind at 1, gets at 1.
  destruct (restoreSnapshot_total snap s2) as (s3 & Hres).
  rewrite (bind_run _ _ _ _ _ Hres).
  pose proof (applyMove_effect _ _ _ _ _ Hv1 Happ) as ((_ & Hm & _) & _).
  destruct (snapshot_mutate_restore _ _ _ _ _ _ Hv Hsnap Hm Hres) as [Hun3 Hg3].
  pose proof (grows_valid _ _ Hv Hg3) as Hv3.
  pose proof (unchanged_board _ _ Hun3) as Hcur3.
  assert (Hrest : returns (genLegalLoop r c color rest s3) = true).
  { apply IH; [exact Hv3|]. intros m' Hm'. rewrite Hcur3. apply Hall. right; exact Hm'. }
  apply returns_true in Hrest as (lm & s4 & Hrest).
  rewrite (bind_run _ _ _ _ _ Hrest). reflexivity.
Qed.

Lemma genLegal_returns r c st :
  valid st -> grid8 (curBoard st) -> sane (curBoard st) ->
  returns (genLegal r c st) = true.
Proof.
  intros Hv Hg Hs. unfold genLegal.
  unfold bind at 1, gets at 1. unfold bind at 1, gets at 1.
  destruct (at_ (curBoard st) r c) as [p|]; [|reflexivity].
  apply genLegalLoop_returns; [exact Hv|].
  intros m Hin. eapply genPseudo_applies; eauto.
Qed.

Lemma anyLegalMoveLoop_returns color sqs : forall st,
  valid st -> grid8 (curBoard st) -> sane (curBoard st) ->
  returns (anyLegalMoveLoop color sqs st) = true.
Proof.
  induction sqs as [|sq rest IH]; intros st Hv Hg Hs; cbn [anyLegalMoveLoop];
    [reflexivity|].
  unfold bind at 1, gets at 1.
  destruct (at_ (curBoard st) (fst sq) (snd sq)) as [q|]; [|apply IH; assumption].
  destruct (bool_decide (pcolor q = color)); [|apply IH; assumption].
  pose proof (genLegal_returns (fst sq) (snd sq) st Hv Hg Hs) as Hr.
  apply returns_true in Hr as (leg & s1 & Hr).
  rewrite (bind_run _ _ _ _ _ Hr).
  destruct (genLegal_spec _ _ _ _ _ Hv Hr) as (Hun & Hgr & _).
  destruct leg; [|reflexivity].
  apply IH; [eapply grows_valid; eauto| |];
    rewrite (unchanged_board _ _ Hun); assumption.
Qed.

Lemma render_returns st :
  valid st -> grid8 (curBoard st) -> sane (curBoard st) ->
  drawPieces st = Ok tt st -> drawSelection st = Ok tt st ->
  returns (render st) = true.
Proof.
  intros Hv Hg Hs E1 E2. rewrite (render_run _ E1 E2).
  unfold showStatus. unfold bind at 1, gets at 1.
  unfold gameStatus, anyLegalMove.
  pose proof (anyLegalMoveLoop_returns (st_turn st) squares st Hv Hg Hs) as Hr.
  apply returns_true in Hr as (b & s1 & Hr).
  unfold bind at 1. unfold bind at 1. rewrite Hr.
  destruct b; cbn; [reflexivity|].
  destruct (inCheck _ _ _); reflexivity.
Qed.

(** ** The states of a game *)

Definition boardOk (g : Grid) : Prop := grid8 g /\ sane g.

(** What every state of a game satisfies: references point into the store,
    the live board and the boards of the snapshots are well-formed, and the
    snapshots of the history stack own their arrays. *)
Definition wf (st : State) : Prop :=
  valid st /\ boardOk (curBoard st) /\
  forall s, In s (st_history st) -> snap_ok st s /\ boardOk (boardAt st (s_board s)).

Lemma wf_hist_ok st : wf st -> hist_ok st.
Proof. intros (_ & _ & H) s Hs. apply H, Hs. Qed.

Lemma boardOk_boardAfter g mv : boardOk g -> boardOk (boardAfter g mv).
Proof. intros [Hg Hs]. split; [apply grid8_boardAfter|apply sane_boardAfter]; assumption. Qed.

Lemma snap_board_grows st st' s :
  snap_ok st s -> grows st st' -> boardAt st' (s_board s) = boardAt st (s_board s).
Proof.
  intros Hok Hg. destruct (snap_ok_grows _ _ _ Hok Hg) as [_ E].
  exact (f_equal ss_board E).
Qed.

Lemma session_board st st' : session st' = session st -> curBoard st' = curBoard st.
Proof. intros E. exact (f_equal ss_board E). Qed.

Lemma snapSession_board st s st0 :
  snapSession st s = session st0 -> boardAt st (s_board s) = curBoard st0.
Proof. intros E. exact (f_equal ss_board E). Qed.

Lemma session_snap_board st' st s :
  session st' = snapSession st s -> curBoard st' = boardAt st (s_board s).
Proof. intros E. exact (f_equal ss_board E). Qed.

Lemma wf_click r c st u st' : wf st -> onSquareClick r c st = Ok u st' -> wf st'.
Proof.
  intros (Hv & Hb & Hh) H.
  destruct (committed r c st) as [[s mv]|] eqn:Hc.
  - destruct (click_committed _ _ _ _ _ _ _ Hv Hc H)
      as (snap & Eh & Hok & Hss & Ecur & _ & _ & _ & Hg).
    split; [eapply grows_valid; eauto|]. split.
    + rewrite Ecur. apply boardOk_boardAfter, Hb.
    + intros s' Hs'. rewrite Eh in Hs'. destruct Hs' as [<-|Hs'].
      * split; [exact Hok|]. rewrite (snapSession_board _ _ _ Hss). exact Hb.
      * destruct (Hh s' Hs') as [Hok' Hb']. split.
        -- apply (snap_ok_grows _ _ _ Hok' Hg).
        -- rewrite (snap_board_grows _ _ _ Hok' Hg). exact Hb'.
  - destruct (click_not_committed _ _ _ _ _ Hv Hc H) as (Es & Eh & _ & Hg).
    split; [eapply grows_valid; eauto|]. split.
    + rewrite (session_board _ _ Es). exact Hb.
    + intros s' Hs'. rewrite Eh in Hs'. destruct (Hh s' Hs') as [Hok' Hb']. split.
      * apply (snap_ok_grows _ _ _ Hok' Hg).
      * rewrite (snap_board_grows _ _ _ Hok' Hg). exact Hb'.
Qed.

(** [undo] with a snapshot on the stack: it returns, the stack has lost its
    top, and the session holds what the snapshot held. *)
Lemma undo_effect st s rest u st' :
  wf st -> st_history st = s :: rest -> undo st = Ok u st' ->
  session st' = snapSession st s /\ st_history st' = rest /\
  st_selected st' = None /\ st_legal st' = [] /\
  grows st st'.
Proof.
  intros (Hv & Hb & Hh) Eh H.
  destruct (Hh s) as [Hok Hbs]; [rewrite Eh; left; reflexivity|].
  unfold undo in H.
  apply bind_Ok in H as (h & s0 & H0 & H). apply gets_Ok in H0 as [-> ->].
  rewrite Eh in H.
  apply bind_Ok in H as (? & s1 & H1 & H). apply modify_Ok in H1. subst s1.
  apply bind_Ok in H as (? & st1 & Hres & H).
  set (st0 := set_history rest st) in *.
  assert (Hv0 : valid st0) by exact Hv.
  assert (Hok0 : snap_ok st0 s) by exact Hok.
  destruct (restore_spec _ _ _ _ Hv0 Hok0 Hres) as (Es & _ & _ & _ & _ & Eh1 & Hg1).
  apply bind_Ok in H as (? & s2 & H2 & H). apply modify_Ok in H2. subst s2.
  apply bind_Ok in H as (? & s3 & H3 & H). apply modify_Ok in H3. subst s3.
  apply bind_Ok in H as (? & s4 & H4 & H). apply modify_Ok in H4. subst s4.
  unfold renderCaptured in H.
  apply bind_Ok in H as (? & s5 & H5 & H). apply ret_Ok in H5 as [_ ->].
  set (st2 := set_legal [] (set_selected None (set_gameOver false st1))) in *.
  assert (Hv2 : valid st2) by (eapply grows_valid in Hg1; eauto).
  destruct (render_spec _ _ _ Hv2 H) as (Es' & Esel & Eleg & Eh' & _ & Hg').
  split; [rewrite Es'; exact Es|]. split; [rewrite Eh'; exact Eh1|].
  split; [exact Esel|]. split; [exact Eleg|].
  apply (grows_trans st st1 st'); [exact Hv| |].
  - destruct Hg1. constructor; assumption.
  - destruct Hg'. constructor; assumption.
Qed.

Lemma undo_empty st : st_history st = [] -> undo st = Ok tt st.
Proof. intros E. unfold undo, bind, gets. rewrite E. reflexivity. Qed.

Lemma wf_undo st u st' : wf st -> undo st = Ok u st' -> wf st'.
Proof.
  intros Hw H. destruct (st_history st) as [|s rest] eqn:Eh.
  - rewrite (undo_empty _ Eh) in H. injection H as _ <-. exact Hw.
  - destruct (undo_effect _ _ _ _ _ Hw Eh H) as (Es & Eh' & _ & _ & Hg).
    destruct Hw as (Hv & Hb & Hh).
    destruct (Hh s) as [Hok Hbs]; [rewrite Eh; left; reflexivity|].
    split; [eapply grows_valid; eauto|]. split.
    + rewrite (session_snap_board _ _ _ Es). exact Hbs.
    + intros s' Hs'. rewrite Eh' in Hs'.
      destruct (Hh s') as [Hok' Hb']; [rewrite Eh; right; exact Hs'|]. split.
      * apply (snap_ok_grows _ _ _ Hok' Hg).
      * rewrite (snap_board_grows _ _ _ Hok' Hg). exact Hb'.
Qed.

(** *** The initial position *)

(** The grid [loadRow] builds, as a function of the grid it finds; [None] when
    a write raises. *)
Fixpoint loadRowG (r : Z) (row : string) (file : Z) (g : Grid) : option Grid :=
  match row with
  | EmptyString => Some g
  | String ch rest =>
      match digitValue ch with
      | Some d => loadRowG r rest (file + d) g
      | None =>
          if (0 <=? r) && (r <? 8) then
            loadRowG r rest (file + 1)
              (setCell g r file
                 (Some (mkPiece (typeOfLetter (toUpperCase ch))
                                (if Ascii.eqb ch (toUpperCase ch) then White else Black)
                                false)))
          else None
      end
  end.

Fixpoint loadRowsG (rows : list string) (rs : list Z) (g : Grid) : option Grid :=
  match rs with
  | [] => Some g
  | r :: rest =>
      match rows !! Z.to_nat r with
      | None => None
      | Some row =>
          match loadRowG r row 0 g with
          | Some g' => loadRowsG rows rest g'
          | None => None
          end
      end
  end.

Lemma loadRow_tracks sim st0 ld r row : forall file g s u s',
  tracks sim st0 g ld s -> loadRow r row file s = Ok u s' ->
  exists g', loadRowG r row file g = Some g' /\ tracks sim st0 g' ld s'.
Proof.
  induction row as [|ch rest IH]; intros file g s u s' Ht H; cbn [loadRow loadRowG] in *.
  - run1 H. eauto.
  - destruct (digitValue ch) as [d|]; [eapply IH; eauto|].
    cbv zeta in H. apply bind_Ok in H as (? & s1 & H1 & H).
    pose proof (tracks_write _ _ _ _ _ _ _ _ _ _ Ht H1) as Ht1.
    apply writeBoard_Ok in H1 as [Hr _].
    replace ((0 <=? r) && (r <? 8)) with true by (symmetry; apply andb_true_iff; lia).
    eapply IH; eauto.
Qed.

Lemma loadRows_tracks sim st0 ld rows rs : forall g s u s',
  tracks sim st0 g ld s -> loadRows rows rs s = Ok u s' ->
  exists g', loadRowsG rows rs g = Some g' /\ tracks sim st0 g' ld s'.
Proof.
  induction rs as [|r rest IH]; intros g s u s' Ht H; cbn [loadRows loadRowsG] in *.
  - run1 H. eauto.
  - destruct (rows !! Z.to_nat r) as [row|]; [|discriminate].
    apply bind_Ok in H as (? & s1 & H1 & H).
    destruct (loadRow_tracks _ _ _ _ _ _ _ _ _ _ Ht H1) as (g1 & -> & Ht1).
    eapply IH; eauto.
Qed.

Lemma initial_grid :
  loadRowsG (splitOn "/" (hd EmptyString (splitOn " " initialFEN))) range8
            (replicate 8 (replicate 8 None))
  = Some (curBoard started).
Proof. vm_compute. reflexivity. Qed.

(** [loadFEN] and [newGame] are unfolded by rewriting: on the literal
    [initialFEN] they would otherwise be run by the conversion test. *)
Lemma loadFEN_eq fen :
  loadFEN fen =
  (b <- allocBoard (replicate 8 (replicate 8 None)) ;;
   modify (set_board b) ;;;
   loadRows (splitOn "/" (hd EmptyString (splitOn " " fen))) range8 ;;;
   modify (set_lastDouble None) ;;;
   bw <- allocBin [] ;;
   modify (set_byWhite bw) ;;;
   bb <- allocBin [] ;;
   modify (set_byBlack bb)).
Proof. reflexivity. Qed.

Lemma newGame_eq :
  newGame =
  (loadFEN initialFEN ;;;
   modify (set_moves []) ;;;
   modify (set_turn White) ;;; modify (set_selected None) ;;;
   modify (set_legal []) ;;; modify (set_lastDouble None) ;;;
   modify (set_gameOver false) ;;;
   modify (set_history []) ;;;
   renderCaptured ;;;
   render).
Proof. reflexivity. Qed.

Lemma loadFEN_initial st u st' :
  valid st -> loadFEN initialFEN st = Ok u st' ->
  valid st' /\ curBoard st' = curBoard started /\ st_history st' = st_history st.
Proof.
  intros Hv H. rewrite loadFEN_eq in H.
  apply bind_Ok in H as (b & s1 & H1 & H). apply allocBoard_Ok in H1 as [-> ->].
  apply bind_Ok in H as (? & s2 & H2 & H). run1 H2.
  set (s2 := set_board (length (heapB st))
               (set_heapB (heapB st ++ [replicate 8 (replicate 8 None)]) st)) in *.
  assert (Hv2 : valid s2).
  { destruct Hv as (_ & Hw & Hk). unfold valid, s2. cbn. rewrite length_app. cbn. lia. }
  assert (Hcur2 : curBoard s2 = replicate 8 (replicate 8 None)).
  { unfold curBoard, boardAt, s2. cbn.
    rewrite lookup_app_r by lia. rewrite Nat.sub_diag. reflexivity. }
  apply bind_Ok in H as (? & s3 & H3 & H).
  pose proof (tracks_start false s2 Hv2) as Ht. rewrite Hcur2 in Ht.
  destruct (loadRows_tracks _ _ _ _ _ _ _ _ _ Ht H3) as (g' & Hg' & Ht3).
  assert (Eg : g' = curBoard started).
  { rewrite initial_grid in Hg'. injection Hg' as <-. reflexivity. }
  destruct Ht3 as (Hv3 & Hm3 & Hb3 & _).
  apply bind_Ok in H as (? & s4 & H4 & H). run1 H4.
  apply bind_Ok in H as (bw & s5 & H5 & H). apply allocBin_Ok in H5 as [-> ->].
  apply bind_Ok in H as (? & s6 & H6 & H). run1 H6.
  apply bind_Ok in H as (bb & s7 & H7 & H). apply allocBin_Ok in H7 as [-> ->].
  run1 H.
  split; [|split].
  - destruct Hv3 as (Hb & _). unfold valid. cbn. rewrite !length_app. cbn.
    split; [exact Hb|lia].
  - transitivity g'; [|exact Eg]. rewrite <- Hb3. reflexivity.
  - cbn. apply (mu_history _ _ Hm3).
Qed.

Lemma grid8_started : grid8 (curBoard started).
Proof. vm_compute. split; [reflexivity|repeat constructor]. Qed.

(** [sane], decided square by square. *)
Definition saneb (g : Grid) : bool :=
  forallb (fun sq =>
    match at_ g (fst sq) (snd sq) with
    | Some p => negb (bool_decide (ptype p = King) && negb (pmoved p)) || (snd sq =? 4)
    | None => true
    end) squares.

Lemma saneb_sane g : saneb g = true -> sane g.
Proof.
  intros H r c p Hp Hk Hm. unfold saneb in H. rewrite forallb_forall in H.
  specialize (H (r, c) (in_squares _ _ (at_Some_inBounds _ _ _ _ Hp))).
  cbn [fst snd] in H. rewrite Hp, Hm in H.
  rewrite (bool_decide_eq_true_2 _ Hk) in H. cbn in H. apply Z.eqb_eq, H.
Qed.

Lemma boardOk_started : boardOk (curBoard started).
Proof. split; [apply grid8_started|apply saneb_sane; vm_compute; reflexivity]. Qed.

Lemma wf_started : wf started.
Proof.
  split; [apply valid_started|]. split; [apply boardOk_started|].
  intros s Hs. vm_compute in Hs. destruct Hs.
Qed.

Lemma wf_newGame st u st' : valid st -> newGame st = Ok u st' -> wf st'.
Proof.
  intros Hv H. rewrite newGame_eq in H.
  apply bind_Ok in H as (? & s1 & H1 & H).
  destruct (loadFEN_initial _ _ _ Hv H1) as (Hv1 & Hb1 & _).
  repeat (apply bind_Ok in H as (? & ? & H0 & H); run1 H0).
  unfold renderCaptured in H. apply bind_Ok in H as (? & ? & H0 & H). run1 H0.
  match type of H with render ?s = _ => set (s2 := s) in * end.
  assert (Hv2 : valid s2) by exact Hv1.
  destruct (render_spec _ _ _ Hv2 H) as (Es & _ & _ & Eh & _ & Hg).
  split; [eapply grows_valid; eauto|]. split.
  - rewrite (session_board _ _ Es). change (curBoard s2) with (curBoard s1).
    rewrite Hb1. apply boardOk_started.
  - intros s Hs. rewrite Eh in Hs. destruct Hs.
Qed.

Lemma handle_eq e :
  handle e = match e with
             | Click r c => onSquareClick r c
             | Undo => undo
             | NewGame => newGame
             end.
Proof. reflexivity. Qed.

Lemma play_cons e rest : play (e :: rest) = (handle e ;;; play rest).
Proof. reflexivity. Qed.

Lemma play_nil : play [] = ret tt.
Proof. reflexivity. Qed.

Lemma wf_play es : forall st u st', wf st -> play es st = Ok u st' -> wf st'.
Proof.
  induction es as [|e rest IH]; intros st u st' Hw H.
  - rewrite play_nil in H. run1 H. exact Hw.
  - rewrite play_cons in H.
    apply bind_Ok in H as (? & s1 & H1 & H). apply (IH s1 u st'); [|exact H].
    rewrite handle_eq in H1. destruct e as [r c| |].
    + exact (wf_click _ _ _ _ _ Hw H1).
    + exact (wf_undo _ _ _ Hw H1).
    + exact (wf_newGame _ _ _ (proj1 Hw) H1).
Qed.

(** Every state of a game is well-formed. *)
Lemma wf_reachable es u st : play es started = Ok u st -> wf st.
Proof. apply wf_play, wf_started. Qed.

(** The game after White has selected the pawn on e2. *)
Definition e2Selected : State := Eval vm_compute in stateOf (play [Click 6 4] started).

(** ** The theorems at concrete games *)

Lemma valid_e2Selected : valid e2Selected.
Proof. unfold valid. vm_compute. repeat split; repeat constructor. Qed.

Lemma click_outside_legal_changes_nothing_witness :
  session (stateOf (onSquareClick 3 3 e2Selected)) = session e2Selected /\
  st_selected (stateOf (onSquareClick 3 3 e2Selected)) = None.
Proof.
  destruct (onSquareClick 3 3 e2Selected) as [u st'|st'] eqn:E;
    [|vm_compute in E; discriminate E].
  cbn [stateOf].
  destruct (click_outside_legal_changes_nothing 3 3 e2Selected (6, 4) u st')
    as (Hs & _ & _ & Hsel).
  - exact valid_e2Selected.
  - intros s Hs. vm_compute in Hs. destruct Hs.
  - vm_compute. reflexivity.
  - vm_compute. reflexivity.
  - exact E.
  - split; [exact Hs|]. apply Hsel; vm_compute; reflexivity.
Defined.

Lemma en_passant_target_lives_one_ply_witness :
  st_lastDouble (stateOf (play (clicks [(6, 4); (4, 4)]) started)) <> None /\
  st_lastDouble (stateOf (play (clicks [(6, 4); (4, 4); (1, 0); (2, 0)]) started)) = None.
Proof.
  destruct en_passant_target_lives_one_ply as [_ H].
  split.
  - destruct (play (clicks [(6, 4); (4, 4)]) started) as [u st'|st'] eqn:E;
      [|vm_compute in E; discriminate E].
    cbn [stateOf].
    destruct (H [(6, 4); (4, 4)] started u st' valid_started eq_refl E) as [Hiff _].
    apply Hiff. vm_compute. reflexivity.
  - destruct (play (clicks [(6, 4); (4, 4); (1, 0); (2, 0)]) started)
      as [u st'|st'] eqn:E; [|vm_compute in E; discriminate E].
    cbn [stateOf].
    destruct (H [(6, 4); (4, 4); (1, 0); (2, 0)] started u st' valid_started eq_refl E)
      as [Hiff _].
    destruct (st_lastDouble st') as [l|] eqn:El; [|reflexivity].
    assert (Hn : Some l <> None) by discriminate.
    apply Hiff in Hn. vm_compute in Hn. discriminate Hn.
Defined.

(** After e2-e4, e7-e5 and Ke1-e2: the white king has left its home square. *)
Definition kingAway : State :=
  Eval vm_compute in
    stateOf (play (clicks [(6, 4); (4, 4); (1, 4); (3, 4); (7, 4); (6, 4)]) started).

Lemma valid_kingAway : valid kingAway.
Proof. unfold valid. vm_compute. repeat split; repeat constructor. Qed.

(** After a7-a6 and Ke2-e1 the king is back on e1, next to its unmoved rook on
    h1 with f1 and g1 still occupied or not: castling stays off. *)
Lemma castling_rights_never_return_witness :
  at_ (curBoard (stateOf (play (clicks [(1, 0); (2, 0); (6, 4); (7, 4)]) kingAway))) 7 4
    = Some (mkPiece King White true) /\
  canCastle (curBoard (stateOf (play (clicks [(1, 0); (2, 0); (6, 4); (7, 4)]) kingAway)))
            (st_lastDouble (stateOf (play (clicks [(1, 0); (2, 0); (6, 4); (7, 4)]) kingAway)))
            White KSide = false.
Proof.
  split; [vm_compute; reflexivity|].
  destruct (castling_rights_never_return White KSide) as [_ H].
  destruct (play (clicks [(1, 0); (2, 0); (6, 4); (7, 4)]) kingAway) as [u st'|st'] eqn:E;
    [|vm_compute in E; discriminate E].
  cbn [stateOf].
  apply (H [(1, 0); (2, 0); (6, 4); (7, 4)] kingAway u st' valid_kingAway).
  - left. vm_compute. exact I.
  - exact E.
Defined.

(** * More of the program *)

(** ** What the states of a game satisfy besides [wf] *)

(** A king that has not moved stands on its home square. *)
Definition homed (g : Grid) : Prop :=
  forall r c p, at_ g r c = Some p -> ptype p = King -> pmoved p = false ->
                r = homeRow (pcolor p) /\ c = 4.

(** The piece has a color and a type, so a glyph [UNI[p.c][p.t]]. *)
Definition known (p : Piece) : Prop := pcolor p <> NoColor /\ ptype p <> NoType.

(** Every piece of the board has. *)
Definition glyphed (g : Grid) : Prop :=
  forall r c p, getCell g r c = Some p -> known p.

Definition proper (g : Grid) : Prop := homed g /\ glyphed g.

(** While a square is selected, it is a square of the board and [legal] holds
    moves the generator pushes for it on the board as it is. *)
Definition legal_ok (st : State) : Prop :=
  forall s, st_selected st = Some s ->
    inBounds (fst s) (snd s) = true /\
    forall m, In m (st_legal st) ->
      In m (genPseudo (curBoard st) (st_lastDouble st) (fst s) (snd s) false).

(** The move list has an item for Black's move to be appended to. *)
Definition log_ok (t : Color) (items : list LogItem) : Prop :=
  t = White \/ items <> [].

(** The states of a game: well-formed, with proper boards, a [legal] that fits
    the selection and a move list that fits the turn, now and in every
    snapshot of the history stack. *)
Definition playable (st : State) : Prop :=
  wf st /\ proper (curBoard st) /\ legal_ok st /\
  log_ok (st_turn st) (st_moves st) /\
  forall s, In s (st_history st) ->
    proper (boardAt st (s_board s)) /\ log_ok (s_turn s) (s_movesHTML s).

(** [pre st s g]: the run of [applyMove] from [st] has reached [s], where the
    live board holds [g]; the turn and the move list are those of [st]. *)
Definition pre (st s : State) (g : Grid) : Prop :=
  valid s /\ curBoard s = g /\ st_turn s = st_turn st /\ st_moves s = st_moves st.

(** [homed], decided square by square. *)
Definition homedb (g : Grid) : bool :=
  forallb (fun sq =>
    match at_ g (fst sq) (snd sq) with
    | Some p => negb (bool_decide (ptype p = King) && negb (pmoved p))
                || ((fst sq =? homeRow (pcolor p)) && (snd sq =? 4))
    | None => true
    end) squares.

Definition glyphedb (g : Grid) : bool :=
  forallb (fun row =>
    forallb (fun cell => match cell with
                         | Some p => negb (bool_decide (pcolor p = NoColor)) &&
                                     negb (bool_decide (ptype p = NoType))
                         | None => true
                         end) row) g.

(** *** Boards *)

Lemma homed_sane g : homed g -> sane g.
Proof. intros H r c p Hp Hk Hm. apply (H r c p Hp Hk Hm). Qed.

Lemma homed_boardAfter g mv : homed g -> homed (boardAfter g mv).
Proof.
  intros Hs r c p Hp Hk Hm. unfold at_ in Hp.
  destruct (inBounds r c) eqn:Hb; [|discriminate].
  destruct (boardAfter_cellStep g mv r c) as [E|[E|[(q & E & Hq)|(q & _ & E)]]];
    rewrite E in Hp.
  - apply (Hs r c p); auto. unfold at_. rewrite Hb. exact Hp.
  - discriminate.
  - injection Hp as <-. congruence.
  - injection Hp as <-. discriminate.
Qed.

Lemma homedb_homed g : homedb g = true -> homed g.
Proof.
  intros H r c p Hp Hk Hm. unfold homedb in H. rewrite forallb_forall in H.
  specialize (H (r, c) (in_squares _ _ (at_Some_inBounds _ _ _ _ Hp))).
  cbn [fst snd] in H. rewrite Hp, Hm in H.
  rewrite (bool_decide_eq_true_2 _ Hk) in H. cbn in H.
  apply andb_true_iff in H as [H1 H2]. apply Z.eqb_eq in H1, H2. split; assumption.
Qed.

Lemma glyphedb_glyphed g : glyphedb g = true -> glyphed g.
Proof.
  intros H r c p Hp. unfold glyphedb in H. rewrite forallb_forall in H.
  unfold getCell in Hp. destruct ((0 <=? r) && (0 <=? c)); [|discriminate].
  destruct (g !! Z.to_nat r) as [row|] eqn:Hrow; [|discriminate].
  destruct (row !! Z.to_nat c) as [cell|] eqn:Hcell; [|discriminate].
  subst cell.
  assert (Hin : In row g).
  { apply list_elem_of_In. eapply list_elem_of_lookup_2; eauto. }
  specialize (H row Hin). rewrite forallb_forall in H.
  assert (Hin' : In (Some p) row).
  { apply list_elem_of_In. eapply list_elem_of_lookup_2; eauto. }
  specialize (H _ Hin'). cbn in H. apply andb_true_iff in H as [H1 H2].
  split; intros E; rewrite (bool_decide_eq_true_2 _ E) in *; discriminate.
Qed.

Lemma glyphed_at g r c p : glyphed g -> at_ g r c = Some p -> known p.
Proof. intros Hc. unfold at_. destruct (inBounds r c); [apply Hc|discriminate]. Qed.

Lemma glyphed_setCell g r c v :
  glyphed g -> (forall p, v = Some p -> known p) -> glyphed (setCell g r c v).
Proof.
  intros Hc Hv r' c' p.
  destruct (getCell_setCell_cases g r c v r' c') as [-> | ->]; [apply Hc|apply Hv].
Qed.

Lemma canCastle_rook board lastDouble color side :
  canCastle board lastDouble color side = true ->
  exists rook, at_ board (homeRow color) (rookFile side) = Some rook.
Proof.
  unfold canCastle, homeRow, rookFile. cbv zeta.
  destruct (at_ board _ _) as [rook|]; [eauto|discriminate].
Qed.

(** A pseudo-legal move puts no piece without color or type on the board: the
    piece it moves is there, and so is the rook when it castles. *)
Lemma glyphed_boardAfter g lastDouble r c m :
  homed g -> glyphed g -> In m (genPseudo g lastDouble r c false) ->
  glyphed (boardAfter g (trial r c m)).
Proof.
  intros Hs Hc Hin.
  assert (Hp : exists p, at_ g r c = Some p).
  { unfold genPseudo in Hin. destruct (at_ g r c) as [p|]; [eauto|destruct Hin]. }
  destruct Hp as [p Hp].
  pose proof (glyphed_at _ _ _ _ Hc Hp) as Hcp.
  assert (Hnone : forall q : Piece, @None Piece = Some q -> known q)
    by (intros q E; discriminate E).
  assert (Hking : forall q, Some (movedCopy (Some p)) = Some q -> known q)
    by (intros q E; injection E as <-; exact Hcp).
  assert (Hcast : glyphed (castled g (trial r c m))).
  { unfold castled. cbv zeta. cbn [trial from to meta fst snd]. rewrite Hp.
    destruct (m_castle m) as [side|] eqn:Hm.
    - destruct (castling_conditions _ _ _ _ _ _ _ Hin Hm)
        as (p' & Hp' & Hcan & _ & Hk & Hmv & _ & ->).
      rewrite Hp in Hp'. injection Hp' as <-.
      destruct (Hs r c p Hp Hk Hmv) as [-> ->].
      destruct (canCastle_rook _ _ _ _ Hcan) as [rook Hrook].
      pose proof (glyphed_at _ _ _ _ Hc Hrook) as Hcr.
      unfold at_ in Hrook.
      destruct (inBounds (homeRow (pcolor p)) (rookFile side)); [|discriminate].
      cbn [m_ep m_r m_c].
      destruct side; cbn [kingStep rookFile] in *;
        rewrite !getCell_setCell_other
          by (intros E; apply (f_equal snd) in E; cbn in E; lia);
        rewrite Hrook;
        repeat (apply glyphed_setCell; [|assumption ||
                  (intros q E; injection E as <-; exact Hcr)]);
        exact Hc.
    - destruct (m_ep m); repeat (apply glyphed_setCell; [|assumption]); exact Hc. }
  unfold boardAfter. cbv zeta.
  destruct (landedCell g (trial r c m)) as [q|] eqn:Hq; [|exact Hcast].
  destruct (_ && _); [|exact Hcast].
  apply glyphed_setCell; [exact Hcast|].
  intros q' E. injection E as <-.
  enough (Hk : known q) by (split; [apply Hk|discriminate]).
  unfold landedCell in Hq. cbv zeta in Hq. cbn [trial from to fst snd] in Hq.
  destruct ((0 <=? m_c m) && (m_c m <? 8)).
  - apply (Hcast _ _ _ Hq).
  - destruct ((r =? m_r m) && (c =? m_c m)); [discriminate|].
    rewrite Hp in Hq. injection Hq as <-. exact Hcp.
Qed.

Lemma proper_boardAfter g lastDouble r c m :
  proper g -> In m (genPseudo g lastDouble r c false) ->
  proper (boardAfter g (trial r c m)).
Proof.
  intros [Hh Hc] Hin. split; [apply homed_boardAfter, Hh|].
  eapply glyphed_boardAfter; eauto.
Qed.

(** *** The lookups succeed *)

Lemma drawPieces_run st : glyphed (curBoard st) -> drawPieces st = Ok tt st.
Proof.
  intros Hc. unfold drawPieces, bind, gets.
  replace (forallb _ squares) with true; [reflexivity|].
  symmetry. apply forallb_forall. intros sq Hsq.
  destruct (getCell (curBoard st) (fst sq) (snd sq)) as [p|] eqn:E; [|reflexivity].
  pose proof (proj1 (Hc _ _ _ E)) as Hp.
  pose proof (inBounds_child _ _ (squares_inBounds _ Hsq)) as Hch.
  destruct (pcolor p); [exact Hch|exact Hch|congruence].
Qed.

Lemma rays_inBounds board color r c dirs m :
  In m (rays board color r c dirs) -> inBounds (m_r m) (m_c m) = true.
Proof.
  intros H. unfold rays in H. apply in_flat_map in H as (d & _ & H).
  apply ray_target in H. apply H.
Qed.

Lemma steps_inBounds board color r c deltas m :
  In m (steps board color r c deltas) -> inBounds (m_r m) (m_c m) = true.
Proof.
  intros H. unfold steps in H. apply in_flat_map in H as (d & _ & H).
  cbv zeta in H.
  destruct (inBounds (r + fst d) (c + snd d)) eqn:Hb; [|destruct H].
  cbn [andb] in H. in_if H. destruct H as [<-|[]]. exact Hb.
Qed.

(** The square every pseudo-legal move marks is on the page. *)
Lemma pseudoMoves_child board lastDouble r c forAttack m :
  In m (pseudoMoves board lastDouble r c forAttack) -> child (m_r m * 8 + m_c m) = true.
Proof.
  unfold pseudoMoves. destruct (at_ board r c) as [p|] eqn:Hp; [|intros []].
  pose proof (at_Some_inBounds _ _ _ _ Hp) as Hrc. apply inBounds_iff in Hrc.
  destruct (ptype p);
    try (intros H; apply inBounds_child; eapply rays_inBounds; exact H);
    try (intros H; apply inBounds_child; eapply steps_inBounds; exact H);
    [|intros []].
  unfold pawnMoves. cbv zeta. rewrite !in_app_iff. intros [H|[H|H]].
  - in_if H.
    destruct (empty board (r + (if bool_decide (pcolor p = White) then -1 else 1)) c)
      eqn:He; [|destruct H].
    apply empty_inBounds in He.
    destruct H as [<-|H]; [apply inBounds_child, He|].
    destruct (r =? _); [|destruct H]. cbn [andb] in H.
    destruct (empty board (r + 2 * _) c) eqn:He2; [|destruct H].
    apply empty_inBounds in He2.
    destruct H as [<-|[]]. apply inBounds_child, He2.
  - apply in_flat_map in H as (d & _ & H). cbv zeta in H.
    destruct (enemy board _ _ _) eqn:He; [|destruct H].
    apply enemy_inBounds in He.
    destruct H as [<-|[]]. apply inBounds_child, He.
  - destruct lastDouble as [l|]; [|destruct H].
    destruct ((ld_r l =? r) && (Z.abs (ld_c l - c) =? 1) &&
              (r =? (if bool_decide (pcolor p = White) then 3 else 4))) eqn:E;
      [|destruct H].
    destruct H as [<-|[]]. cbn [m_r m_c].
    apply andb_true_iff in E as [E E3]. apply andb_true_iff in E as [_ E2].
    apply Z.eqb_eq in E2, E3. unfold child. apply andb_true_iff.
    destruct (bool_decide (pcolor p = White)); lia.
Qed.

Lemma genPseudo_child board lastDouble r c m :
  sane board -> In m (genPseudo board lastDouble r c false) ->
  child (m_r m * 8 + m_c m) = true.
Proof.
  intros Hs Hin. destruct (m_castle m) as [side|] eqn:Hm.
  - destruct (castling_conditions _ _ _ _ _ _ _ Hin Hm)
      as (p & Hp & _ & _ & Hk & Hmv & _ & ->).
    pose proof (Hs r c p Hp Hk Hmv) as ->.
    pose proof (at_Some_inBounds _ _ _ _ Hp) as Hb. apply inBounds_iff in Hb.
    cbn [m_r m_c]. unfold child. apply andb_true_iff. destruct side; cbn; lia.
  - unfold genPseudo in Hin. destruct (at_ board r c) as [p|] eqn:Hp; [|destruct Hin].
    cbv zeta in Hin. apply in_app_iff in Hin as [Hin|Hin].
    + eapply pseudoMoves_child; eauto.
    + in_if Hin. in_if Hin.
      apply in_app_iff in Hin as [Hin|Hin]; in_if Hin;
        destruct Hin as [<-|[]]; discriminate.
Qed.

Lemma drawSelection_run st :
  sane (curBoard st) -> legal_ok st -> drawSelection st = Ok tt st.
Proof.
  intros Hs Hl. unfold drawSelection, bind, gets.
  destruct (st_selected st) as [s|] eqn:Es; [|reflexivity].
  destruct (Hl s Es) as [Hb Hall].
  rewrite (inBounds_child _ _ Hb).
  replace (forallb _ (st_legal st)) with true; [reflexivity|].
  symmetry. apply forallb_forall. intros m Hm.
  eapply genPseudo_child; [exact Hs|apply Hall, Hm].
Qed.

Lemma at_getCell g r c : inBounds r c = true -> at_ g r c = getCell g r c.
Proof. intros H. unfold at_. rewrite H. reflexivity. Qed.

Lemma drawSelection_unselected st : st_selected st = None -> drawSelection st = Ok tt st.
Proof. intros E. unfold drawSelection, bind, gets. rewrite E. reflexivity. Qed.

(** *** A committed move runs to its end *)

Lemma returns_step {A B} (m : M A) (k : A -> M B) st (Q : A -> State -> Prop) :
  (exists a s, m st = Ok a s /\ Q a s) ->
  (forall a s, Q a s -> returns (k a s) = true) ->
  returns (bind m k st) = true.
Proof.
  intros (a & s & E & HQ) Hk. rewrite (bind_run _ _ _ _ _ E). apply Hk, HQ.
Qed.

Lemma pre_write st s g r c v :
  pre st s g -> 0 <= r < 8 ->
  exists a s', writeBoard r c v s = Ok a s' /\ pre st s' (setCell g r c v).
Proof.
  intros (Hv & Hg & Ht & Hm) Hr. eexists _, _.
  split; [apply writeBoard_run, Hr|]. rewrite Hg.
  split; [apply valid_withBoard, Hv|].
  split; [apply curBoard_withBoard, Hv|]. split; assumption.
Qed.

Lemma pre_capture st s g p q :
  pre st s g -> known q ->
  exists a s', recordCapture (Some p) q s = Ok a s' /\ pre st s' g.
Proof.
  intros (Hv & Hg & Ht & Hm) [Hq _]. unfold recordCapture.
  assert (Hpush : forall l icon, exists a s', pushBin l icon s = Ok a s' /\ pre st s' g).
  { intros l icon. eexists _, _. split; [reflexivity|].
    split; [|split; [exact Hg|split; assumption]].
    destruct Hv as (Hb & Hw & Hk). unfold valid. cbn. rewrite length_insert. auto. }
  destruct (pcolor q); [| |congruence]; cbn [UNI];
    destruct (bool_decide (pcolor p = White)); unfold bind, gets; apply Hpush.
Qed.

Lemma pre_castle st s g r a b :
  pre st s g -> 0 <= r < 8 ->
  exists u s',
    (rook <- readBoard r a ;;
     writeBoard r b (Some (movedCopy rook)) ;;;
     writeBoard r a None) s = Ok u s' /\
    pre st s' (setCell (setCell g r b (Some (movedCopy (getCell g r a)))) r a None).
Proof.
  intros P Hr. pose proof P as (Hv & Hg & _).
  rewrite (bind_run _ _ _ _ _ (readBoard_run r a s Hr)). rewrite Hg.
  destruct (pre_write _ _ _ r b (Some (movedCopy (getCell g r a))) P Hr)
    as ([] & s1 & E1 & P1).
  rewrite (bind_run _ _ _ _ _ E1).
  apply pre_write; assumption.
Qed.

Lemma logMove_returns piece cp from to meta s :
  log_ok (st_turn s) (st_moves s) ->
  returns (logMove piece cp from to meta s) = true.
Proof.
  intros Hlog. unfold logMove. cbv zeta. unfold bind, gets.
  destruct (bool_decide (st_turn s = White)) eqn:Ew; [reflexivity|].
  destruct Hlog as [Hw|Hne]; [apply bool_decide_eq_false in Ew; contradiction|].
  destruct (last (st_moves s)) eqn:El; [reflexivity|].
  apply last_None in El. contradiction.
Qed.

(** A committed move whose simulation runs to its end runs to its end too,
    on a board whose pieces have a color and with a move list that fits the
    turn. *)
Lemma applyMove_commit_returns mv st :
  valid st -> glyphed (curBoard st) -> log_ok (st_turn st) (st_moves st) ->
  applies (curBoard st) mv = true ->
  returns (applyMove mv false st) = true.
Proof.
  intros Hv Hc Hlog Ha. unfold applies in Ha.
  destruct (at_ (curBoard st) (fst (from mv)) (snd (from mv))) as [p|] eqn:Hp;
    [|discriminate].
  apply andb_true_iff in Ha as [Hto Hl].
  assert (Hto' : 0 <= fst (to mv) < 8) by (apply andb_true_iff in Hto; lia).
  assert (Hfrom : 0 <= fst (from mv) < 8)
    by (apply at_Some_inBounds, inBounds_iff in Hp; lia).
  clear Hto.
  destruct (landedCell (curBoard st) mv) as [q|] eqn:Hq; [|discriminate]. clear Hl.
  unfold landedCell, castled in Hq. cbv zeta in Hq. rewrite Hp in Hq.
  assert (P0 : pre st st (curBoard st)) by (split; [exact Hv|repeat split]).
  unfold applyMove. cbv zeta. cbn [negb].
  unfold bind at 1, gets at 1. unfold bind at 1, gets at 1. rewrite Hp.
  (* lines 221-225 *)
  eapply (returns_step _ _ _ (fun _ s => pre st s (curBoard st))).
  { destruct (at_ (curBoard st) (fst (to mv)) (snd (to mv))) as [t|] eqn:Ht.
    - cbn [when]. apply pre_capture; [exact P0|eapply glyphed_at; eauto].
    - exists tt, st. split; [reflexivity|exact P0]. }
  clear P0. intros [] s1 P1.
  (* lines 226-233 *)
  eapply (returns_step _ _ _ (fun _ s => pre st s (curBoard st))).
  { rewrite andb_true_r. destruct (m_ep (meta mv)); cbn [when].
    - unfold bind at 1, gets at 1.
      destruct (at_ (curBoard s1) (fst (from mv)) (snd (to mv))) as [e|] eqn:He.
      + apply pre_capture; [exact P1|].
        destruct P1 as (_ & Hg1 & _). rewrite Hg1 in He. eapply glyphed_at; eauto.
      + exists tt, s1. split; [reflexivity|exact P1].
    - exists tt, s1. split; [reflexivity|exact P1]. }
  clear s1 P1. intros [] s2 P2.
  (* line 234 *)
  eapply (returns_step _ _ _ (fun _ s => pre st s
            (if m_ep (meta mv)
             then setCell (curBoard st) (fst (from mv)) (snd (to mv)) None
             else curBoard st))).
  { destruct (m_ep (meta mv)); cbn [when].
    - apply pre_write; assumption.
    - exists tt, s2. split; [reflexivity|exact P2]. }
  clear s2 P2. intros [] s3 P3.
  (* lines 236-237 *)
  eapply returns_step; [apply pre_write; [exact P3|exact Hto']|].
  clear s3 P3. intros [] s4 P4.
  eapply returns_step; [apply pre_write; [exact P4|exact Hfrom]|].
  clear s4 P4. intros [] s5 P5.
  (* lines 239-243 *)
  match type of P5 with pre _ _ ?g => set (g3 := g) in * end.
  eapply (returns_step _ _ _ (fun _ s => pre st s
            (match m_castle (meta mv) with
             | Some KSide =>
                 setCell (setCell g3 (fst (to mv)) 5
                            (Some (movedCopy (getCell g3 (fst (to mv)) 7))))
                         (fst (to mv)) 7 None
             | Some QSide =>
                 setCell (setCell g3 (fst (to mv)) 3
                            (Some (movedCopy (getCell g3 (fst (to mv)) 0))))
                         (fst (to mv)) 0 None
             | None => g3
             end))).
  { destruct (m_castle (meta mv)) as [[|]|].
    - apply pre_castle; assumption.
    - apply pre_castle; assumption.
    - exists tt, s5. split; [reflexivity|exact P5]. }
  clear s5 P5. intros [] s6 P6.
  (* line 245 *)
  match type of P6 with pre _ _ ?g => set (gC := g) in * end.
  eapply (returns_step _ _ _ (fun a s => a = Some q /\ pre st s gC)).
  { destruct ((0 <=? snd (to mv)) && (snd (to mv) <? 8)).
    - exists (Some q), s6. split; [|split; [reflexivity|exact P6]].
      rewrite (readBoard_run _ _ _ Hto'). destruct P6 as (_ & -> & _).
      rewrite Hq. reflexivity.
    - exists (Some q), s6. split; [|split; [reflexivity|exact P6]].
      unfold ret. rewrite Hq. reflexivity. }
  intros landed s7 [-> P7]. clear s6 P6.
  (* lines 245-247 *)
  eapply (returns_step _ _ _ (fun _ s => exists g, pre st s g)).
  { destruct (bool_decide (ptype q = Pawn) && ((fst (to mv) =? 0) || (fst (to mv) =? 7)));
      cbn [when].
    - destruct (pre_write _ _ _ (fst (to mv)) (snd (to mv))
                  (Some (mkPiece Queen (pcolor q) (pmoved q))) P7 Hto')
        as (a & s' & E & P').
      exists a, s'. split; [exact E|]. eexists; exact P'.
    - exists tt, s7. split; [reflexivity|]. eexists; exact P7. }
  clear s7 P7. intros [] s8 [g8 P8].
  (* lines 249-250 *)
  eapply (returns_step _ _ _ (fun _ s => pre st s g8)).
  { destruct (bool_decide (ptype p = Pawn) && m_double (meta mv));
      eexists tt, _; (split; [reflexivity|exact P8]). }
  clear s8 P8. intros [] s9 (Hv9 & _ & Ht9 & Hm9).
  (* lines 252-255 *)
  cbn [when].
  eapply (returns_step _ _ _ (fun _ _ => True)); [|reflexivity].
  pose proof (logMove_returns p (at_ (curBoard st) (fst (to mv)) (snd (to mv)))
                (from mv) (to mv) (meta mv) s9) as Hr.
  rewrite Ht9, Hm9 in Hr. specialize (Hr Hlog). apply returns_true in Hr as (a & s & E).
  exists a, s. split; [exact E|exact I].
Qed.

(** *** Selecting a square *)

Lemma session_lastDouble st st' :
  session st' = session st -> st_lastDouble st' = st_lastDouble st.
Proof. intros E. exact (f_equal ss_lastDouble E). Qed.

Lemma session_turn st st' : session st' = session st -> st_turn st' = st_turn st.
Proof. intros E. exact (f_equal ss_turn E). Qed.

Lemma legal_ok_same st st' :
  session st' = session st -> st_selected st' = st_selected st ->
  st_legal st' = st_legal st -> legal_ok st -> legal_ok st'.
Proof.
  intros Es Esel Eleg Hl s Hs. unfold legal_ok in Hl.
  rewrite (session_board _ _ Es), (session_lastDouble _ _ Es), Eleg.
  apply Hl. rewrite <- Esel. exact Hs.
Qed.

Lemma legal_ok_unselected st : st_selected st = None -> legal_ok st.
Proof. intros E s Hs. congruence. Qed.

(** After [genLegal] for the square just selected: [legal] fits it. *)
Lemma select_mid r c st q lg s2 :
  valid st -> at_ (curBoard st) r c = Some q ->
  genLegal r c (set_selected (Some (r, c)) st) = Ok lg s2 ->
  valid (set_legal lg s2) /\ curBoard (set_legal lg s2) = curBoard st /\
  legal_ok (set_legal lg s2).
Proof.
  intros Hv Hq H.
  assert (Hv1 : valid (set_selected (Some (r, c)) st)) by exact Hv.
  destruct (genLegal_spec _ _ _ _ _ Hv1 H) as (Hun & Hg & Elg & _).
  pose proof (unchanged_board _ _ Hun) as Ecur.
  pose proof (unchanged_lastDouble _ _ Hun) as Eld.
  pose proof (un_selected _ _ Hun) as Esel.
  change (curBoard (set_selected (Some (r, c)) st)) with (curBoard st) in *.
  change (st_lastDouble (set_selected (Some (r, c)) st)) with (st_lastDouble st) in *.
  change (st_selected (set_selected (Some (r, c)) st)) with (Some (r, c)) in Esel.
  split; [exact (grows_valid _ _ Hv1 Hg)|]. split; [exact Ecur|].
  intros s Hs. change (st_selected (set_legal lg s2)) with (st_selected s2) in Hs.
  rewrite Esel in Hs. injection Hs as <-. cbn [fst snd].
  split; [exact (at_Some_inBounds _ _ _ _ Hq)|].
  change (st_legal (set_legal lg s2)) with lg.
  change (curBoard (set_legal lg s2)) with (curBoard s2).
  change (st_lastDouble (set_legal lg s2)) with (st_lastDouble s2).
  rewrite Ecur, Eld. intros m Hm. rewrite Elg, Hq in Hm.
  apply filter_In in Hm. apply Hm.
Qed.

Lemma select_returns r c st q :
  valid st -> boardOk (curBoard st) -> glyphed (curBoard st) ->
  at_ (curBoard st) r c = Some q ->
  returns ((modify (set_selected (Some (r, c))) ;;;
            lg <- genLegal r c ;;
            modify (set_legal lg) ;;;
            render) st) = true.
Proof.
  intros Hv (Hg & Hs) Hc Hq.
  unfold bind at 1, modify at 1.
  assert (Hv1 : valid (set_selected (Some (r, c)) st)) by exact Hv.
  pose proof (genLegal_returns r c _ Hv1 Hg Hs) as Hr.
  apply returns_true in Hr as (lg & s2 & Hr).
  rewrite (bind_run _ _ _ _ _ Hr).
  unfold bind at 1, modify at 1.
  destruct (select_mid _ _ _ _ _ _ Hv Hq Hr) as (Hv2 & Ecur & Hl).
  apply render_returns;
    [exact Hv2|rewrite Ecur; exact Hg|rewrite Ecur; exact Hs
    |apply drawPieces_run; rewrite Ecur; exact Hc
    |apply drawSelection_run; [rewrite Ecur; exact Hs|exact Hl]].
Qed.

Lemma select_legal r c st q u st' :
  valid st -> at_ (curBoard st) r c = Some q ->
  (modify (set_selected (Some (r, c))) ;;;
   lg <- genLegal r c ;;
   modify (set_legal lg) ;;;
   render) st = Ok u st' ->
  legal_ok st'.
Proof.
  intros Hv Hq H.
  apply bind_Ok in H as (? & s1 & H1 & H). run1 H1.
  apply bind_Ok in H as (lg & s2 & H2 & H).
  apply bind_Ok in H as (? & s3 & H3 & H). run1 H3.
  destruct (select_mid _ _ _ _ _ _ Hv Hq H2) as (Hv2 & _ & Hl).
  destruct (render_spec _ _ _ Hv2 H) as (Es & Esel & Eleg & _).
  exact (legal_ok_same _ _ Es Esel Eleg Hl).
Qed.

(** *** Clicks *)

(** The move a click commits is one the generator pushes on the board as it
    is, for the square selected. *)
Lemma committed_pseudo r c st s mv :
  legal_ok st -> committed r c st = Some (s, mv) ->
  mkMove s (r, c) mv = trial (fst s) (snd s) mv /\
  In mv (genPseudo (curBoard st) (st_lastDouble st) (fst s) (snd s) false).
Proof.
  intros Hl Hc. unfold committed in Hc.
  destruct (st_gameOver st); [discriminate|].
  destruct (st_selected st) as [s'|] eqn:Es; [|discriminate].
  destruct (ownPiece st r c); [discriminate|].
  destruct (find _ (st_legal st)) as [mv'|] eqn:Hf; [|discriminate].
  injection Hc as -> ->.
  apply find_some in Hf as [Hin Hrc].
  apply andb_true_iff in Hrc as [Hr Hc']. apply Z.eqb_eq in Hr, Hc'.
  split.
  - unfold trial. rewrite Hr, Hc'. destruct s; reflexivity.
  - apply (Hl s Es), Hin.
Qed.

Lemma logMove_nonempty piece cp from to meta st u st' :
  logMove piece cp from to meta st = Ok u st' -> st_moves st' <> [].
Proof.
  unfold logMove. cbv zeta. intros H. run1 H.
  match goal with R : (if ?b then _ else _) _ = Ok _ _ |- _ =>
    destruct b; [|destruct (last (st_moves st)); [|discriminate R]]; run1 R
  end; cbn; intros E; apply app_eq_nil in E as [_ E]; discriminate E.
Qed.

(** A committed [applyMove] leaves an item in the move list. *)
Lemma applyMove_commit_log mv st u st' :
  applyMove mv false st = Ok u st' -> st_moves st' <> [].
Proof.
  intros H. unfold applyMove in H. cbv zeta in H.
  apply bind_Ok in H as (piece & s & H0 & H). run1 H0.
  apply bind_Ok in H as (target & s & H0 & H). run1 H0.
  do 8 (apply bind_Ok in H as (? & ? & _ & H)).
  destruct (at_ (curBoard st) (fst (from mv)) (snd (from mv))) as [p|]; [|discriminate H].
  apply bind_Ok in H as (? & ? & _ & H). cbn [negb when] in H.
  apply bind_Ok in H as (? & s10 & H10 & H). unfold renderCaptured in H. run1 H.
  eapply logMove_nonempty; eauto.
Qed.

(** What a committing click leaves besides the board: the snapshot pushed
    holds the move list as it was, nothing is selected, and the move list has
    an item. *)
Lemma click_committed_log r c st s mv u st' :
  valid st -> committed r c st = Some (s, mv) -> onSquareClick r c st = Ok u st' ->
  st_selected st' = None /\ st_moves st' <> [] /\
  forall snap rest, st_history st' = snap :: rest -> s_movesHTML snap = st_moves st.
Proof.
  intros Hv Hc H. unfold onSquareClick in H. unfold committed, ownPiece in Hc.
  apply bind_Ok in H as (over & s0 & H0 & H). run1 H0.
  destruct (st_gameOver st); [discriminate|].
  apply bind_Ok in H as (cp & s0 & H0 & H). run1 H0.
  apply bind_Ok in H as (sel & s0 & H0 & H). run1 H0.
  apply bind_Ok in H as (t & s0 & H0 & H). run1 H0.
  cbv zeta in H.
  destruct (st_selected st) as [s'|]; [|discriminate].
  destruct (match at_ (curBoard st) r c with
            | Some q => bool_decide (pcolor q = st_turn st)
            | None => false
            end); [discriminate|].
  apply bind_Ok in H as (lg & s0 & H0 & H). run1 H0.
  destruct (find _ (st_legal st)) as [mv'|]; [|discriminate].
  injection Hc as -> ->.
  apply bind_Ok in H as (snap & s1 & Hsnap & H).
  apply bind_Ok in H as (? & s1' & H1 & H). run1 H1.
  apply bind_Ok in H as (? & s2 & Happ & H).
  apply bind_Ok in H as (? & s3 & H3 & H). run1 H3.
  apply bind_Ok in H as (? & s4 & H4 & H). run1 H4.
  apply bind_Ok in H as (? & s5 & H5 & H). run1 H5.
  destruct (snapshot_spec _ _ _ Hv Hsnap) as (_ & _ & _ & _ & Hhtml & Hun1 & Hg1).
  pose proof (grows_valid _ _ Hv Hg1) as Hv1.
  set (s1' := set_history (snap :: st_history s1) s1) in *.
  assert (Hv1' : valid s1') by exact Hv1.
  destruct (applyMove_effect _ _ _ _ _ Hv1' Happ) as ((Hv2 & Hm & _) & _).
  pose proof (applyMove_commit_log _ _ _ _ Happ) as Hne.
  set (s3 := set_legal [] (set_selected None (set_turn (opponent (st_turn s2)) s2))) in *.
  assert (Hv3 : valid s3) by exact Hv2.
  destruct (render_spec _ _ _ Hv3 H) as (_ & Esel & _ & Eh & Em & _).
  split; [exact Esel|]. split; [rewrite Em; exact Hne|].
  intros snap' rest E. rewrite Eh in E. cbn in E. rewrite (mu_history _ _ Hm) in E.
  cbn in E. injection E as <- _. exact Hhtml.
Qed.

(** A click that commits no move leaves [legal] fitting the selection. *)
Lemma click_not_committed_legal r c st u st' :
  valid st -> legal_ok st -> committed r c st = None ->
  onSquareClick r c st = Ok u st' -> legal_ok st'.
Proof.
  intros Hv Hl Hc H. unfold onSquareClick in H. unfold committed, ownPiece in Hc.
  apply bind_Ok in H as (over & s0 & H0 & H). run1 H0.
  destruct (st_gameOver st).
  { run1 H. exact Hl. }
  apply bind_Ok in H as (cp & s0 & H0 & H). run1 H0.
  apply bind_Ok in H as (sel & s0 & H0 & H). run1 H0.
  apply bind_Ok in H as (t & s0 & H0 & H). run1 H0.
  cbv zeta in H.
  destruct (at_ (curBoard st) r c) as [q|] eqn:Hq.
  - destruct (bool_decide (pcolor q = st_turn st)).
    + destruct (st_selected st); eapply select_legal; eauto.
    + destruct (st_selected st) as [s|] eqn:Es; [|run1 H; exact Hl].
      apply bind_Ok in H as (lg & s0 & H0 & H). run1 H0.
      destruct (find _ (st_legal st)) as [mv|]; [discriminate|].
      apply bind_Ok in H as (? & s1 & H1 & H). run1 H1.
      apply bind_Ok in H as (? & s2 & H2 & H). run1 H2.
      assert (Hv2 : valid (set_legal [] (set_selected None st))) by exact Hv.
      destruct (render_spec _ _ _ Hv2 H) as (_ & Esel & _).
      apply legal_ok_unselected. exact Esel.
  - destruct (st_selected st) as [s|] eqn:Es; [|run1 H; exact Hl].
    apply bind_Ok in H as (lg & s0 & H0 & H). run1 H0.
    destruct (find _ (st_legal st)) as [mv|]; [discriminate|].
    apply bind_Ok in H as (? & s1 & H1 & H). run1 H1.
    apply bind_Ok in H as (? & s2 & H2 & H). run1 H2.
    assert (Hv2 : valid (set_legal [] (set_selected None st))) by exact Hv.
    destruct (render_spec _ _ _ Hv2 H) as (_ & Esel & _).
    apply legal_ok_unselected. exact Esel.
Qed.

Lemma playable_click r c st u st' :
  playable st -> onSquareClick r c st = Ok u st' -> playable st'.
Proof.
  intros (Hw & Hp & Hl & Hlog & Hh) H.
  pose proof (wf_click _ _ _ _ _ Hw H) as Hw'.
  destruct Hw as (Hv & Hb & Hwh).
  split; [exact Hw'|].
  destruct (committed r c st) as [[s mv]|] eqn:Hc.
  - destruct (click_committed _ _ _ _ _ _ _ Hv Hc H)
      as (snap & Eh & Hok & Hss & Ecur & _ & _ & _ & Hg).
    destruct (click_committed_log _ _ _ _ _ _ _ Hv Hc H) as (Esel & Hne & Hhtml).
    destruct (committed_pseudo _ _ _ _ _ Hl Hc) as [Etr Hin].
    split; [|split; [|split]].
    + rewrite Ecur, Etr. eapply proper_boardAfter; eauto.
    + apply legal_ok_unselected, Esel.
    + right. exact Hne.
    + intros s' Hs'. rewrite Eh in Hs'. destruct Hs' as [<-|Hs'].
      * split.
        -- rewrite (snapSession_board _ _ _ Hss). exact Hp.
        -- rewrite (Hhtml _ _ Eh).
           replace (s_turn snap) with (st_turn st)
             by (symmetry; exact (f_equal ss_turn Hss)).
           exact Hlog.
      * destruct (Hh s' Hs') as (Hb' & Hlog'). destruct (Hwh s' Hs') as [Hok' _].
        split; [|exact Hlog'].
        rewrite (snap_board_grows _ _ _ Hok' Hg). exact Hb'.
  - destruct (click_not_committed _ _ _ _ _ Hv Hc H) as (Es & Eh & Em & Hg).
    split; [|split; [|split]].
    + rewrite (session_board _ _ Es). exact Hp.
    + eapply click_not_committed_legal; eauto.
    + rewrite (session_turn _ _ Es), Em. exact Hlog.
    + intros s' Hs'. rewrite Eh in Hs'. destruct (Hh s' Hs') as (Hb' & Hlog').
      destruct (Hwh s' Hs') as [Hok' _].
      split; [|exact Hlog'].
      rewrite (snap_board_grows _ _ _ Hok' Hg). exact Hb'.
Qed.

(** In a game a click never raises. *)
Lemma click_returns r c st : playable st -> returns (onSquareClick r c st) = true.
Proof.
  intros ((Hv & Hb & _) & Hp & Hl & Hlog & _). unfold onSquareClick.
  pose proof (proj2 Hp) as Hgl.
  unfold bind at 1, gets at 1. destruct (st_gameOver st) eqn:Ego; [reflexivity|].
  unfold bind at 1, gets at 1. unfold bind at 1, gets at 1.
  unfold bind at 1, gets at 1. cbv zeta.
  assert (Hunsel : returns ((modify (set_selected None) ;;; modify (set_legal []) ;;; render) st)
                   = true).
  { unfold bind at 1, modify at 1. unfold bind at 1, modify at 1.
    destruct Hb as (Hg & Hs).
    apply render_returns; try assumption;
      [apply drawPieces_run; exact Hgl|apply drawSelection_unselected; reflexivity]. }
  assert (Hcommit : forall s mv,
            st_selected st = Some s ->
            ownPiece st r c = false ->
            find (fun m => (m_r m =? r) && (m_c m =? c)) (st_legal st) = Some mv ->
            returns ((snap <- snapshot ;;
                      modify (fun st => set_history (snap :: st_history st) st) ;;;
                      applyMove (mkMove s (r, c) mv) false ;;;
                      modify (fun st => set_turn (opponent (st_turn st)) st) ;;;
                      modify (set_selected None) ;;; modify (set_legal []) ;;;
                      render) st) = true).
  { intros s mv Es Hown Hf.
    assert (Hc : committed r c st = Some (s, mv))
      by (unfold committed; rewrite Ego, Es, Hown, Hf; reflexivity).
    destruct (committed_pseudo _ _ _ _ _ Hl Hc) as [Etr Hin].
    destruct (snapshot_returns st) as (snap & s1 & Hsnap).
    rewrite (bind_run _ _ _ _ _ Hsnap).
    destruct (snapshot_spec _ _ _ Hv Hsnap) as (_ & _ & _ & _ & _ & Hun1 & Hg1).
    pose proof (grows_valid _ _ Hv Hg1) as Hv1.
    unfold bind at 1, modify at 1.
    set (s1' := set_history (snap :: st_history s1) s1).
    assert (Hv1' : valid s1') by exact Hv1.
    assert (Hcur1 : curBoard s1' = curBoard st) by (apply (unchanged_board _ _ Hun1)).
    assert (Hr : returns (applyMove (mkMove s (r, c) mv) false s1') = true).
    { destruct Hb as (Hg & Hs). destruct Hp as (_ & Hcol).
      apply applyMove_commit_returns; [exact Hv1'| | |].
      - rewrite Hcur1. exact Hcol.
      - change (st_turn s1') with (st_turn s1). change (st_moves s1') with (st_moves s1).
        rewrite (session_turn _ _ (un_session _ _ Hun1)), (un_moves _ _ Hun1). exact Hlog.
      - rewrite Hcur1, Etr. eapply genPseudo_applies; eauto. }
    apply returns_true in Hr as ([] & s2 & Happ).
    rewrite (bind_run _ _ _ _ _ Happ).
    destruct (applyMove_effect _ _ _ _ _ Hv1' Happ) as ((Hv2 & _ & Hb2 & _) & _).
    unfold bind at 1, modify at 1. unfold bind at 1, modify at 1.
    unfold bind at 1, modify at 1.
    set (s3 := set_legal [] (set_selected None (set_turn (opponent (st_turn s2)) s2))).
    assert (Hcur3 : curBoard s3 = boardAfter (curBoard st) (mkMove s (r, c) mv))
      by (rewrite <- Hcur1; exact Hb2).
    destruct (boardOk_boardAfter _ (mkMove s (r, c) mv) Hb) as (Hg3 & Hs3).
    apply render_returns; rewrite ?Hcur3; try assumption;
      [|apply drawSelection_unselected; reflexivity].
    apply drawPieces_run. rewrite Hcur3, Etr.
    eapply glyphed_boardAfter; [apply Hp|exact Hgl|exact Hin]. }
  destruct (at_ (curBoard st) r c) as [q|] eqn:Hq.
  - destruct (bool_decide (pcolor q = st_turn st)) eqn:Hown.
    + destruct (st_selected st); eapply select_returns; eauto.
    + destruct (st_selected st) as [s|] eqn:Es; [|reflexivity].
      unfold bind at 1, gets at 1.
      destruct (find _ (st_legal st)) as [mv|] eqn:Hf; [|exact Hunsel].
      apply Hcommit; [reflexivity| |reflexivity].
      unfold ownPiece. rewrite Hq. exact Hown.
  - destruct (st_selected st) as [s|] eqn:Es; [|reflexivity].
    unfold bind at 1, gets at 1.
    destruct (find _ (st_legal st)) as [mv|] eqn:Hf; [|exact Hunsel].
    apply Hcommit; [reflexivity| |reflexivity].
    unfold ownPiece. rewrite Hq. reflexivity.
Qed.

(** *** Undo and New Game *)

Lemma undo_moves st s rest u st' :
  valid st -> st_history st = s :: rest -> undo st = Ok u st' ->
  st_moves st' = s_movesHTML s.
Proof.
  intros Hv Eh H. unfold undo in H.
  apply bind_Ok in H as (h & s0 & H0 & H). run1 H0. rewrite Eh in H.
  apply bind_Ok in H as (? & s1 & H1 & H). run1 H1.
  apply bind_Ok in H as (? & s2 & H2 & H).
  apply restoreSnapshot_Ok in H2.
  destruct H2 as (HB & HC & Eb & _ & _ & _ & _ & _ & Ew & Ek & _ & Em).
  apply bind_Ok in H as (? & s3 & H3 & H). run1 H3.
  apply bind_Ok in H as (? & s4 & H4 & H). run1 H4.
  apply bind_Ok in H as (? & s5 & H5 & H). run1 H5.
  unfold renderCaptured in H. apply bind_Ok in H as (? & s6 & H6 & H). run1 H6.
  match type of H with render ?s = _ => assert (Hv2 : valid s) end.
  { destruct Hv as (Hb & Hw & Hk). unfold valid. cbn. rewrite HB, HC, Eb, Ew, Ek.
    cbn. rewrite !length_app. cbn. lia. }
  destruct (render_spec _ _ _ Hv2 H) as (_ & _ & _ & _ & Em' & _).
  rewrite Em'. exact Em.
Qed.

Lemma playable_undo st u st' : playable st -> undo st = Ok u st' -> playable st'.
Proof.
  intros (Hw & Hp & Hl & Hlog & Hh) H.
  pose proof (wf_undo _ _ _ Hw H) as Hw'.
  split; [exact Hw'|].
  destruct (st_history st) as [|s rest] eqn:Eh.
  - rewrite (undo_empty _ Eh) in H. injection H as _ <-.
    rewrite Eh. split; [exact Hp|]. split; [exact Hl|]. split; [exact Hlog|].
    intros s [].
  - pose proof (undo_moves _ _ _ _ _ (proj1 Hw) Eh H) as Em.
    destruct (undo_effect _ _ _ _ _ Hw Eh H) as (Es & Eh' & Esel & _ & Hg).
    destruct Hw as (Hv & Hb & Hwh).
    destruct (Hh s) as (Hbs & Hlogs); [left; reflexivity|].
    split; [|split; [|split]].
    + rewrite (session_snap_board _ _ _ Es). exact Hbs.
    + apply legal_ok_unselected, Esel.
    + rewrite Em. replace (st_turn st') with (s_turn s)
        by (symmetry; exact (f_equal ss_turn Es)).
      exact Hlogs.
    + intros s' Hs'. rewrite Eh' in Hs'.
      destruct (Hh s') as (Hb' & Hlog'); [right; exact Hs'|].
      destruct (Hwh s') as [Hok' _]; [rewrite Eh; right; exact Hs'|].
      split; [|exact Hlog'].
      rewrite (snap_board_grows _ _ _ Hok' Hg). exact Hb'.
Qed.

(** In a game [undo] never raises. *)
Lemma undo_spec st s rest :
  wf st -> st_history st = s :: rest -> glyphed (boardAt st (s_board s)) ->
  exists u st',
    undo st = Ok u st' /\
    session st' = snapSession st s /\ st_history st' = rest /\
    st_selected st' = None /\ st_legal st' = [] /\
    grows st st'.
Proof.
  intros Hw Eh Hc. pose proof Hw as (Hv & Hb & Hh).
  destruct (Hh s) as [Hok Hbs]; [rewrite Eh; left; reflexivity|].
  assert (Hr : returns (undo st) = true).
  { unfold undo. unfold bind at 1, gets at 1. rewrite Eh.
    unfold bind at 1, modify at 1.
    set (st0 := set_history rest st).
    destruct (restoreSnapshot_total s st0) as (st1 & Hres).
    rewrite (bind_run _ _ _ _ _ Hres).
    assert (Hv0 : valid st0) by exact Hv.
    assert (Hok0 : snap_ok st0 s) by exact Hok.
    destruct (restore_spec _ _ _ _ Hv0 Hok0 Hres) as (Es & _ & _ & _ & _ & Eh1 & Hg1).
    unfold bind at 1, modify at 1. unfold bind at 1, modify at 1.
    unfold bind at 1, modify at 1. unfold bind at 1, renderCaptured, ret.
    set (st2 := set_legal [] (set_selected None (set_gameOver false st1))).
    assert (Hv2 : valid st2) by (eapply grows_valid in Hg1; eauto).
    assert (Hcur2 : curBoard st2 = boardAt st (s_board s)) by exact (f_equal ss_board Es).
    apply render_returns; [exact Hv2| | | |].
    - rewrite Hcur2. apply Hbs.
    - rewrite Hcur2. apply Hbs.
    - apply drawPieces_run. rewrite Hcur2. exact Hc.
    - apply drawSelection_unselected. reflexivity. }
  apply returns_true in Hr as (u & st' & Hr).
  exists u, st'. split; [exact Hr|]. exact (undo_effect _ _ _ _ _ Hw Eh Hr).
Qed.

Lemma undo_returns st : playable st -> returns (undo st) = true.
Proof.
  intros (Hw & _ & _ & _ & Hh). destruct (st_history st) as [|s rest] eqn:Eh.
  - rewrite (undo_empty _ Eh). reflexivity.
  - destruct (undo_spec _ _ _ Hw Eh) as (u & st' & H & _).
    + apply (Hh s). left. reflexivity.
    + rewrite H. reflexivity.
Qed.

Lemma loadRow_pre st0 r row : forall file g g' s,
  pre st0 s g -> loadRowG r row file g = Some g' ->
  exists a s', loadRow r row file s = Ok a s' /\ pre st0 s' g'.
Proof.
  induction row as [|ch rest IH]; intros file g g' s P H; cbn [loadRow loadRowG] in *.
  - injection H as <-. exists tt, s. split; [reflexivity|exact P].
  - destruct (digitValue ch) as [d|]; [eapply IH; eauto|].
    cbv zeta.
    destruct ((0 <=? r) && (r <? 8)) eqn:Hr; [|discriminate].
    assert (Hr' : 0 <= r < 8) by (apply andb_true_iff in Hr; lia).
    destruct (pre_write _ _ _ r file
                (Some (mkPiece (typeOfLetter (toUpperCase ch))
                               (if Ascii.eqb ch (toUpperCase ch) then White else Black)
                               false)) P Hr')
      as ([] & s1 & E1 & P1).
    rewrite (bind_run _ _ _ _ _ E1). eapply IH; eauto.
Qed.

Lemma loadRows_pre st0 rows rs : forall g g' s,
  pre st0 s g -> loadRowsG rows rs g = Some g' ->
  exists a s', loadRows rows rs s = Ok a s' /\ pre st0 s' g'.
Proof.
  induction rs as [|r rest IH]; intros g g' s P H; cbn [loadRows loadRowsG] in *.
  - injection H as <-. exists tt, s. split; [reflexivity|exact P].
  - destruct (rows !! Z.to_nat r) as [row|]; [|discriminate].
    destruct (loadRowG r row 0 g) as [g1|] eqn:E; [|discriminate].
    destruct (loadRow_pre _ _ _ _ _ _ _ P E) as ([] & s1 & E1 & P1).
    rewrite (bind_run _ _ _ _ _ E1). eapply IH; eauto.
Qed.

(** [loadFEN(initialFEN)] never raises. *)
Lemma loadFEN_initial_returns st : valid st -> returns (loadFEN initialFEN st) = true.
Proof.
  intros Hv. rewrite loadFEN_eq.
  unfold bind at 1, allocBoard at 1. unfold bind at 1, modify at 1.
  set (s2 := set_board (length (heapB st))
               (set_heapB (heapB st ++ [replicate 8 (replicate 8 None)]) st)).
  assert (Hv2 : valid s2).
  { destruct Hv as (_ & Hw & Hk). unfold valid, s2. cbn. rewrite length_app. cbn. lia. }
  assert (Hcur2 : curBoard s2 = replicate 8 (replicate 8 None)).
  { unfold curBoard, boardAt, s2. cbn.
    rewrite lookup_app_r by lia. rewrite Nat.sub_diag. reflexivity. }
  assert (P2 : pre s2 s2 (replicate 8 (replicate 8 None)))
    by (split; [exact Hv2|split; [exact Hcur2|split; reflexivity]]).
  destruct (loadRows_pre _ _ _ _ _ _ P2 initial_grid) as ([] & s3 & E3 & _).
  rewrite (bind_run _ _ _ _ _ E3). reflexivity.
Qed.

Lemma proper_started : proper (curBoard started).
Proof.
  split; [apply homedb_homed|apply glyphedb_glyphed]; vm_compute; reflexivity.
Qed.

Lemma playable_started : playable started.
Proof.
  split; [apply wf_started|]. split; [apply proper_started|].
  split; [apply legal_ok_unselected; reflexivity|].
  split; [left; reflexivity|].
  intros s Hs. vm_compute in Hs. destruct Hs.
Qed.

Lemma lookup_two_fresh (h : list (list Icon)) :
  ((h ++ [[]]) ++ [[]]) !! length h = Some [] /\
  ((h ++ [[]]) ++ [[]]) !! S (length h) = Some [].
Proof. induction h as [|x h IH]; [split; reflexivity|exact IH]. Qed.

(** What New Game leaves, whenever it returns. *)
Lemma newGame_spec st u st' :
  valid st -> newGame st = Ok u st' ->
  curBoard st' = curBoard started /\ st_turn st' = White /\
  st_lastDouble st' = None /\
  binAt st' (st_byWhite st') = [] /\ binAt st' (st_byBlack st') = [] /\
  st_selected st' = None /\ st_legal st' = [] /\
  st_history st' = [] /\ st_moves st' = [].
Proof.
  intros Hv H. rewrite newGame_eq in H.
  apply bind_Ok in H as (? & s1 & H1 & H).
  destruct (loadFEN_initial _ _ _ Hv H1) as (Hv1 & Hb1 & _).
  assert (Hbins : binAt s1 (st_byWhite s1) = [] /\ binAt s1 (st_byBlack s1) = []).
  { clear H. rewrite loadFEN_eq in H1.
    apply bind_Ok in H1 as (b & t1 & T1 & H1).
    apply bind_Ok in H1 as (? & t2 & T2 & H1).
    apply bind_Ok in H1 as (? & t3 & T3 & H1).
    apply bind_Ok in H1 as (? & t4 & T4 & H1). run1 T4.
    apply bind_Ok in H1 as (bw & t5 & T5 & H1). apply allocBin_Ok in T5 as [-> ->].
    apply bind_Ok in H1 as (? & t6 & T6 & H1). run1 T6.
    apply bind_Ok in H1 as (bb & t7 & T7 & H1). apply allocBin_Ok in T7 as [-> ->].
    run1 H1. unfold binAt. cbn. rewrite ?length_app. cbn [length].
    rewrite ?Nat.add_1_r.
    destruct (lookup_two_fresh (heapC t3)) as [E1 E2].
    split; [exact (f_equal (default []) E1)|exact (f_equal (default []) E2)]. }
  repeat (apply bind_Ok in H as (? & ? & H0 & H); run1 H0).
  unfold renderCaptured in H. apply bind_Ok in H as (? & ? & H0 & H). run1 H0.
  match type of H with render ?s = _ => set (s2 := s) in * end.
  assert (Hv2 : valid s2) by exact Hv1.
  destruct (render_spec _ _ _ Hv2 H) as (Es & Esel & Eleg & Eh & Em & Hg).
  pose proof (f_equal ss_byWhite Es) as Ew. pose proof (f_equal ss_byBlack Es) as Ek.
  cbn in Ew, Ek.
  split; [rewrite (session_board _ _ Es); exact Hb1|].
  split; [exact (session_turn _ _ Es)|].
  split; [exact (session_lastDouble _ _ Es)|].
  split; [rewrite Ew; apply Hbins|].
  split; [rewrite Ek; apply Hbins|].
  repeat split; assumption.
Qed.

Lemma newGame_returns st : valid st -> returns (newGame st) = true.
Proof.
  intros Hv. rewrite newGame_eq.
  pose proof (loadFEN_initial_returns st Hv) as Hr.
  apply returns_true in Hr as ([] & s1 & H1).
  rewrite (bind_run _ _ _ _ _ H1).
  destruct (loadFEN_initial _ _ _ Hv H1) as (Hv1 & Hb1 & _).
  do 7 (unfold bind at 1, modify at 1).
  unfold bind at 1, renderCaptured, ret.
  match goal with |- returns (render ?s) = true => set (s2 := s) end.
  assert (Hcur : curBoard s2 = curBoard started) by exact Hb1.
  destruct boardOk_started as [Hg Hs].
  apply render_returns; [exact Hv1| | | |].
  - rewrite Hcur. exact Hg.
  - rewrite Hcur. exact Hs.
  - apply drawPieces_run. rewrite Hcur. apply proper_started.
  - apply drawSelection_unselected. reflexivity.
Qed.

Lemma playable_newGame st u st' : valid st -> newGame st = Ok u st' -> playable st'.
Proof.
  intros Hv H. split; [exact (wf_newGame _ _ _ Hv H)|].
  destruct (newGame_spec _ _ _ Hv H) as (Eb & Et & _ & _ & _ & Esel & _ & Eh & Em).
  split; [rewrite Eb; apply proper_started|].
  split; [apply legal_ok_unselected, Esel|].
  split; [left; exact Et|].
  intros s Hs. rewrite Eh in Hs. destruct Hs.
Qed.

(** *** Every event of a game runs to its end *)

Lemma play_runs es : forall st,
  playable st -> exists st', play es st = Ok tt st' /\ playable st'.
Proof.
  induction es as [|e rest IH]; intros st Hp.
  - exists st. split; [reflexivity|exact Hp].
  - assert (Hh : exists s1, handle e st = Ok tt s1 /\ playable s1).
    { rewrite handle_eq. destruct e as [r c| |].
      - pose proof (click_returns r c st Hp) as Hr.
        apply returns_true in Hr as ([] & s1 & H1).
        exists s1. split; [exact H1|]. exact (playable_click _ _ _ _ _ Hp H1).
      - pose proof (undo_returns st Hp) as Hr.
        apply returns_true in Hr as ([] & s1 & H1).
        exists s1. split; [exact H1|]. exact (playable_undo _ _ _ Hp H1).
      - pose proof (newGame_returns st (proj1 (proj1 Hp))) as Hr.
        apply returns_true in Hr as ([] & s1 & H1).
        exists s1. split; [exact H1|].
        exact (playable_newGame _ _ _ (proj1 (proj1 Hp)) H1). }
    destruct Hh as (s1 & H1 & Hp1).
    destruct (IH s1 Hp1) as (st' & H & Hp').
    exists st'. split; [|exact Hp'].
    rewrite play_cons. rewrite (bind_run _ _ _ _ _ H1). exact H.
Qed.

(** ** Undo *)

Lemma playable_reachable es u st : play es started = Ok u st -> playable st.
Proof.
  intros H. destruct (play_runs es started playable_started) as (st' & H' & Hp).
  rewrite H in H'. injection H' as _ <-. exact Hp.
Qed.

Lemma playable_snap st s : playable st -> In s (st_history st) ->
  glyphed (boardAt st (s_board s)).
Proof. intros (_ & _ & _ & _ & Hh) Hs. apply (Hh s Hs). Qed.

Lemma undo_drains n : forall st,
  playable st -> length (st_history st) = n ->
  exists u st', play (replicate n Undo) st = Ok u st' /\ st_history st' = [].
Proof.
  induction n as [|n IH]; intros st Hp Hn.
  - exists tt, st. split; [reflexivity|].
    destruct (st_history st); [reflexivity|discriminate].
  - destruct (st_history st) as [|s rest] eqn:Eh; [discriminate|].
    destruct (undo_spec _ _ _ (proj1 Hp) Eh) as (u1 & st1 & H1 & _ & Eh1 & _).
    { apply (playable_snap _ _ Hp). rewrite Eh. left. reflexivity. }
    destruct (IH st1) as (u & st' & H & E).
    + eapply playable_undo; eauto.
    + rewrite Eh1. cbn in Hn. lia.
    + exists u, st'. split; [|exact E].
      change (replicate (S n) Undo) with (Undo :: replicate n Undo).
      rewrite play_cons, handle_eq. rewrite (bind_run _ _ _ _ _ H1). exact H.
Qed.

(** C2.  In every state [st] a game can reach (by clicks, presses of Undo and
    of New Game): when a click commits a move, the snapshot pushed holds the
    session as it was before the move, and one call of [undo] then returns and
    leaves the board, the turn, [lastDouble] and the capture bins equal to
    that snapshot, and the history stack as it was before the move; as many
    calls of [undo] as the stack is deep all return and leave the stack empty;
    and [undo] with an empty stack returns at once and changes nothing. *)
Theorem undo_restores_the_snapshot es u0 st :
  play es started = Ok u0 st ->
  (forall r c s mv u st1,
     committed r c st = Some (s, mv) -> onSquareClick r c st = Ok u st1 ->
     exists snap u2 st2,
       st_history st1 = snap :: st_history st /\
       snapSession st1 snap = session st /\
       undo st1 = Ok u2 st2 /\
       session st2 = session st /\
       historySessions st2 = historySessions st) /\
  (exists u st', play (replicate (length (st_history st)) Undo) st = Ok u st' /\
                 st_history st' = []) /\
  (forall st0, st_history st0 = [] -> undo st0 = Ok tt st0).
Proof.
  intros Hplay. pose proof (playable_reachable _ _ _ Hplay) as Hp.
  pose proof (proj1 Hp) as Hw.
  split; [|split].
  - intros r c s mv u st1 Hc H1.
    destruct (click_committed _ _ _ _ _ _ _ (proj1 Hw) Hc H1)
      as (snap & Eh & Hok & Hss & _ & _ & _ & _ & Hg).
    pose proof (playable_click _ _ _ _ _ Hp H1) as Hp1.
    destruct (undo_spec _ _ _ (proj1 Hp1) Eh) as (u2 & st2 & H2 & Es & Eh2 & _ & _ & Hg2).
    { apply (playable_snap _ _ Hp1). rewrite Eh. left. reflexivity. }
    exists snap, u2, st2.
    split; [exact Eh|]. split; [exact Hss|]. split; [exact H2|].
    split; [rewrite Es; exact Hss|].
    apply (hist_ok_grows st st2 (wf_hist_ok _ Hw)); [|exact Eh2].
    eapply grows_trans; [apply Hw|exact Hg|exact Hg2].
  - apply undo_drains; [exact Hp|reflexivity].
  - apply undo_empty.
Qed.


Lemma undo_restores_the_snapshot_witness :
  returns (onSquareClick 4 4 e2Selected) = true /\
  returns (undo (stateOf (onSquareClick 4 4 e2Selected))) = true /\
  session (stateOf (undo (stateOf (onSquareClick 4 4 e2Selected)))) = session e2Selected.
Proof.
  assert (Hplay : play [Click 6 4] started = Ok tt e2Selected)
    by (vm_compute; reflexivity).
  destruct (undo_restores_the_snapshot _ _ _ Hplay) as (H1 & _ & _).
  destruct (onSquareClick 4 4 e2Selected) as [u st1|st1] eqn:E;
    [|vm_compute in E; discriminate E].
  destruct (H1 4 4 (6, 4) (mkMeta 4 4 false true false None) u st1)
    as (snap & u2 & st2 & _ & _ & H2 & Es & _).
  - vm_compute. reflexivity.
  - exact E.
  - cbn [stateOf]. rewrite H2. cbn [stateOf returns]. auto.
Defined.

(** X1.  A game never raises: from the position [init] sets up, every
    sequence of clicks on squares and presses of Undo and New Game runs to its
    end (no [TypeError] in [onSquareClick], [applyMove], [logMove], [undo],
    [loadFEN] or [render]). *)
Theorem game_never_raises es : returns (play es started) = true.
Proof.
  destruct (play_runs es started playable_started) as (st & H & _).
  rewrite H. reflexivity.
Qed.

(** X2.  In every state a game reaches, every piece on the board has a
    glyph [UNI[p.c][p.t]], and the lookups [render] makes on the page find
    what they look for: the glyphs, and the squares of the pieces, of the
    selection, of the targets of [legal] and of a king in check. *)
Theorem render_lookups_succeed es u st :
  play es started = Ok u st ->
  (forall r c p, at_ (curBoard st) r c = Some p ->
     exists glyphs code, UNI (pcolor p) = Some glyphs /\ glyphs (ptype p) = Some code) /\
  drawPieces st = Ok tt st /\ drawSelection st = Ok tt st /\ drawCheck st = Ok tt st.
Proof.
  intros H. pose proof (playable_reachable _ _ _ H) as Hp.
  destruct Hp as ((_ & (_ & Hs) & _) & (_ & Hc) & Hl & _).
  split; [|split; [apply drawPieces_run, Hc|]].
  - intros r c p Hq. destruct (glyphed_at _ _ _ _ Hc Hq) as [Hcol Hty].
    destruct (pcolor p); [| |congruence]; cbn [UNI];
      (eexists; destruct (ptype p); [eexists; split; reflexivity..|congruence]).
  - split; [apply drawSelection_run; assumption|apply drawCheck_run].
Qed.

Lemma render_lookups_succeed_witness :
  (forall r c p, at_ (curBoard e2Selected) r c = Some p ->
     exists glyphs code, UNI (pcolor p) = Some glyphs /\ glyphs (ptype p) = Some code) /\
  drawPieces e2Selected = Ok tt e2Selected /\
  drawSelection e2Selected = Ok tt e2Selected /\
  drawCheck e2Selected = Ok tt e2Selected.
Proof.
  apply (render_lookups_succeed [Click 6 4] tt e2Selected).
  vm_compute. reflexivity.
Defined.

(** ** The status of the game, as a function of the position *)

(** The moves [genLegal(r,c)] returns. *)
Definition legalMoves (g : Grid) (ld : option LastDouble) (r c : Z) : list Meta :=
  match at_ g r c with
  | Some p => List.filter (safeAfter g r c (pcolor p)) (genPseudo g ld r c false)
  | None => []
  end.

(** Whether some piece of [color] has a legal move. *)
Definition hasMove (g : Grid) (ld : option LastDouble) (color : Color) : bool :=
  existsb (fun sq =>
    match at_ g (fst sq) (snd sq) with
    | Some q =>
        bool_decide (pcolor q = color) &&
        match legalMoves g ld (fst sq) (snd sq) with [] => false | _ :: _ => true end
    | None => false
    end) squares.

Definition statusOf (g : Grid) (ld : option LastDouble) (color : Color) : Status :=
  if hasMove g ld color then Ongoing
  else if inCheck g ld color then Checkmate else Stalemate.

Lemma genLegal_legalMoves r c st lm st' :
  valid st -> genLegal r c st = Ok lm st' ->
  lm = legalMoves (curBoard st) (st_lastDouble st) r c.
Proof. intros Hv H. apply (genLegal_spec _ _ _ _ _ Hv H). Qed.

Lemma anyLegalMoveLoop_pure color sqs : forall st b st',
  valid st -> anyLegalMoveLoop color sqs st = Ok b st' ->
  b = existsb (fun sq =>
        match at_ (curBoard st) (fst sq) (snd sq) with
        | Some q =>
            bool_decide (pcolor q = color) &&
            match legalMoves (curBoard st) (st_lastDouble st) (fst sq) (snd sq) with
            | [] => false
            | _ :: _ => true
            end
        | None => false
        end) sqs.
Proof.
  induction sqs as [|sq rest IH]; intros st b st' Hv H; cbn [anyLegalMoveLoop existsb] in *.
  - run1 H. reflexivity.
  - apply bind_Ok in H as (p & s & Hp & H). run1 Hp.
    destruct (at_ (curBoard st) (fst sq) (snd sq)) as [q|]; [|eapply IH; eauto].
    destruct (bool_decide (pcolor q = color)); [|eapply IH; eauto].
    apply bind_Ok in H as (leg & s1 & Hleg & H).
    pose proof (genLegal_legalMoves _ _ _ _ _ Hv Hleg) as <-.
    destruct (genLegal_spec _ _ _ _ _ Hv Hleg) as (Hun & Hg & _ & _).
    destruct leg.
    + cbn [andb orb]. rewrite (IH _ _ _ (grows_valid _ _ Hv Hg) H).
      rewrite (unchanged_board _ _ Hun), (unchanged_lastDouble _ _ Hun). reflexivity.
    + run1 H. reflexivity.
Qed.

Lemma gameStatus_pure color st s st' :
  valid st -> gameStatus color st = Ok s st' ->
  s = statusOf (curBoard st) (st_lastDouble st) color.
Proof.
  intros Hv H. unfold gameStatus, anyLegalMove in H.
  apply bind_Ok in H as (b & s1 & Hb & H).
  pose proof (anyLegalMoveLoop_pure _ _ _ _ _ Hv Hb) as Eb.
  destruct (anyLegalMoveLoop_spec _ _ _ _ _ Hv Hb) as [Hun _].
  unfold statusOf, hasMove. rewrite <- Eb.
  destruct b; run1 H; [reflexivity|].
  rewrite (unchanged_board _ _ Hun), (unchanged_lastDouble _ _ Hun). reflexivity.
Qed.

Lemma hasMove_iff g ld color :
  hasMove g ld color = true <->
  exists r c p m,
    at_ g r c = Some p /\ pcolor p = color /\
    In m (genPseudo g ld r c false) /\
    inCheck (boardAfter g (trial r c m)) (lastDoubleAfter g (trial r c m)) color = false.
Proof.
  unfold hasMove. rewrite existsb_exists. split.
  - intros ([r c] & _ & H). cbn [fst snd] in H.
    destruct (at_ g r c) as [p|] eqn:Hp; [|discriminate].
    apply andb_true_iff in H as [Hc H]. apply bool_decide_eq_true in Hc.
    unfold legalMoves in H. rewrite Hp in H.
    destruct (List.filter _ _) as [|m rest] eqn:Ef; [discriminate|].
    assert (Hin : In m (m :: rest)) by (left; reflexivity).
    rewrite <- Ef in Hin. apply filter_In in Hin as [Hin Hs].
    exists r, c, p, m. repeat split; auto.
    unfold safeAfter in Hs. rewrite Hc in Hs. apply negb_true_iff in Hs. exact Hs.
  - intros (r & c & p & m & Hp & Hc & Hin & Hs).
    exists (r, c). split; [apply in_squares; eapply at_Some_inBounds; eauto|].
    cbn [fst snd]. rewrite Hp. apply andb_true_iff.
    split; [apply bool_decide_eq_true; exact Hc|].
    unfold legalMoves. rewrite Hp.
    assert (Hf : In m (List.filter (safeAfter g r c (pcolor p)) (genPseudo g ld r c false))).
    { apply filter_In. split; [exact Hin|]. unfold safeAfter. rewrite Hc, Hs. reflexivity. }
    destruct (List.filter _ _); [destruct Hf|reflexivity].
Qed.

(** X3.  [gameStatus] is a function of the position: it returns ['ongoing']
    exactly when some piece of the color has a pseudo-legal move after which
    [inCheck] for that color is false, and otherwise ['checkmate'] when
    [inCheck] holds now and ['stalemate'] when it does not. *)
Theorem gameStatus_is_a_function_of_the_position color st s st' :
  valid st -> gameStatus color st = Ok s st' ->
  let g := curBoard st in
  let ld := st_lastDouble st in
  let movable :=
    exists r c p m,
      at_ g r c = Some p /\ pcolor p = color /\
      In m (genPseudo g ld r c false) /\
      inCheck (boardAfter g (trial r c m)) (lastDoubleAfter g (trial r c m)) color = false in
  (s = Ongoing <-> movable) /\
  (s = Checkmate <-> ~ movable /\ inCheck g ld color = true) /\
  (s = Stalemate <-> ~ movable /\ inCheck g ld color = false).
Proof.
  intros Hv H. cbv zeta.
  rewrite (gameStatus_pure _ _ _ _ Hv H). unfold statusOf.
  rewrite <- hasMove_iff.
  destruct (hasMove _ _ _); [|destruct (inCheck _ _ _)];
    (split; [|split]); split;
    try discriminate; try reflexivity; try tauto;
    try (intros [Hn _]; congruence);
    try (intros [_ Hn]; congruence);
    try (intros _; split; congruence).
Qed.

Lemma gameStatus_is_a_function_of_the_position_witness :
  resultOf (gameStatus White started) = Some Ongoing /\
  exists r c p m,
    at_ (curBoard started) r c = Some p /\ pcolor p = White /\
    In m (genPseudo (curBoard started) (st_lastDouble started) r c false) /\
    inCheck (boardAfter (curBoard started) (trial r c m))
            (lastDoubleAfter (curBoard started) (trial r c m)) White = false.
Proof.
  destruct (gameStatus White started) as [s st'|st'] eqn:E;
    [|vm_compute in E; discriminate E].
  assert (Es : s = Ongoing) by (vm_compute in E; injection E as <- _; reflexivity).
  split; [rewrite Es; reflexivity|].
  apply (gameStatus_is_a_function_of_the_position White started s st' valid_started E).
  exact Es.
Defined.

Lemma render_gameOver st u st' :
  valid st -> render st = Ok u st' ->
  st_gameOver st' = negb (hasMove (curBoard st) (st_lastDouble st) (st_turn st)).
Proof.
  intros Hv H. apply render_Ok in H as (_ & _ & H). unfold showStatus in H.
  apply bind_Ok in H as (t & s0 & Ht & H). run1 Ht.
  apply bind_Ok in H as (status & s1 & Hs & H).
  pose proof (gameStatus_pure _ _ _ _ Hv Hs) as ->.
  unfold statusOf in H.
  destruct (hasMove _ _ _); [run1 H; reflexivity|].
  destruct (inCheck _ _ _); run1 H; reflexivity.
Qed.

(** X4.  [render] sets [gameOver] exactly when the side to move has no legal
    move (checkmate or stalemate), and clears it otherwise; it changes no
    other variable of the session. *)
Theorem render_sets_gameOver st u st' :
  valid st -> render st = Ok u st' ->
  st_gameOver st' = negb (hasMove (curBoard st) (st_lastDouble st) (st_turn st)) /\
  session st' = session st /\ st_selected st' = st_selected st /\
  st_legal st' = st_legal st /\ st_history st' = st_history st.
Proof.
  intros Hv H.
  destruct (render_spec _ _ _ Hv H) as (Es & Esel & Eleg & Eh & _ & _).
  split; [exact (render_gameOver _ _ _ Hv H)|auto].
Qed.

Lemma render_sets_gameOver_witness :
  st_gameOver (stateOf (render started)) = false.
Proof.
  destruct (render started) as [u st'|st'] eqn:E; [|vm_compute in E; discriminate E].
  cbn [stateOf].
  destruct (render_sets_gameOver started u st' valid_started E) as [-> _].
  vm_compute. reflexivity.
Defined.

(** ** New Game *)

(** X5.  From any state, New Game runs to its end and leaves the game as
    [init] set it up: the initial position, White to move, no en-passant
    target, empty capture bins, nothing selected, an empty history stack and
    an empty move list, the game not over. *)
Theorem new_game_resets st :
  valid st ->
  exists st',
    newGame st = Ok tt st' /\
    session st' = session started /\
    st_selected st' = None /\ st_legal st' = [] /\
    st_history st' = [] /\ st_moves st' = [] /\
    st_gameOver st' = false.
Proof.
  intros Hv. pose proof (newGame_returns st Hv) as Hr.
  apply returns_true in Hr as ([] & st' & H).
  exists st'. split; [exact H|].
  destruct (newGame_spec _ _ _ Hv H) as (Eb & Et & El & Ew & Ek & Esel & Eleg & Eh & Em).
  split; [|split; [exact Esel|split; [exact Eleg|split; [exact Eh|split; [exact Em|]]]]].
  - unfold session. rewrite Eb, Et, El, Ew, Ek. vm_compute. reflexivity.
  - rewrite newGame_eq in H.
    apply bind_Ok in H as (? & s1 & H1 & H).
    destruct (loadFEN_initial _ _ _ Hv H1) as (Hv1 & Hb1 & _).
    repeat (apply bind_Ok in H as (? & ? & H0 & H); run1 H0).
    unfold renderCaptured in H. apply bind_Ok in H as (? & ? & H0 & H). run1 H0.
    match type of H with render ?s = _ => set (s2 := s) in * end.
    assert (Hv2 : valid s2) by exact Hv1.
    rewrite (render_gameOver _ _ _ Hv2 H).
    change (curBoard s2) with (curBoard s1). rewrite Hb1.
    change (st_lastDouble s2) with (@None LastDouble).
    change (st_turn s2) with White.
    vm_compute. reflexivity.
Qed.

Lemma new_game_resets_witness :
  exists st', newGame e2Selected = Ok tt st' /\ session st' = session started.
Proof.
  destruct (new_game_resets e2Selected valid_e2Selected) as (st' & H & Es & _).
  exists st'. split; assumption.
Defined.

(** ** Loading a position *)

(** The rows [loadFEN] reads: [fen.split(' ')[0].split('/')]. *)
Definition fenRows (fen : string) : list string :=
  splitOn "/" (hd EmptyString (splitOn " " fen)).

(** What one row of the placement field stands for, file by file: a digit
    for that many empty squares, any other character for a piece that has not
    moved. *)
Fixpoint expandRow (row : string) : list Cell :=
  match row with
  | EmptyString => []
  | String ch rest =>
      match digitValue ch with
      | Some d => replicate (Z.to_nat d) None ++ expandRow rest
      | None =>
          Some (mkPiece (typeOfLetter (toUpperCase ch))
                        (if Ascii.eqb ch (toUpperCase ch) then White else Black)
                        false)
          :: expandRow rest
      end
  end.

(** The cell [(r, c)] of the position the rows stand for. *)
Definition fenCell (rows : list string) (r c : Z) : Cell :=
  match rows !! Z.to_nat r with
  | Some row => default None (expandRow row !! Z.to_nat c)
  | None => None
  end.

(** The characters of the string are ASCII. *)
Fixpoint asciiOnly (s : string) : bool :=
  match s with
  | EmptyString => true
  | String ch rest => (nat_of_ascii ch <? 128)%nat && asciiOnly rest
  end.

Fixpoint hasSpace (s : string) : bool :=
  match s with
  | EmptyString => false
  | String ch rest => Ascii.eqb ch " " || hasSpace rest
  end.

Lemma splitOn_nonempty sep s : splitOn sep s <> [].
Proof.
  destruct s as [|ch rest]; cbn [splitOn]; [discriminate|].
  destruct (splitOn sep rest); [discriminate|].
  destruct (Ascii.eqb ch sep); discriminate.
Qed.

Lemma hd_splitOn_space a b :
  hasSpace a = false ->
  hd EmptyString (splitOn " " (a ++ String " " b)) = a.
Proof.
  induction a as [|ch a IH]; cbn [hasSpace String.append splitOn]; intros H.
  - destruct (splitOn " " b) eqn:E; [exfalso; eapply splitOn_nonempty; eauto|].
    reflexivity.
  - apply orb_false_iff in H as [Hch Ha]. specialize (IH Ha).
    destruct (splitOn " " (a ++ String " " b)) as [|x xs] eqn:E;
      [exfalso; eapply splitOn_nonempty; eauto|].
    rewrite Hch. cbn [hd] in *. rewrite IH. reflexivity.
Qed.

Lemma loadRows_Ok_rows rows rs : forall s u s',
  loadRows rows rs s = Ok u s' -> forall r, In r rs -> is_Some (rows !! Z.to_nat r).
Proof.
  induction rs as [|r0 rest IH]; intros s u s' H r Hin; [destruct Hin|].
  cbn [loadRows] in H.
  destruct (rows !! Z.to_nat r0) as [row|] eqn:E; [|discriminate].
  apply bind_Ok in H as (? & s1 & _ & H).
  destruct Hin as [<-|Hin]; [rewrite E; eauto|eapply IH; eauto].
Qed.

Lemma loadRowG_total r row : forall file g,
  0 <= r < 8 -> exists g', loadRowG r row file g = Some g'.
Proof.
  induction row as [|ch rest IH]; intros file g Hr; cbn [loadRowG]; [eauto|].
  destruct (digitValue ch); [apply IH, Hr|].
  replace ((0 <=? r) && (r <? 8)) with true by (symmetry; apply andb_true_iff; lia).
  apply IH, Hr.
Qed.

Lemma loadRowsG_total rows rs : forall g,
  (forall r, In r rs -> 0 <= r < 8 /\ is_Some (rows !! Z.to_nat r)) ->
  exists g', loadRowsG rows rs g = Some g'.
Proof.
  induction rs as [|r rest IH]; intros g H; cbn [loadRowsG]; [eauto|].
  destruct (H r (or_introl eq_refl)) as [Hr [row Hrow]]. rewrite Hrow.
  destruct (loadRowG_total r row 0 g Hr) as [g1 ->].
  apply IH. intros r' Hr'. apply H. right. exact Hr'.
Qed.

Lemma range8_bounds r : In r range8 -> 0 <= r < 8.
Proof. unfold range8. cbn. intros H. repeat (destruct H as [<-|H]; [lia|]). destruct H. Qed.

(** What [loadFEN] does, whenever it returns. *)
Lemma loadFEN_effect fen st u st' :
  valid st -> loadFEN fen st = Ok u st' ->
  exists g',
    loadRowsG (fenRows fen) range8 (replicate 8 (replicate 8 None)) = Some g' /\
    curBoard st' = g' /\ valid st' /\ grows st st' /\
    st_lastDouble st' = None /\
    binAt st' (st_byWhite st') = [] /\ binAt st' (st_byBlack st') = [] /\
    st_turn st' = st_turn st /\ st_selected st' = st_selected st /\
    st_legal st' = st_legal st /\ st_gameOver st' = st_gameOver st /\
    st_history st' = st_history st /\ st_moves st' = st_moves st.
Proof.
  intros Hv H. rewrite loadFEN_eq in H.
  apply bind_Ok in H as (b & s1 & H1 & H). apply allocBoard_Ok in H1 as [-> ->].
  apply bind_Ok in H as (? & s2 & H2 & H). run1 H2.
  set (s2 := set_board (length (heapB st))
               (set_heapB (heapB st ++ [replicate 8 (replicate 8 None)]) st)) in *.
  assert (Hv2 : valid s2).
  { destruct Hv as (_ & Hw & Hk). unfold valid, s2. cbn. rewrite length_app. cbn. lia. }
  assert (Hcur2 : curBoard s2 = replicate 8 (replicate 8 None)).
  { unfold curBoard, boardAt, s2. cbn.
    rewrite lookup_app_r by lia. rewrite Nat.sub_diag. reflexivity. }
  apply bind_Ok in H as (? & s3 & H3 & H).
  pose proof (tracks_start true s2 Hv2) as Ht. rewrite Hcur2 in Ht.
  destruct (loadRows_tracks _ _ _ _ _ _ _ _ _ Ht H3) as (g' & Hg' & Ht3).
  destruct Ht3 as (Hv3 & Hm3 & Hb3 & _ & Hq3). destruct (Hq3 eq_refl) as [HC3 HM3].
  apply bind_Ok in H as (? & s4 & H4 & H). run1 H4.
  apply bind_Ok in H as (bw & s5 & H5 & H). apply allocBin_Ok in H5 as [-> ->].
  apply bind_Ok in H as (? & s6 & H6 & H). run1 H6.
  apply bind_Ok in H as (bb & s7 & H7 & H). apply allocBin_Ok in H7 as [-> ->].
  run1 H.
  assert (HB2 : heapB s2 = heapB st ++ [replicate 8 (replicate 8 None)]) by reflexivity.
  assert (HC2 : heapC s2 = heapC st) by reflexivity.
  assert (Eb2 : st_board s2 = length (heapB st)) by reflexivity.
  destruct Hm3 as [mB mT mS mL mG mW mK mH mLB mLC mOB mOC].
  destruct Hv as (Hb & Hw & Hk).
  match goal with |- context [curBoard ?s = _] => set (sF := s) in * end.
  assert (HBF : heapB sF = heapB s3) by reflexivity.
  assert (HCF : heapC sF = (heapC s3 ++ [[]]) ++ [[]]) by reflexivity.
  assert (EbF : st_board sF = st_board s3) by reflexivity.
  assert (EwF : st_byWhite sF = length (heapC s3)) by reflexivity.
  assert (EkF : st_byBlack sF = length (heapC s3 ++ [[]])) by reflexivity.
  assert (ElF : st_lastDouble sF = None) by reflexivity.
  assert (EtF : st_turn sF = st_turn s3) by reflexivity.
  assert (EsF : st_selected sF = st_selected s3) by reflexivity.
  assert (EgF : st_legal sF = st_legal s3) by reflexivity.
  assert (EoF : st_gameOver sF = st_gameOver s3) by reflexivity.
  assert (EhF : st_history sF = st_history s3) by reflexivity.
  assert (EmF : st_moves sF = st_moves s3) by reflexivity.
  assert (EcurF : curBoard sF = curBoard s3) by reflexivity.
  clearbody sF.
  rewrite length_app in EkF. cbn [length] in EkF.
  exists g'. split; [exact Hg'|]. split; [rewrite EcurF; exact Hb3|].
  split.
  { destruct Hv3 as (Hb' & _). unfold valid.
    rewrite HBF, HCF, EbF, EwF, EkF, !length_app. cbn [length].
    split; [exact Hb'|lia]. }
  split.
  { constructor.
    - rewrite HBF, mLB, HB2, length_app. lia.
    - rewrite HCF, HC3, HC2, !length_app. lia.
    - intros l Hl _. rewrite HBF, mOB by (rewrite Eb2; lia). rewrite HB2.
      apply lookup_app_l. exact Hl.
    - intros l Hl _ _. rewrite HCF, HC3, HC2.
      rewrite !lookup_app_l by (rewrite ?length_app; cbn [length]; lia).
      reflexivity.
    - right. rewrite EbF, mB, Eb2, HBF, mLB, HB2, length_app. cbn [length]. lia.
    - right. rewrite EwF, HCF, HC3, HC2, !length_app. cbn [length]. lia.
    - right. rewrite EkF, HCF, HC3, HC2, !length_app. cbn [length]. lia. }
  split; [exact ElF|].
  split.
  { unfold binAt. rewrite HCF, EwF.
    destruct (lookup_two_fresh (heapC s3)) as [E1 _].
    exact (f_equal (default []) E1). }
  split.
  { unfold binAt. rewrite HCF, EkF, Nat.add_1_r.
    destruct (lookup_two_fresh (heapC s3)) as [_ E2].
    exact (f_equal (default []) E2). }
  rewrite EtF, EsF, EgF, EoF, EhF, EmF, mT, mS, mL, mG, mH, HM3. repeat split; reflexivity.
Qed.

(** X6.  [loadFEN] runs to its end exactly when the placement field has at
    least eight rows: [rows[r]] is [undefined] for a missing row, and
    iterating it raises. *)
Theorem loadFEN_returns_iff_eight_rows fen st :
  valid st ->
  (returns (loadFEN fen st) = true <-> (8 <= length (fenRows fen))%nat).
Proof.
  intros Hv. split.
  - intros Hr. apply returns_true in Hr as (u & st' & H).
    rewrite loadFEN_eq in H.
    apply bind_Ok in H as (b & s1 & _ & H).
    apply bind_Ok in H as (? & s2 & _ & H).
    apply bind_Ok in H as (? & s3 & H3 & _).
    pose proof (loadRows_Ok_rows _ _ _ _ _ H3 7) as H7.
    destruct H7 as [row Hrow]; [unfold range8; cbn; tauto|].
    apply lookup_lt_Some in Hrow. unfold fenRows. change (Z.to_nat 7) with 7%nat in Hrow. lia.
  - intros Hlen. rewrite loadFEN_eq.
    unfold bind at 1, allocBoard at 1. unfold bind at 1, modify at 1.
    set (s2 := set_board (length (heapB st))
                 (set_heapB (heapB st ++ [replicate 8 (replicate 8 None)]) st)).
    assert (Hv2 : valid s2).
    { destruct Hv as (_ & Hw & Hk). unfold valid, s2. cbn. rewrite length_app. cbn. lia. }
    assert (P2 : pre s2 s2 (curBoard s2))
      by (split; [exact Hv2|split; [reflexivity|split; reflexivity]]).
    destruct (loadRowsG_total (fenRows fen) range8 (curBoard s2)) as [g' Hg'].
    { intros r Hr. pose proof (range8_bounds r Hr) as Hb. split; [exact Hb|].
      apply lookup_lt_is_Some. lia. }
    destruct (loadRows_pre _ _ _ _ _ _ P2 Hg') as ([] & s3 & E3 & _).
    change (splitOn "/" (hd EmptyString (splitOn " " fen))) with (fenRows fen).
    rewrite (bind_run _ _ _ _ _ E3). reflexivity.
Qed.

Lemma loadFEN_returns_iff_eight_rows_witness :
  returns (loadFEN "8/8/8/8/8/8/8" started) = false /\
  returns (loadFEN "8/8/8/8/8/8/8/8 w - - 0 1" started) = true.
Proof.
  destruct (loadFEN_returns_iff_eight_rows "8/8/8/8/8/8/8" started valid_started)
    as [H1 _].
  destruct (loadFEN_returns_iff_eight_rows "8/8/8/8/8/8/8/8 w - - 0 1" started valid_started)
    as [_ H2].
  split.
  - destruct (returns (loadFEN "8/8/8/8/8/8/8" started)); [|reflexivity].
    specialize (H1 eq_refl). vm_compute in H1. lia.
  - apply H2. vm_compute. lia.
Defined.

(** X7.  [loadFEN] reads the placement field only: whatever follows the first
    space of the string (side to move, castling rights, en-passant square,
    clocks) changes nothing. *)
Theorem loadFEN_reads_the_placement_only placement others st :
  hasSpace placement = false ->
  loadFEN (placement ++ String " " others) st = loadFEN placement st.
Proof.
  intros H. rewrite !loadFEN_eq.
  rewrite (hd_splitOn_space placement others H).
  replace (hd EmptyString (splitOn " " placement)) with placement; [reflexivity|].
  clear others. induction placement as [|ch a IH]; [reflexivity|].
  cbn [hasSpace] in H. apply orb_false_iff in H as [Hch Ha]. specialize (IH Ha).
  cbn [splitOn].
  destruct (splitOn " " a) as [|x xs] eqn:E; [exfalso; eapply splitOn_nonempty; eauto|].
  rewrite Hch. cbn [hd] in *. rewrite <- IH. reflexivity.
Qed.

Lemma loadFEN_reads_the_placement_only_witness :
  loadFEN (initialFEN ++ " b Kq e3 12 34") declared = loadFEN initialFEN declared.
Proof.
  apply (loadFEN_reads_the_placement_only initialFEN "b Kq e3 12 34" declared).
  vm_compute. reflexivity.
Defined.

(** *** The position loaded *)

Lemma digitValue_nonneg ch d : digitValue ch = Some d -> 0 <= d.
Proof.
  unfold digitValue. cbv zeta.
  destruct ((48 <=? _) && (_ <=? 57)) eqn:E; [|discriminate].
  intros H. injection H as <-. apply andb_true_iff in E as [E _]. lia.
Qed.

Lemma getCell_grid8_out g r c : grid8 g -> 8 <= c -> getCell g r c = None.
Proof.
  intros [Hl Hrows] Hc. destruct (getCell g r c) as [p|] eqn:E; [|reflexivity].
  apply getCell_hasCell in E as (_ & _ & row & Hrow & Hlen).
  rewrite Forall_forall in Hrows.
  rewrite (Hrows row) in Hlen by (eapply list_elem_of_lookup_2; eauto). lia.
Qed.

(** The cells after one row has been read from [file] on. *)
Lemma loadRowG_cells r row : forall file g g',
  grid8 g -> 0 <= r < 8 -> 0 <= file ->
  loadRowG r row file g = Some g' ->
  grid8 g' /\
  forall r' c, 0 <= r' -> 0 <= c ->
    getCell g' r' c =
    if (r' =? r) && (file <=? c) && (c <? 8) then
      match expandRow row !! Z.to_nat (c - file) with
      | Some (Some p) => Some p
      | _ => getCell g r' c
      end
    else getCell g r' c.
Proof.
  induction row as [|ch rest IH]; intros file g g' Hg Hr Hf H; cbn [loadRowG expandRow] in *.
  - injection H as <-. split; [exact Hg|]. intros r' c _ _.
    destruct (_ && _); reflexivity.
  - destruct (digitValue ch) as [d|] eqn:Ed.
    + pose proof (digitValue_nonneg _ _ Ed) as Hd.
      destruct (IH (file + d) g g' Hg Hr ltac:(lia) H) as [Hg' Hcells].
      split; [exact Hg'|]. intros r' c Hr' Hc. rewrite (Hcells r' c Hr' Hc).
      destruct (r' =? r); cbn [andb]; [|reflexivity].
      destruct (c <? 8) eqn:Hc8; [|rewrite !andb_false_r; reflexivity].
      rewrite !andb_true_r.
      destruct (file <=? c) eqn:E1; destruct (file + d <=? c) eqn:E2;
        try reflexivity; try lia.
      * rewrite lookup_app_r by (rewrite length_replicate; lia).
        rewrite length_replicate.
        replace (Z.to_nat (c - file) - Z.to_nat d)%nat with (Z.to_nat (c - (file + d)))
          by lia.
        reflexivity.
      * rewrite lookup_app_l by (rewrite length_replicate; lia).
        rewrite lookup_replicate_2 by lia. reflexivity.
    + replace ((0 <=? r) && (r <? 8)) with true in H
        by (symmetry; apply andb_true_iff; lia).
      set (pc := mkPiece (typeOfLetter (toUpperCase ch))
                   (if Ascii.eqb ch (toUpperCase ch) then White else Black) false) in *.
      destruct (IH (file + 1) _ g' (grid8_setCell _ r file (Some pc) Hg) Hr ltac:(lia) H)
        as [Hg' Hcells].
      split; [exact Hg'|]. intros r' c Hr' Hc. rewrite (Hcells r' c Hr' Hc).
      destruct (r' =? r) eqn:Er; cbn [andb].
      2:{ apply getCell_setCell_ne; try assumption.
          intros E. injection E as E _. apply Z.eqb_neq in Er. congruence. }
      apply Z.eqb_eq in Er. subst r'.
      destruct (c <? 8) eqn:Hc8.
      2:{ rewrite !andb_false_r.
          rewrite !getCell_grid8_out by (try apply grid8_setCell; try assumption; lia).
          reflexivity. }
      rewrite !andb_true_r.
      destruct (file <=? c) eqn:E1; destruct (file + 1 <=? c) eqn:E2; try lia.
      * replace (Z.to_nat (c - file)) with (S (Z.to_nat (c - (file + 1)))) by lia.
        cbn [lookup list_lookup].
        assert (Hne : getCell (setCell g r file (Some pc)) r c = getCell g r c)
          by (apply getCell_setCell_ne; try assumption; intros E; injection E as E; lia).
        rewrite Hne. reflexivity.
      * assert (c = file) by lia. subst c.
        replace (Z.to_nat (file - file)) with 0%nat by lia. cbn [lookup list_lookup].
        apply getCell_setCell_eq. apply grid8_hasCell; [exact Hg|].
        apply inBounds_iff. lia.
      * apply getCell_setCell_ne; try assumption. intros E. injection E as E. lia.
Qed.

Lemma loadRowsG_cells rows rs : forall g g',
  grid8 g -> NoDup rs -> (forall r, elem_of r rs -> 0 <= r < 8) ->
  loadRowsG rows rs g = Some g' ->
  grid8 g' /\
  forall r c, 0 <= r -> 0 <= c < 8 ->
    getCell g' r c =
    if bool_decide (elem_of r rs) then
      match fenCell rows r c with
      | Some p => Some p
      | None => getCell g r c
      end
    else getCell g r c.
Proof.
  induction rs as [|r0 rest IH]; intros g g' Hg Hnd Hb H; cbn [loadRowsG] in H.
  - injection H as <-. split; [exact Hg|]. intros r c _ _.
    rewrite bool_decide_eq_false_2 by (apply not_elem_of_nil). reflexivity.
  - destruct (rows !! Z.to_nat r0) as [row|] eqn:Erow; [|discriminate].
    destruct (loadRowG r0 row 0 g) as [g1|] eqn:E1; [|discriminate].
    apply NoDup_cons in Hnd as [Hnot Hnd].
    assert (Hr0 : 0 <= r0 < 8) by (apply Hb; left).
    destruct (loadRowG_cells r0 row 0 g g1 Hg Hr0 ltac:(lia) E1) as [Hg1 Hc1].
    destruct (IH _ _ Hg1 Hnd (fun r Hr => Hb r (list_elem_of_further _ _ _ Hr)) H)
      as [Hg' Hc'].
    split; [exact Hg'|]. intros r c Hr Hc.
    rewrite (Hc' r c Hr Hc), (Hc1 r c Hr ltac:(lia)).
    replace (0 <=? c) with true by (symmetry; apply Z.leb_le; lia).
    replace (c <? 8) with true by (symmetry; apply Z.ltb_lt; lia).
    rewrite Z.sub_0_r, !andb_true_r.
    destruct (decide (r = r0)) as [->|Hne].
    + rewrite Z.eqb_refl.
      rewrite (bool_decide_eq_false_2 (elem_of r0 rest)) by exact Hnot.
      rewrite (bool_decide_eq_true_2 (elem_of r0 (r0 :: rest))) by left.
      unfold fenCell. rewrite Erow.
      destruct (expandRow row !! Z.to_nat c) as [[p|]|]; reflexivity.
    + replace (r =? r0) with false by (symmetry; apply Z.eqb_neq; exact Hne).
      destruct (bool_decide (elem_of r rest)) eqn:Ein.
      * apply bool_decide_eq_true in Ein.
        rewrite (bool_decide_eq_true_2 (elem_of r (r0 :: rest))) by (right; exact Ein).
        reflexivity.
      * apply bool_decide_eq_false in Ein.
        rewrite (bool_decide_eq_false_2 (elem_of r (r0 :: rest)))
          by (intros E; apply elem_of_cons in E as [E|E]; [congruence|contradiction]).
        reflexivity.
Qed.

Lemma getCell_empty8 r c : getCell (replicate 8 (replicate 8 None)) r c = None.
Proof.
  unfold getCell. destruct ((0 <=? r) && (0 <=? c)); [|reflexivity].
  destruct (replicate 8 (replicate 8 None) !! Z.to_nat r) as [row|] eqn:E; [|reflexivity].
  apply lookup_replicate in E as [-> _].
  destruct (replicate 8 None !! Z.to_nat c) as [cell|] eqn:E; [|reflexivity].
  apply lookup_replicate in E as [-> _]. reflexivity.
Qed.

Lemma grid8_empty8 : grid8 (replicate 8 (replicate 8 (@None Piece))).
Proof. split; [reflexivity|repeat constructor]. Qed.

Lemma NoDup_range8 : NoDup range8.
Proof. apply (bool_decide_unpack _). vm_compute. exact I. Qed.

(** X8.  When [loadFEN] returns for a string of ASCII characters, the board
    is a new array that holds the position the rows stand for (in each row a
    digit skips that many files, any other character puts a piece that has
    not moved on the next file, White for a character that is its own upper
    case); the en-passant target is [null] and both capture bins are empty
    arrays; the turn, the selection, the history stack and the move list are
    as they were, and so is every snapshot taken before. *)
Theorem loadFEN_loads_the_position fen st u st' :
  valid st -> asciiOnly fen = true -> loadFEN fen st = Ok u st' ->
  (forall r c, 0 <= r < 8 -> 0 <= c < 8 ->
     at_ (curBoard st') r c = fenCell (fenRows fen) r c) /\
  st_lastDouble st' = None /\
  binAt st' (st_byWhite st') = [] /\ binAt st' (st_byBlack st') = [] /\
  st_turn st' = st_turn st /\ st_selected st' = st_selected st /\
  st_legal st' = st_legal st /\ st_history st' = st_history st /\
  st_moves st' = st_moves st /\
  (forall s, snap_ok st s -> snapSession st' s = snapSession st s).
Proof.
  intros Hv _ H.
  destruct (loadFEN_effect _ _ _ _ Hv H)
    as (g' & Hg' & Ecur & Hv' & Hgr & El & Ew & Ek & Et & Es & Eleg & _ & Eh & Em).
  destruct (loadRowsG_cells _ _ _ _ grid8_empty8 NoDup_range8
              (fun r Hr => range8_bounds r (proj1 (list_elem_of_In _ _) Hr)) Hg')
    as [_ Hcells].
  split.
  { intros r c Hr Hc. unfold at_.
    replace (inBounds r c) with true by (symmetry; apply inBounds_iff; lia).
    rewrite Ecur, (Hcells r c) by lia.
    rewrite (bool_decide_eq_true_2 (elem_of r range8))
      by (apply list_elem_of_In, in_range8; exact Hr).
    rewrite getCell_empty8. destruct (fenCell _ r c); reflexivity. }
  repeat (split; [assumption|]).
  intros s Hok. apply (snap_ok_grows _ _ _ Hok Hgr).
Qed.

Lemma loadFEN_loads_the_position_witness :
  at_ (curBoard (stateOf (loadFEN "8/8/8/3k4/8/2P5/8/K7" started))) 5 2
    = Some (mkPiece Pawn White false) /\
  at_ (curBoard (stateOf (loadFEN "8/8/8/3k4/8/2P5/8/K7" started))) 3 3
    = Some (mkPiece King Black false) /\
  at_ (curBoard (stateOf (loadFEN "8/8/8/3k4/8/2P5/8/K7" started))) 3 4 = None.
Proof.
  destruct (loadFEN "8/8/8/3k4/8/2P5/8/K7" started) as [u st'|st'] eqn:E;
    [|vm_compute in E; discriminate E].
  cbn [stateOf].
  destruct (loadFEN_loads_the_position "8/8/8/3k4/8/2P5/8/K7" started u st'
              valid_started eq_refl E) as [Hc _].
  rewrite !Hc by lia. vm_compute. auto.
Defined.

(** ** The move generator *)

(** The directions a sliding piece moves in. *)
Definition slideDirs (t : PType) : list (Z * Z) :=
  match t with
  | Bishop => bishopDirs
  | Rook => rookDirs
  | Queen => queenDirs
  | _ => []
  end.

(** The squares strictly between [(r, c)] and the [k]-th square from it in
    direction [d] are empty. *)
Definition clearPath (board : Grid) (r c : Z) (d : Z * Z) (k : Z) : Prop :=
  forall j, 1 <= j < k -> getCell board (r + j * fst d) (c + j * snd d) = None.

(** A board with one rook, on d4, and a pawn of its color on d6. *)
Definition rookBoard : Grid :=
  setCell (setCell (replicate 8 (replicate 8 None)) 4 3 (Some (mkPiece Rook White true)))
          2 3 (Some (mkPiece Pawn White true)).

(** A board on which a black pawn on e2 covers f1, between the white king on
    e1 and the rook on h1. *)
Definition pawnCoverBoard : Grid :=
  setCell (setCell (setCell (setCell (replicate 8 (replicate 8 None))
    7 4 (Some (mkPiece King White false)))
    7 7 (Some (mkPiece Rook White false)))
    6 4 (Some (mkPiece Pawn Black true)))
    0 4 (Some (mkPiece King Black true)).

(** One ray: the moves of the [while] loop, by the number of squares passed. *)
Lemma ray_iff board fuel color dr dc m : forall rr cc,
  In m (ray board fuel color rr cc dr dc) <->
  exists k : nat, (k < fuel)%nat /\
    (forall j : nat, (j < k)%nat ->
       inBounds (rr + Z.of_nat j * dr) (cc + Z.of_nat j * dc) = true /\
       getCell board (rr + Z.of_nat j * dr) (cc + Z.of_nat j * dc) = None) /\
    inBounds (rr + Z.of_nat k * dr) (cc + Z.of_nat k * dc) = true /\
    ally board (rr + Z.of_nat k * dr) (cc + Z.of_nat k * dc) color = false /\
    m = plainMove (rr + Z.of_nat k * dr) (cc + Z.of_nat k * dc)
          (enemy board (rr + Z.of_nat k * dr) (cc + Z.of_nat k * dc) color).
Proof.
  induction fuel as [|n IH]; intros rr cc; cbn [ray].
  { split; [intros []|intros (k & Hk & _); lia]. }
  assert (E0r : rr + Z.of_nat 0 * dr = rr) by lia.
  assert (E0c : cc + Z.of_nat 0 * dc = cc) by lia.
  assert (ESr : forall j, rr + Z.of_nat (S j) * dr = rr + dr + Z.of_nat j * dr) by (intros; lia).
  assert (ESc : forall j, cc + Z.of_nat (S j) * dc = cc + dc + Z.of_nat j * dc) by (intros; lia).
  destruct (inBounds rr cc) eqn:Hb.
  2:{ split; [intros []|]. intros (k & _ & Hpath & Hin & _).
      destruct k as [|k].
      - rewrite E0r, E0c in Hin. congruence.
      - destruct (Hpath 0%nat ltac:(lia)) as [Hin0 _]. rewrite E0r, E0c in Hin0. congruence. }
  destruct (getCell board rr cc) as [q|] eqn:Hq.
  - split.
    + intros H. destruct (bool_decide (pcolor q = color)) eqn:Ec; cbn [negb] in H;
        [destruct H|]. destruct H as [<-|[]].
      exists 0%nat. split; [lia|]. split; [intros j Hj; lia|].
      rewrite E0r, E0c. split; [exact Hb|].
      unfold ally, enemy. rewrite Hb, Hq, Ec. split; reflexivity.
    + intros (k & _ & Hpath & Hin & Hal & ->).
      destruct k as [|k].
      2:{ destruct (Hpath 0%nat ltac:(lia)) as [_ Hn]. rewrite E0r, E0c in Hn. congruence. }
      rewrite E0r, E0c in *. unfold ally in Hal. rewrite Hb, Hq in Hal. cbn [andb] in Hal.
      unfold enemy. rewrite Hb, Hq, Hal. cbn [negb andb]. left. reflexivity.
  - split.
    + intros [<-|H].
      * exists 0%nat. split; [lia|]. split; [intros j Hj; lia|].
        rewrite E0r, E0c. split; [exact Hb|].
        unfold ally, enemy. rewrite Hb, Hq. split; reflexivity.
      * apply IH in H as (k & Hk & Hpath & Hin & Hal & ->).
        exists (S k). split; [lia|]. rewrite ESr, ESc.
        split; [|auto]. intros [|j] Hj.
        -- rewrite E0r, E0c. split; assumption.
        -- rewrite ESr, ESc. apply Hpath. lia.
    + intros (k & Hk & Hpath & Hin & Hal & ->).
      destruct k as [|k].
      * left. rewrite E0r, E0c. unfold enemy. rewrite Hb, Hq. reflexivity.
      * right. apply IH. exists k. split; [lia|]. rewrite ESr, ESc in *.
        split; [|auto]. intros j Hj. rewrite <- ESr, <- ESc. apply Hpath. lia.
Qed.

Lemma genPseudo_not_king board lastDouble r c forAttack p :
  at_ board r c = Some p -> ptype p <> King ->
  genPseudo board lastDouble r c forAttack = pseudoMoves board lastDouble r c forAttack.
Proof.
  intros Hp Hk. unfold genPseudo. rewrite Hp. cbv zeta.
  rewrite bool_decide_eq_false_2 by exact Hk. apply app_nil_r.
Qed.

Lemma slideDirs_unit t d :
  In d (slideDirs t) ->
  (fst d = 1 \/ fst d = -1 \/ fst d = 0) /\ (snd d = 1 \/ snd d = -1 \/ snd d = 0) /\
  (fst d <> 0 \/ snd d <> 0).
Proof.
  destruct t; unfold slideDirs, queenDirs, bishopDirs, rookDirs; cbn [app In]; intros H;
    repeat (destruct H as [<-|H]; [cbn [fst snd]; lia|]); destruct H.
Qed.

(** X9.  A bishop, rook or queen moves along its directions over empty
    squares only: [genPseudo] pushes a move to a square exactly when the
    square is on the board in one of the piece's directions, every square
    strictly between is empty, and the square holds no piece of the mover's
    color; the move is marked as a capture exactly when the square holds an
    enemy piece. *)
Theorem sliding_piece_moves board lastDouble r c forAttack p m :
  at_ board r c = Some p ->
  ptype p = Bishop \/ ptype p = Rook \/ ptype p = Queen ->
  (In m (genPseudo board lastDouble r c forAttack) <->
   exists d k,
     In d (slideDirs (ptype p)) /\ 1 <= k /\
     clearPath board r c d k /\
     inBounds (r + k * fst d) (c + k * snd d) = true /\
     ally board (r + k * fst d) (c + k * snd d) (pcolor p) = false /\
     m = plainMove (r + k * fst d) (c + k * snd d)
           (enemy board (r + k * fst d) (c + k * snd d) (pcolor p))).
Proof.
  intros Hp Ht.
  rewrite (genPseudo_not_king _ _ _ _ _ _ Hp) by (destruct Ht as [E|[E|E]]; rewrite E; discriminate).
  pose proof (at_Some_inBounds _ _ _ _ Hp) as Hrc. apply inBounds_iff in Hrc.
  assert (Eq : pseudoMoves board lastDouble r c forAttack
               = rays board (pcolor p) r c (slideDirs (ptype p))).
  { unfold pseudoMoves. rewrite Hp. cbv zeta.
    destruct Ht as [E|[E|E]]; rewrite E; reflexivity. }
  rewrite Eq. unfold rays. rewrite in_flat_map. split.
  - intros (d & Hd & H). apply ray_iff in H as (k & Hk & Hpath & Hin & Hal & ->).
    exists d, (Z.of_nat k + 1).
    replace (r + (Z.of_nat k + 1) * fst d) with (r + fst d + Z.of_nat k * fst d) by lia.
    replace (c + (Z.of_nat k + 1) * snd d) with (c + snd d + Z.of_nat k * snd d) by lia.
    split; [exact Hd|]. split; [lia|]. split; [|auto].
    intros j Hj.
    destruct (Hpath (Z.to_nat (j - 1)) ltac:(lia)) as [_ Hn].
    rewrite Z2Nat.id in Hn by lia.
    replace (r + fst d + (j - 1) * fst d) with (r + j * fst d) in Hn by lia.
    replace (c + snd d + (j - 1) * snd d) with (c + j * snd d) in Hn by lia.
    exact Hn.
  - intros (d & k & Hd & Hk & Hpath & Hin & Hal & ->).
    exists d. split; [exact Hd|]. apply ray_iff.
    destruct (slideDirs_unit _ _ Hd) as (Hdr & Hdc & Hnz).
    pose proof Hin as Hin'. apply inBounds_iff in Hin'.
    exists (Z.to_nat (k - 1)). rewrite Z2Nat.id by lia.
    replace (r + fst d + (k - 1) * fst d) with (r + k * fst d) by lia.
    replace (c + snd d + (k - 1) * snd d) with (c + k * snd d) by lia.
    split; [|split; [|auto]].
    + assert (k <= 7) by (destruct Hdr as [E|[E|E]], Hdc as [E'|[E'|E']];
                           rewrite ?E, ?E' in *; lia).
      lia.
    + intros j Hj.
      replace (r + fst d + Z.of_nat j * fst d) with (r + (Z.of_nat j + 1) * fst d) by lia.
      replace (c + snd d + Z.of_nat j * snd d) with (c + (Z.of_nat j + 1) * snd d) by lia.
      split; [|apply Hpath; lia].
      apply inBounds_iff.
      destruct Hdr as [E|[E|E]], Hdc as [E'|[E'|E']]; rewrite ?E, ?E' in *; lia.
Qed.

Lemma sliding_piece_moves_witness :
  In (plainMove 4 7 false) (genPseudo rookBoard None 4 3 false) /\
  ~ In (plainMove 2 3 false) (genPseudo rookBoard None 4 3 false) /\
  ~ In (plainMove 1 3 false) (genPseudo rookBoard None 4 3 false).
Proof.
  assert (Hp : at_ rookBoard 4 3 = Some (mkPiece Rook White true)) by reflexivity.
  assert (Ht : ptype (mkPiece Rook White true) = Bishop \/
               ptype (mkPiece Rook White true) = Rook \/
               ptype (mkPiece Rook White true) = Queen) by (right; left; reflexivity).
  split; [|split].
  - apply (sliding_piece_moves rookBoard None 4 3 false _ _ Hp Ht).
    exists (0, 1), 4. split; [cbn; tauto|]. split; [lia|]. split; [|vm_compute; auto].
    intros j Hj. assert (j = 1 \/ j = 2 \/ j = 3) as [->|[->| ->]] by lia; reflexivity.
  - intros H. apply (sliding_piece_moves rookBoard None 4 3 false _ _ Hp Ht) in H
      as (d & k & _ & _ & _ & _ & Hal & E).
    injection E as E1 E2 _. rewrite <- E1, <- E2 in Hal. vm_compute in Hal. discriminate.
  - intros H. apply (sliding_piece_moves rookBoard None 4 3 false _ _ Hp Ht) in H
      as (d & k & Hd & Hk & Hpath & _ & _ & E).
    injection E as E1 E2 _. cbn in Hd.
    destruct Hd as [<-|[<-|[<-|[<-|[]]]]]; cbn [fst snd] in *; try lia.
    assert (k = 3) as -> by lia.
    specialize (Hpath 2 ltac:(lia)). vm_compute in Hpath. discriminate.
Defined.

(** *** No move onto a piece of the mover's color *)

Lemma ray_cap board fuel color dr dc m : forall rr cc,
  In m (ray board fuel color rr cc dr dc) ->
  ally board (m_r m) (m_c m) color = false /\
  m_cap m = enemy board (m_r m) (m_c m) color /\ m_ep m = false /\ m_double m = false.
Proof.
  intros rr cc H. apply ray_iff in H as (k & _ & _ & _ & Hal & ->).
  cbn [m_r m_c m_cap m_ep m_double plainMove]. auto.
Qed.

Lemma steps_cap board color r c deltas m :
  In m (steps board color r c deltas) ->
  ally board (m_r m) (m_c m) color = false /\
  m_cap m = enemy board (m_r m) (m_c m) color /\ m_ep m = false /\ m_double m = false.
Proof.
  intros H. unfold steps in H. apply in_flat_map in H as (d & _ & H). cbv zeta in H.
  destruct (inBounds (r + fst d) (c + snd d)); [|destruct H]. cbn [andb] in H.
  destruct (ally board (r + fst d) (c + snd d) color) eqn:Hal; [destruct H|].
  destruct H as [<-|[]]. cbn. auto.
Qed.

Lemma empty_not_ally board r c color :
  empty board r c = true ->
  ally board r c color = false /\ enemy board r c color = false.
Proof.
  unfold empty, ally, enemy. destruct (inBounds r c); [|discriminate].
  destruct (getCell board r c); [discriminate|]. auto.
Qed.

Lemma enemy_not_ally board r c color :
  enemy board r c color = true -> ally board r c color = false.
Proof.
  unfold ally, enemy. destruct (inBounds r c); [|discriminate].
  destruct (getCell board r c) as [q|]; [|discriminate].
  cbn. destruct (bool_decide (pcolor q = color)); [discriminate|reflexivity].
Qed.

Lemma plain_target board lastDouble r c forAttack p m :
  at_ board r c = Some p ->
  In m (genPseudo board lastDouble r c forAttack) ->
  m_ep m = false -> m_castle m = None ->
  inBounds (m_r m) (m_c m) = true /\
  ally board (m_r m) (m_c m) (pcolor p) = false /\
  m_cap m = enemy board (m_r m) (m_c m) (pcolor p).
Proof.
  intros Hp Hin Hep Hcs.
  assert (Hps : In m (pseudoMoves board lastDouble r c forAttack)).
  { unfold genPseudo in Hin. rewrite Hp in Hin. cbv zeta in Hin.
    apply in_app_iff in Hin as [Hin|Hin]; [exact Hin|].
    in_if Hin. in_if Hin.
    apply in_app_iff in Hin as [Hin|Hin]; in_if Hin;
      destruct Hin as [<-|[]]; discriminate. }
  clear Hin. unfold pseudoMoves in Hps. rewrite Hp in Hps. cbv zeta in Hps.
  assert (Hrays : forall dirs, In m (rays board (pcolor p) r c dirs) ->
            inBounds (m_r m) (m_c m) = true /\
            ally board (m_r m) (m_c m) (pcolor p) = false /\
            m_cap m = enemy board (m_r m) (m_c m) (pcolor p)).
  { intros dirs H. split; [eapply rays_inBounds; eauto|].
    unfold rays in H. apply in_flat_map in H as (d & _ & H).
    apply ray_cap in H. split; apply H. }
  assert (Hsteps : forall ds, In m (steps board (pcolor p) r c ds) ->
            inBounds (m_r m) (m_c m) = true /\
            ally board (m_r m) (m_c m) (pcolor p) = false /\
            m_cap m = enemy board (m_r m) (m_c m) (pcolor p)).
  { intros ds H. split; [eapply steps_inBounds; eauto|].
    apply steps_cap in H. split; apply H. }
  destruct (ptype p);
    try (eapply Hrays; eassumption); try (eapply Hsteps; eassumption); [|destruct Hps].
  unfold pawnMoves in Hps. cbv zeta in Hps. rewrite !in_app_iff in Hps.
  destruct Hps as [H|[H|H]].
  - in_if H.
    destruct (empty board (r + (if bool_decide (pcolor p = White) then -1 else 1)) c)
      eqn:He; [|destruct H].
    destruct H as [<-|H].
    + cbn. split; [eapply empty_inBounds; eauto|].
      destruct (empty_not_ally _ _ _ (pcolor p) He) as [-> ->]. auto.
    + destruct (r =? _); [|destruct H]. cbn [andb] in H.
      destruct (empty board (r + 2 * _) c) eqn:He2; [|destruct H].
      destruct H as [<-|[]]. cbn. split; [eapply empty_inBounds; eauto|].
      destruct (empty_not_ally _ _ _ (pcolor p) He2) as [-> ->]. auto.
  - apply in_flat_map in H as (d & _ & H). cbv zeta in H.
    destruct (enemy board _ _ _) eqn:He; [|destruct H].
    destruct H as [<-|[]]. cbn. split; [eapply enemy_inBounds; eauto|].
    rewrite He. split; [apply enemy_not_ally, He|reflexivity].
  - destruct lastDouble as [l|]; [|destruct H].
    destruct (_ && _); [|destruct H]. destruct H as [<-|[]]. discriminate.
Qed.

(** X10.  Apart from en passant and castling, a move [genPseudo] pushes goes
    to a square of the board that holds no piece of the mover's color, and
    its [cap] flag says whether the square holds an enemy piece. *)
Theorem moves_never_take_own_piece board lastDouble r c forAttack p m :
  at_ board r c = Some p ->
  In m (genPseudo board lastDouble r c forAttack) ->
  m_ep m = false -> m_castle m = None ->
  inBounds (m_r m) (m_c m) = true /\
  ally board (m_r m) (m_c m) (pcolor p) = false /\
  m_cap m = enemy board (m_r m) (m_c m) (pcolor p).
Proof. apply plain_target. Qed.

Lemma moves_never_take_own_piece_witness :
  ally rookBoard 4 7 White = false /\ ~ In (plainMove 2 3 true) (genPseudo rookBoard None 4 3 false).
Proof.
  split.
  - apply (moves_never_take_own_piece rookBoard None 4 3 false
             (mkPiece Rook White true) (plainMove 4 7 false)); try reflexivity.
    vm_compute. tauto.
  - intros H.
    destruct (moves_never_take_own_piece rookBoard None 4 3 false
                (mkPiece Rook White true) (plainMove 2 3 true) eq_refl H eq_refl eq_refl)
      as (_ & Hal & _).
    vm_compute in Hal. discriminate.
Defined.

(** *** Pawns *)

(** X11.  A pawn moves towards the other side only: straight ahead without
    capturing, one square onto an empty square or two from its start row over
    two empty squares (flagged [double]); or one square diagonally ahead,
    capturing, onto an enemy piece or, beside the pawn that has just made a
    double step, en passant. *)
Theorem pawn_moves board lastDouble r c p m :
  at_ board r c = Some p -> ptype p = Pawn ->
  In m (genPseudo board lastDouble r c false) ->
  let dir := if bool_decide (pcolor p = White) then -1 else 1 in
  let start := if bool_decide (pcolor p = White) then 6 else 1 in
  m_castle m = None /\
  ((m_c m = c /\ m_cap m = false /\ m_ep m = false /\
    empty board (r + dir) c = true /\
    ((m_r m = r + dir /\ m_double m = false) \/
     (m_r m = r + 2 * dir /\ m_double m = true /\ r = start /\
      empty board (r + 2 * dir) c = true))) \/
   (m_r m = r + dir /\ Z.abs (m_c m - c) = 1 /\ m_cap m = true /\ m_double m = false /\
    ((m_ep m = false /\ enemy board (m_r m) (m_c m) (pcolor p) = true) \/
     (m_ep m = true /\
      exists l, lastDouble = Some l /\ ld_r l = r /\ ld_c l = m_c m /\
                r = (if bool_decide (pcolor p = White) then 3 else 4))))).
Proof.
  intros Hp Ht Hin. cbv zeta.
  rewrite (genPseudo_not_king _ _ _ _ _ _ Hp) in Hin by (rewrite Ht; discriminate).
  split; [eapply pseudoMoves_no_castle; eauto|].
  unfold pseudoMoves in Hin. rewrite Hp, Ht in Hin. cbv zeta in Hin.
  unfold pawnMoves in Hin. cbv zeta in Hin. rewrite !in_app_iff in Hin.
  cbn [negb] in Hin.
  destruct Hin as [H|[H|H]].
  - left.
    destruct (empty board (r + (if bool_decide (pcolor p = White) then -1 else 1)) c)
      eqn:He; [|destruct H].
    destruct H as [<-|H]; [cbn; auto 10|].
    destruct (r =? _) eqn:Er; [|destruct H]. cbn [andb] in H.
    destruct (empty board (r + 2 * _) c) eqn:He2; [|destruct H].
    destruct H as [<-|[]]. apply Z.eqb_eq in Er. cbn. auto 10.
  - right. apply in_flat_map in H as (d & Hd & H). cbv zeta in H.
    destruct (enemy board _ _ _) eqn:He; [|destruct H].
    destruct H as [<-|[]]. cbn [m_r m_c m_cap m_ep m_double plainMove].
    split; [reflexivity|]. split; [destruct Hd as [<-|[<-|[]]]; lia|].
    split; [reflexivity|]. split; [reflexivity|]. left. split; [reflexivity|exact He].
  - right. destruct lastDouble as [l|]; [|destruct H].
    destruct ((ld_r l =? r) && (Z.abs (ld_c l - c) =? 1) &&
              (r =? (if bool_decide (pcolor p = White) then 3 else 4))) eqn:E;
      [|destruct H].
    destruct H as [<-|[]]. cbn [m_r m_c m_cap m_ep m_double].
    apply andb_true_iff in E as [E E3]. apply andb_true_iff in E as [E1 E2].
    apply Z.eqb_eq in E1, E2, E3.
    split; [reflexivity|]. split; [exact E2|]. split; [reflexivity|].
    split; [reflexivity|]. right. split; [reflexivity|]. exists l. auto.
Qed.

Lemma pawn_moves_witness :
  genPseudo (curBoard started) None 6 4 false
  = [plainMove 5 4 false; mkMeta 4 4 false true false None] /\
  (m_c (mkMeta 4 4 false true false None) = 4 \/
   Z.abs (m_c (mkMeta 4 4 false true false None) - 4) = 1).
Proof.
  split; [vm_compute; reflexivity|].
  destruct (pawn_moves (curBoard started) None 6 4 (mkPiece Pawn White false)
              (mkMeta 4 4 false true false None)) as [_ [H|H]].
  - vm_compute. reflexivity.
  - reflexivity.
  - vm_compute. tauto.
  - left. apply H.
  - right. apply H.
Defined.

(** *** Attacks *)

Lemma genPseudo_forAttack board lastDouble r c :
  genPseudo board lastDouble r c true = pseudoMoves board lastDouble r c true.
Proof.
  unfold genPseudo. destruct (at_ board r c) as [p|] eqn:Hp.
  - cbv zeta. cbn [negb andb]. destruct (bool_decide _); apply app_nil_r.
  - unfold pseudoMoves. rewrite Hp. reflexivity.
Qed.

Lemma forAttack_moves board lastDouble r c m :
  In m (pseudoMoves board lastDouble r c true) ->
  In m (genPseudo board lastDouble r c false) /\
  m_castle m = None /\ m_double m = false /\
  (forall p, at_ board r c = Some p -> ptype p = Pawn -> m_cap m = true).
Proof.
  intros Hin.
  split; [|split; [eapply pseudoMoves_no_castle; eauto|]].
  - unfold genPseudo, pseudoMoves in *.
    destruct (at_ board r c) as [p|] eqn:Hp; [|destruct Hin].
    cbv zeta in *. apply in_app_iff. left.
    destruct (ptype p); auto.
    unfold pawnMoves in *. cbv zeta in *. cbn [negb app] in Hin.
    apply in_app_iff. right. exact Hin.
  - unfold pseudoMoves in Hin.
    destruct (at_ board r c) as [p|] eqn:Hp; [|destruct Hin]. cbv zeta in Hin.
    assert (Hrays : forall dirs, In m (rays board (pcolor p) r c dirs) -> m_double m = false).
    { intros dirs H. unfold rays in H. apply in_flat_map in H as (d & _ & H).
      apply ray_cap in H. apply H. }
    assert (Hsteps : forall ds, In m (steps board (pcolor p) r c ds) -> m_double m = false).
    { intros ds H. apply steps_cap in H. apply H. }
    destruct (ptype p) eqn:Ht;
      try (split; [solve [eauto]|intros p' E' Hp'; injection E' as <-; congruence]);
      [|destruct Hin].
    unfold pawnMoves in Hin. cbv zeta in Hin. cbn [negb app] in Hin.
    apply in_app_iff in Hin as [H|H].
    + apply in_flat_map in H as (d & _ & H). cbv zeta in H.
      destruct (enemy board _ _ _); [|destruct H].
      destruct H as [<-|[]]. cbn. auto.
    + destruct lastDouble as [l|]; [|destruct H].
      destruct (_ && _); [|destruct H]. destruct H as [<-|[]]. cbn. auto.
Qed.

(** X12.  Called for attack detection ([forAttack] true), [genPseudo] pushes
    what it pushes otherwise except castling moves and the forward moves of a
    pawn: it never calls [inCheck] or [canCastle] then, and every move of a
    pawn it pushes is a capture. *)
Theorem generator_for_attack board lastDouble r c :
  genPseudo board lastDouble r c true = pseudoMoves board lastDouble r c true /\
  (forall m, In m (genPseudo board lastDouble r c true) ->
     In m (genPseudo board lastDouble r c false) /\
     m_castle m = None /\ m_double m = false /\
     (forall p, at_ board r c = Some p -> ptype p = Pawn -> m_cap m = true)).
Proof.
  split; [apply genPseudo_forAttack|].
  intros m. rewrite genPseudo_forAttack. apply forAttack_moves.
Qed.

Lemma attacksSquare_elim board lastDouble color r c :
  attacksSquare board lastDouble color r c = true ->
  exists rr cc p m,
    inBounds rr cc = true /\ getCell board rr cc = Some p /\ pcolor p = color /\
    In m (pseudoMoves board lastDouble rr cc true) /\ m_r m = r /\ m_c m = c.
Proof.
  unfold attacksSquare. rewrite existsb_exists.
  intros ([rr cc] & Hsq & H). cbn [fst snd] in H.
  destruct (getCell board rr cc) as [p|] eqn:Hp; [|discriminate].
  apply andb_true_iff in H as [Hc H]. apply bool_decide_eq_true in Hc.
  apply existsb_exists in H as (m & Hm & Hrc).
  apply andb_true_iff in Hrc as [Hr Hcc]. apply Z.eqb_eq in Hr, Hcc.
  exists rr, cc, p, m. repeat split; auto.
  unfold squares in Hsq. apply in_flat_map in Hsq as (r0 & Hr0 & Hsq).
  apply in_map_iff in Hsq as (c0 & E & Hc0). injection E as <- <-.
  apply inBounds_iff. split; apply range8_bounds; assumption.
Qed.

(** X14.  A pawn covers a square for [attacksSquare] only if the square
    holds a piece for it to capture (or is its en-passant square): when
    [attacksSquare] is true of an empty square, the attacker found is no pawn
    unless the move is en passant.  So an empty square that only pawns cover
    counts as unattacked, also for [canCastle]. *)
Theorem empty_square_is_not_attacked_by_a_pawn board lastDouble color r c :
  attacksSquare board lastDouble color r c = true ->
  empty board r c = true ->
  exists rr cc p m,
    at_ board rr cc = Some p /\ pcolor p = color /\
    In m (genPseudo board lastDouble rr cc true) /\ m_r m = r /\ m_c m = c /\
    (ptype p = Pawn -> m_ep m = true).
Proof.
  intros H He.
  apply attacksSquare_elim in H as (rr & cc & p & m & Hb & Hp & Hc & Hm & Hr & Hcc).
  rewrite <- (at_getCell board rr cc Hb) in Hp.
  exists rr, cc, p, m. rewrite genPseudo_forAttack. repeat (split; [assumption|]).
  intros Ht. destruct (m_ep m) eqn:Hep; [reflexivity|exfalso].
  destruct (forAttack_moves _ _ _ _ _ Hm) as (Hm' & Hcs & _ & Hcap).
  destruct (plain_target _ _ _ _ _ _ _ Hp Hm' Hep Hcs) as (_ & _ & Hen).
  rewrite (Hcap p Hp Ht), Hr, Hcc in Hen.
  destruct (empty_not_ally _ _ _ (pcolor p) He) as [_ Hen']. congruence.
Qed.

Lemma empty_square_is_not_attacked_by_a_pawn_witness :
  (exists rr cc p m,
     at_ rookBoard rr cc = Some p /\ pcolor p = White /\
     In m (genPseudo rookBoard None rr cc true) /\ m_r m = 4 /\ m_c m = 7 /\
     (ptype p = Pawn -> m_ep m = true)) /\
  attacksSquare pawnCoverBoard None Black 7 5 = false /\
  canCastle pawnCoverBoard None White KSide = true.
Proof.
  split; [|split; vm_compute; reflexivity].
  apply (empty_square_is_not_attacked_by_a_pawn rookBoard None White 4 7);
    vm_compute; reflexivity.
Defined.

(** ** What [applyMove] does to the board and to the capture bins *)

(** [UNI[q.c][q.t]], where it is defined. *)
Definition glyph (q : Piece) : Icon :=
  match UNI (pcolor q) with
  | Some glyphs => glyphs (ptype q)
  | None => None
  end.

(** The glyphs a move puts into the mover's bin: that of the piece on the
    target square, then that of the pawn taken en passant. *)
Definition taken (g : Grid) (mv : Move) : list Icon :=
  match at_ g (fst (to mv)) (snd (to mv)) with
  | Some q => [glyph q]
  | None => []
  end ++
  (if m_ep (meta mv)
   then match at_ g (fst (from mv)) (snd (to mv)) with
        | Some q => [glyph q]
        | None => []
        end
   else []).

(** The piece [applyMove] leaves on the target square: the piece moved, a
    queen if it is a pawn that reaches the first or the last row. *)
Definition landing (p : Piece) (to : Z * Z) : Piece :=
  mkPiece (if bool_decide (ptype p = Pawn) && ((fst to =? 0) || (fst to =? 7))
           then Queen else ptype p)
          (pcolor p) true.

(** White to capture en passant: a white pawn on e5 beside the black pawn
    that has just moved d7-d5. *)
Definition epBoard : Grid :=
  setCell (setCell (setCell (setCell (replicate 8 (replicate 8 None))
    3 4 (Some (mkPiece Pawn White true)))
    3 3 (Some (mkPiece Pawn Black true)))
    7 4 (Some (mkPiece King White false)))
    0 4 (Some (mkPiece King Black false)).

Definition epState : State :=
  set_lastDouble (Some (mkLastDouble 3 3 1)) (position epBoard White).

(** White to castle on the king's side. *)
Definition castleBoard : Grid :=
  setCell (setCell (setCell (replicate 8 (replicate 8 None))
    7 4 (Some (mkPiece King White false)))
    7 7 (Some (mkPiece Rook White false)))
    0 4 (Some (mkPiece King Black false)).

(** A white pawn on a7 with a black rook on b8 to take. *)
Definition promotionBoard : Grid :=
  setCell (setCell (setCell (setCell (replicate 8 (replicate 8 None))
    1 0 (Some (mkPiece Pawn White true)))
    0 1 (Some (mkPiece Rook Black true)))
    7 4 (Some (mkPiece King White true)))
    0 4 (Some (mkPiece King Black true)).


Lemma boardAfter_other g mv r c :
  (r, c) <> from mv -> (r, c) <> to mv ->
  (m_ep (meta mv) = true -> (r, c) <> (fst (from mv), snd (to mv))) ->
  (forall side, m_castle (meta mv) = Some side ->
     (r, c) <> (fst (to mv), rookFile side) /\
     (r, c) <> (fst (to mv), 4 + kingStep side)) ->
  getCell (boardAfter g mv) r c = getCell g r c.
Proof.
  intros Hfrom Hto Hep Hcs.
  assert (Hfrom' : (fst (from mv), snd (from mv)) <> (r, c))
    by (destruct (from mv); cbn; congruence).
  assert (Hto' : (fst (to mv), snd (to mv)) <> (r, c))
    by (destruct (to mv); cbn; congruence).
  assert (Hcast : getCell (castled g mv) r c = getCell g r c).
  { unfold castled. cbv zeta.
    destruct (m_castle (meta mv)) as [[|]|] eqn:Ec.
    - destruct (Hcs KSide eq_refl) as [H7 H5]. cbn [rookFile kingStep] in H7, H5.
      change (4 + 1) with 5 in H5.
      rewrite !getCell_setCell_other by congruence.
      destruct (m_ep (meta mv)); [|reflexivity].
      apply getCell_setCell_other. specialize (Hep eq_refl). congruence.
    - destruct (Hcs QSide eq_refl) as [H0 H3]. cbn [rookFile kingStep] in H0, H3.
      change (4 + -1) with 3 in H3.
      rewrite !getCell_setCell_other by congruence.
      destruct (m_ep (meta mv)); [|reflexivity].
      apply getCell_setCell_other. specialize (Hep eq_refl). congruence.
    - rewrite !getCell_setCell_other by congruence.
      destruct (m_ep (meta mv)); [|reflexivity].
      apply getCell_setCell_other. specialize (Hep eq_refl). congruence. }
  unfold boardAfter. cbv zeta.
  destruct (landedCell g mv); [|exact Hcast].
  destruct (_ && _); [|exact Hcast].
  rewrite getCell_setCell_other by exact Hto'. exact Hcast.
Qed.

(** X15.  [applyMove] writes to the square it moves from, the square it moves
    to, the square beside the mover on an en-passant capture, and the rook's
    two squares on castling; every other square of the board keeps its
    piece. *)
Theorem applyMove_changes_only_its_squares mv sim st u st' r c :
  valid st -> applyMove mv sim st = Ok u st' ->
  (r, c) <> from mv -> (r, c) <> to mv ->
  (m_ep (meta mv) = true -> (r, c) <> (fst (from mv), snd (to mv))) ->
  (forall side, m_castle (meta mv) = Some side ->
     (r, c) <> (fst (to mv), rookFile side) /\
     (r, c) <> (fst (to mv), 4 + kingStep side)) ->
  getCell (curBoard st') r c = getCell (curBoard st) r c.
Proof.
  intros Hv H Hfrom Hto Hep Hcs.
  destruct (applyMove_effect _ _ _ _ _ Hv H) as ((_ & _ & -> & _) & _).
  apply boardAfter_other; assumption.
Qed.

Lemma applyMove_changes_only_its_squares_witness :
  getCell (curBoard (stateOf (applyMove (mkMove (6, 4) (4, 4) (mkMeta 4 4 false true false None))
                                        false started))) 7 4
  = getCell (curBoard started) 7 4.
Proof.
  destruct (applyMove (mkMove (6, 4) (4, 4) (mkMeta 4 4 false true false None)) false started)
    as [u st'|st'] eqn:E; [|vm_compute in E; discriminate E].
  cbn [stateOf].
  apply (applyMove_changes_only_its_squares
           (mkMove (6, 4) (4, 4) (mkMeta 4 4 false true false None))
           false started u st' 7 4 valid_started E);
    cbn; try discriminate; congruence.
Defined.

(** The board after a move that does not castle, on the squares it moves
    between. *)
Lemma boardAfter_plain g mv p :
  grid8 g -> at_ g (fst (from mv)) (snd (from mv)) = Some p ->
  inBounds (fst (to mv)) (snd (to mv)) = true -> from mv <> to mv ->
  m_castle (meta mv) = None ->
  getCell (boardAfter g mv) (fst (to mv)) (snd (to mv)) = Some (landing p (to mv)) /\
  getCell (boardAfter g mv) (fst (from mv)) (snd (from mv)) = None.
Proof.
  intros Hg Hp Hto Hne Hcs.
  pose proof (at_Some_inBounds _ _ _ _ Hp) as Hfrom.
  assert (Hne' : (fst (from mv), snd (from mv)) <> (fst (to mv), snd (to mv)))
    by (destruct (from mv), (to mv); cbn; congruence).
  assert (Hne'' : (fst (to mv), snd (to mv)) <> (fst (from mv), snd (from mv)))
    by congruence.
  unfold boardAfter, landedCell, castled. cbv zeta. rewrite Hp, Hcs.
  pose proof Hto as Hto'. apply inBounds_iff in Hto'.
  replace ((0 <=? snd (to mv)) && (snd (to mv) <? 8)) with true
    by (symmetry; apply andb_true_iff; lia).
  set (g1 := if m_ep (meta mv)
             then setCell g (fst (from mv)) (snd (to mv)) None else g).
  assert (Hg1 : grid8 g1) by (unfold g1; destruct (m_ep (meta mv));
                              [apply grid8_setCell|]; exact Hg).
  set (g2 := setCell g1 (fst (to mv)) (snd (to mv)) (Some (movedCopy (Some p)))).
  assert (Hg2 : grid8 g2) by (apply grid8_setCell, Hg1).
  set (g3 := setCell g2 (fst (from mv)) (snd (from mv)) None).
  assert (Hg3 : grid8 g3) by (apply grid8_setCell, Hg2).
  assert (E3to : getCell g3 (fst (to mv)) (snd (to mv)) = Some (movedCopy (Some p))).
  { unfold g3. rewrite getCell_setCell_other by exact Hne'.
    apply getCell_setCell_eq, grid8_hasCell; assumption. }
  assert (E3from : getCell g3 (fst (from mv)) (snd (from mv)) = None)
    by (apply getCell_setCell_eq, grid8_hasCell; assumption).
  rewrite E3to. unfold landing. cbn [movedCopy ptype pcolor pmoved].
  destruct (bool_decide (ptype p = Pawn) && ((fst (to mv) =? 0) || (fst (to mv) =? 7))).
  - split; [apply getCell_setCell_eq, grid8_hasCell; assumption|].
    rewrite getCell_setCell_other by exact Hne''. exact E3from.
  - split; [exact E3to|exact E3from].
Qed.

(** X16.  A move that does not castle leaves the square it starts from empty
    and puts the piece on the target square with its [moved] flag set: the
    same piece, except that a pawn reaching row 0 or row 7 becomes a queen of
    its color. *)
Theorem applyMove_moves_the_piece mv sim st u st' :
  valid st -> grid8 (curBoard st) ->
  applyMove mv sim st = Ok u st' ->
  m_castle (meta mv) = None ->
  inBounds (fst (to mv)) (snd (to mv)) = true ->
  exists p,
    at_ (curBoard st) (fst (from mv)) (snd (from mv)) = Some p /\
    at_ (curBoard st') (fst (from mv)) (snd (from mv)) = None /\
    at_ (curBoard st') (fst (to mv)) (snd (to mv)) = Some (landing p (to mv)).
Proof.
  intros Hv Hg H Hcs Hto.
  destruct (applyMove_effect _ _ _ _ _ Hv H) as ((_ & _ & Hb & _) & Hap).
  unfold applies in Hap.
  destruct (at_ (curBoard st) (fst (from mv)) (snd (from mv))) as [p|] eqn:Hp;
    [|discriminate].
  apply andb_true_iff in Hap as [_ Hl].
  assert (Hne : from mv <> to mv).
  { intros E. unfold landedCell, castled in Hl. cbv zeta in Hl. rewrite Hcs, E in Hl.
    pose proof Hto as Hto'. apply inBounds_iff in Hto'.
    replace ((0 <=? snd (to mv)) && (snd (to mv) <? 8)) with true in Hl
      by (symmetry; apply andb_true_iff; lia).
    rewrite getCell_setCell_eq in Hl; [discriminate|].
    apply hasCell_setCell. destruct (m_ep (meta mv)); [apply hasCell_setCell|];
      apply grid8_hasCell; assumption. }
  destruct (boardAfter_plain _ _ _ Hg Hp Hto Hne Hcs) as [Eto Efrom].
  exists p. split; [reflexivity|]. rewrite Hb.
  rewrite !at_getCell by (assumption || eapply at_Some_inBounds; eauto).
  split; assumption.
Qed.

Lemma applyMove_moves_the_piece_witness :
  at_ (curBoard (stateOf (applyMove (mkMove (1, 0) (0, 1) (plainMove 0 1 true)) true
                                    (position promotionBoard White)))) 0 1
  = Some (mkPiece Queen White true).
Proof.
  destruct (applyMove (mkMove (1, 0) (0, 1) (plainMove 0 1 true)) true
                      (position promotionBoard White)) as [u st'|st'] eqn:E;
    [|vm_compute in E; discriminate E].
  cbn [stateOf].
  destruct (applyMove_moves_the_piece (mkMove (1, 0) (0, 1) (plainMove 0 1 true)) true
              (position promotionBoard White) u st')
    as (p & Hp & _ & Hto).
  - apply valid_position.
  - vm_compute. split; [reflexivity|repeat constructor].
  - exact E.
  - reflexivity.
  - reflexivity.
  - cbn [from to fst snd] in Hto, Hp. rewrite Hto.
    vm_compute in Hp. injection Hp as <-. reflexivity.
Defined.

(** *** The capture bins *)

Lemma recordCapture_Ok p q s u s' :
  recordCapture (Some p) q s = Ok u s' ->
  s' = set_heapC (<[(if bool_decide (pcolor p = White)
                     then st_byWhite s else st_byBlack s)
                    := binAt s (if bool_decide (pcolor p = White)
                                then st_byWhite s else st_byBlack s) ++ [glyph q]]>
                    (heapC s)) s.
Proof.
  unfold recordCapture, glyph. destruct (UNI (pcolor q)) as [f|]; [|discriminate].
  destruct (bool_decide (pcolor p = White)); unfold bind, gets, pushBin;
    intros H; injection H as _ <-; reflexivity.
Qed.

(** The bins of a state, by their contents. *)
Lemma bins_push st l icon :
  valid st -> st_byWhite st <> st_byBlack st ->
  l = st_byWhite st \/ l = st_byBlack st ->
  let s := set_heapC (<[l := binAt st l ++ [icon]]> (heapC st)) st in
  binAt s (st_byWhite s) =
    binAt st (st_byWhite st) ++ (if bool_decide (l = st_byWhite st) then [icon] else []) /\
  binAt s (st_byBlack s) =
    binAt st (st_byBlack st) ++ (if bool_decide (l = st_byBlack st) then [icon] else []).
Proof.
  intros (_ & Hw & Hk) Hne Hl. cbv zeta. unfold binAt. cbn.
  destruct Hl as [-> | ->].
  - rewrite (bool_decide_eq_true_2 (st_byWhite st = st_byWhite st)) by reflexivity.
    rewrite (bool_decide_eq_false_2 (st_byWhite st = st_byBlack st)) by exact Hne.
    rewrite list_lookup_insert_eq by exact Hw.
    rewrite list_lookup_insert_ne by exact Hne.
    rewrite app_nil_r. split; reflexivity.
  - rewrite (bool_decide_eq_true_2 (st_byBlack st = st_byBlack st)) by reflexivity.
    rewrite (bool_decide_eq_false_2 (st_byBlack st = st_byWhite st)) by congruence.
    rewrite list_lookup_insert_eq by exact Hk.
    rewrite list_lookup_insert_ne by congruence.
    rewrite app_nil_r. split; reflexivity.
Qed.

(** X17.  A committed move puts the glyph of the piece it takes (the one on
    the target square, and the pawn beside the mover when it is an en-passant
    capture) at the end of the mover's bin, [captured.byWhite] for a white
    piece and [captured.byBlack] otherwise, and leaves the other bin as it
    was; a simulated move leaves both bins as they were. *)
Theorem captured_glyph_goes_to_the_movers_bin mv sim st u st' p :
  valid st -> st_byWhite st <> st_byBlack st ->
  applyMove mv sim st = Ok u st' ->
  at_ (curBoard st) (fst (from mv)) (snd (from mv)) = Some p ->
  let haul := if sim then [] else taken (curBoard st) mv in
  binAt st' (st_byWhite st') =
    binAt st (st_byWhite st) ++ (if bool_decide (pcolor p = White) then haul else []) /\
  binAt st' (st_byBlack st') =
    binAt st (st_byBlack st) ++ (if bool_decide (pcolor p = White) then [] else haul).
Proof.
  intros Hv Hne H Hp. cbv zeta.
  destruct sim.
  { destruct (applyMove_effect _ _ _ _ _ Hv H) as ((_ & Hm & _ & _ & Hq) & _).
    destruct (Hq eq_refl) as [HC _]. unfold binAt.
    rewrite HC, (mu_byWhite _ _ Hm), (mu_byBlack _ _ Hm).
    destruct (bool_decide _); rewrite !app_nil_r; split; reflexivity. }
  unfold applyMove in H. cbv zeta in H.
  apply bind_Ok in H as (piece & s & H0 & H). run1 H0.
  apply bind_Ok in H as (target & s & H0 & H). run1 H0.
  rewrite Hp in H. cbn [negb] in H. rewrite andb_true_r in H.
  apply bind_Ok in H as (? & s1 & H1 & H).
  apply bind_Ok in H as (? & s2 & H2 & H).
  assert (Hif : forall b : bool, (if b then @nil Icon else []) = [])
    by (intros []; reflexivity).
  (* the bins after line 225 *)
  set (l := if bool_decide (pcolor p = White) then st_byWhite st else st_byBlack st).
  assert (Hl : l = st_byWhite st \/ l = st_byBlack st)
    by (unfold l; destruct (bool_decide (pcolor p = White)); auto).
  set (t1 := match at_ (curBoard st) (fst (to mv)) (snd (to mv)) with
             | Some q => [glyph q] | None => [] end).
  assert (B1 : valid s1 /\ st_byWhite s1 = st_byWhite st /\ st_byBlack s1 = st_byBlack st /\
               curBoard s1 = curBoard st /\
               binAt s1 (st_byWhite s1) =
                 binAt st (st_byWhite st) ++ (if bool_decide (l = st_byWhite st) then t1 else []) /\
               binAt s1 (st_byBlack s1) =
                 binAt st (st_byBlack st) ++ (if bool_decide (l = st_byBlack st) then t1 else [])).
  { unfold t1. destruct (at_ (curBoard st) (fst (to mv)) (snd (to mv))) as [q|].
    - cbn [when] in H1. pose proof (recordCapture_mutates _ _ _ _ _ H1) as (Hm & _).
      apply recordCapture_Ok in H1. fold l in H1. subst s1.
      split; [exact (mutates_valid _ _ Hv Hm)|].
      split; [reflexivity|]. split; [reflexivity|]. split; [reflexivity|].
      apply (bins_push st l (glyph q) Hv Hne Hl).
    - run1 H1. rewrite !Hif, !app_nil_r.
      split; [exact Hv|]. repeat (split; [reflexivity|]). reflexivity. }
  destruct B1 as (Hv1 & Ew1 & Ek1 & Ecur1 & Bw1 & Bk1). clear H1.
  set (t2 := if m_ep (meta mv)
             then match at_ (curBoard st) (fst (from mv)) (snd (to mv)) with
                  | Some q => [glyph q] | None => [] end
             else []).
  assert (B2 : valid s2 /\ st_byWhite s2 = st_byWhite st /\ st_byBlack s2 = st_byBlack st /\
               binAt s2 (st_byWhite s2) =
                 binAt s1 (st_byWhite s1) ++ (if bool_decide (l = st_byWhite st) then t2 else []) /\
               binAt s2 (st_byBlack s2) =
                 binAt s1 (st_byBlack s1) ++ (if bool_decide (l = st_byBlack st) then t2 else [])).
  { unfold t2. destruct (m_ep (meta mv)); cbn [when] in H2.
    - apply bind_Ok in H2 as (epPawn & s1' & G & R). apply gets_Ok in G as [-> ->].
      rewrite Ecur1 in R.
      destruct (at_ (curBoard st) (fst (from mv)) (snd (to mv))) as [q|].
      + pose proof (recordCapture_mutates _ _ _ _ _ R) as (Hm & _).
        apply recordCapture_Ok in R. rewrite Ew1, Ek1 in R. fold l in R. subst s2.
        split; [exact (mutates_valid _ _ Hv1 Hm)|].
        split; [exact Ew1|]. split; [exact Ek1|].
        assert (Hl1 : l = st_byWhite s1 \/ l = st_byBlack s1) by (rewrite Ew1, Ek1; exact Hl).
        assert (Hne1 : st_byWhite s1 <> st_byBlack s1) by (rewrite Ew1, Ek1; exact Hne).
        pose proof (bins_push s1 l (glyph q) Hv1 Hne1 Hl1) as HB. cbv zeta in HB.
        replace (bool_decide (l = st_byWhite st)) with (bool_decide (l = st_byWhite s1))
          by (rewrite Ew1; reflexivity).
        replace (bool_decide (l = st_byBlack st)) with (bool_decide (l = st_byBlack s1))
          by (rewrite Ek1; reflexivity).
        exact HB.
      + run1 R. rewrite !Hif, !app_nil_r.
        split; [exact Hv1|]. split; [exact Ew1|]. split; [exact Ek1|].
        split; reflexivity.
    - run1 H2. rewrite !Hif, !app_nil_r.
      split; [exact Hv1|]. split; [exact Ew1|]. split; [exact Ek1|].
      split; reflexivity. }
  destruct B2 as (Hv2 & Ew2 & Ek2 & Bw2 & Bk2). clear H2.
  (* lines 234-255 write the board, [lastDouble] and the move list only *)
  assert (Htail : heapC st' = heapC s2 /\ st_byWhite st' = st_byWhite s2 /\
                  st_byBlack st' = st_byBlack s2).
  { apply bind_Ok in H as (? & s3 & H3 & H).
    pose proof (tracks_start true s2 Hv2) as Ht2.
    assert (Ht3 : exists g, tracks true s2 g (st_lastDouble s2) s3).
    { destruct (m_ep (meta mv)); cbn [when] in H3.
      - eexists. eapply tracks_write; eauto.
      - run1 H3. eexists. exact Ht2. }
    destruct Ht3 as [g3 Ht3]. clear H3 Ht2.
    apply bind_Ok in H as (? & s4 & H4 & H).
    pose proof (tracks_write _ _ _ _ _ _ _ _ _ _ Ht3 H4) as Ht4. clear H4 Ht3.
    apply bind_Ok in H as (? & s5 & H5 & H).
    pose proof (tracks_write _ _ _ _ _ _ _ _ _ _ Ht4 H5) as Ht5. clear H5 Ht4.
    apply bind_Ok in H as (? & s6 & H6 & H).
    pose proof (tracks_castle _ _ _ _ _ _ _ _ _ Ht5 H6) as Ht6. clear H6 Ht5.
    apply bind_Ok in H as (landed & s7 & H7 & H).
    assert (E7 : s7 = s6).
    { destruct ((0 <=? snd (to mv)) && (snd (to mv) <? 8)).
      - apply readBoard_Ok in H7 as (_ & _ & ->). reflexivity.
      - run1 H7. reflexivity. }
    subst s7. clear H7.
    apply bind_Ok in H as (? & s8 & H8 & H).
    destruct landed as [q|]; [|discriminate H8].
    assert (Ht8 : exists g, tracks true s2 g (st_lastDouble s2) s8).
    { destruct (bool_decide (ptype q = Pawn) && ((fst (to mv) =? 0) || (fst (to mv) =? 7)));
        cbn [when] in H8.
      - eexists. eapply tracks_write; eauto.
      - run1 H8. eexists. exact Ht6. }
    destruct Ht8 as [g8 (Hv8 & Hm8 & _ & _ & Hq8)]. clear H8 Ht6.
    destruct (Hq8 eq_refl) as [HC8 _].
    apply bind_Ok in H as (? & s9 & H9 & H).
    assert (E9 : heapC s9 = heapC s8 /\ st_byWhite s9 = st_byWhite s8 /\
                 st_byBlack s9 = st_byBlack s8 /\ valid s9).
    { destruct (bool_decide (ptype p = Pawn) && m_double (meta mv)); run1 H9; auto. }
    destruct E9 as (HC9 & Ew9 & Ek9 & Hv9). clear H9.
    cbn [when] in H.
    apply bind_Ok in H as (? & s10 & H10 & H). unfold renderCaptured in H. run1 H.
    apply logMove_mutates in H10 as (Hm10 & _ & _ & HC10).
    rewrite HC10, HC9, HC8.
    rewrite (mu_byWhite _ _ Hm10), (mu_byBlack _ _ Hm10), Ew9, Ek9.
    rewrite (mu_byWhite _ _ Hm8), (mu_byBlack _ _ Hm8). auto. }
  destruct Htail as (HC & Ew & Ek).
  assert (Ew' : binAt st' (st_byWhite st') = binAt s2 (st_byWhite s2))
    by (unfold binAt; rewrite HC, Ew; reflexivity).
  assert (Ek' : binAt st' (st_byBlack st') = binAt s2 (st_byBlack s2))
    by (unfold binAt; rewrite HC, Ek; reflexivity).
  rewrite Ew', Ek', Bw2, Bk2, Bw1, Bk1. unfold taken. fold t1 t2.
  unfold l. destruct (bool_decide (pcolor p = White)).
  - rewrite (bool_decide_eq_true_2 (st_byWhite st = st_byWhite st)) by reflexivity.
    rewrite (bool_decide_eq_false_2 (st_byWhite st = st_byBlack st)) by exact Hne.
    rewrite !app_nil_r, <- ?app_assoc. split; reflexivity.
  - rewrite (bool_decide_eq_true_2 (st_byBlack st = st_byBlack st)) by reflexivity.
    rewrite (bool_decide_eq_false_2 (st_byBlack st = st_byWhite st)) by congruence.
    rewrite !app_nil_r, <- ?app_assoc. split; reflexivity.
Qed.

Lemma captured_glyph_goes_to_the_movers_bin_witness :
  binAt (stateOf (applyMove (mkMove (1, 0) (0, 1) (plainMove 0 1 true)) false
                            (position promotionBoard White)))
        (st_byWhite (stateOf (applyMove (mkMove (1, 0) (0, 1) (plainMove 0 1 true)) false
                                        (position promotionBoard White))))
  = [Some 9820].
Proof.
  destruct (applyMove (mkMove (1, 0) (0, 1) (plainMove 0 1 true)) false
                      (position promotionBoard White)) as [u st'|st'] eqn:E;
    [|vm_compute in E; discriminate E].
  cbn [stateOf].
  destruct (captured_glyph_goes_to_the_movers_bin
              (mkMove (1, 0) (0, 1) (plainMove 0 1 true)) false
              (position promotionBoard White) u st' (mkPiece Pawn White true)) as [Hw _].
  - apply valid_position.
  - vm_compute. discriminate.
  - exact E.
  - reflexivity.
  - rewrite Hw. vm_compute. reflexivity.
Defined.

(** *** Castling and en passant *)

Lemma canCastle_pieces board lastDouble color side :
  canCastle board lastDouble color side = true ->
  exists rook king,
    at_ board (homeRow color) (rookFile side) = Some rook /\
    at_ board (homeRow color) 4 = Some king /\
    ptype king = King /\ ptype rook = Rook /\
    pmoved king = false /\ pmoved rook = false.
Proof.
  unfold canCastle, homeRow, rookFile. cbv zeta.
  destruct (at_ board _ _) as [rook|]; [|discriminate].
  destruct (at_ board _ 4) as [king|]; [|discriminate].
  destruct (bool_decide (ptype king = King)) eqn:Ek; cbn [negb orb]; [|discriminate].
  destruct (bool_decide (ptype rook = Rook)) eqn:Er; cbn [negb orb]; [|discriminate].
  destruct (pmoved king) eqn:Emk; cbn [negb orb]; [discriminate|].
  destruct (pmoved rook) eqn:Emr; cbn [negb orb]; [discriminate|].
  apply bool_decide_eq_true in Ek, Er. intros _. exists rook, king. auto 10.
Qed.

(** The board after a castling move the generator pushes. *)
Lemma boardAfter_castle g lastDouble r c m side :
  grid8 g -> homed g ->
  In m (genPseudo g lastDouble r c false) -> m_castle m = Some side ->
  exists king rook,
    c = 4 /\ r = homeRow (pcolor king) /\
    at_ g r 4 = Some king /\ ptype king = King /\
    at_ g r (rookFile side) = Some rook /\ ptype rook = Rook /\
    m = mkMeta r (4 + 2 * kingStep side) false false false (Some side) /\
    getCell (boardAfter g (trial r c m)) r 4 = None /\
    getCell (boardAfter g (trial r c m)) r (rookFile side) = None /\
    getCell (boardAfter g (trial r c m)) r (4 + 2 * kingStep side)
      = Some (mkPiece King (pcolor king) true) /\
    getCell (boardAfter g (trial r c m)) r (4 + kingStep side)
      = Some (mkPiece Rook (pcolor rook) true).
Proof.
  intros Hg Hh Hin Hm.
  destruct (castling_conditions _ _ _ _ _ _ _ Hin Hm)
    as (king & Hp & Hcan & _ & Hk & Hmv & _ & ->).
  destruct (Hh r c king Hp Hk Hmv) as [-> ->].
  destruct (canCastle_pieces _ _ _ _ Hcan) as (rook & king' & Hrook & _ & _ & Hr & _).
  exists king, rook.
  split; [reflexivity|]. split; [reflexivity|]. split; [exact Hp|]. split; [exact Hk|].
  split; [exact Hrook|]. split; [exact Hr|]. split; [reflexivity|].
  set (row := homeRow (pcolor king)) in *.
  assert (Hrow : 0 <= row < 8)
    by (apply at_Some_inBounds, inBounds_iff in Hp; lia).
  assert (Hcell : forall g' cc, grid8 g' -> 0 <= cc < 8 -> hasCell g' row cc)
    by (intros g' cc Hg' Hcc; apply grid8_hasCell; [exact Hg'|apply inBounds_iff; lia]).
  assert (Hrook' : getCell g row (rookFile side) = Some rook).
  { unfold at_ in Hrook. destruct (inBounds row (rookFile side)); [exact Hrook|discriminate]. }
  unfold boardAfter, landedCell, castled. cbv zeta.
  cbn [trial from to meta fst snd m_ep m_castle m_r m_c]. rewrite Hp.
  destruct side; cbn [kingStep rookFile] in *.
  - change (4 + 2 * 1) with 6. change (4 + 1) with 5.
    change ((0 <=? 6) && (6 <? 8)) with true. cbv iota.
    set (g2 := setCell g row 6 (Some (movedCopy (Some king)))).
    assert (Hg2 : grid8 g2) by (apply grid8_setCell, Hg).
    set (g3 := setCell g2 row 4 None).
    assert (Hg3 : grid8 g3) by (apply grid8_setCell, Hg2).
    assert (E7 : getCell g3 row 7 = Some rook).
    { unfold g3, g2.
      rewrite !getCell_setCell_other
        by (intros E; apply (f_equal snd) in E; cbn in E; lia).
      exact Hrook'. }
    rewrite E7.
    set (g4 := setCell g3 row 5 (Some (movedCopy (Some rook)))).
    assert (Hg4 : grid8 g4) by (apply grid8_setCell, Hg3).
    set (g5 := setCell g4 row 7 None).
    assert (E6 : getCell g5 row 6 = Some (movedCopy (Some king))).
    { unfold g5, g4, g3.
      rewrite !getCell_setCell_other
        by (intros E; apply (f_equal snd) in E; cbn in E; lia).
      apply getCell_setCell_eq, Hcell; [exact Hg|lia]. }
    rewrite E6. cbn [movedCopy ptype]. rewrite Hk.
    rewrite bool_decide_eq_false_2 by discriminate. cbn [andb].
    split; [|split; [|split]].
    + unfold g5, g4.
      rewrite !getCell_setCell_other
        by (intros E; apply (f_equal snd) in E; cbn in E; lia).
      apply getCell_setCell_eq, Hcell; [exact Hg2|lia].
    + apply getCell_setCell_eq, Hcell; [exact Hg4|lia].
    + rewrite E6. cbn [movedCopy]. rewrite Hk. reflexivity.
    + unfold g5. rewrite getCell_setCell_other
        by (intros E; apply (f_equal snd) in E; cbn in E; lia).
      unfold g4. rewrite getCell_setCell_eq by (apply Hcell; [exact Hg3|lia]).
      cbn [movedCopy]. rewrite Hr. reflexivity.
  - change (4 + 2 * -1) with 2. change (4 + -1) with 3.
    change ((0 <=? 2) && (2 <? 8)) with true. cbv iota.
    set (g2 := setCell g row 2 (Some (movedCopy (Some king)))).
    assert (Hg2 : grid8 g2) by (apply grid8_setCell, Hg).
    set (g3 := setCell g2 row 4 None).
    assert (Hg3 : grid8 g3) by (apply grid8_setCell, Hg2).
    assert (E0 : getCell g3 row 0 = Some rook).
    { unfold g3, g2.
      rewrite !getCell_setCell_other
        by (intros E; apply (f_equal snd) in E; cbn in E; lia).
      exact Hrook'. }
    rewrite E0.
    set (g4 := setCell g3 row 3 (Some (movedCopy (Some rook)))).
    assert (Hg4 : grid8 g4) by (apply grid8_setCell, Hg3).
    set (g5 := setCell g4 row 0 None).
    assert (E2 : getCell g5 row 2 = Some (movedCopy (Some king))).
    { unfold g5, g4, g3.
      rewrite !getCell_setCell_other
        by (intros E; apply (f_equal snd) in E; cbn in E; lia).
      apply getCell_setCell_eq, Hcell; [exact Hg|lia]. }
    rewrite E2. cbn [movedCopy ptype]. rewrite Hk.
    rewrite bool_decide_eq_false_2 by discriminate. cbn [andb].
    split; [|split; [|split]].
    + unfold g5, g4.
      rewrite !getCell_setCell_other
        by (intros E; apply (f_equal snd) in E; cbn in E; lia).
      apply getCell_setCell_eq, Hcell; [exact Hg2|lia].
    + apply getCell_setCell_eq, Hcell; [exact Hg4|lia].
    + rewrite E2. cbn [movedCopy]. rewrite Hk. reflexivity.
    + unfold g5. rewrite getCell_setCell_other
        by (intros E; apply (f_equal snd) in E; cbn in E; lia).
      unfold g4. rewrite getCell_setCell_eq by (apply Hcell; [exact Hg3|lia]).
      cbn [movedCopy]. rewrite Hr. reflexivity.
Qed.

(** X18.  On a board where an unmoved king stands on its home square, a
    castling move the generator pushes, once applied, has put the king two
    files towards the rook and the rook on the square the king crossed, both
    with their [moved] flag set, and has left the king's square and the
    rook's corner empty. *)
Theorem castling_moves_king_and_rook r c m side sim st u st' :
  valid st -> grid8 (curBoard st) -> homed (curBoard st) ->
  In m (genPseudo (curBoard st) (st_lastDouble st) r c false) ->
  m_castle m = Some side ->
  applyMove (trial r c m) sim st = Ok u st' ->
  exists king rook,
    c = 4 /\ r = homeRow (pcolor king) /\
    at_ (curBoard st) r 4 = Some king /\ ptype king = King /\
    at_ (curBoard st) r (rookFile side) = Some rook /\ ptype rook = Rook /\
    getCell (curBoard st') r 4 = None /\
    getCell (curBoard st') r (rookFile side) = None /\
    getCell (curBoard st') r (4 + 2 * kingStep side)
      = Some (mkPiece King (pcolor king) true) /\
    getCell (curBoard st') r (4 + kingStep side)
      = Some (mkPiece Rook (pcolor rook) true).
Proof.
  intros Hv Hg Hh Hin Hm H.
  destruct (applyMove_effect _ _ _ _ _ Hv H) as ((_ & _ & -> & _) & _).
  destruct (boardAfter_castle _ _ _ _ _ _ Hg Hh Hin Hm)
    as (king & rook & H1 & H2 & H3 & H4 & H5 & H6 & _ & H7).
  exists king, rook. auto 10.
Qed.

Lemma castling_moves_king_and_rook_witness :
  getCell (curBoard (stateOf (applyMove
             (trial 7 4 (mkMeta 7 6 false false false (Some KSide))) false
             (position castleBoard White)))) 7 5
  = Some (mkPiece Rook White true).
Proof.
  destruct (applyMove (trial 7 4 (mkMeta 7 6 false false false (Some KSide))) false
              (position castleBoard White)) as [u st'|st'] eqn:E;
    [|vm_compute in E; discriminate E].
  cbn [stateOf].
  destruct (castling_moves_king_and_rook 7 4 (mkMeta 7 6 false false false (Some KSide))
              KSide false (position castleBoard White) u st')
    as (king & rook & _ & _ & _ & _ & Hrook & _ & _ & _ & _ & H5).
  - apply valid_position.
  - vm_compute. split; [reflexivity|repeat constructor].
  - apply homedb_homed. vm_compute. reflexivity.
  - vm_compute. tauto.
  - reflexivity.
  - exact E.
  - change (4 + kingStep KSide) with 5 in H5. rewrite H5.
    vm_compute in Hrook. injection Hrook as <-. reflexivity.
Defined.

(** The en-passant capture the generator pushes. *)
Lemma genPseudo_ep_move board lastDouble r c forAttack m :
  In m (genPseudo board lastDouble r c forAttack) -> m_ep m = true ->
  exists l p,
    lastDouble = Some l /\ at_ board r c = Some p /\ ptype p = Pawn /\
    ld_r l = r /\ Z.abs (ld_c l - c) = 1 /\
    r = (if bool_decide (pcolor p = White) then 3 else 4) /\
    m = mkMeta (r + (if bool_decide (pcolor p = White) then -1 else 1)) (ld_c l)
               true false true None.
Proof.
  intros Hin Hep.
  destruct (genPseudo_ep _ _ _ _ _ _ Hin Hep) as (l & p & -> & Hp & Ht & H1 & H2 & H3 & _).
  exists l, p. repeat (split; [assumption || reflexivity|]).
  unfold genPseudo in Hin. rewrite Hp in Hin. cbv zeta in Hin.
  rewrite (bool_decide_eq_false_2 (ptype p = King)) in Hin by (rewrite Ht; discriminate).
  rewrite app_nil_r in Hin. unfold pseudoMoves in Hin. rewrite Hp, Ht in Hin.
  unfold pawnMoves in Hin. cbv zeta in Hin. rewrite !in_app_iff in Hin.
  destruct Hin as [H|[H|H]].
  - in_if H. in_if H. destruct H as [<-|H]; [discriminate|].
    in_if H. destruct H as [<-|[]]; discriminate.
  - apply in_flat_map in H as (d & _ & H).
    cbv zeta in H. in_if H. destruct H as [<-|[]]; discriminate.
  - destruct (_ && _); [|destruct H]. destruct H as [<-|[]]. reflexivity.
Qed.

Lemma boardAfter_ep g lastDouble r c m :
  grid8 g -> In m (genPseudo g lastDouble r c false) -> m_ep m = true ->
  (forall l, lastDouble = Some l -> 0 <= ld_c l < 8) ->
  exists l p,
    lastDouble = Some l /\ at_ g r c = Some p /\ ptype p = Pawn /\
    ld_r l = r /\ Z.abs (ld_c l - c) = 1 /\
    m = mkMeta (r + (if bool_decide (pcolor p = White) then -1 else 1)) (ld_c l)
               true false true None /\
    inBounds (m_r m) (m_c m) = true /\
    getCell (boardAfter g (trial r c m)) r (ld_c l) = None /\
    getCell (boardAfter g (trial r c m)) r c = None /\
    getCell (boardAfter g (trial r c m)) (m_r m) (m_c m)
      = Some (mkPiece Pawn (pcolor p) true).
Proof.
  intros Hg Hin Hep Hld.
  destruct (genPseudo_ep_move _ _ _ _ _ _ Hin Hep)
    as (l & p & El & Hp & Ht & Hr & Habs & Hrow & ->).
  specialize (Hld l El).
  pose proof (at_Some_inBounds _ _ _ _ Hp) as Hrc. pose proof Hrc as Hrc'.
  apply inBounds_iff in Hrc'.
  set (dir := if bool_decide (pcolor p = White) then -1 else 1) in *.
  assert (Hto : inBounds (r + dir) (ld_c l) = true).
  { apply inBounds_iff. unfold dir. destruct (bool_decide (pcolor p = White)); lia. }
  assert (Hdir : dir <> 0) by (unfold dir; destruct (bool_decide _); lia).
  destruct (boardAfter_plain g
              (trial r c (mkMeta (r + dir) (ld_c l) true false true None)) p)
    as [Eto Efrom]; cbn [trial from to meta fst snd m_r m_c m_castle]; auto.
  { intros E. injection E as E1 E2. lia. }
  cbn [trial from to meta fst snd m_r m_c] in Eto, Efrom.
  exists l, p. cbn [m_r m_c]. repeat (split; [assumption || reflexivity|]).
  split; [|split; [exact Efrom|]].
  - unfold boardAfter, landedCell, castled. cbv zeta.
    cbn [trial from to meta fst snd m_ep m_castle m_r m_c]. rewrite Hp.
    assert (E : getCell
              (setCell
                 (setCell (setCell g r (ld_c l) None) (r + dir) (ld_c l)
                    (Some (movedCopy (Some p)))) r c None) r (ld_c l) = None).
    { rewrite !getCell_setCell_other by (intros E; injection E; lia).
      apply getCell_setCell_eq, grid8_hasCell; [exact Hg|apply inBounds_iff; lia]. }
    destruct (if (0 <=? ld_c l) && (ld_c l <? 8) then _ else _) as [q|]; [|exact E].
    destruct (_ && _); [|exact E].
    rewrite getCell_setCell_other by (intros E'; injection E'; lia). exact E.
  - rewrite Eto. unfold landing. cbn [to fst]. rewrite Ht.
    replace ((r + dir =? 0) || (r + dir =? 7)) with false; [rewrite andb_false_r; reflexivity|].
    symmetry. apply orb_false_iff. unfold dir.
    destruct (bool_decide (pcolor p = White)); split; apply Z.eqb_neq; lia.
Qed.

(** X19.  An en-passant capture the generator pushes, once applied, has
    emptied the square of the pawn that made the double step (beside the
    capturing pawn, on its row) and the square the capturing pawn came from,
    and has put that pawn on the square behind the pawn taken. *)
Theorem en_passant_takes_the_pawn_beside r c m l sim st u st' :
  valid st -> grid8 (curBoard st) ->
  st_lastDouble st = Some l -> 0 <= ld_c l < 8 ->
  In m (genPseudo (curBoard st) (st_lastDouble st) r c false) -> m_ep m = true ->
  applyMove (trial r c m) sim st = Ok u st' ->
  exists p,
    at_ (curBoard st) r c = Some p /\ ptype p = Pawn /\
    ld_r l = r /\ Z.abs (ld_c l - c) = 1 /\
    m_r m = r + (if bool_decide (pcolor p = White) then -1 else 1) /\ m_c m = ld_c l /\
    at_ (curBoard st') r (ld_c l) = None /\
    at_ (curBoard st') r c = None /\
    at_ (curBoard st') (m_r m) (m_c m) = Some (mkPiece Pawn (pcolor p) true).
Proof.
  intros Hv Hg El Hc Hin Hep H.
  destruct (boardAfter_ep _ _ _ _ _ Hg Hin Hep)
    as (l' & p & El' & Hp & Ht & Hr & Habs & Em & Hto & E1 & E2 & E3).
  { intros l0 E0. rewrite El in E0. injection E0 as <-. exact Hc. }
  rewrite El in El'. injection El' as <-.
  destruct (applyMove_effect _ _ _ _ _ Hv H) as ((_ & _ & Hb & _) & _).
  pose proof (at_Some_inBounds _ _ _ _ Hp) as Hrc. pose proof Hrc as Hrc'.
  apply inBounds_iff in Hrc'.
  exists p. rewrite Hb.
  assert (Hmr : m_r m = r + (if bool_decide (pcolor p = White) then -1 else 1))
    by (rewrite Em; reflexivity).
  assert (Hmc : m_c m = ld_c l) by (rewrite Em; reflexivity).
  repeat (split; [assumption|]).
  rewrite !at_getCell.
  - auto.
  - exact Hto.
  - exact Hrc.
  - apply inBounds_iff. lia.
Qed.

Lemma en_passant_takes_the_pawn_beside_witness :
  at_ (curBoard (stateOf (applyMove (trial 3 4 (mkMeta 2 3 true false true None)) false
                                    epState))) 3 3 = None /\
  at_ (curBoard (stateOf (applyMove (trial 3 4 (mkMeta 2 3 true false true None)) false
                                    epState))) 2 3 = Some (mkPiece Pawn White true).
Proof.
  destruct (applyMove (trial 3 4 (mkMeta 2 3 true false true None)) false epState)
    as [u st'|st'] eqn:E; [|vm_compute in E; discriminate E].
  cbn [stateOf].
  destruct (en_passant_takes_the_pawn_beside 3 4 (mkMeta 2 3 true false true None)
              (mkLastDouble 3 3 1) false epState u st')
    as (p & Hp & _ & _ & _ & _ & _ & H1 & _ & H2).
  - unfold valid. vm_compute. repeat split; repeat constructor.
  - vm_compute. split; [reflexivity|repeat constructor].
  - reflexivity.
  - cbn. lia.
  - vm_compute. tauto.
  - reflexivity.
  - exact E.
  - cbn [ld_c m_r m_c] in H1, H2. split; [exact H1|]. rewrite H2.
    vm_compute in Hp. injection Hp as <-. reflexivity.
Defined.

(** ** Undo, as many times as moves were committed *)

Lemma play_app es1 es2 st :
  play (es1 ++ es2) st = (play es1 ;;; play es2) st.
Proof.
  revert st. induction es1 as [|e es1 IH]; intros st.
  - reflexivity.
  - rewrite <- app_comm_cons, !play_cons. unfold bind.
    destruct (handle e st) as [a s1|s1]; [|reflexivity].
    rewrite IH. reflexivity.
Qed.

Lemma replicate_snoc {A} n (x : A) : replicate (S n) x = replicate n x ++ [x].
Proof. induction n as [|n IH]; [reflexivity|]. cbn. f_equal. exact IH. Qed.

(** After a run of clicks, as many presses of Undo as the history stack has
    grown by give back the session the run started from. *)
Lemma undo_rewinds cs : forall st u st',
  playable st -> play (clicks cs) st = Ok u st' ->
  (length (st_history st) <= length (st_history st'))%nat /\
  exists st'',
    play (replicate (length (st_history st') - length (st_history st)) Undo) st'
      = Ok tt st'' /\
    session st'' = session st /\ st_history st'' = st_history st /\
    grows st st'' /\ playable st''.
Proof.
  induction cs as [|[r c] rest IH]; intros st u st' Hp H; pose proof (proj1 Hp) as Hw.
  - cbn in H. run1 H. split; [lia|]. rewrite Nat.sub_diag.
    exists st. split; [reflexivity|]. split; [reflexivity|]. split; [reflexivity|].
    split; [apply grows_refl|exact Hp].
  - cbn [clicks map] in H. rewrite play_cons, handle_eq in H. cbn [fst snd] in H.
    apply bind_Ok in H as (? & s1 & H1 & H).
    pose proof (playable_click _ _ _ _ _ Hp H1) as Hp1.
    pose proof (proj1 Hp1) as Hw1.
    destruct (IH _ _ _ Hp1 H) as (Hlen & st2 & H2 & Es2 & Eh2 & Hg2 & Hp2).
    pose proof (proj1 Hp2) as Hw2.
    pose proof (proj1 Hw) as Hv.
    destruct (committed r c st) as [[s mv]|] eqn:Hc.
    + destruct (click_committed _ _ _ _ _ _ _ Hv Hc H1)
        as (snap & Eh & Hok & Hss & _ & _ & _ & _ & Hg).
      assert (Hlen1 : length (st_history s1) = S (length (st_history st)))
        by (rewrite Eh; reflexivity).
      split; [lia|].
      replace (length (st_history st') - length (st_history st))%nat
        with (S (length (st_history st') - length (st_history s1))) by lia.
      rewrite replicate_snoc, play_app, (bind_run _ _ _ _ _ H2).
      rewrite Eh in Eh2.
      destruct (undo_spec _ _ _ Hw2 Eh2) as ([] & st3 & H3 & Es3 & Eh3 & _ & _ & Hg3).
      { apply (playable_snap _ _ Hp2). rewrite Eh2. left. reflexivity. }
      exists st3. split.
      { rewrite play_cons, handle_eq, (bind_run _ _ _ _ _ H3). reflexivity. }
      split.
      { rewrite Es3. destruct (snap_ok_grows _ _ _ Hok Hg2) as [_ ->]. exact Hss. }
      split; [exact Eh3|].
      split.
      { apply (grows_trans st s1 st3); [exact Hv|exact Hg|].
        apply (grows_trans s1 st2 st3); [apply Hw1|exact Hg2|exact Hg3]. }
      eapply playable_undo; eauto.
    + destruct (click_not_committed _ _ _ _ _ Hv Hc H1) as (Es & Eh & _ & Hg).
      rewrite Eh in *. split; [exact Hlen|].
      exists st2. split; [exact H2|]. split; [rewrite Es2; exact Es|].
      split; [exact Eh2|]. split; [|exact Hp2].
      apply (grows_trans st s1 st2); [exact Hv|exact Hg|exact Hg2].
Qed.

(** X20.  Undo rewinds a game move by move: in every state of a game, after
    any further clicks, pressing Undo once for each move those clicks have
    committed runs to its end and gives back the board, the turn, the
    en-passant target and the capture bins as they were before those clicks,
    and the history stack as it was. *)
Theorem undo_rewinds_the_moves_committed es cs :
  exists st st' st'',
    play es started = Ok tt st /\
    play (clicks cs) st = Ok tt st' /\
    play (replicate (length (st_history st') - length (st_history st)) Undo) st'
      = Ok tt st'' /\
    session st'' = session st /\
    historySessions st'' = historySessions st.
Proof.
  destruct (play_runs es started playable_started) as (st & H & Hp).
  destruct (play_runs (clicks cs) st Hp) as (st' & H' & _).
  destruct (undo_rewinds cs st tt st' Hp H')
    as (_ & st'' & H'' & Es & Eh & Hg & _).
  exists st, st', st''. repeat (split; [assumption|]).
  apply (hist_ok_grows st st'' (wf_hist_ok _ (proj1 Hp)) Hg Eh).
Qed.

(** ** The move list *)

(** The game after 1. e4. *)
Definition e4Played : State :=
  Eval vm_compute in stateOf (play [Click 6 4; Click 4 4] started).

(** How the move list reads: item [i] is numbered [i + 1]; every item but the
    last holds White's move and Black's; the last holds both when White is to
    move and White's only when Black is. *)
Definition logShape (t : Color) (items : list LogItem) : Prop :=
  (forall i li, items !! i = Some li -> li_number li = Z.of_nat i + 1) /\
  (forall i li, items !! i = Some li -> (S i < length items)%nat ->
                length (li_texts li) = 2%nat) /\
  (forall li, last items = Some li ->
              length (li_texts li) = if bool_decide (t = White) then 2%nat else 1%nat).

(** The states in which the move list reads so, with the snapshots of the
    history stack. *)
Definition logged (st : State) : Prop :=
  logShape (st_turn st) (st_moves st) /\
  forall s, In s (st_history st) -> logShape (s_turn s) (s_movesHTML s).

Lemma logShape_nil t : logShape t [].
Proof.
  split; [|split]; intros; discriminate.
Qed.

Lemma opponent_White : opponent White = Black.
Proof. reflexivity. Qed.

Lemma opponent_not_White t : t <> White -> opponent t = White.
Proof. intros H. unfold opponent. rewrite bool_decide_eq_false_2 by exact H. reflexivity. Qed.

(** [logMove], then the turn passes. *)
Lemma logMove_shape piece cp from to meta st u st' :
  logShape (st_turn st) (st_moves st) ->
  logMove piece cp from to meta st = Ok u st' ->
  logShape (opponent (st_turn st)) (st_moves st').
Proof.
  intros (Hnum & Hfull & Hlast) H. unfold logMove in H. cbv zeta in H.
  apply bind_Ok in H as (w & s0 & G & H). apply gets_Ok in G as [-> ->].
  apply bind_Ok in H as (items & s0 & G & H). apply gets_Ok in G as [-> ->].
  destruct (bool_decide (st_turn st = White)) eqn:Ew.
  - apply bool_decide_eq_true in Ew. rewrite Ew in *. rewrite opponent_White.
    apply modify_Ok in H. subst st'. cbn [st_moves set_moves].
    split; [|split].
    + intros i li Hi. apply lookup_app_Some in Hi as [Hi|[Hge Hi]]; [apply Hnum, Hi|].
      apply list_lookup_singleton_Some in Hi as [Hi <-]. cbn. lia.
    + intros i li Hi Hlt. rewrite length_app in Hlt. cbn [length] in Hlt.
      apply lookup_app_Some in Hi as [Hi|[Hge Hi]].
      * destruct (decide (S i < length (st_moves st))%nat) as [Hlt'|Hnl];
          [apply (Hfull i li Hi Hlt')|].
        apply Hlast. rewrite last_lookup.
        replace (Init.Nat.pred (length (st_moves st))) with i
          by (apply lookup_lt_Some in Hi; lia).
        exact Hi.
      * apply list_lookup_singleton_Some in Hi as [Hi _]. lia.
    + intros li Hli. rewrite last_snoc in Hli. injection Hli as <-. reflexivity.
  - apply bool_decide_eq_false in Ew. rewrite (opponent_not_White _ Ew).
    destruct (last (st_moves st)) as [li0|] eqn:El; [|discriminate H].
    apply modify_Ok in H. subst st'. cbn [st_moves set_moves].
    pose proof (Hlast li0 eq_refl) as Hone.
    cbv iota in Hone.
    apply last_Some in El as (front & El).
    rewrite El in *. rewrite removelast_last.
    split; [|split].
    + intros i li Hi. apply lookup_app_Some in Hi as [Hi|[Hge Hi]].
      * apply Hnum. apply lookup_app_l_Some. exact Hi.
      * apply list_lookup_singleton_Some in Hi as [Hi <-]. cbn [li_number].
        apply Hnum. rewrite lookup_app_r by lia.
        replace (i - length front)%nat with 0%nat by lia. reflexivity.
    + intros i li Hi Hlt. rewrite length_app in Hlt. cbn [length] in Hlt.
      apply lookup_app_Some in Hi as [Hi|[Hge Hi]].
      * apply (Hfull i li); [apply lookup_app_l_Some; exact Hi|].
        rewrite length_app. cbn [length]. apply lookup_lt_Some in Hi. lia.
      * apply list_lookup_singleton_Some in Hi as [Hi _]. lia.
    + intros li Hli. rewrite last_snoc in Hli. injection Hli as <-.
      cbn [li_texts]. rewrite length_app, Hone. reflexivity.
Qed.

(** A committed [applyMove] and the move list. *)
Lemma applyMove_commit_shape mv st u st' :
  valid st -> logShape (st_turn st) (st_moves st) ->
  applyMove mv false st = Ok u st' ->
  st_turn st' = st_turn st /\ logShape (opponent (st_turn st)) (st_moves st').
Proof.
  intros Hv Hsh H.
  destruct (applyMove_effect _ _ _ _ _ Hv H) as ((_ & Hm & _) & _).
  split; [exact (mu_turn _ _ Hm)|].
  unfold applyMove in H. cbv zeta in H.
  apply bind_Ok in H as (piece & s & H0 & H). run1 H0.
  apply bind_Ok in H as (target & s & H0 & H). run1 H0.
  apply bind_Ok in H as (? & s1 & H1 & H).
  assert (E1 : st_turn s1 = st_turn st /\ st_moves s1 = st_moves st).
  { destruct (at_ (curBoard st) (fst (to mv)) (snd (to mv))) as [q|]; cbn [negb when] in H1.
    - apply recordCapture_mutates in H1 as (Hm1 & _ & _ & Em1).
      split; [exact (mu_turn _ _ Hm1)|exact Em1].
    - run1 H1. auto. }
  clear H1. destruct E1 as [Et1 Em1].
  apply bind_Ok in H as (? & s2 & H2 & H).
  assert (E2 : st_turn s2 = st_turn s1 /\ st_moves s2 = st_moves s1).
  { destruct (m_ep (meta mv)); cbn [negb andb when] in H2; [|run1 H2; auto].
    apply bind_Ok in H2 as (epPawn & s1' & G & R). apply gets_Ok in G as [-> ->].
    destruct (at_ (curBoard s1) (fst (from mv)) (snd (to mv))) as [q|]; [|run1 R; auto].
    apply recordCapture_mutates in R as (Hm2 & _ & _ & Em2).
    split; [exact (mu_turn _ _ Hm2)|exact Em2]. }
  clear H2. destruct E2 as [Et2 Em2].
  assert (Hw : forall r c v s u' s', writeBoard r c v s = Ok u' s' ->
            st_turn s' = st_turn s /\ st_moves s' = st_moves s).
  { intros r c v s0 u' s' Hwr. apply writeBoard_Ok in Hwr as [_ ->]. auto. }
  apply bind_Ok in H as (? & s3 & H3 & H).
  assert (E3 : st_turn s3 = st_turn s2 /\ st_moves s3 = st_moves s2).
  { destruct (m_ep (meta mv)); cbn [when] in H3; [eapply Hw; eauto|run1 H3; auto]. }
  clear H3. destruct E3 as [Et3 Em3].
  apply bind_Ok in H as (? & s4 & H4 & H). apply Hw in H4 as [Et4 Em4].
  apply bind_Ok in H as (? & s5 & H5 & H). apply Hw in H5 as [Et5 Em5].
  apply bind_Ok in H as (? & s6 & H6 & H).
  assert (E6 : st_turn s6 = st_turn s5 /\ st_moves s6 = st_moves s5).
  { destruct (m_castle (meta mv)) as [[|]|]; [| |run1 H6; auto].
    all: apply bind_Ok in H6 as (rook & t1 & T1 & H6);
         apply readBoard_Ok in T1 as (_ & _ & ->);
         apply bind_Ok in H6 as (? & t2 & T2 & H6);
         apply Hw in T2 as [A1 A2]; apply Hw in H6 as [B1 B2];
         split; congruence. }
  clear H6. destruct E6 as [Et6 Em6].
  apply bind_Ok in H as (landed & s7 & H7 & H).
  assert (E7 : s7 = s6).
  { destruct ((0 <=? snd (to mv)) && (snd (to mv) <? 8)).
    - apply readBoard_Ok in H7 as (_ & _ & ->). reflexivity.
    - run1 H7. reflexivity. }
  subst s7. clear H7.
  apply bind_Ok in H as (? & s8 & H8 & H).
  destruct landed as [q|]; [|discriminate H8].
  assert (E8 : st_turn s8 = st_turn s6 /\ st_moves s8 = st_moves s6).
  { destruct (bool_decide (ptype q = Pawn) && ((fst (to mv) =? 0) || (fst (to mv) =? 7)));
      cbn [when] in H8; [eapply Hw; eauto|run1 H8; auto]. }
  clear H8. destruct E8 as [Et8 Em8].
  destruct (at_ (curBoard st) (fst (from mv)) (snd (from mv))) as [p|]; [|discriminate H].
  apply bind_Ok in H as (? & s9 & H9 & H).
  assert (E9 : st_turn s9 = st_turn s8 /\ st_moves s9 = st_moves s8).
  { destruct (bool_decide (ptype p = Pawn) && m_double (meta mv)); run1 H9; auto. }
  clear H9. destruct E9 as [Et9 Em9].
  cbn [negb when] in H.
  apply bind_Ok in H as (? & s10 & H10 & H). unfold renderCaptured in H. run1 H.
  assert (Et : st_turn s9 = st_turn st) by congruence.
  assert (Em : st_moves s9 = st_moves st) by congruence.
  rewrite <- Et. eapply logMove_shape; [|exact H10]. rewrite Et, Em. exact Hsh.
Qed.

Lemma logged_click r c st u st' :
  valid st -> logged st -> onSquareClick r c st = Ok u st' -> logged st'.
Proof.
  intros Hv [Hsh Hh] H.
  destruct (committed r c st) as [[s mv]|] eqn:Hc.
  - pose proof (click_committed _ _ _ _ _ _ _ Hv Hc H)
      as (snap & Eh & _ & Hss & _ & _ & Et & _).
    destruct (click_committed_log _ _ _ _ _ _ _ Hv Hc H) as (_ & _ & Hhtml).
    assert (Hmoves : logShape (opponent (st_turn st)) (st_moves st')).
    { unfold onSquareClick in H. unfold committed, ownPiece in Hc.
      apply bind_Ok in H as (over & s0 & H0 & H). run1 H0.
      destruct (st_gameOver st); [discriminate|].
      apply bind_Ok in H as (cp & s0 & H0 & H). run1 H0.
      apply bind_Ok in H as (sel & s0 & H0 & H). run1 H0.
      apply bind_Ok in H as (t & s0 & H0 & H). run1 H0.
      cbv zeta in H.
      destruct (st_selected st) as [s'|]; [|discriminate].
      destruct (match at_ (curBoard st) r c with
                | Some q => bool_decide (pcolor q = st_turn st)
                | None => false
                end); [discriminate|].
      apply bind_Ok in H as (lg & s0 & H0 & H). run1 H0.
      destruct (find _ (st_legal st)) as [mv'|]; [|discriminate].
      apply bind_Ok in H as (snap' & s1 & Hsnap & H).
      apply bind_Ok in H as (? & s1' & H1 & H). run1 H1.
      apply bind_Ok in H as (? & s2 & Happ & H).
      apply bind_Ok in H as (? & s3 & H3 & H). run1 H3.
      apply bind_Ok in H as (? & s4 & H4 & H). run1 H4.
      apply bind_Ok in H as (? & s5 & H5 & H). run1 H5.
      destruct (snapshot_spec _ _ _ Hv Hsnap) as (_ & _ & _ & _ & _ & Hun1 & Hg1).
      pose proof (grows_valid _ _ Hv Hg1) as Hv1.
      set (s1' := set_history (snap' :: st_history s1) s1) in *.
      assert (Hv1' : valid s1') by exact Hv1.
      assert (Et1 : st_turn s1' = st_turn st)
        by exact (f_equal ss_turn (un_session _ _ Hun1)).
      assert (Em1 : st_moves s1' = st_moves st) by exact (un_moves _ _ Hun1).
      destruct (applyMove_commit_shape _ _ _ _ Hv1' ltac:(rewrite Et1, Em1; exact Hsh) Happ)
        as [Et2 Hsh2].
      destruct (applyMove_effect _ _ _ _ _ Hv1' Happ) as ((Hv2 & _) & _).
      set (s3 := set_legal [] (set_selected None (set_turn (opponent (st_turn s2)) s2))) in *.
      assert (Hv3 : valid s3) by exact Hv2.
      destruct (render_spec _ _ _ Hv3 H) as (_ & _ & _ & _ & Em & _).
      rewrite Em. change (st_moves s3) with (st_moves s2). rewrite <- Et1. exact Hsh2. }
    split; [rewrite Et; exact Hmoves|].
    intros s' Hs'. rewrite Eh in Hs'. destruct Hs' as [<-|Hs']; [|apply Hh, Hs'].
    rewrite (Hhtml _ _ Eh).
    replace (s_turn snap) with (st_turn st) by (symmetry; exact (f_equal ss_turn Hss)).
    exact Hsh.
  - destruct (click_not_committed _ _ _ _ _ Hv Hc H) as (Es & Eh & Em & _).
    split; [rewrite (f_equal ss_turn Es : st_turn st' = st_turn st), Em; exact Hsh|].
    rewrite Eh. exact Hh.
Qed.

Lemma logged_undo st u st' : wf st -> logged st -> undo st = Ok u st' -> logged st'.
Proof.
  intros Hw [Hsh Hh] H. destruct (st_history st) as [|s rest] eqn:Eh.
  - rewrite (undo_empty _ Eh) in H. injection H as _ <-. split; [exact Hsh|].
    rewrite Eh. intros s [].
  - pose proof (undo_moves _ _ _ _ _ (proj1 Hw) Eh H) as Em.
    destruct (undo_effect _ _ _ _ _ Hw Eh H) as (Es & Eh' & _).
    split.
    + rewrite Em. replace (st_turn st') with (s_turn s)
        by (symmetry; exact (f_equal ss_turn Es)).
      apply Hh. left. reflexivity.
    + intros s' Hs'. rewrite Eh' in Hs'. apply Hh. right. exact Hs'.
Qed.

Lemma logged_play es : forall st u st',
  wf st -> logged st -> play es st = Ok u st' -> logged st'.
Proof.
  induction es as [|e rest IH]; intros st u st' Hw Hl H.
  - rewrite play_nil in H. run1 H. exact Hl.
  - rewrite play_cons in H.
    apply bind_Ok in H as (? & s1 & H1 & H).
    assert (Hw1 : wf s1) by (apply (wf_play [e] st tt s1 Hw);
      rewrite play_cons, play_nil; unfold bind; rewrite H1; destruct x; reflexivity).
    apply (IH s1 u st' Hw1); [|exact H].
    rewrite handle_eq in H1. destruct e as [r c| |].
    + exact (logged_click _ _ _ _ _ (proj1 Hw) Hl H1).
    + exact (logged_undo _ _ _ Hw Hl H1).
    + destruct (newGame_spec _ _ _ (proj1 Hw) H1) as (_ & _ & _ & _ & _ & _ & _ & Eh & Em).
      split; [rewrite Em; apply logShape_nil|]. rewrite Eh. intros s [].
Qed.

(** X21.  In every state of a game the move list reads as a score sheet:
    its items are numbered 1, 2, 3, ...; every item before the last holds two
    moves, White's and Black's; and the last item holds two moves when White
    is to move and one, White's, when Black is to move. *)
Theorem move_list_reads_as_a_score_sheet es u st :
  play es started = Ok u st ->
  logShape (st_turn st) (st_moves st).
Proof.
  intros H.
  assert (Hl : logged started).
  { split; [apply logShape_nil|]. intros s Hs. vm_compute in Hs. destruct Hs. }
  apply (logged_play es started u st wf_started Hl H).
Qed.

Lemma move_list_reads_as_a_score_sheet_witness :
  play [Click 6 4; Click 4 4] started = Ok tt e4Played /\
  st_moves e4Played = [mkLogItem 1 [Plain Pawn false (4, 4) false]] /\
  logShape Black (st_moves e4Played).
Proof.
  assert (H : play [Click 6 4; Click 4 4] started = Ok tt e4Played)
    by (vm_compute; reflexivity).
  split; [exact H|]. split; [reflexivity|].
  exact (move_list_reads_as_a_score_sheet [Click 6 4; Click 4 4] tt e4Played H).
Defined.

(** ** Check *)

Lemma kingPos_unique board color r c king :
  at_ board r c = Some king -> ptype king = King -> pcolor king = color ->
  (forall r' c' q, at_ board r' c' = Some q -> ptype q = King -> pcolor q = color ->
                   (r', c') = (r, c)) ->
  kingPos board color = Some (r, c).
Proof.
  intros Hk Ht Hc Huniq. unfold kingPos.
  destruct (find _ squares) as [[r' c']|] eqn:Ef.
  - apply find_some in Ef as [Hin Hf]. cbn [fst snd] in Hf.
    destruct (getCell board r' c') as [q|] eqn:Hq; [|discriminate].
    apply andb_true_iff in Hf as [Hqt Hqc]. apply bool_decide_eq_true in Hqt, Hqc.
    assert (Hb : inBounds r' c' = true).
    { unfold squares in Hin. apply in_flat_map in Hin as (r0 & Hr0 & Hin).
      apply in_map_iff in Hin as (c0 & E & Hc0). injection E as <- <-.
      apply inBounds_iff. split; apply range8_bounds; assumption. }
    assert (Hat : at_ board r' c' = Some q) by (unfold at_; rewrite Hb; exact Hq).
    rewrite (Huniq r' c' q Hat Hqt Hqc). reflexivity.
  - exfalso. pose proof (at_Some_inBounds _ _ _ _ Hk) as Hb.
    pose proof (find_none _ _ Ef (r, c) (in_squares _ _ Hb)) as Hn.
    cbn [fst snd] in Hn. unfold at_ in Hk. rewrite Hb in Hk. rewrite Hk in Hn.
    rewrite (bool_decide_eq_true_2 _ Ht), (bool_decide_eq_true_2 _ Hc) in Hn.
    discriminate.
Qed.

(** X22.  With one king of a color on the board, [inCheck] for that color
    says whether some piece of the other color attacks the king's square. *)
Theorem inCheck_iff_the_king_is_attacked board lastDouble color r c king :
  at_ board r c = Some king -> ptype king = King -> pcolor king = color ->
  (forall r' c' q, at_ board r' c' = Some q -> ptype q = King -> pcolor q = color ->
                   (r', c') = (r, c)) ->
  inCheck board lastDouble color = attacksSquare board lastDouble (opponent color) r c.
Proof.
  intros Hk Ht Hc Huniq. unfold inCheck.
  rewrite (kingPos_unique _ _ _ _ _ Hk Ht Hc Huniq). reflexivity.
Qed.

Lemma inCheck_iff_the_king_is_attacked_witness :
  inCheck pawnCoverBoard None White = attacksSquare pawnCoverBoard None Black 7 4.
Proof.
  apply (inCheck_iff_the_king_is_attacked pawnCoverBoard None White 7 4
           (mkPiece King White false)); try reflexivity.
  intros r' c' q Hq Ht Hc.
  pose proof (at_Some_inBounds _ _ _ _ Hq) as Hb. apply inBounds_iff in Hb.
  assert (Hr : r' = 0 \/ r' = 1 \/ r' = 2 \/ r' = 3 \/ r' = 4 \/ r' = 5 \/ r' = 6 \/ r' = 7)
    by lia.
  assert (Hcc : c' = 0 \/ c' = 1 \/ c' = 2 \/ c' = 3 \/ c' = 4 \/ c' = 5 \/ c' = 6 \/ c' = 7)
    by lia.
  destruct Hr as [->|[->|[->|[->|[->|[->|[->| ->]]]]]]];
    destruct Hcc as [->|[->|[->|[->|[->|[->|[->| ->]]]]]]];
    vm_compute in Hq; try discriminate Hq;
    injection Hq as <-; try discriminate Ht; try discriminate Hc; reflexivity.
Defined.

(** ** Kings *)

(** A king of [color] stands on [(r, c)]. *)
Definition kingAt (g : Grid) (color : Color) (r c : Z) : Prop :=
  exists q, at_ g r c = Some q /\ ptype q = King /\ pcolor q = color.

(** The board holds one king of [color]. *)
Definition oneKing (g : Grid) (color : Color) : Prop :=
  exists r c, forall r' c', kingAt g color r' c' <-> (r', c') = (r, c).

(** [lastDouble], when set, names the square of a pawn on the row a double
    step ends on, with the square it has passed over empty behind it. *)
Definition ldPawn (g : Grid) (ld : option LastDouble) : Prop :=
  forall l, ld = Some l ->
    (exists q, at_ g (ld_r l) (ld_c l) = Some q /\ ptype q = Pawn) /\
    ((ld_r l = 4 /\ empty g 5 (ld_c l) = true) \/
     (ld_r l = 3 /\ empty g 2 (ld_c l) = true)).

(** A position of a game: White or Black to move, one king a side, and the
    side that has moved not in check. *)
Definition sound (x : Session) : Prop :=
  (ss_turn x = White \/ ss_turn x = Black) /\
  oneKing (ss_board x) White /\ oneKing (ss_board x) Black /\
  ldPawn (ss_board x) (ss_lastDouble x) /\
  inCheck (ss_board x) (ss_lastDouble x) (opponent (ss_turn x)) = false.

(** While a square is selected, it holds a piece of the side to move, and
    [legal] holds moves that pass the test of [genLegal]. *)
Definition legal_safe (st : State) : Prop :=
  forall s, st_selected st = Some s ->
    (exists p, at_ (curBoard st) (fst s) (snd s) = Some p /\ pcolor p = st_turn st) /\
    forall m, In m (st_legal st) ->
      safeAfter (curBoard st) (fst s) (snd s) (st_turn st) m = true.

Definition guarded (st : State) : Prop :=
  legal_safe st /\ sound (session st) /\
  forall x, In x (historySessions st) -> sound x.

Lemma canCastle_empty board lastDouble color side :
  canCastle board lastDouble color side = true ->
  empty board (homeRow color) (4 + kingStep side) = true /\
  empty board (homeRow color) (4 + 2 * kingStep side) = true.
Proof.
  unfold canCastle, homeRow. cbv zeta.
  destruct (at_ board _ _) as [rook|]; [|discriminate].
  destruct (at_ board _ 4) as [king|]; [|discriminate].
  destruct (_ || _); [discriminate|].
  destruct (forallb _ (colsUntil 8 _ _ _)) eqn:E; [|discriminate]. intros _.
  destruct side; cbn in E; repeat (apply andb_true_iff in E as [? E]); auto.
Qed.

(** A move onto a piece is one the generator pushes for attack detection
    too. *)
Lemma capture_is_attack g ld r c m q :
  homed g ->
  In m (genPseudo g ld r c false) -> at_ g (m_r m) (m_c m) = Some q ->
  exists m', In m' (pseudoMoves g ld r c true) /\ m_r m' = m_r m /\ m_c m' = m_c m.
Proof.
  intros Hh Hin Hq.
  assert (Hne : forall rr cc, empty g rr cc = true -> at_ g rr cc = None).
  { intros rr cc He. unfold at_. rewrite (empty_inBounds _ _ _ He).
    apply empty_getCell, He. }
  destruct (m_castle m) as [side|] eqn:Hcs.
  { destruct (castling_conditions _ _ _ _ _ _ _ Hin Hcs)
      as (p & Hp & Hcan & _ & Hk & Hmv & _ & ->).
    destruct (Hh r c p Hp Hk Hmv) as [-> ->].
    destruct (canCastle_empty _ _ _ _ Hcan) as [_ He].
    cbn [m_r m_c] in Hq. rewrite (Hne _ _ He) in Hq. discriminate. }
  assert (Hps : In m (pseudoMoves g ld r c false)).
  { unfold genPseudo in Hin. destruct (at_ g r c) as [p|]; [|destruct Hin].
    cbv zeta in Hin. apply in_app_iff in Hin as [Hin|Hin]; [exact Hin|].
    in_if Hin. in_if Hin.
    apply in_app_iff in Hin as [Hin|Hin]; in_if Hin;
      destruct Hin as [<-|[]]; discriminate. }
  clear Hin. unfold pseudoMoves in *.
  destruct (at_ g r c) as [p|]; [|destruct Hps]. cbv zeta in *.
  destruct (ptype p); try (exists m; auto; fail).
  unfold pawnMoves in *. cbv zeta in *. cbn [negb app].
  apply in_app_iff in Hps as [H|H]; [|exists m; auto].
  exfalso. cbn [negb] in H.
  destruct (empty g (r + (if bool_decide (pcolor p = White) then -1 else 1)) c)
    eqn:He; [|destruct H].
  destruct H as [<-|H].
  - cbn [m_r m_c plainMove] in Hq. rewrite (Hne _ _ He) in Hq. discriminate.
  - destruct (r =? _); [|destruct H]. cbn [andb] in H.
    destruct (empty g (r + 2 * _) c) eqn:He2; [|destruct H].
    destruct H as [<-|[]]. cbn [m_r m_c] in Hq. rewrite (Hne _ _ He2) in Hq. discriminate.
Qed.

Lemma opponent_involutive t : t = White \/ t = Black -> opponent (opponent t) = t.
Proof. intros [-> | ->]; reflexivity. Qed.

(** No move goes to the square of the king of a side that is not in check. *)
Lemma target_not_king g ld r c p m t :
  homed g -> (t = White \/ t = Black) ->
  oneKing g (opponent t) -> inCheck g ld (opponent t) = false ->
  at_ g r c = Some p -> pcolor p = t ->
  In m (genPseudo g ld r c false) ->
  ~ kingAt g (opponent t) (m_r m) (m_c m).
Proof.
  intros Hh Ht (kr & kc & HK) Hchk Hp Hc Hin (q & Hq & Hqk & Hqc).
  destruct (capture_is_attack _ _ _ _ _ _ Hh Hin Hq) as (m' & Hm' & Hr & Hcc).
  pose proof (attacksSquare_intro g ld t r c p m' (m_r m) (m_c m) Hp Hc Hm' Hr Hcc) as Ha.
  assert (HkP : kingPos g (opponent t) = Some (m_r m, m_c m)).
  { apply (kingPos_unique g (opponent t) (m_r m) (m_c m) q Hq Hqk Hqc).
    intros r' c' q' Hq' Hk' Hc'.
    assert (E1 : (r', c') = (kr, kc)) by (apply HK; exists q'; auto).
    assert (E2 : (m_r m, m_c m) = (kr, kc)) by (apply HK; exists q; auto).
    congruence. }
  unfold inCheck in Hchk. rewrite HkP in Hchk. cbn [fst snd] in Hchk.
  rewrite (opponent_involutive t Ht) in Hchk. congruence.
Qed.

(** A double step is a pawn's, from its start row over two empty squares. *)
Lemma double_push g ld r c p m :
  at_ g r c = Some p -> In m (genPseudo g ld r c false) -> m_double m = true ->
  let dir := if bool_decide (pcolor p = White) then -1 else 1 in
  ptype p = Pawn /\ r = (if bool_decide (pcolor p = White) then 6 else 1) /\
  m = mkMeta (r + 2 * dir) c false true false None /\
  empty g (r + dir) c = true /\ empty g (r + 2 * dir) c = true.
Proof.
  intros Hp Hin Hd. cbv zeta.
  assert (Hps : In m (pseudoMoves g ld r c false)).
  { unfold genPseudo in Hin. rewrite Hp in Hin.
    cbv zeta in Hin. apply in_app_iff in Hin as [Hin|Hin]; [exact Hin|].
    in_if Hin. in_if Hin.
    apply in_app_iff in Hin as [Hin|Hin]; in_if Hin;
      destruct Hin as [<-|[]]; discriminate. }
  clear Hin. unfold pseudoMoves in Hps. rewrite Hp in Hps. cbv zeta in Hps.
  assert (Hrays : forall dirs, In m (rays g (pcolor p) r c dirs) -> False).
  { intros dirs H. unfold rays in H. apply in_flat_map in H as (d & _ & H).
    apply ray_cap in H. destruct H as (_ & _ & _ & H). congruence. }
  assert (Hsteps : forall ds, In m (steps g (pcolor p) r c ds) -> False).
  { intros ds H. apply steps_cap in H. destruct H as (_ & _ & _ & H). congruence. }
  destruct (ptype p);
    try (exfalso; first [eapply Hrays; eassumption|eapply Hsteps; eassumption]);
    [|destruct Hps].
  unfold pawnMoves in Hps. cbv zeta in Hps. rewrite !in_app_iff in Hps.
  destruct Hps as [H|[H|H]].
  - cbn [negb] in H.
    destruct (empty g (r + (if bool_decide (pcolor p = White) then -1 else 1)) c)
      eqn:He; [|destruct H].
    destruct H as [<-|H]; [discriminate|].
    destruct (r =? _) eqn:Er; [|destruct H]. cbn [andb] in H.
    destruct (empty g (r + 2 * _) c) eqn:He2; [|destruct H].
    destruct H as [<-|[]]. apply Z.eqb_eq in Er. auto.
  - apply in_flat_map in H as (d & _ & H). cbv zeta in H.
    destruct (enemy g _ _ _); [|destruct H]. destruct H as [<-|[]]. discriminate.
  - destruct ld as [l|]; [|destruct H].
    destruct (_ && _); [|destruct H]. destruct H as [<-|[]]. discriminate.
Qed.

(** The cell holds no king. *)
Definition noKing (x : Cell) : Prop := forall q, x = Some q -> ptype q <> King.

Lemma at_Some_getCell g r c q : at_ g r c = Some q -> getCell g r c = Some q.
Proof. unfold at_. destruct (inBounds r c); [auto|discriminate]. Qed.

(** What a move the generator pushes does to the board, king by king: the
    square it leaves is emptied, the square it goes to (a square of the board
    that holds no piece of the mover's color) gets a piece of the mover's
    color that is a king exactly when the mover is, and no other square gains
    or loses a king. *)
Lemma move_cells g ld r c p m :
  grid8 g -> homed g -> ldPawn g ld ->
  at_ g r c = Some p -> In m (genPseudo g ld r c false) ->
  inBounds (m_r m) (m_c m) = true /\ (m_r m, m_c m) <> (r, c) /\
  ally g (m_r m) (m_c m) (pcolor p) = false /\
  getCell (boardAfter g (trial r c m)) r c = None /\
  (exists q, getCell (boardAfter g (trial r c m)) (m_r m) (m_c m) = Some q /\
             pcolor q = pcolor p /\ (ptype q = King <-> ptype p = King)) /\
  forall r' c', (r', c') <> (r, c) -> (r', c') <> (m_r m, m_c m) ->
    getCell (boardAfter g (trial r c m)) r' c' = getCell g r' c' \/
    (noKing (getCell (boardAfter g (trial r c m)) r' c') /\ noKing (getCell g r' c')).
Proof.
  intros Hg Hh Hld Hp Hin.
  destruct (m_castle m) as [side|] eqn:Hcs; [|destruct (m_ep m) eqn:Hep].
  - destruct (boardAfter_castle g ld r c m side Hg Hh Hin Hcs)
      as (king & rook & -> & Hr & Hk & Hkt & Hrook & Hrt & Em & E4 & Erf & Eto & Erk).
    rewrite Hp in Hk. injection Hk as <-.
    destruct (castling_conditions _ _ _ _ _ _ _ Hin Hcs) as (p' & Hp' & Hcan & _).
    rewrite Hp in Hp'. injection Hp' as <-.
    destruct (canCastle_empty _ _ _ _ Hcan) as [He1 He2]. rewrite <- Hr in He1, He2.
    rewrite Em in *. cbn [m_r m_c] in *. clear Em.
    split; [exact (empty_inBounds _ _ _ He2)|].
    split; [destruct side; cbn [kingStep]; intros E; injection E; lia|].
    split; [apply (empty_not_ally _ _ _ (pcolor p) He2)|].
    split; [exact E4|].
    split.
    { eexists. split; [exact Eto|]. split; [reflexivity|]. cbn [ptype]. tauto. }
    intros r' c' H1 H2.
    destruct (decide ((r', c') = (r, rookFile side))) as [E|N1].
    { injection E as -> ->. right. split; intros q Hq.
      - rewrite Erf in Hq. discriminate.
      - rewrite (at_Some_getCell _ _ _ _ Hrook) in Hq. injection Hq as <-. congruence. }
    destruct (decide ((r', c') = (r, 4 + kingStep side))) as [E|N2].
    { injection E as -> ->. right. split; intros q Hq.
      - rewrite Erk in Hq. injection Hq as <-. discriminate.
      - rewrite (empty_getCell _ _ _ He1) in Hq. discriminate. }
    left. apply boardAfter_other; cbn [trial from to meta fst snd m_ep m_castle];
      try assumption; [discriminate|].
    intros side' E. injection E as <-. split; assumption.
  - destruct (boardAfter_ep g ld r c m Hg Hin Hep)
      as (l & p' & El & Hp' & Ht & Hr & Habs & Em & Hto & E1 & E2 & E3).
    { intros l El. destruct (Hld l El) as [(q & Hq & _) _].
      apply at_Some_inBounds, inBounds_iff in Hq. lia. }
    rewrite Hp in Hp'. injection Hp' as <-.
    destruct (genPseudo_ep_move _ _ _ _ _ _ Hin Hep)
      as (l' & p' & El' & Hp' & _ & _ & _ & Hrow & _).
    rewrite El in El'. injection El' as <-.
    rewrite Hp in Hp'. injection Hp' as <-.
    destruct (Hld l El) as [(q & Hq & Hqt) Hrows].
    assert (He : empty g (m_r m) (m_c m) = true).
    { rewrite Em. cbn [m_r m_c].
      destruct (bool_decide (pcolor p = White)); destruct Hrows as [[A B]|[A B]];
        first [lia|rewrite <- Hr, A; exact B]. }
    split; [exact Hto|].
    split; [rewrite Em; cbn [m_r m_c]; intros E; injection E;
            destruct (bool_decide (pcolor p = White)); lia|].
    split; [apply (empty_not_ally _ _ _ (pcolor p) He)|].
    split; [exact E2|].
    split.
    { eexists. split; [exact E3|]. split; [reflexivity|]. cbn [ptype].
      rewrite Ht. split; discriminate. }
    intros r' c' H1 H2.
    destruct (decide ((r', c') = (r, ld_c l))) as [E|N1].
    { injection E as -> ->. right. split; intros q' Hq'.
      - rewrite E1 in Hq'. discriminate.
      - rewrite Hr in Hq. rewrite (at_Some_getCell _ _ _ _ Hq) in Hq'.
        injection Hq' as <-. congruence. }
    left. apply boardAfter_other; cbn [trial from to meta fst snd];
      try assumption.
    + intros _. rewrite Em. exact N1.
    + intros side E. congruence.
  - destruct (plain_target _ _ _ _ _ _ _ Hp Hin Hep Hcs) as (Hb & Hal & _).
    assert (Hne : (m_r m, m_c m) <> (r, c)).
    { intros E. injection E as E1 E2. rewrite E1, E2 in Hal.
      unfold ally in Hal. rewrite (at_Some_inBounds _ _ _ _ Hp) in Hal.
      rewrite (at_Some_getCell _ _ _ _ Hp) in Hal.
      rewrite bool_decide_eq_true_2 in Hal by reflexivity. discriminate. }
    pose proof (boardAfter_plain g (trial r c m) p Hg) as HP.
    cbn [trial from to meta fst snd] in HP.
    destruct (HP Hp Hb (not_eq_sym Hne) Hcs) as [Eto Efrom]. clear HP.
    split; [exact Hb|]. split; [exact Hne|]. split; [exact Hal|].
    split; [exact Efrom|].
    split.
    { eexists. split; [exact Eto|]. split; [reflexivity|]. unfold landing. cbn [ptype].
      destruct (bool_decide (ptype p = Pawn)) eqn:Epw; cbn [andb]; [|tauto].
      apply bool_decide_eq_true in Epw.
      destruct (_ || _); [|tauto]. rewrite Epw. split; discriminate. }
    intros r' c' H1 H2. left.
    apply boardAfter_other; cbn [trial from to meta fst snd]; try assumption.
    + intros E. congruence.
    + intros side E. congruence.
Qed.

Lemma empty_same g g' r c :
  getCell g' r c = getCell g r c -> empty g r c = true -> empty g' r c = true.
Proof. unfold empty. intros ->. auto. Qed.

Lemma ldPawn_after g ld r c p m :
  grid8 g -> at_ g r c = Some p -> In m (genPseudo g ld r c false) ->
  ldPawn (boardAfter g (trial r c m)) (lastDoubleAfter g (trial r c m)).
Proof.
  intros Hg Hp Hin l El. unfold lastDoubleAfter in El.
  cbn [trial from to meta fst snd] in El. rewrite Hp in El.
  destruct (bool_decide (ptype p = Pawn) && m_double m) eqn:E; [|discriminate].
  injection El as <-. cbn [ld_r ld_c].
  apply andb_true_iff in E as [_ Hd].
  destruct (double_push _ _ _ _ _ _ Hp Hin Hd) as (Ht & Hr & Em & He1 & He2).
  set (dir := if bool_decide (pcolor p = White) then -1 else 1) in *.
  assert (Hdir : dir = -1 \/ dir = 1) by (unfold dir; destruct (bool_decide _); auto).
  pose proof (empty_inBounds _ _ _ He2) as Hb2.
  pose proof (at_Some_inBounds _ _ _ _ Hp) as Hb0.
  pose proof (boardAfter_plain g (trial r c m) p Hg) as HP.
  cbn [trial from to meta fst snd] in HP.
  destruct (HP Hp) as [Eto _]; clear HP.
  { rewrite Em. exact Hb2. }
  { rewrite Em. cbn [m_r m_c]. intros E. injection E. lia. }
  { rewrite Em. reflexivity. }
  assert (Hmid : empty (boardAfter g (trial r c m)) (r + dir) c = true).
  { apply (empty_same g); [|exact He1].
    apply boardAfter_other; cbn [trial from to meta fst snd]; rewrite ?Em;
      cbn [m_r m_c m_ep m_castle].
    - intros E. injection E. lia.
    - intros E. injection E. lia.
    - discriminate.
    - discriminate. }
  split.
  - eexists. split; [rewrite at_getCell; [exact Eto|]|].
    + rewrite Em. exact Hb2.
    + unfold landing. cbn [ptype fst]. rewrite Em. cbn [m_r].
      replace ((r + 2 * dir =? 0) || (r + 2 * dir =? 7)) with false;
        [rewrite andb_false_r; exact Ht|].
      symmetry. apply orb_false_iff. unfold dir in *.
      destruct (bool_decide (pcolor p = White)); split; apply Z.eqb_neq; lia.
  - assert (Hmr : m_r m = r + 2 * dir) by (rewrite Em; reflexivity).
    assert (Hmc : m_c m = c) by (rewrite Em; reflexivity).
    rewrite Hmr, Hmc. unfold dir in *.
    destruct (bool_decide (pcolor p = White)); [left|right]; subst r;
      (split; [reflexivity|exact Hmid]).
Qed.

(** A move that passes the test of [genLegal], made by the side to move,
    leaves a position of a game. *)
Lemma sound_move g ld t bw bb bw' bb' r c p m :
  grid8 g -> homed g -> sound (mkSession g t ld bw bb) ->
  at_ g r c = Some p -> pcolor p = t ->
  In m (genPseudo g ld r c false) -> safeAfter g r c t m = true ->
  sound (mkSession (boardAfter g (trial r c m)) (opponent t)
                   (lastDoubleAfter g (trial r c m)) bw' bb').
Proof.
  intros Hg Hh (Ht & HW & HB & Hld & Hchk) Hp Hc Hin Hsafe.
  cbn [ss_turn ss_board ss_lastDouble] in *.
  destruct (move_cells _ _ _ _ _ _ Hg Hh Hld Hp Hin)
    as (Hb & Hne & Hal & Efrom & (q & Eto & Hqc & Hqk) & Hoth).
  assert (Hopp : oneKing g (opponent t)) by (destruct Ht as [-> | ->]; assumption).
  pose proof (target_not_king _ _ _ _ _ _ _ Hh Ht Hopp Hchk Hp Hc Hin) as Hnk.
  assert (Hnk' : forall col, ~ kingAt g col (m_r m) (m_c m) \/ (col <> t /\ col <> opponent t)).
  { intros col. destruct (decide (col = opponent t)) as [-> |N1]; [left; exact Hnk|].
    destruct (decide (col = t)) as [-> |N2]; [|right; auto].
    left. intros (k & Hk & _ & Hkc). unfold ally in Hal. rewrite Hb in Hal.
    rewrite (at_Some_getCell _ _ _ _ Hk) in Hal.
    rewrite bool_decide_eq_true_2 in Hal by congruence. discriminate. }
  assert (Hother : forall col r' c', (r', c') <> (r, c) -> (r', c') <> (m_r m, m_c m) ->
            (kingAt (boardAfter g (trial r c m)) col r' c' <-> kingAt g col r' c')).
  { intros col r' c' H1 H2. unfold kingAt, at_.
    destruct (Hoth r' c' H1 H2) as [-> |[Ha Hbf]]; [reflexivity|].
    destruct (inBounds r' c'); split; intros (k & Hk & Hkt & _);
      try discriminate; exfalso.
    - exact (Ha k Hk Hkt).
    - exact (Hbf k Hk Hkt). }
  assert (Hkings : forall col, col = White \/ col = Black -> oneKing g col ->
            oneKing (boardAfter g (trial r c m)) col).
  { intros col Hcol (kr & kc & HK).
    assert (Hfrom : forall k, ~ (at_ (boardAfter g (trial r c m)) r c = Some k)).
    { intros k Hk. apply at_Some_getCell in Hk. congruence. }
    destruct (Hnk' col) as [Hnt|[N1 N2]].
    2:{ exfalso. destruct Ht as [-> | ->], Hcol as [-> | ->];
        first [exact (N1 eq_refl)|exact (N2 eq_refl)]. }
    destruct (decide (ptype p = King /\ col = t)) as [[Hpk ->]|Hnot].
    - exists (m_r m), (m_c m). intros r' c'. split.
      + intros Hk'.
        destruct (decide ((r', c') = (m_r m, m_c m))) as [E|N2]; [exact E|exfalso].
        destruct (decide ((r', c') = (r, c))) as [E|N1].
        { injection E as -> ->. destruct Hk' as (k & Hk & _). exact (Hfrom k Hk). }
        apply (Hother _ _ _ N1 N2) in Hk'. apply HK in Hk'.
        assert (E : (r, c) = (kr, kc)) by (apply HK; exists p; auto).
        congruence.
      + intros E. injection E as -> ->. exists q.
        rewrite at_getCell by exact Hb. split; [exact Eto|].
        split; [apply Hqk, Hpk|congruence].
    - assert (N1 : (kr, kc) <> (r, c)).
      { intros E. destruct (proj2 (HK kr kc) eq_refl) as (k & Hk & Hkt & Hkc).
        injection E as -> ->. rewrite Hp in Hk. injection Hk as <-.
        apply Hnot. split; [exact Hkt|congruence]. }
      assert (N2 : (kr, kc) <> (m_r m, m_c m)).
      { intros E. apply Hnt. injection E as <- <-. apply HK. reflexivity. }
      exists kr, kc. intros r' c'. split.
      + intros Hk'.
        destruct (decide ((r', c') = (r, c))) as [E|N1'].
        { injection E as -> ->. destruct Hk' as (k & Hk & _). destruct (Hfrom k Hk). }
        destruct (decide ((r', c') = (m_r m, m_c m))) as [E|N2'].
        { injection E as -> ->. destruct Hk' as (k & Hk & Hkt & Hkc). exfalso.
          rewrite at_getCell in Hk by exact Hb. rewrite Eto in Hk. injection Hk as <-.
          apply Hnot. split; [apply Hqk, Hkt|congruence]. }
        apply (Hother _ _ _ N1' N2') in Hk'. apply HK, Hk'.
      + intros E. injection E as -> ->. apply (Hother _ _ _ N1 N2). apply HK. reflexivity. }
  unfold sound. cbn [ss_turn ss_board ss_lastDouble].
  split; [destruct Ht as [-> | ->]; cbn; auto|].
  split; [apply Hkings; auto|]. split; [apply Hkings; auto|].
  split; [eapply ldPawn_after; eauto|].
  rewrite (opponent_involutive t Ht).
  unfold safeAfter in Hsafe. apply negb_true_iff in Hsafe. exact Hsafe.
Qed.

(** *** The invariant along a game *)

Lemma legal_safe_unselected st : st_selected st = None -> legal_safe st.
Proof. intros E s Hs. congruence. Qed.

Lemma legal_safe_same st st' :
  session st' = session st -> st_selected st' = st_selected st ->
  st_legal st' = st_legal st -> legal_safe st -> legal_safe st'.
Proof.
  intros Es Esel Eleg Hl s Hs. unfold legal_safe in Hl.
  rewrite (session_board _ _ Es), (session_turn _ _ Es), Eleg.
  apply Hl. rewrite <- Esel. exact Hs.
Qed.

(** After the selection of a piece of the side to move. *)
Lemma select_safe r c st q u st' :
  valid st -> at_ (curBoard st) r c = Some q -> pcolor q = st_turn st ->
  (modify (set_selected (Some (r, c))) ;;;
   lg <- genLegal r c ;;
   modify (set_legal lg) ;;;
   render) st = Ok u st' ->
  legal_safe st'.
Proof.
  intros Hv Hq Hc H.
  apply bind_Ok in H as (? & s1 & H1 & H). run1 H1.
  apply bind_Ok in H as (lg & s2 & H2 & H).
  apply bind_Ok in H as (? & s3 & H3 & H). run1 H3.
  assert (Hv1 : valid (set_selected (Some (r, c)) st)) by exact Hv.
  destruct (genLegal_spec _ _ _ _ _ Hv1 H2) as (Hun & Hg & Elg & _).
  pose proof (unchanged_board _ _ Hun) as Ecur.
  pose proof (un_selected _ _ Hun) as Esel.
  pose proof (session_turn _ _ (un_session _ _ Hun)) as Et.
  change (curBoard (set_selected (Some (r, c)) st)) with (curBoard st) in *.
  change (st_lastDouble (set_selected (Some (r, c)) st)) with (st_lastDouble st) in *.
  change (st_turn (set_selected (Some (r, c)) st)) with (st_turn st) in *.
  change (st_selected (set_selected (Some (r, c)) st)) with (Some (r, c)) in Esel.
  assert (Hv2 : valid (set_legal lg s2)) by exact (grows_valid _ _ Hv1 Hg).
  destruct (render_spec _ _ _ Hv2 H) as (Es & Esel' & Eleg & _).
  apply (legal_safe_same _ _ Es Esel' Eleg).
  intros s Hs. change (st_selected (set_legal lg s2)) with (st_selected s2) in Hs.
  rewrite Esel in Hs. injection Hs as <-. cbn [fst snd].
  change (st_legal (set_legal lg s2)) with lg.
  change (curBoard (set_legal lg s2)) with (curBoard s2).
  change (st_turn (set_legal lg s2)) with (st_turn s2).
  rewrite Ecur, Et. split; [exists q; auto|].
  intros m Hm. rewrite Elg, Hq in Hm.
  apply filter_In in Hm as [_ Hm]. rewrite <- Hc. exact Hm.
Qed.

Lemma click_not_committed_safe r c st u st' :
  valid st -> legal_safe st -> committed r c st = None ->
  onSquareClick r c st = Ok u st' -> legal_safe st'.
Proof.
  intros Hv Hl Hc H. unfold onSquareClick in H. unfold committed, ownPiece in Hc.
  apply bind_Ok in H as (over & s0 & H0 & H). run1 H0.
  destruct (st_gameOver st).
  { run1 H. exact Hl. }
  apply bind_Ok in H as (cp & s0 & H0 & H). run1 H0.
  apply bind_Ok in H as (sel & s0 & H0 & H). run1 H0.
  apply bind_Ok in H as (t & s0 & H0 & H). run1 H0.
  cbv zeta in H.
  assert (Hclear : forall st1,
            (modify (set_selected None) ;;; modify (set_legal []) ;;; render) st = Ok u st1 ->
            legal_safe st1).
  { intros st1 H'.
    apply bind_Ok in H' as (? & s1 & H1 & H'). run1 H1.
    apply bind_Ok in H' as (? & s2 & H2 & H'). run1 H2.
    assert (Hv2 : valid (set_legal [] (set_selected None st))) by exact Hv.
    destruct (render_spec _ _ _ Hv2 H') as (_ & Esel & _).
    apply legal_safe_unselected. exact Esel. }
  destruct (at_ (curBoard st) r c) as [q|] eqn:Hq.
  - destruct (bool_decide (pcolor q = st_turn st)) eqn:Eo.
    + apply bool_decide_eq_true in Eo.
      destruct (st_selected st); eapply select_safe; eauto.
    + destruct (st_selected st) as [s|] eqn:Es; [|run1 H; exact Hl].
      apply bind_Ok in H as (lg & s0 & H0 & H). run1 H0.
      destruct (find _ (st_legal st)) as [mv|]; [discriminate|].
      apply Hclear, H.
  - destruct (st_selected st) as [s|] eqn:Es; [|run1 H; exact Hl].
    apply bind_Ok in H as (lg & s0 & H0 & H). run1 H0.
    destruct (find _ (st_legal st)) as [mv|]; [discriminate|].
    apply Hclear, H.
Qed.

Lemma committed_selected r c st s mv :
  committed r c st = Some (s, mv) -> st_selected st = Some s /\ In mv (st_legal st).
Proof.
  unfold committed. intros Hc.
  destruct (st_gameOver st); [discriminate|].
  destruct (st_selected st) as [s'|] eqn:Es; [|discriminate].
  destruct (ownPiece st r c); [discriminate|].
  destruct (find _ (st_legal st)) as [mv'|] eqn:Hf; [|discriminate].
  injection Hc as -> ->. apply find_some in Hf as [Hin _]. auto.
Qed.

Lemma sound_same x y :
  ss_board y = ss_board x -> ss_turn y = ss_turn x -> ss_lastDouble y = ss_lastDouble x ->
  sound x -> sound y.
Proof. unfold sound. intros -> -> ->. auto. Qed.

Lemma guarded_click r c st u st' :
  playable st -> guarded st -> onSquareClick r c st = Ok u st' -> guarded st'.
Proof.
  intros (Hw & Hp & Hl & _) (Hs & Hx & Hh) H.
  pose proof (proj1 Hw) as Hv.
  destruct (committed r c st) as [[s mv]|] eqn:Hc.
  - destruct (click_committed _ _ _ _ _ _ _ Hv Hc H)
      as (snap & Eh & Hok & Hss & Ecur & Eld & Et & _ & Hg).
    destruct (click_committed_log _ _ _ _ _ _ _ Hv Hc H) as (Esel & _).
    destruct (committed_pseudo _ _ _ _ _ Hl Hc) as [Etr Hin].
    destruct (committed_selected _ _ _ _ _ Hc) as [Es Hmv].
    destruct (Hs s Es) as [(p & Hpc & Hpt) Hsafe].
    split; [apply legal_safe_unselected, Esel|]. split.
    + rewrite Etr in Ecur, Eld.
      assert (Hx' : sound (mkSession (curBoard st) (st_turn st) (st_lastDouble st) [] []))
        by (apply (sound_same (session st)); auto).
      pose proof (sound_move _ _ _ _ _ [] [] _ _ _ _ (proj1 (proj1 (proj2 Hw)))
                    (proj1 Hp) Hx' Hpc Hpt Hin (Hsafe mv Hmv)) as Hx''.
      refine (sound_same _ (session st') _ _ _ Hx''); [exact Ecur|exact Et|exact Eld].
    + unfold historySessions. rewrite Eh. cbn [map]. intros x [<-|Hin'].
      * rewrite Hss. exact Hx.
      * apply in_map_iff in Hin' as (s0 & <- & Hs0).
        destruct (snap_ok_grows _ _ _ (wf_hist_ok _ Hw s0 Hs0) Hg) as [_ ->].
        apply Hh. unfold historySessions. apply in_map, Hs0.
  - destruct (click_not_committed _ _ _ _ _ Hv Hc H) as (Es & Eh & _ & Hg).
    split; [exact (click_not_committed_safe _ _ _ _ _ Hv Hs Hc H)|].
    split; [rewrite Es; exact Hx|].
    destruct (hist_ok_grows st st' (wf_hist_ok _ Hw) Hg Eh) as [_ ->]. exact Hh.
Qed.

Lemma guarded_undo st u st' : playable st -> guarded st -> undo st = Ok u st' -> guarded st'.
Proof.
  intros (Hw & _) (Hs & Hx & Hh) H.
  destruct (st_history st) as [|s rest] eqn:Eh.
  - rewrite (undo_empty _ Eh) in H. injection H as _ <-. exact (conj Hs (conj Hx Hh)).
  - destruct (undo_effect _ _ _ _ _ Hw Eh H) as (Es & Eh' & Esel & _ & Hg).
    split; [apply legal_safe_unselected, Esel|]. split.
    + rewrite Es. apply Hh. unfold historySessions. rewrite Eh. left. reflexivity.
    + unfold historySessions. rewrite Eh'. intros x Hin.
      apply in_map_iff in Hin as (s0 & <- & Hs0).
      assert (Hin0 : In s0 (st_history st)) by (rewrite Eh; right; exact Hs0).
      destruct (snap_ok_grows _ _ _ (wf_hist_ok _ Hw s0 Hin0) Hg) as [_ ->].
      apply Hh. unfold historySessions. apply in_map, Hin0.
Qed.

(** The cells of the board, square by square. *)
Lemma by_squares (P : Z -> Z -> Prop) :
  Forall (fun sq => P (fst sq) (snd sq)) squares ->
  forall r c, inBounds r c = true -> P r c.
Proof.
  intros HF r c Hb. rewrite Forall_forall in HF.
  apply (HF (r, c)). apply list_elem_of_In, in_squares, Hb.
Qed.

Lemma sound_started : sound (session started).
Proof.
  assert (HK : forall col kr kc,
            (exists k, at_ (curBoard started) kr kc = Some k /\ ptype k = King /\ pcolor k = col) ->
            Forall (fun sq => kingAt (curBoard started) col (fst sq) (snd sq) ->
                              (fst sq, snd sq) = (kr, kc)) squares ->
            oneKing (curBoard started) col).
  { intros col kr kc Hk HF. exists kr, kc. intros r' c'. split.
    - intros Hk'. pose proof Hk' as (k & Hq & _).
      exact (by_squares (fun a b => kingAt (curBoard started) col a b -> (a, b) = (kr, kc))
               HF r' c' (at_Some_inBounds _ _ _ _ Hq) Hk').
    - intros E. injection E as -> ->. exact Hk. }
  unfold sound. cbn [session ss_turn ss_board ss_lastDouble].
  split; [left; reflexivity|].
  split; [|split; [|split; [intros l E; discriminate E|vm_compute; reflexivity]]].
  - apply (HK White 7 4); [eexists; repeat split; reflexivity|].
    unfold squares. cbn [flat_map range8 map app].
    repeat constructor; cbn [fst snd]; intros (k & Hq & Hk & Hc);
      vm_compute in Hq; try discriminate Hq; injection Hq as <-;
      try discriminate Hk; try discriminate Hc; reflexivity.
  - apply (HK Black 0 4); [eexists; repeat split; reflexivity|].
    unfold squares. cbn [flat_map range8 map app].
    repeat constructor; cbn [fst snd]; intros (k & Hq & Hk & Hc);
      vm_compute in Hq; try discriminate Hq; injection Hq as <-;
      try discriminate Hk; try discriminate Hc; reflexivity.
Qed.

Lemma guarded_started : guarded started.
Proof.
  split; [apply legal_safe_unselected; reflexivity|].
  split; [apply sound_started|]. intros x Hx. vm_compute in Hx. destruct Hx.
Qed.

Lemma guarded_newGame st u st' : valid st -> newGame st = Ok u st' -> guarded st'.
Proof.
  intros Hv H.
  destruct (newGame_spec _ _ _ Hv H) as (Eb & Et & Eld & _ & _ & Esel & _ & Eh & _).
  split; [apply legal_safe_unselected, Esel|]. split.
  - apply (sound_same (session started)); [exact Eb|exact Et|exact Eld|apply sound_started].
  - unfold historySessions. rewrite Eh. intros x [].
Qed.

Lemma guarded_play es : forall st u st',
  playable st -> guarded st -> play es st = Ok u st' -> guarded st'.
Proof.
  induction es as [|e rest IH]; intros st u st' Hp Hg H.
  - rewrite play_nil in H. run1 H. exact Hg.
  - rewrite play_cons in H.
    apply bind_Ok in H as (? & s1 & H1 & H).
    rewrite handle_eq in H1. destruct e as [r c| |].
    + apply (IH s1 u st'); [exact (playable_click _ _ _ _ _ Hp H1)| |exact H].
      exact (guarded_click _ _ _ _ _ Hp Hg H1).
    + apply (IH s1 u st'); [exact (playable_undo _ _ _ Hp H1)| |exact H].
      exact (guarded_undo _ _ _ Hp Hg H1).
    + apply (IH s1 u st');
        [exact (playable_newGame _ _ _ (proj1 (proj1 Hp)) H1)| |exact H].
      exact (guarded_newGame _ _ _ (proj1 (proj1 Hp)) H1).
Qed.

(** X23.  No king is ever taken: in every state of a game the board holds
    one white king and one black king, and the side that is not to move (the
    one that has just moved) is not in check. *)
Theorem kings_are_never_taken es u st :
  play es started = Ok u st ->
  oneKing (curBoard st) White /\ oneKing (curBoard st) Black /\
  inCheck (curBoard st) (st_lastDouble st) (opponent (st_turn st)) = false.
Proof.
  intros H.
  destruct (guarded_play es started u st playable_started guarded_started H)
    as (_ & (_ & HW & HB & _ & Hc) & _).
  auto.
Qed.

Lemma kings_are_never_taken_witness :
  oneKing (curBoard e4Played) White /\ oneKing (curBoard e4Played) Black /\
  inCheck (curBoard e4Played) (st_lastDouble e4Played) White = false.
Proof.
  apply (kings_are_never_taken [Click 6 4; Click 4 4] tt e4Played).
  vm_compute. reflexivity.
Defined.

(** ** The game-over flag *)

(** [gameOver] says that the side to move has no legal move. *)
Definition flag_ok (st : State) : Prop :=
  st_gameOver st = negb (hasMove (curBoard st) (st_lastDouble st) (st_turn st)).

Lemma render_flag st u st' : valid st -> render st = Ok u st' -> flag_ok st'.
Proof.
  intros Hv H. unfold flag_ok. rewrite (render_gameOver _ _ _ Hv H).
  destruct (render_spec _ _ _ Hv H) as (Es & _).
  rewrite (session_board _ _ Es), (session_lastDouble _ _ Es), (session_turn _ _ Es).
  reflexivity.
Qed.

Lemma flag_click r c st u st' :
  valid st -> flag_ok st -> onSquareClick r c st = Ok u st' -> flag_ok st'.
Proof.
  intros Hv Hf H. unfold onSquareClick in H.
  apply bind_Ok in H as (over & s0 & H0 & H). run1 H0.
  destruct (st_gameOver st) eqn:Eo.
  { run1 H. exact Hf. }
  apply bind_Ok in H as (cp & s0 & H0 & H). run1 H0.
  apply bind_Ok in H as (sel & s0 & H0 & H). run1 H0.
  apply bind_Ok in H as (t & s0 & H0 & H). run1 H0.
  cbv zeta in H.
  assert (Hsel : forall st1,
            (modify (set_selected (Some (r, c))) ;;;
             lg <- genLegal r c ;;
             modify (set_legal lg) ;;;
             render) st = Ok u st1 -> flag_ok st1).
  { intros st1 H'.
    apply bind_Ok in H' as (? & s1 & H1 & H'). run1 H1.
    apply bind_Ok in H' as (lg & s2 & H2 & H').
    apply bind_Ok in H' as (? & s3 & H3 & H'). run1 H3.
    assert (Hv1 : valid (set_selected (Some (r, c)) st)) by exact Hv.
    destruct (genLegal_spec _ _ _ _ _ Hv1 H2) as (_ & Hg & _).
    assert (Hv2 : valid (set_legal lg s2)) by exact (grows_valid _ _ Hv1 Hg).
    exact (render_flag _ _ _ Hv2 H'). }
  destruct (match at_ (curBoard st) r c with
            | Some q => bool_decide (pcolor q = st_turn st)
            | None => false
            end).
  { destruct (st_selected st); apply Hsel, H. }
  destruct (st_selected st) as [s|]; [|run1 H; exact Hf].
  apply bind_Ok in H as (lg & s0 & H0 & H). run1 H0.
  destruct (find _ (st_legal st)) as [mv|].
  - apply bind_Ok in H as (snap & s1 & Hsnap & H).
    apply bind_Ok in H as (? & s1' & H1 & H). run1 H1.
    apply bind_Ok in H as (? & s2 & Happ & H).
    apply bind_Ok in H as (? & s3 & H3 & H). run1 H3.
    apply bind_Ok in H as (? & s4 & H4 & H). run1 H4.
    apply bind_Ok in H as (? & s5 & H5 & H). run1 H5.
    destruct (snapshot_spec _ _ _ Hv Hsnap) as (_ & _ & _ & _ & _ & _ & Hg1).
    assert (Hv1 : valid (set_history (snap :: st_history s1) s1))
      by exact (grows_valid _ _ Hv Hg1).
    destruct (applyMove_effect _ _ _ _ _ Hv1 Happ) as ((Hv2 & _) & _).
    refine (render_flag _ _ _ _ H). exact Hv2.
  - apply bind_Ok in H as (? & s1 & H1 & H). run1 H1.
    apply bind_Ok in H as (? & s2 & H2 & H). run1 H2.
    refine (render_flag _ _ _ _ H). exact Hv.
Qed.

Lemma flag_undo st u st' : wf st -> flag_ok st -> undo st = Ok u st' -> flag_ok st'.
Proof.
  intros (Hv & _ & Hh) Hf H.
  destruct (st_history st) as [|s rest] eqn:Eh.
  - rewrite (undo_empty _ Eh) in H. injection H as _ <-. exact Hf.
  - destruct (Hh s) as [Hok _]; [left; reflexivity|].
    unfold undo in H.
    apply bind_Ok in H as (h & s0 & H0 & H). run1 H0. rewrite Eh in H.
    apply bind_Ok in H as (? & s1 & H1 & H). run1 H1.
    apply bind_Ok in H as (? & s2 & H2 & H).
    assert (Hv0 : valid (set_history rest st)) by exact Hv.
    assert (Hok0 : snap_ok (set_history rest st) s) by exact Hok.
    destruct (restore_spec _ _ _ _ Hv0 Hok0 H2) as (_ & _ & _ & _ & _ & _ & Hg).
    pose proof (grows_valid _ _ Hv0 Hg) as Hv2.
    apply bind_Ok in H as (? & s3 & H3 & H). run1 H3.
    apply bind_Ok in H as (? & s4 & H4 & H). run1 H4.
    apply bind_Ok in H as (? & s5 & H5 & H). run1 H5.
    unfold renderCaptured in H. apply bind_Ok in H as (? & s6 & H6 & H). run1 H6.
    refine (render_flag _ _ _ _ H). exact Hv2.
Qed.

Lemma flag_newGame st u st' : valid st -> newGame st = Ok u st' -> flag_ok st'.
Proof.
  intros Hv H. rewrite newGame_eq in H.
  apply bind_Ok in H as (? & s1 & H1 & H).
  destruct (loadFEN_initial _ _ _ Hv H1) as (Hv1 & _).
  repeat (apply bind_Ok in H as (? & ? & H0 & H); run1 H0).
  unfold renderCaptured in H. apply bind_Ok in H as (? & ? & H0 & H). run1 H0.
  refine (render_flag _ _ _ _ H). exact Hv1.
Qed.

Lemma flag_play es : forall st u st',
  wf st -> flag_ok st -> play es st = Ok u st' -> flag_ok st'.
Proof.
  induction es as [|e rest IH]; intros st u st' Hw Hf H.
  - rewrite play_nil in H. run1 H. exact Hf.
  - rewrite play_cons in H.
    apply bind_Ok in H as (? & s1 & H1 & H).
    rewrite handle_eq in H1. destruct e as [r c| |].
    + apply (IH s1 u st'); [exact (wf_click _ _ _ _ _ Hw H1)| |exact H].
      exact (flag_click _ _ _ _ _ (proj1 Hw) Hf H1).
    + apply (IH s1 u st'); [exact (wf_undo _ _ _ Hw H1)| |exact H].
      exact (flag_undo _ _ _ Hw Hf H1).
    + apply (IH s1 u st'); [exact (wf_newGame _ _ _ (proj1 Hw) H1)| |exact H].
      exact (flag_newGame _ _ _ (proj1 Hw) H1).
Qed.

(** X24.  In every state of a game, [gameOver] is set exactly when the side
    to move has no legal move: clicks are ignored from then on (checkmate or
    stalemate), and never while a legal move is left. *)
Theorem gameOver_iff_no_legal_move es u st :
  play es started = Ok u st ->
  st_gameOver st = negb (hasMove (curBoard st) (st_lastDouble st) (st_turn st)).
Proof.
  intros H. apply (flag_play es started u st wf_started); [|exact H].
  vm_compute. reflexivity.
Qed.

Lemma gameOver_iff_no_legal_move_witness :
  st_gameOver (stateOf (play foolsMate started)) = true /\
  hasMove (curBoard (stateOf (play foolsMate started)))
          (st_lastDouble (stateOf (play foolsMate started))) White = false.
Proof.
  destruct (play foolsMate started) as [[] st|st] eqn:E;
    [|vm_compute in E; discriminate E].
  cbn [stateOf].
  pose proof (gameOver_iff_no_legal_move foolsMate tt st E) as H.
  assert (Et : st_turn st = White) by (vm_compute in E; injection E as <-; reflexivity).
  assert (Eo : st_gameOver st = true) by (vm_compute in E; injection E as <-; reflexivity).
  rewrite Et, Eo in H. split; [exact Eo|].
  destruct (hasMove _ _ _); [discriminate H|reflexivity].
Defined.

(** ** What a click does *)

(** X25.  While the game is on, a click on a piece of the side to move
    selects it, whatever was selected before: [selected] is the square
    clicked, [legal] holds the moves [genLegal] finds for it on the board as
    it is, and no move is made (the session and the history stack are as they
    were). *)
Theorem click_on_own_piece_selects_it r c st u st' :
  valid st -> st_gameOver st = false -> ownPiece st r c = true ->
  onSquareClick r c st = Ok u st' ->
  st_selected st' = Some (r, c) /\
  st_legal st' = legalMoves (curBoard st) (st_lastDouble st) r c /\
  session st' = session st /\ st_history st' = st_history st /\
  st_moves st' = st_moves st.
Proof.
  intros Hv Hgo Hown H. unfold onSquareClick in H. unfold ownPiece in Hown.
  apply bind_Ok in H as (over & s0 & H0 & H). run1 H0. rewrite Hgo in H.
  apply bind_Ok in H as (cp & s0 & H0 & H). run1 H0.
  apply bind_Ok in H as (sel & s0 & H0 & H). run1 H0.
  apply bind_Ok in H as (t & s0 & H0 & H). run1 H0.
  cbv zeta in H. rewrite Hown in H.
  assert (H' : (modify (set_selected (Some (r, c))) ;;;
                lg <- genLegal r c ;;
                modify (set_legal lg) ;;;
                render) st = Ok u st')
    by (destruct (st_selected st); exact H).
  clear H.
  destruct (select_spec _ _ _ _ _ Hv H') as (Es & Eh & Em & _).
  apply bind_Ok in H' as (? & s1 & H1 & H). run1 H1.
  apply bind_Ok in H as (lg & s2 & H2 & H).
  apply bind_Ok in H as (? & s3 & H3 & H). run1 H3.
  assert (Hv1 : valid (set_selected (Some (r, c)) st)) by exact Hv.
  destruct (genLegal_spec _ _ _ _ _ Hv1 H2) as (Hun & Hg & _ & _).
  pose proof (genLegal_legalMoves _ _ _ _ _ Hv1 H2) as Elg.
  assert (Hv2 : valid (set_legal lg s2)) by exact (grows_valid _ _ Hv1 Hg).
  destruct (render_spec _ _ _ Hv2 H) as (_ & Esel & Eleg & _).
  split; [rewrite Esel; exact (un_selected _ _ Hun)|].
  split; [rewrite Eleg; exact Elg|]. auto.
Qed.

Lemma click_on_own_piece_selects_it_witness :
  st_selected (stateOf (onSquareClick 6 3 e2Selected)) = Some (6, 3) /\
  st_legal (stateOf (onSquareClick 6 3 e2Selected))
  = [plainMove 5 3 false; mkMeta 4 3 false true false None].
Proof.
  destruct (onSquareClick 6 3 e2Selected) as [[] st'|st'] eqn:E;
    [|vm_compute in E; discriminate E].
  cbn [stateOf].
  destruct (click_on_own_piece_selects_it 6 3 e2Selected tt st' valid_e2Selected
              eq_refl eq_refl E) as (-> & -> & _).
  split; reflexivity.
Defined.

(** X26.  A click on a target of [legal], while a piece is selected and the
    game is on, plays the move: the board and [lastDouble] are what
    [applyMove] makes of them, the turn passes to the other side, the
    selection is cleared, and the history stack gains one snapshot, which
    holds the session as it was before the move. *)
Theorem click_on_legal_target_plays_the_move r c st s mv u st' :
  valid st -> committed r c st = Some (s, mv) ->
  onSquareClick r c st = Ok u st' ->
  curBoard st' = boardAfter (curBoard st) (mkMove s (r, c) mv) /\
  st_lastDouble st' = lastDoubleAfter (curBoard st) (mkMove s (r, c) mv) /\
  st_turn st' = opponent (st_turn st) /\
  st_selected st' = None /\
  exists snap, st_history st' = snap :: st_history st /\
               snapSession st' snap = session st.
Proof.
  intros Hv Hc H.
  destruct (click_committed _ _ _ _ _ _ _ Hv Hc H)
    as (snap & Eh & _ & Hss & Ecur & Eld & Et & _ & _).
  destruct (click_committed_log _ _ _ _ _ _ _ Hv Hc H) as (Esel & _).
  repeat (split; [assumption|]). exists snap. auto.
Qed.

Lemma click_on_legal_target_plays_the_move_witness :
  st_turn (stateOf (onSquareClick 4 4 e2Selected)) = Black /\
  at_ (curBoard (stateOf (onSquareClick 4 4 e2Selected))) 4 4
  = Some (mkPiece Pawn White true).
Proof.
  destruct (onSquareClick 4 4 e2Selected) as [[] st'|st'] eqn:E;
    [|vm_compute in E; discriminate E].
  cbn [stateOf].
  destruct (click_on_legal_target_plays_the_move 4 4 e2Selected (6, 4)
              (mkMeta 4 4 false true false None) tt st' valid_e2Selected eq_refl E)
    as (-> & _ & -> & _).
  split; reflexivity.
Defined.

(** ** The names of the squares *)

(** A JavaScript string, by its UTF-16 code units.
    [String.fromCharCode(n)] is the one code unit [n mod 2^16]. *)
Definition fromCharCode (n : Z) : list Z := [n mod 65536].

Fixpoint digitCodes (u : Decimal.uint) : list Z :=
  match u with
  | Decimal.Nil => []
  | Decimal.D0 u => 48 :: digitCodes u
  | Decimal.D1 u => 49 :: digitCodes u
  | Decimal.D2 u => 50 :: digitCodes u
  | Decimal.D3 u => 51 :: digitCodes u
  | Decimal.D4 u => 52 :: digitCodes u
  | Decimal.D5 u => 53 :: digitCodes u
  | Decimal.D6 u => 54 :: digitCodes u
  | Decimal.D7 u => 55 :: digitCodes u
  | Decimal.D8 u => 56 :: digitCodes u
  | Decimal.D9 u => 57 :: digitCodes u
  end.

(** The string [+] makes of an integer that prints in full (below 10^21 in
    size, and a number JavaScript holds exactly): its decimal digits, after a
    minus sign (code unit 45) if it is negative. *)
Definition numberToString (n : Z) : list Z :=
  match Z.to_int n with
  | Decimal.Pos u => digitCodes u
  | Decimal.Neg u => 45 :: digitCodes u
  end.

(** [const algebra = (r,c)=> String.fromCharCode(97 + c) + (8 - r)] *)
Definition algebra (r c : Z) : list Z :=
  fromCharCode (97 + c) ++ numberToString (8 - r).

Lemma algebra_inBounds r c :
  inBounds r c = true -> algebra r c = [97 + c; 56 - r].
Proof.
  intros Hb. apply inBounds_iff in Hb as [Hr Hc].
  unfold algebra, fromCharCode. rewrite Z.mod_small by lia.
  assert (E : r = 0 \/ r = 1 \/ r = 2 \/ r = 3 \/ r = 4 \/ r = 5 \/ r = 6 \/ r = 7) by lia.
  destruct E as [->|[->|[->|[->|[->|[->|[->| ->]]]]]]]; reflexivity.
Qed.

(** X27.  [algebra] names a square of the board by two characters, the
    letter of its file, [a] (code 97) to [h] from the left, and the digit of
    its rank, [8] (code 56) down to [1] from the top row; two squares of the
    board have different names. *)
Theorem algebra_names_the_squares r c r' c' :
  inBounds r c = true -> inBounds r' c' = true ->
  algebra r c = [97 + c; 56 - r] /\
  (algebra r c = algebra r' c' -> (r, c) = (r', c')).
Proof.
  intros Hb Hb'. split; [apply algebra_inBounds, Hb|].
  rewrite (algebra_inBounds _ _ Hb), (algebra_inBounds _ _ Hb').
  intros E. injection E as E1 E2. f_equal; lia.
Qed.

Lemma algebra_names_the_squares_witness :
  algebra 4 4 = [101; 52] /\ (algebra 4 4 = algebra 6 4 -> (4, 4) = (6, 4)).
Proof.
  apply (algebra_names_the_squares 4 4 6 4); reflexivity.
Defined.
